(* ===== verification/_CoqProject ===== *)
-Q . S2P
Prelude.v
GoStd.v
Sha256.v
Model.v
Classify.v
EngineState.v
Engine.v
EngineLemmas.v
EngineWf.v
EngineSpec.v
EngineRebuild.v
EngineLife.v
EngineJobs.v
EngineSafety.v
Scenarios.v
EngineTimers.v
EngineReplay.v
EngineProps.v
EngineClaims.v
EngineEscalation.v
EngineEvidence.v
GoLib.v
GoStrings.v
GoTime.v
GoInstances.v
Storage.v
StorageLemmas.v
StorageMerge.v
StorageQuery.v
StorageHistory.v
StorageProps.v
StorageBlocked.v
StorageOverlap.v
StorageGrowth.v
StorageNames.v
Reader.v
ReaderProps.v
Notify.v
NotifyProps.v
Discord.v
DiscordProps.v
Worker.v
WorkerLemmas.v
WorkerScenarios.v
WorkerProps.v
WorkerStart.v
EngineCurrent.v
StateFile.v
StateFileProps.v
Hub.v
HubProps.v
Syslog.v
SyslogProps.v
Listening.v
Api.v
Import.v
Router.v
Configuration.v
ConfigurationProps.v
Programs.v
ProgramsProps.v
ApiProps.v
JsStd.v
ApiClient.v
View.v
AppState.v
App.v
Screen.v
AppSteps.v
AppLemmas.v
Browser.v
AppProps.v
ViewProps.v
EndToEnd.v
Paging.v
IncidentsPage.v
AppHosts.v
AppRaces.v
ScreenProps.v
AppCalls.v
