(* ===== verification/Prelude.v ===== *)
(** * Verification of logthing

    logthing receives syslog messages, keeps them in files, shows them in a
    browser and derives connectivity incidents of routers from them.  This
    library models the parts that decide something and proves that they do it
    correctly.  The program has a Go service ([src/internal], [src/cmd]) and a
    React client ([src/frontend/src]); the models follow the code function by
    function, and every definition that stands for code carries the name the
    code uses where Rocq allows it.

    ** The service

    - [Model], [Classify]: a stored message ([internal/model/message.go]) and
      the classifier that decides which messages are evidence about a monitored
      interface ([classify], [validRepeaterPrefix] of
      [internal/incidents/engine.go]), on byte strings.
    - [EngineState], [Engine]: the incident engine ([Service] of [engine.go]).
      A [Snapshot] holds the trackers (a state machine per router and
      interface), the incidents and the outbox of notification jobs; every
      method is a function from snapshot to snapshot ([Observe], [Apply],
      [Tick], [Rebuild], [Load], [MarkNotificationSent], ...), composed as in
      the code: [observeLocked] first advances the timers, then moves the state
      machine; [advanceLocked] takes the timers that have run out one by one.
    - [EngineLemmas], [EngineWf], [EngineRebuild], [EngineJobs], [EngineSafety],
      [EngineLife], [EngineTimers], [EngineReplay]: the engine's lemmas.
      [EngineWf] has the coherence invariant [wf] and that every step keeps it;
      [EngineSpec] the abstract specification, one debounced link per interface
      ([link]: up, confirming, down, recovering), with the simulation lemmas;
      [EngineSafety] the step relations [step] and [rebuild_step].
    - [EngineProps], [EngineClaims], [EngineEscalation], [EngineEvidence]: the
      theorems.  Reachable states are coherent and their outbox complete and
      sound; the engine refines the links; the timer loop terminates, fires on
      time and in order and changes nothing else; without a rebuild an incident
      that was confirmed is never lost; flaps
      leave nothing; replays are harmless; a reachability outage outlives
      interface-only recoveries; primary and fallback both down escalate, as
      far as the outage of the one is known when the other is confirmed, and
      after a rebuild; failed checkpoints roll
      delivery results back; the queries list what they should; netifd messages
      are read in one way only.
    - [EngineCurrent]: reachable states need no upgrade when they are loaded.
    - [Storage]: the message store ([internal/storage/store.go],
      [file_store.go], [query_index.go], [text_filter.go]): [Append] into files
      named by day and source, the index of each file and its extension when the
      file grows ([queryIndexes], [scanIndex]), and [query_during], which merges
      the indexes on a heap while others append; [Query] is the one nothing
      overlaps.  [StorageLemmas], [StorageMerge], [StorageQuery] and
      [StorageHistory] (what can happen to a store, with queries that overlap
      appends, but no write cut short and no line longer than the scanner takes)
      lead to [StorageProps] (every query answers a page of one fixed order of
      the accepted messages), [StorageOverlap] (what a query answers that overlaps appends),
      [StorageGrowth] (the order is kept as the archive grows), [StorageBlocked]
      (a record too long for the scanner, or glued to half of another, ends all
      querying) and [StorageNames] (file names are safe).
    - [Reader] ([append_reader.go]): [VisitAfter] with its cursors and
      fingerprints, over files that may grow while it reads ([visit_during]);
      [ReaderProps]: every accepted message is given once, under the same
      conditions.
    - [Notify] ([notification.go]; [notificationFor], [retryDelay] of
      [worker.go]); [NotifyProps]: the bounds of the retry delay.
    - [Discord] ([notification/discord.go]): the payload, the classified answer
      and the redacted cause of a failure; [DiscordProps]: the webhook's secrets
      stay out of it and the content fits.
    - [Worker] ([internal/incidents/worker.go]): [reconcile] (read, classify,
      [Apply] or [Rebuild], advance, deliver), [tick], [dispatch] and [Run] as
      one step per event.  [WorkerLemmas] has the invariant of the outbox under
      delivery; [WorkerProps] and [WorkerStart] that deliveries are recorded in
      order, jobs delivered at most once per acceptance and, once the notifier
      answers and nothing is rebuilt, within a bounded time, and that the first
      start is silent;
      [WorkerScenarios] has concrete runs.
    - [StateFile] ([file_persistence.go]): [Save] and [Load] over a disk, with
      every content the disk has on the way; [StateFileProps]: saving is atomic
      and a restart resumes.
    - [Hub] ([internal/realtime/hub.go], [multiPublisher] of
      [cmd/server/main.go], the loop of [handleMessageStream]): channels in a
      heap, and [PublishingStore.Append], whose three parts (the append, the
      publication to the hub, the wake of the worker) run under no common lock:
      what others do between them is an argument ([gap]).  [HubProps]: a live
      subscription gets what is published in the order it is published, which is
      for each caller the order in which its messages were accepted.
    - [Syslog] ([internal/syslog]): what a parsed packet becomes
      ([messageFromParts]) and that it is stored and published, the packets of
      test events ([FormatRFC5424]) and their destination; [SyslogProps]: the
      packet of an event a packet can carry is read back by a strict reader of
      RFC 5424's header ([read_packet]) as the event.
      [Listening]: [Start], [consume] and [Shutdown] over the
      channel between the server and the store; packets are taken in order.
    - [Api], [Import], [Router] ([internal/api]): credentials, query values, the
      NDJSON import, every handler and the routes; [serve] threads the store,
      the hub and the worker through.  [ApiProps]: who is not authenticated
      learns nothing, whichever other user name or password is presented;
      imported messages are well formed; an import stores a prefix of its lines.
    - [Configuration] ([internal/config], [run] of [cmd/server/main.go]):
      [FromEnv] and the wiring of everything above until the program serves;
      [ConfigurationProps]: an accepted environment starts a ready system, or
      what fails is named.
    - [Programs] ([run] of [cmd/server/main.go] once it serves,
      [cmd/syslogsend/main.go]): the [select], the shutdown and the ways the
      server returns as a step relation with a clock, in which time passes only
      while nothing can be done or a packet is stored, with the deferred
      [listener.Shutdown()] that waits for the consumer; the command line of the
      sender, read as package flag does.  [ProgramsProps]: after the signal the
      server returns within ten seconds and the time the store takes for the 1025
      packets the listener may have in hand (its channel holds 1024), with success
      only if every request was answered; the sender sends what its flags say.
    - [EndToEnd]: the request the client builds goes through the API to the
      store; turning the pages shows every matching message exactly once.
      [Paging]: what it shows when messages come in between two pages.
      [IncidentsPage]: the client's three requests divide the incidents between
      them and show the first hundred of each list, with their deliveries.
    - [Scenarios]: concrete inputs, and cases of the Go tests replayed.

    ** The client

    - [ApiClient] ([api.ts], [types.ts]): each call split at its [fetch] into
      the request it builds and what it makes of the answer.
    - [View]: the pure functions of [App.tsx] (labels, sorting, headers,
      export, the merge of live messages).
    - [AppState], [App]: the component.  Its hook values are an [AppState]; the
      [World] adds what lives outside it: pending calls, timers, the event
      stream, aborted controllers, the storage and what each effect last ran
      for.  [handle] is one event handler or promise continuation, with no test
      but those in the code, and [run_effect] one effect with its cleanup.
    - [Screen]: what [App] returns, element by element with its attributes and
      handlers, as a tree; [controls] are its elements a user can act on and
      [raises] what acting on one does.  [AppSteps] says what a state permits the
      user ([may]), that the controls of its screen offer that, and has the steps
      of the client: in [app_step] the user raises an event only with a control
      of the screen that is not disabled, and it is open in which order pending
      effects, answers, timeouts and clicks come.  [ScreenProps]: the controls
      offer exactly what the state permits, and under each header of the tables
      is the field it names;
      [AppCalls]: which calls are on their way, and that a button is back when
      its call is answered.
    - [AppLemmas] has the invariant of the reachable worlds; [AppProps],
      [AppHosts], [ViewProps] the theorems (live updates show what a query
      would answer, in the order of the times of reception that the service goes
      by; the stream matches the view; answers that can still arrive
      are for the current view; effects settle; pages, hosts, page size, export
      and labels); [AppRaces] concrete schedules the invariant does not
      exclude; [Browser] the concrete browser the witnesses run in.

    ** Libraries

    - [Prelude]: what every file loads, and Go's unspecified map order.
    - [GoStd], [GoLib], [GoStrings], [GoTime], [Sha256], [JsStd]: the parts of the two
      languages and their standard libraries the code computes with, executable.
      [GoTime] also has that a time, written to the second, is read back.
      What cannot be written out is a class with its documented laws:
      [container/heap] ([GoHeap]), [encoding/json] ([GoJson], [GoJsonLaws],
      [GoJsonObject], [StateJson]), [regexp] and Unicode case ([GoText],
      [GoTextLaws]), [net/url] ([GoWeb]), [path/filepath] ([GoPath]); [GoInstances] has an instance of each, a heap, a codec and
      a literal matcher, so that the witnesses run.

    ** Conventions

    A Go [string] is its bytes; a [time.Time] is the nanoseconds since Go's zero
    instant, without its location; counters that cannot overflow are integers,
    and where a sum can leave the [int] range ([List]) it wraps.  The order in
    which a [range] loop visits a map is the class [GoRange], different at every
    execution; [sort.Slice], not stable, is the class [GoSort].  Incident ids
    are computed with SHA-256 as in the code; where a theorem needs that a new
    id is not already taken by another incident it says so ([id_fresh]).  The
    persistence, [fetch], the locale and [JSON.stringify] are arguments.
    Failing system calls, cancelled contexts and refused deliveries are answered
    by functions of the point of the run at which they are asked ([Env],
    [Outside], [Surroundings], [Faults]).

    Fuel: the timer loop gets one round more than there are pending trackers,
    and [EngineProps.advance_settles] proves it enough; the loop of [Query] gets
    one round per index entry and one more ([query_fuel]), enough by
    [StorageProps.query_answers_page], which says that every query is answered;
    the client of [EndToEnd] gets one page more than there are messages.

    Each [Append] of the store and each operation of the hub and of the engine is
    one step, as the locks of the code make them; how they interleave is the
    order of the steps.  [PublishingStore.Append] is not one: it takes what others
    do to the stores between its parts as an argument.  A
    query and a read of the incremental reader take no lock for the whole of
    their way: they are given a [View], the files as they are at each of their
    points, and the theorems about them let any messages be appended from one
    point to the next ([indexing], [reading], [reading_between]).  The handlers
    of [Router] run a query as one step; between the pages of [Paging], and
    between the lines of an import ([im_others]) and inside each of its appends
    ([im_meanwhile]), messages come in.

    The server's shutdown ([Programs]) takes net/http as it is documented:
    [Shutdown] closes the listeners, looks again and again whether the
    connections are idle, and gives up when its context is done; and the syslog
    server's [Kill] as ending what fills the channel.

    ** Not modelled

    The sockets and the syslog parsers; of the HTTP service what [net/http] does
    (path cleaning, conditional requests, reading headers) and the logs; of the
    client the style sheets, what React and the browser make of the elements
    [Screen] gives, and the measuring of the window; [main.tsx], which mounts the
    component, the build's configuration and the embedded assets, which decide
    nothing. *)
From stdpp Require Export sorting.
From stdpp Require Export base numbers strings gmap fin_maps list.
#[export] Set Default Goal Selector "!".

(** * Go's unspecified choices *)

(** A [for range] loop over a Go map visits the entries in an order the
    language leaves unspecified and that may differ at every execution of the
    loop.  [range p m] is the order the execution named by the path [p]
    (a position in the dynamic call tree) uses for the map [m]; the only thing
    known about it is that every entry is visited exactly once. *)
Class GoRange := {
  range : forall {V : Type}, list nat -> gmap string V -> list (string * V);
  range_perm : forall {V : Type} (p : list nat) (m : gmap string V),
    range p m ≡ₚ map_to_list m
}.

(** * Lists *)

Lemma filter_all {A : Type} (f : A -> bool) (l : list A) :
  (forall x, x ∈ l -> f x = true) -> List.filter f l = l.
Proof.
  induction l as [|x l IH]; intros H; simpl; [done|].
  rewrite (H x) by left. f_equal. apply IH. intros y Hy. apply H. by right.
Qed.

Lemma filter_none {A : Type} (f : A -> bool) (l : list A) :
  (forall x, x ∈ l -> f x = false) -> List.filter f l = [].
Proof.
  induction l as [|x l IH]; intros H; simpl; [done|].
  rewrite (H x) by left. apply IH. intros y Hy. apply H. by right.
Qed.

Lemma filter_perm {A : Type} (f : A -> bool) (l l' : list A) :
  l ≡ₚ l' -> List.filter f l ≡ₚ List.filter f l'.
Proof.
  induction 1 as [|x l l' _ IH|x y l|l1 l2 l3 _ IH1 _ IH2]; simpl; [done| | |by etrans].
  - case_match; [by constructor|done].
  - repeat case_match; try done. by constructor.
Qed.
