(* ===== verification/GoStd.v ===== *)
(** The parts of Go's standard library the program computes with, written out
    on byte strings (a Go [string] is a [String.string], one [ascii] per byte)
    and on instants (a [time.Time] is the number of nanoseconds since Go's zero
    instant, 0001-01-01T00:00:00Z, so [IsZero] is a comparison with [0]; the
    location a [time.Time] carries is dropped, [UTC] is the identity).
    Also the sort package's contract: [sort.Slice] is any sorted permutation. *)
From Stdlib Require Import Ascii ZArith Lia.
From Stdlib Require Import DecimalString DecimalZ.
From S2P Require Import Prelude.
Local Open Scope string_scope.

(** * Package strings *)

(** [s[n:]] for an index inside the string. *)
Fixpoint sdrop (n : nat) (s : string) : string :=
  match n, s with
  | S n', String _ s' => sdrop n' s'
  | _, _ => s
  end.

(** [s[:n]] for an index inside the string. *)
Fixpoint stake (n : nat) (s : string) : string :=
  match n, s with
  | S n', String c s' => String c (stake n' s')
  | _, _ => EmptyString
  end.

Definition HasPrefix (s pre : string) : bool := String.prefix pre s.

Definition HasSuffix (s suf : string) : bool :=
  (String.length suf <=? String.length s)%nat
    && String.eqb (sdrop (String.length s - String.length suf) s) suf.

Definition TrimPrefix (s pre : string) : string :=
  if HasPrefix s pre then sdrop (String.length pre) s else s.

Definition TrimSuffix (s suf : string) : string :=
  if HasSuffix s suf then stake (String.length s - String.length suf) s else s.

(** [strings.Index]; [None] is Go's [-1]. *)
Fixpoint Index (s sub : string) : option nat :=
  if String.prefix sub s then Some O
  else match s with
       | EmptyString => None
       | String _ s' => S <$> Index s' sub
       end.

Definition Contains (s sub : string) : bool := bool_decide (is_Some (Index s sub)).

Fixpoint srev_app (s acc : string) : string :=
  match s with
  | EmptyString => acc
  | String c s' => srev_app s' (String c acc)
  end.

Definition srev (s : string) : string := srev_app s EmptyString.

Definition byte_of (c : ascii) : Z := Z.of_N (N_of_ascii c).

Definition newline : string := String (ascii_of_nat 10) EmptyString.

(** [bufio.ScanLines]: the lines of a text, without the newline that ends each
    and without one carriage return before it; a last line without newline
    counts if it is not empty. *)
Definition drop_cr (s : string) : string := TrimSuffix s (String (ascii_of_nat 13) EmptyString).

Fixpoint split_lines (s : string) : list string * string :=
  match s with
  | EmptyString => ([], EmptyString)
  | String c s' =>
    let '(lines, rest) := split_lines s' in
    if Ascii.eqb c (ascii_of_nat 10) then (EmptyString :: lines, rest)
    else match lines with
         | [] => ([], String c rest)
         | l :: ls => (String c l :: ls, rest)
         end
  end.

Definition ScanLines (s : string) : list string :=
  let '(lines, rest) := split_lines s in
  map drop_cr (lines ++ if String.eqb rest "" then [] else [rest])%list.

(** The UTF-8 encodings of the runes [unicode.IsSpace] accepts: one byte
    (tab to carriage return, space), two bytes (U+0085, U+00A0), three bytes
    (U+1680, U+2000-200A, U+2028, U+2029, U+202F, U+205F, U+3000). *)
Definition space1 (a : ascii) : bool :=
  let a := byte_of a in ((9 <=? a) && (a <=? 13) || (a =? 32))%Z.

Definition space2 (a b : ascii) : bool :=
  let a := byte_of a in let b := byte_of b in
  ((a =? 0xC2) && ((b =? 0x85) || (b =? 0xA0)))%Z.

Definition space3 (a b c : ascii) : bool :=
  let a := byte_of a in let b := byte_of b in let c := byte_of c in
  (((a =? 0xE1) && (b =? 0x9A) && (c =? 0x80))
   || ((a =? 0xE2) && (b =? 0x80)
       && (((0x80 <=? c) && (c <=? 0x8A)) || (c =? 0xA8) || (c =? 0xA9) || (c =? 0xAF)))
   || ((a =? 0xE2) && (b =? 0x81) && (c =? 0x9F))
   || ((a =? 0xE3) && (b =? 0x80) && (c =? 0x80)))%Z.

(** Strip leading white space from [s]; [s2] and [s3] recognise the multi-byte
    encodings in the order the bytes come. *)
Fixpoint trim_front (s2 : ascii -> ascii -> bool) (s3 : ascii -> ascii -> ascii -> bool)
    (s : string) : string :=
  match s with
  | EmptyString => EmptyString
  | String a ra =>
    if space1 a then trim_front s2 s3 ra
    else match ra with
         | EmptyString => s
         | String b rb =>
           if s2 a b then trim_front s2 s3 rb
           else match rb with
                | EmptyString => s
                | String c rc => if s3 a b c then trim_front s2 s3 rc else s
                end
         end
  end.

Definition TrimLeftSpace (s : string) : string := trim_front space2 space3 s.

Definition TrimRightSpace (s : string) : string :=
  srev (trim_front (fun b a => space2 a b) (fun c b a => space3 a b c) (srev s)).

Definition TrimSpace (s : string) : string := TrimRightSpace (TrimLeftSpace s).

(** * Package strconv *)

Definition Itoa (z : Z) : string := NilZero.string_of_int (Z.to_int z).

Definition digit_value (c : ascii) : option Z :=
  let d := (byte_of c - 48)%Z in
  if ((0 <=? d) && (d <=? 9))%Z then Some d else None.

Fixpoint decimal (acc : Z) (s : string) : option Z :=
  match s with
  | EmptyString => Some acc
  | String c s' =>
    match digit_value c with
    | Some d => decimal (acc * 10 + d)%Z s'
    | None => None
    end
  end.

Definition unsigned (s : string) : option Z :=
  match s with EmptyString => None | _ => decimal 0 s end.

Definition max_int : Z := (2 ^ 63 - 1)%Z.

(** Arithmetic on [int], 64 bits wide, wraps around. *)
Definition int_wrap (z : Z) : Z := ((z + 2 ^ 63) mod 2 ^ 64 - 2 ^ 63)%Z.

Lemma int_wrap_small (z : Z) : (- max_int - 1 <= z <= max_int)%Z -> int_wrap z = z.
Proof. unfold int_wrap, max_int. intros H. rewrite Z.mod_small; lia. Qed.

(** [items[lo:hi]]; [None] is the panic of bounds out of range. *)
Definition slice {A : Type} (lo hi : Z) (items : list A) : option (list A) :=
  if ((0 <=? lo) && (lo <=? hi) && (hi <=? Z.of_nat (List.length items)))%Z
  then Some (take (Z.to_nat (hi - lo)) (drop (Z.to_nat lo) items))
  else None.

(** [strconv.Atoi]: a sign and digits, within the range of a 64-bit [int];
    [None] is the error. *)
Definition Atoi (s : string) : option Z :=
  let v := match s with
           | String "-" s' => Z.opp <$> unsigned s'
           | String "+" s' => unsigned s'
           | _ => unsigned s
           end in
  match v with
  | Some z => if ((- max_int - 1 <=? z) && (z <=? max_int))%Z then Some z else None
  | None => None
  end.

(** [%0wd] of a non-negative number. *)
Fixpoint zeros (n : nat) : string :=
  match n with O => EmptyString | S n' => String "0" (zeros n') end.

Definition pad (w : nat) (z : Z) : string :=
  let s := Itoa z in zeros (w - String.length s) +:+ s.

(** * Package time *)

Abbreviation Time := Z (only parsing).
Abbreviation Duration := Z (only parsing).

Definition IsZero (t : Time) : bool := (t =? 0)%Z.
Definition Before (t u : Time) : bool := (t <? u)%Z.
Definition After (t u : Time) : bool := (u <? t)%Z.

Definition Second : Duration := 1000000000%Z.
Definition Minute : Duration := (60 * Second)%Z.

(** Year, month and day of a day number counted from 0001-01-01, in the
    proleptic Gregorian calendar; 146097 days make 400 years. *)
Definition civil (day : Z) : Z * Z * Z :=
  (let z := day + 306 in
   let era := z / 146097 in
   let doe := z mod 146097 in
   let yoe := (doe - doe / 1460 + doe / 36524 - doe / 146096) / 365 in
   let doy := doe - (365 * yoe + yoe / 4 - yoe / 100) in
   let mp := (5 * doy + 2) / 153 in
   let d := doy - (153 * mp + 2) / 5 + 1 in
   let m := if mp <? 10 then mp + 3 else mp - 9 in
   (yoe + era * 400 + (if m <=? 2 then 1 else 0), m, d))%Z.

(** The day number of a civil date, the other direction of [civil]. *)
Definition day_number (y m d : Z) : Z :=
  (let y' := if m <=? 2 then y - 1 else y in
   let era := y' / 400 in
   let yoe := y' mod 400 in
   let mp := if m <=? 2 then m + 9 else m - 3 in
   era * 146097 + (yoe * 365 + yoe / 4 - yoe / 100 + ((153 * mp + 2) / 5 + d - 1)) - 306)%Z.

Definition day_of (t : Time) : Z := (t / (86400 * Second))%Z.
Definition nanos_of_day (t : Time) : Z := (t mod (86400 * Second))%Z.

(** [time.Date(y, m, d, h, mi, s, 0, time.UTC)] for fields in range. *)
Definition Date (y m d h mi s : Z) : Time :=
  ((day_number y m d * 86400 + h * 3600 + mi * 60 + s) * Second)%Z.

(** Drop the trailing zeros of a fraction; an empty fraction loses its dot. *)
Fixpoint drop_zeros (s : string) : string :=
  match s with
  | String "0" s' => drop_zeros s'
  | _ => s
  end.

Definition fraction (ns : Z) : string :=
  match drop_zeros (srev (pad 9 ns)) with
  | EmptyString => EmptyString
  | s => "." +:+ srev s
  end.

(** [t.UTC().Format("2006-01-02")] and the clock time to the second. *)
Definition date_text (t : Time) : string :=
  let '(y, m, d) := civil (day_of t) in pad 4 y +:+ "-" +:+ pad 2 m +:+ "-" +:+ pad 2 d.

Definition clock_text (t : Time) : string :=
  let s := (nanos_of_day t / Second)%Z in
  pad 2 (s / 3600) +:+ ":" +:+ pad 2 ((s / 60) mod 60) +:+ ":" +:+ pad 2 (s mod 60).

(** [t.UTC().Format(time.RFC3339Nano)]. *)
Definition FormatRFC3339Nano (t : Time) : string :=
  date_text t +:+ "T" +:+ clock_text t +:+ fraction (nanos_of_day t mod Second) +:+ "Z".

(** [t.UTC().Format(time.RFC3339)]. *)
Definition FormatRFC3339 (t : Time) : string := date_text t +:+ "T" +:+ clock_text t +:+ "Z".

(** [t.UTC().String()]. *)
Definition Time_String (t : Time) : string :=
  date_text t +:+ " " +:+ clock_text t +:+ fraction (nanos_of_day t mod Second) +:+ " +0000 UTC".

(** * Package sort *)

(** [sort.Slice] with a less function that is a strict weak order returns some
    permutation in which no element is less than one before it; the sort is not
    stable, so which permutation is left open. *)
Class GoSort := {
  sort_slice : forall {A : Type}, (A -> A -> bool) -> list A -> list A;
  sort_slice_perm : forall {A : Type} (less : A -> A -> bool) (l : list A),
    sort_slice less l ≡ₚ l;
  sort_slice_sorted : forall {A : Type} (less : A -> A -> bool) (l : list A),
    (forall x y, less x y = true -> less y x = false) ->
    (forall x y z, less y x = false -> less z y = false -> less z x = false) ->
    StronglySorted (fun x y => less y x = false) (sort_slice less l)
}.

(** * Instances: the identity order of a map, merge sort for [sort.Slice] *)

Lemma map_to_list_range {V : Type} (p : list nat) (m : gmap string V) :
  map_to_list m ≡ₚ map_to_list m.
Proof. done. Qed.

Definition listed_range : GoRange :=
  {| range := fun V _ m => map_to_list m; range_perm := @map_to_list_range |}.

(** The loops run backwards: another order a Go program may see. *)
Lemma reversed_range_perm {V : Type} (p : list nat) (m : gmap string V) :
  reverse (map_to_list m) ≡ₚ map_to_list m.
Proof. apply reverse_Permutation. Qed.

Definition reversed_range : GoRange :=
  {| range := fun V _ m => reverse (map_to_list m);
     range_perm := @reversed_range_perm |}.

Definition merge_slice {A : Type} (less : A -> A -> bool) (l : list A) : list A :=
  merge_sort (fun x y => less y x = false) (H := fun x y => decide (less y x = false)) l.

Lemma merge_slice_perm {A : Type} (less : A -> A -> bool) (l : list A) :
  merge_slice less l ≡ₚ l.
Proof. apply merge_sort_Permutation. Qed.

Lemma merge_slice_sorted {A : Type} (less : A -> A -> bool) (l : list A) :
  (forall x y, less x y = true -> less y x = false) ->
  (forall x y z, less y x = false -> less z y = false -> less z x = false) ->
  StronglySorted (fun x y => less y x = false) (merge_slice less l).
Proof.
  intros Hasym Htrans. apply StronglySorted_merge_sort.
  - intros x y z. apply Htrans.
  - intros x y. destruct (less y x) eqn:E; [right; by apply Hasym | by left].
Qed.

Definition merge_sort_slice : GoSort :=
  {| sort_slice := @merge_slice; sort_slice_perm := @merge_slice_perm;
     sort_slice_sorted := @merge_slice_sorted |}.

Lemma StronglySorted_impl {A} (R R' : A -> A -> Prop) (l : list A) :
  (forall x y, R x y -> R' x y) -> StronglySorted R l -> StronglySorted R' l.
Proof.
  intros H. induction 1 as [|x l _ IH Hx]; constructor; [done|].
  eapply Forall_impl; [exact Hx|]. auto.
Qed.

(** * Trimming *)

Lemma scons_app (c : ascii) (s t : string) : String c s +:+ t = String c (s +:+ t).
Proof. done. Qed.

Lemma snil_app (t : string) : "" +:+ t = t.
Proof. done. Qed.

Lemma sapp_nil_r (s : string) : s +:+ "" = s.
Proof. induction s as [|c s IH]; [done|]. by rewrite scons_app, IH. Qed.

Lemma sapp_assoc (a b c : string) : (a +:+ b) +:+ c = a +:+ (b +:+ c).
Proof. induction a as [|x a IH]; [done|]. by rewrite !scons_app, IH. Qed.

Lemma sdrop_app (a b : string) : sdrop (String.length a) (a +:+ b) = b.
Proof. induction a as [|c a IH]; [done|]. rewrite scons_app. exact IH. Qed.

Lemma slength_app (a b : string) : String.length (a +:+ b) = (String.length a + String.length b)%nat.
Proof. induction a as [|c a IH]; [done|]. rewrite scons_app. cbn. by rewrite IH. Qed.

Lemma stake_app (a b : string) : stake (String.length a) (a +:+ b) = a.
Proof. induction a as [|c a IH]; [by destruct b|]. rewrite scons_app. cbn. by rewrite IH. Qed.

Lemma srev_app_spec (s acc : string) : srev_app s acc = srev s +:+ acc.
Proof.
  unfold srev. revert acc. induction s as [|c s IH]; intros acc; simpl; [done|].
  by rewrite IH, (IH (String c "")), sapp_assoc.
Qed.

Lemma srev_append (a b : string) : srev (a +:+ b) = srev b +:+ srev a.
Proof.
  induction a as [|c a IH]; [exact (eq_sym (sapp_nil_r (srev b)))|].
  rewrite scons_app. unfold srev. simpl. by rewrite !srev_app_spec, IH, sapp_nil_r, !sapp_assoc.
Qed.

Lemma srev_involutive (s : string) : srev (srev s) = s.
Proof.
  induction s as [|c s IH]; [done|]. change (String c s) with (String c "" +:+ s) at 1.
  by rewrite !srev_append, IH.
Qed.

(** A condition on every byte. *)
Fixpoint all_bytes (P : ascii -> bool) (s : string) : bool :=
  match s with EmptyString => true | String c s' => P c && all_bytes P s' end.

Lemma all_bytes_app P a b : all_bytes P (a +:+ b) = all_bytes P a && all_bytes P b.
Proof. induction a as [|c a IH]; [done|]. rewrite scons_app. cbn. by rewrite IH, andb_assoc. Qed.

Lemma all_bytes_srev P s : all_bytes P (srev s) = all_bytes P s.
Proof.
  induction s as [|c s IH]; [done|]. change (String c s) with (String c "" +:+ s).
  rewrite srev_append, all_bytes_app, all_bytes_app, IH. apply andb_comm.
Qed.

Section Trim.
Context (s2 : ascii -> ascii -> bool) (s3 : ascii -> ascii -> ascii -> bool).

(** The string begins with a white space character. *)
Definition starts_space (s : string) : bool :=
  match s with
  | EmptyString => false
  | String a ra =>
    space1 a || match ra with
                | EmptyString => false
                | String b rb => s2 a b || match rb with
                                           | EmptyString => false
                                           | String c _ => s3 a b c
                                           end
                end
  end.

Lemma trim_front_stays (s : string) : starts_space s = false -> trim_front s2 s3 s = s.
Proof.
  destruct s as [|a [|b [|c s]]]; simpl; [done|..]; intros H; repeat (apply orb_false_iff in H as [? H]);
    repeat case_match; congruence.
Qed.

Lemma trim_front_spec (s : string) :
  starts_space (trim_front s2 s3 s) = false /\ exists pre, s = pre +:+ trim_front s2 s3 s.
Proof.
  assert (Hstop : forall t, starts_space t = false ->
    starts_space t = false /\ exists pre, t = pre +:+ t) by (intros t Ht; split; [done|by exists ""]).
  assert (Hstep : forall p t u, (starts_space t = false /\ exists pre, u = pre +:+ t) ->
    starts_space t = false /\ exists pre, p +:+ u = pre +:+ t).
  { intros p t u [? [pre ->]]. split; [done|]. exists (p +:+ pre). by rewrite sapp_assoc. }
  revert s. fix IH 1. intros [|a ra]; [by apply Hstop|]. simpl.
  destruct (space1 a) eqn:E1; [exact (Hstep (String a "") _ _ (IH ra))|].
  destruct ra as [|b rb]; [apply Hstop; simpl; by rewrite E1|].
  destruct (s2 a b) eqn:E2; [exact (Hstep (String a (String b "")) _ _ (IH rb))|].
  destruct rb as [|c rc]; [apply Hstop; simpl; by rewrite E1, E2|].
  destruct (s3 a b c) eqn:E3; [exact (Hstep (String a (String b (String c ""))) _ _ (IH rc))|].
  apply Hstop. simpl. by rewrite E1, E2, E3.
Qed.

Lemma starts_space_prefix (a b : string) : starts_space (a +:+ b) = false -> starts_space a = false.
Proof.
  destruct a as [|x [|y [|z a]]]; rewrite ?scons_app, ?snil_app; simpl; [done|..]; intros H;
    repeat (apply orb_false_iff in H as [? H]); rewrite ?orb_false_iff; auto.
Qed.
End Trim.

(** Trimming both ends and trimming again changes nothing, whatever counts as
    white space. *)
Lemma trim_twice (s2 : ascii -> ascii -> bool) (s3 : ascii -> ascii -> ascii -> bool)
    (t2 : ascii -> ascii -> bool) (t3 : ascii -> ascii -> ascii -> bool) (s : string) :
  let tr s := srev (trim_front t2 t3 (srev (trim_front s2 s3 s))) in
  tr (tr s) = tr s.
Proof.
  simpl. destruct (trim_front_spec s2 s3 s) as [Hu _].
  set (u := trim_front s2 s3 s) in *.
  destruct (trim_front_spec t2 t3 (srev u)) as [Hv [pre Hpre]].
  set (v := trim_front t2 t3 (srev u)) in *.
  assert (Eu : u = srev v +:+ srev pre) by (by rewrite <- srev_append, <- Hpre, srev_involutive).
  rewrite (trim_front_stays s2 s3 (srev v)), srev_involutive; [by rewrite trim_front_stays|].
  eapply starts_space_prefix. by rewrite <- Eu.
Qed.

Lemma TrimSpace_idem (s : string) : TrimSpace (TrimSpace s) = TrimSpace s.
Proof. apply trim_twice. Qed.

(** * Numbers *)

Lemma decimal_uint_acc (d : Decimal.uint) (p : positive) :
  decimal (Zpos p) (NilEmpty.string_of_uint d) = Some (Zpos (Pos.of_uint_acc d p)).
Proof.
  revert p. induction d as [|d IH|d IH|d IH|d IH|d IH|d IH|d IH|d IH|d IH|d IH]; intros p;
    [done|..]; cbn [NilEmpty.string_of_uint decimal digit_value];
    cbn -[Z.mul Z.add decimal Pos.mul Pos.add]; rewrite <- IH; f_equal; unfold byte_of; simpl N_of_ascii; lia.
Qed.

Lemma decimal_uint (d : Decimal.uint) :
  decimal 0 (NilEmpty.string_of_uint d) = Some (Z.of_N (Pos.of_uint d)).
Proof.
  induction d as [|d IH|d IH|d IH|d IH|d IH|d IH|d IH|d IH|d IH|d IH]; [done| |..];
    [exact IH|..]; exact (decimal_uint_acc d _).
Qed.

Lemma unsigned_uint (d : Decimal.uint) :
  unsigned (NilZero.string_of_uint d) = Some (Z.of_N (Pos.of_uint d)).
Proof. destruct d; [done|..]; exact (decimal_uint _). Qed.

Lemma NilZero_uint_head (d : Decimal.uint) :
  exists c s, NilZero.string_of_uint d = String c s /\ is_Some (digit_value c).
Proof. destruct d; by eexists _, _. Qed.

Lemma digit_plain (c : ascii) :
  is_Some (digit_value c) ->
  c <> "-"%char /\ c <> "+"%char /\ space1 c = false /\ (48 <= byte_of c <= 57)%Z.
Proof.
  unfold digit_value, space1. intros [d Hd].
  destruct ((0 <=? byte_of c - 48) && (byte_of c - 48 <=? 9))%Z eqn:E; [|done].
  apply andb_true_iff in E as [E1%Z.leb_le E2%Z.leb_le].
  split_and!; try lia; by intros ->.
Qed.

(** The two readings of a printed number. *)
Lemma Itoa_cases (z : Z) :
  (exists d, Itoa z = NilZero.string_of_uint d /\ z = Z.of_N (Pos.of_uint d))
  \/ (exists d, Itoa z = String "-" (NilZero.string_of_uint d) /\ z = (- Z.of_N (Pos.of_uint d))%Z).
Proof.
  unfold Itoa. pose proof (DecimalZ.of_to z) as H. destruct (Z.to_int z) as [d|d]; simpl in *.
  - left. exists d. by rewrite <- H.
  - right. exists d. split; [done|]. by rewrite <- H.
Qed.

Lemma Atoi_Itoa (z : Z) : (- max_int - 1 <= z <= max_int)%Z -> Atoi (Itoa z) = Some z.
Proof.
  intros Hz. unfold Atoi.
  assert (Hr : ((- max_int - 1 <=? z) && (z <=? max_int))%Z = true)
    by (apply andb_true_iff; split; apply Z.leb_le; lia).
  destruct (Itoa_cases z) as [(d & -> & E)|(d & -> & E)].
  - destruct (NilZero_uint_head d) as (c & s & Hs & Hc).
    pose proof (unsigned_uint d) as Hu. rewrite Hs in *.
    destruct (digit_plain c Hc) as (H1 & H2 & _).
    assert (Hm : match String c s with
                 | String "-" s' => Z.opp <$> unsigned s'
                 | String "+" s' => unsigned s'
                 | _ => unsigned (String c s)
                 end = Some z).
    { rewrite E, <- Hu. destruct c as [[] [] [] [] [] [] [] []]; congruence || done. }
    rewrite Hm. by rewrite Hr.
  - rewrite unsigned_uint. simpl. by rewrite <- E, Hr.
Qed.

(** * Lines *)

(** No control character. *)
Fixpoint plain (s : string) : bool :=
  match s with
  | EmptyString => true
  | String c s' => (32 <=? byte_of c)%Z && plain s'
  end.

Lemma plain_not_nl (c : ascii) : (32 <=? byte_of c)%Z = true -> Ascii.eqb c (ascii_of_nat 10) = false.
Proof. intros H. apply Ascii.eqb_neq. by intros ->. Qed.

Lemma split_lines_line (l t : string) :
  plain l = true ->
  split_lines (l +:+ newline +:+ t) = (l :: (split_lines t).1, (split_lines t).2).
Proof.
  intros Hl. induction l as [|c l IH].
  - unfold newline. rewrite !snil_app, scons_app, snil_app. simpl. by destruct (split_lines t).
  - simpl in Hl. apply andb_true_iff in Hl as [Hc Hl]. rewrite scons_app. simpl.
    rewrite (IH Hl). by rewrite (plain_not_nl c Hc).
Qed.

Lemma plain_sdrop (n : nat) (s : string) : plain s = true -> plain (sdrop n s) = true.
Proof.
  revert s. induction n as [|n IH]; intros [|c s]; simpl; try done. intros [_ H]%andb_true_iff. by apply IH.
Qed.

Lemma drop_cr_plain (l : string) : plain l = true -> drop_cr l = l.
Proof.
  intros H. unfold drop_cr, TrimSuffix. destruct (HasSuffix l _) eqn:E; [|done].
  unfold HasSuffix in E. apply andb_true_iff in E as [_ E]. apply String.eqb_eq in E.
  pose proof (plain_sdrop (String.length l - String.length (String (ascii_of_nat 13) "")) l H) as Hp.
  by rewrite E in Hp.
Qed.

Fixpoint unlines (ls : list string) : string :=
  match ls with
  | [] => ""
  | l :: rest => l +:+ newline +:+ unlines rest
  end.

Lemma ScanLines_unlines (ls : list string) :
  Forall (fun l => plain l = true) ls -> ScanLines (unlines ls) = ls.
Proof.
  intros H. unfold ScanLines.
  assert (Hs : split_lines (unlines ls) = (ls, "")).
  { induction H as [|l ls Hl _ IH]; simpl; [done|]. by rewrite split_lines_line, IH. }
  rewrite Hs. simpl. rewrite app_nil_r. induction H as [|l ls Hl _ IH]; simpl; [done|].
  simpl in Hs. rewrite drop_cr_plain by done. f_equal. apply IH.
  rewrite split_lines_line in Hs by done. injection Hs as H1 H2.
  by rewrite (surjective_pairing (split_lines _)), H1, H2.
Qed.
