(* ===== verification/Sha256.v ===== *)
(** SHA-256 ([crypto/sha256.Sum256]) on byte strings, and its hexadecimal
    rendering ([hex.EncodeToString], [%x]).  Words are integers in
    [0, 2^32); every addition is reduced modulo 2^32. *)
From Stdlib Require Import Ascii ZArith Lia.
From S2P Require Import Prelude.
From S2P Require Import GoStd.
Local Open Scope Z_scope.

Definition word (z : Z) : Z := z mod 2 ^ 32.

Definition rotr (x n : Z) : Z :=
  Z.lor (Z.shiftr x n) (word (Z.shiftl x (32 - n))).

(** The constants of the algorithm are the first 32 bits of the fractional parts
    of the square roots of the first eight primes and of the cube roots of the
    first sixty-four; they are computed here from that definition. *)
Definition prime (n : nat) : bool :=
  forallb (fun d => negb (Nat.eqb (n mod d) 0)) (seq 2 (n - 2)).

Definition primes : list Z := map Z.of_nat (List.filter prime (seq 2 310)).

(** The largest [r] below [2 ^ bits] added to [r] with [r * r * r <= z]. *)
Fixpoint cube_root (bits : nat) (r z : Z) : Z :=
  match bits with
  | O => r
  | S n =>
    let c := r + 2 ^ Z.of_nat n in
    cube_root n (if c * c * c <=? z then c else r) z
  end.

Definition round_constants : list Z :=
  Eval vm_compute in map (fun q => word (cube_root 36 0 (q * 2 ^ 96))) primes.

Definition initial_hash : list Z :=
  Eval vm_compute in map (fun q => word (Z.sqrt (q * 2 ^ 64))) (take 8 primes).

(** Big-endian words of four bytes. *)
Fixpoint be_words (bs : list Z) : list Z :=
  match bs with
  | a :: b :: c :: d :: rest => (((a * 256 + b) * 256 + c) * 256 + d) :: be_words rest
  | _ => []
  end.

(** The bytes of a word, most significant first. *)
Definition be_bytes (n : nat) (z : Z) : list Z :=
  map (fun i => (z / 256 ^ (Z.of_nat (n - 1 - i)) mod 256)) (seq 0 n).

Definition pad_message (bs : list Z) : list Z :=
  let len := Z.of_nat (length bs) in
  bs ++ [0x80] ++ replicate (Z.to_nat ((55 - len) mod 64)) 0 ++ be_bytes 8 (len * 8).

(** The message schedule, kept as a window of its last sixteen words. *)
Definition next_word (w : list Z) : Z :=
  let w15 := nth 1 w 0 in
  let w2 := nth 14 w 0 in
  let s0 := Z.lxor (Z.lxor (rotr w15 7) (rotr w15 18)) (Z.shiftr w15 3) in
  let s1 := Z.lxor (Z.lxor (rotr w2 17) (rotr w2 19)) (Z.shiftr w2 10) in
  word (nth 0 w 0 + s0 + nth 9 w 0 + s1).

Definition round (st : list Z) (k w : Z) : list Z :=
  match st with
  | [a; b; c; d; e; f; g; h] =>
    let s1 := Z.lxor (Z.lxor (rotr e 6) (rotr e 11)) (rotr e 25) in
    let ch := Z.lxor (Z.land e f) (Z.land (Z.lxor e 0xffffffff) g) in
    let t1 := word (h + s1 + ch + k + w) in
    let s0 := Z.lxor (Z.lxor (rotr a 2) (rotr a 13)) (rotr a 22) in
    let maj := Z.lxor (Z.lxor (Z.land a b) (Z.land a c)) (Z.land b c) in
    let t2 := word (s0 + maj) in
    [word (t1 + t2); a; b; c; word (d + t1); e; f; g]
  | _ => st
  end.

Fixpoint rounds (ks w st : list Z) : list Z :=
  match ks with
  | [] => st
  | k :: ks' => rounds ks' (tail w ++ [next_word w]) (round st k (hd 0 w))
  end.

Definition compress (h block : list Z) : list Z :=
  zip_with (fun a b => word (a + b)) h (rounds round_constants block h).

Fixpoint blocks (fuel : nat) (h ws : list Z) : list Z :=
  match fuel, ws with
  | S n, _ :: _ => blocks n (compress h (take 16 ws)) (drop 16 ws)
  | _, _ => h
  end.

(** [sha256.Sum256]: the 32 bytes of the digest. *)
Definition Sum256 (bs : list Z) : list Z :=
  let ws := be_words (pad_message bs) in
  (blocks (length ws) initial_hash ws) ≫= be_bytes 4.

Definition hex_digit (d : Z) : ascii :=
  if d <? 10 then ascii_of_N (Z.to_N (48 + d)) else ascii_of_N (Z.to_N (87 + d)).

(** [hex.EncodeToString]. *)
Fixpoint EncodeToString (bs : list Z) : string :=
  match bs with
  | [] => EmptyString
  | b :: bs' => String (hex_digit (b / 16)) (String (hex_digit (b mod 16)) (EncodeToString bs'))
  end.

(** [[]byte(s)]. *)
Definition bytes_of (s : string) : list Z := map byte_of (String.list_ascii_of_string s).

Example sum256_abc :
  EncodeToString (Sum256 (bytes_of "abc"))
  = "ba7816bf8f01cfea414140de5dae2223b00361a396177a9cb410ff61f20015ad"%string.
Proof. vm_compute. reflexivity. Qed.

Example sum256_two_blocks :
  EncodeToString (Sum256 (bytes_of "abcdbcdecdefdefgefghfghighijhijkijkljklmklmnlmnomnopnopq"))
  = "248d6a61d20638b8e5c026930c3e6039a33ce45964ff2167f6ecedd419db06c1"%string.
Proof. vm_compute. reflexivity. Qed.
