(* ===== verification/Model.v ===== *)
(** The data that crosses the components: a received syslog message
    ([internal/model/message.go]), the notification kinds and errors
    ([internal/notification/notification.go]), and a partition cursor
    ([internal/storage/append_reader.go]). *)
From Stdlib Require Import ZArith.
From S2P Require Import Prelude.
From S2P Require Import GoStd.

(** Dynamic values ([any]) as they occur in [StructuredData] and [Raw]: integers
    of any width, a float by its shortest text, a [json.Number] by its text, and
    a value of a type of no other constructor that [encoding/json] can encode by
    what [fmt.Sprint] prints of it. *)
Inductive any : Type :=
| any_nil
| any_string (s : string)
| any_bool (b : bool)
| any_int (z : Z)
| any_float (text : string)
| any_number (text : string)
| any_time (t : Time)
| any_slice (items : list any)
| any_map (fields : list (string * any))
| any_other (text : string).

Record Message : Type := {
  msg_ID : string;
  msg_ReceivedAt : Time;
  msg_Timestamp : option Time;
  msg_Transport : string;
  msg_Source : string;
  msg_Priority : option Z;
  msg_Facility : option Z;
  msg_Severity : option Z;
  msg_Hostname : string;
  msg_AppName : string;
  msg_ProcID : string;
  msg_MsgID : string;
  msg_Tag : string;
  msg_Message : string;
  msg_StructuredData : option (list (string * any));
  msg_Raw : option (list (string * any))
}.

Inductive Kind : Type :=
| KindIncidentOpened
| KindIncidentResolved
| KindFallbackOpened
| KindFallbackResolved
| KindFallbackEscalated
| KindTest.

#[export] Instance Kind_eq_dec : EqDecision Kind.
Proof. solve_decision. Defined.

(** The constant strings the kinds are. *)
Definition Kind_string (k : Kind) : string :=
  match k with
  | KindIncidentOpened => "incident_opened"
  | KindIncidentResolved => "incident_resolved"
  | KindFallbackOpened => "fallback_opened"
  | KindFallbackResolved => "fallback_resolved"
  | KindFallbackEscalated => "fallback_escalated"
  | KindTest => "test"
  end.

#[export] Instance Kind_string_inj : Inj (=) (=) Kind_string.
Proof. intros [] []; done. Qed.

Record Cursor : Type := { cur_Offset : Z; cur_Fingerprint : string }.

Definition zero_Cursor : Cursor := {| cur_Offset := 0; cur_Fingerprint := "" |}.
