(* ===== verification/Classify.v ===== *)
(** The evidence classifier of the incident engine: which syslog messages are
    evidence about a monitored interface, and what they say
    ([classify] and [validRepeaterPrefix] of [internal/incidents/engine.go]). *)
From Stdlib Require Import Ascii ZArith.
From S2P Require Import Prelude.
From S2P Require Import GoStd.
From S2P Require Import Model.
Local Open Scope string_scope.

Record evidence : Type := {
  ev_hostname : string;
  ev_iface : string;
  ev_online : bool;
  ev_at : Time;
  ev_messageID : string;
  ev_sourceRef : string;
  ev_reachability : bool;
  ev_observeOnly : bool
}.

Definition is_digit (c : ascii) : bool :=
  ((48 <=? byte_of c) && (byte_of c <=? 57))%Z.

(** Every rune of [s] is a decimal digit; a byte of a multi-byte rune is at
    least 0x80, so reading bytes decides the same. *)
Fixpoint all_digits (s : string) : bool :=
  match s with
  | EmptyString => true
  | String c s' => is_digit c && all_digits s'
  end.

Definition repeater_prefix : string := "(repeater.lua:".

Definition validRepeaterPrefix (value : string) : bool :=
  if negb (HasPrefix value repeater_prefix) || negb (HasSuffix value ") ") then false
  else
    let line := TrimSuffix (TrimPrefix value repeater_prefix) ") " in
    negb (String.eqb line "") && all_digits line.

Definition netifd_down (iface candidate status : string) : bool :=
  String.eqb status ("Interface '" +:+ candidate +:+ "' is now down")
  || (String.eqb candidate iface
      && String.eqb status ("Interface '" +:+ candidate +:+ "' has lost the connection")).

Definition netifd_up (candidate status : string) : bool :=
  String.eqb status ("Interface '" +:+ candidate +:+ "' is now up").

(** The loop over the netifd candidates: the first one the status names. *)
Fixpoint classify_netifd (iface status : string) (mk : string -> bool -> evidence)
    (candidates : list string) : option evidence :=
  match candidates with
  | [] => None
  | candidate :: rest =>
    if netifd_down iface candidate status || netifd_up candidate status
    then Some (mk candidate (netifd_up candidate status))
    else classify_netifd iface status mk rest
  end.

(** [index := strings.Index(status, "switch to STARLINK"); index >= 0 && ...] *)
Definition starlink_selected (status : string) : bool :=
  match Index status "switch to STARLINK" with
  | None => false
  | Some i =>
    validRepeaterPrefix (stake i status)
    && String.eqb (TrimSpace (sdrop i status)) "switch to STARLINK"
  end.

(** One candidate of the gl-repeater loop: the state it reports, or [continue]. *)
Definition repeater_state (status candidate : string) : option bool :=
  let pre := "interface " +:+ candidate +:+ " status " in
  match Index status pre with
  | None => None
  | Some i =>
    if negb (validRepeaterPrefix (stake i status)) then None
    else
      let state := TrimSpace (sdrop (i + String.length pre) status) in
      if String.eqb state "online" then Some true
      else if String.eqb state "offline" then Some false
      else None
  end.

Fixpoint classify_repeater (status : string) (mk : string -> bool -> evidence)
    (candidates : list string) : option evidence :=
  match candidates with
  | [] => None
  | candidate :: rest =>
    match repeater_state status candidate with
    | Some online => Some (mk candidate online)
    | None => classify_repeater status mk rest
    end
  end.

Definition mk_evidence (message : Message) (hostname : string) (reach only : bool)
    (iface : string) (online : bool) : evidence :=
  {| ev_hostname := hostname; ev_iface := iface; ev_online := online;
     ev_at := msg_ReceivedAt message; ev_messageID := msg_ID message; ev_sourceRef := "";
     ev_reachability := reach; ev_observeOnly := only |}.

Definition classify (message : Message) (iface : string) : option evidence :=
  let hostname := TrimSpace (msg_Hostname message) in
  if String.eqb hostname "" || IsZero (msg_ReceivedAt message) then None
  else if String.eqb (msg_Tag message) "netifd" then
    classify_netifd iface (TrimSpace (msg_Message message))
      (mk_evidence message hostname false false) [iface; "wwan"; "tethering"]
  else if negb (String.eqb (msg_Tag message) "gl-repeater") then None
  else
    let status := TrimSpace (msg_Message message) in
    if starlink_selected status
    then Some (mk_evidence message hostname false true "wwan" false)
    else classify_repeater status (mk_evidence message hostname true false) [iface; "wwan"].
