(* ===== verification/EngineState.v ===== *)
(** The state of the incident engine ([internal/incidents/engine.go]): the
    incident, tracker and notification-job records, the snapshot that holds
    them and the configuration.  Pointers to times are options; a Go map is a
    [gmap] (a nil map and an empty one are the same value, the engine never
    writes to a nil one).  [set_r_F v r] is the field assignment [r.F = v]. *)
From Stdlib Require Import ZArith.
From S2P Require Import Prelude.
From S2P Require Import GoStd.
From S2P Require Import Model.

Record Config : Type := mkConfig {
  cfg_Interface : string;
  cfg_DownAfter : Duration;
  cfg_RecoveredAfter : Duration
}.

Inductive State : Type :=
| StatePendingFailure
| StateActive
| StatePendingRecovery
| StateResolved.

#[export] Instance State_eq_dec : EqDecision State.
Proof. solve_decision. Defined.

(** [phaseNone] is the zero value [""], the phase of an absent tracker. *)
Inductive phase : Type :=
| phaseNone
| phaseHealthy
| phasePendingFailure
| phaseActive
| phasePendingRecovery.

#[export] Instance phase_eq_dec : EqDecision phase.
Proof. solve_decision. Defined.

Record Observation : Type := {
  obs_Message : Message;
  obs_NotifyEligible : bool;
  obs_SourceRef : string
}.

Record Incident : Type := mkIncident {
  inc_ID : string;
  inc_RuleVersion : Z;
  inc_Hostname : string;
  inc_Interface : string;
  inc_State : State;
  inc_StartedAt : Time;
  inc_ActivatedAt : option Time;
  inc_RecoveryFirstAt : option Time;
  inc_ResolvedAt : option Time;
  inc_LastEvidenceAt : Time;
  inc_EvidenceIDs : list string;
  inc_EvidenceRefs : list string;
  inc_DownAfter : Duration;
  inc_RecoveredAfter : Duration;
  inc_Notify : bool
}.

Definition set_inc_State (v : State) (r : Incident) : Incident :=
  mkIncident
    (inc_ID r) (inc_RuleVersion r) (inc_Hostname r) (inc_Interface r) v (inc_StartedAt r)
    (inc_ActivatedAt r) (inc_RecoveryFirstAt r) (inc_ResolvedAt r) (inc_LastEvidenceAt r)
    (inc_EvidenceIDs r) (inc_EvidenceRefs r) (inc_DownAfter r) (inc_RecoveredAfter r)
    (inc_Notify r).

Definition set_inc_ActivatedAt (v : option Time) (r : Incident) : Incident :=
  mkIncident
    (inc_ID r) (inc_RuleVersion r) (inc_Hostname r) (inc_Interface r) (inc_State r)
    (inc_StartedAt r) v (inc_RecoveryFirstAt r) (inc_ResolvedAt r) (inc_LastEvidenceAt r)
    (inc_EvidenceIDs r) (inc_EvidenceRefs r) (inc_DownAfter r) (inc_RecoveredAfter r)
    (inc_Notify r).

Definition set_inc_RecoveryFirstAt (v : option Time) (r : Incident) : Incident :=
  mkIncident
    (inc_ID r) (inc_RuleVersion r) (inc_Hostname r) (inc_Interface r) (inc_State r)
    (inc_StartedAt r) (inc_ActivatedAt r) v (inc_ResolvedAt r) (inc_LastEvidenceAt r)
    (inc_EvidenceIDs r) (inc_EvidenceRefs r) (inc_DownAfter r) (inc_RecoveredAfter r)
    (inc_Notify r).

Definition set_inc_ResolvedAt (v : option Time) (r : Incident) : Incident :=
  mkIncident
    (inc_ID r) (inc_RuleVersion r) (inc_Hostname r) (inc_Interface r) (inc_State r)
    (inc_StartedAt r) (inc_ActivatedAt r) (inc_RecoveryFirstAt r) v (inc_LastEvidenceAt r)
    (inc_EvidenceIDs r) (inc_EvidenceRefs r) (inc_DownAfter r) (inc_RecoveredAfter r)
    (inc_Notify r).

Definition set_inc_LastEvidenceAt (v : Time) (r : Incident) : Incident :=
  mkIncident
    (inc_ID r) (inc_RuleVersion r) (inc_Hostname r) (inc_Interface r) (inc_State r)
    (inc_StartedAt r) (inc_ActivatedAt r) (inc_RecoveryFirstAt r) (inc_ResolvedAt r) v
    (inc_EvidenceIDs r) (inc_EvidenceRefs r) (inc_DownAfter r) (inc_RecoveredAfter r)
    (inc_Notify r).

Definition set_inc_EvidenceIDs (v : list string) (r : Incident) : Incident :=
  mkIncident
    (inc_ID r) (inc_RuleVersion r) (inc_Hostname r) (inc_Interface r) (inc_State r)
    (inc_StartedAt r) (inc_ActivatedAt r) (inc_RecoveryFirstAt r) (inc_ResolvedAt r)
    (inc_LastEvidenceAt r) v (inc_EvidenceRefs r) (inc_DownAfter r) (inc_RecoveredAfter r)
    (inc_Notify r).

Definition set_inc_EvidenceRefs (v : list string) (r : Incident) : Incident :=
  mkIncident
    (inc_ID r) (inc_RuleVersion r) (inc_Hostname r) (inc_Interface r) (inc_State r)
    (inc_StartedAt r) (inc_ActivatedAt r) (inc_RecoveryFirstAt r) (inc_ResolvedAt r)
    (inc_LastEvidenceAt r) (inc_EvidenceIDs r) v (inc_DownAfter r) (inc_RecoveredAfter r)
    (inc_Notify r).

Definition set_inc_Notify (v : bool) (r : Incident) : Incident :=
  mkIncident
    (inc_ID r) (inc_RuleVersion r) (inc_Hostname r) (inc_Interface r) (inc_State r)
    (inc_StartedAt r) (inc_ActivatedAt r) (inc_RecoveryFirstAt r) (inc_ResolvedAt r)
    (inc_LastEvidenceAt r) (inc_EvidenceIDs r) (inc_EvidenceRefs r) (inc_DownAfter r)
    (inc_RecoveredAfter r) v.

Record NotificationJob : Type := mkJob {
  job_ID : string;
  job_IncidentID : string;
  job_Kind : Kind;
  job_CreatedAt : Time;
  job_Attempts : Z;
  job_NextAt : Time;
  job_LastError : string;
  job_SentAt : option Time;
  job_Adapter : string;
  job_ExternalID : string;
  job_Permanent : bool
}.

Definition set_job_Attempts (v : Z) (r : NotificationJob) : NotificationJob :=
  mkJob
    (job_ID r) (job_IncidentID r) (job_Kind r) (job_CreatedAt r) v (job_NextAt r)
    (job_LastError r) (job_SentAt r) (job_Adapter r) (job_ExternalID r) (job_Permanent r).

Definition set_job_NextAt (v : Time) (r : NotificationJob) : NotificationJob :=
  mkJob
    (job_ID r) (job_IncidentID r) (job_Kind r) (job_CreatedAt r) (job_Attempts r) v
    (job_LastError r) (job_SentAt r) (job_Adapter r) (job_ExternalID r) (job_Permanent r).

Definition set_job_LastError (v : string) (r : NotificationJob) : NotificationJob :=
  mkJob
    (job_ID r) (job_IncidentID r) (job_Kind r) (job_CreatedAt r) (job_Attempts r)
    (job_NextAt r) v (job_SentAt r) (job_Adapter r) (job_ExternalID r) (job_Permanent r).

Definition set_job_SentAt (v : option Time) (r : NotificationJob) : NotificationJob :=
  mkJob
    (job_ID r) (job_IncidentID r) (job_Kind r) (job_CreatedAt r) (job_Attempts r)
    (job_NextAt r) (job_LastError r) v (job_Adapter r) (job_ExternalID r) (job_Permanent r).

Definition set_job_Adapter (v : string) (r : NotificationJob) : NotificationJob :=
  mkJob
    (job_ID r) (job_IncidentID r) (job_Kind r) (job_CreatedAt r) (job_Attempts r)
    (job_NextAt r) (job_LastError r) (job_SentAt r) v (job_ExternalID r) (job_Permanent r).

Definition set_job_ExternalID (v : string) (r : NotificationJob) : NotificationJob :=
  mkJob
    (job_ID r) (job_IncidentID r) (job_Kind r) (job_CreatedAt r) (job_Attempts r)
    (job_NextAt r) (job_LastError r) (job_SentAt r) (job_Adapter r) v (job_Permanent r).

Definition set_job_Permanent (v : bool) (r : NotificationJob) : NotificationJob :=
  mkJob
    (job_ID r) (job_IncidentID r) (job_Kind r) (job_CreatedAt r) (job_Attempts r)
    (job_NextAt r) (job_LastError r) (job_SentAt r) (job_Adapter r) (job_ExternalID r) v.

Record tracker : Type := mkTracker {
  trk_Phase : phase;
  trk_PendingSince : Time;
  trk_RecoverySince : Time;
  trk_LastEvidenceAt : Time;
  trk_StartMessageID : string;
  trk_StartSourceRef : string;
  trk_IncidentID : string;
  trk_Notify : bool;
  trk_ReachabilityDown : bool
}.

Definition set_trk_Phase (v : phase) (r : tracker) : tracker :=
  mkTracker
    v (trk_PendingSince r) (trk_RecoverySince r) (trk_LastEvidenceAt r) (trk_StartMessageID
    r) (trk_StartSourceRef r) (trk_IncidentID r) (trk_Notify r) (trk_ReachabilityDown r).

Definition set_trk_RecoverySince (v : Time) (r : tracker) : tracker :=
  mkTracker
    (trk_Phase r) (trk_PendingSince r) v (trk_LastEvidenceAt r) (trk_StartMessageID r)
    (trk_StartSourceRef r) (trk_IncidentID r) (trk_Notify r) (trk_ReachabilityDown r).

Definition set_trk_LastEvidenceAt (v : Time) (r : tracker) : tracker :=
  mkTracker
    (trk_Phase r) (trk_PendingSince r) (trk_RecoverySince r) v (trk_StartMessageID r)
    (trk_StartSourceRef r) (trk_IncidentID r) (trk_Notify r) (trk_ReachabilityDown r).

Definition set_trk_Notify (v : bool) (r : tracker) : tracker :=
  mkTracker
    (trk_Phase r) (trk_PendingSince r) (trk_RecoverySince r) (trk_LastEvidenceAt r)
    (trk_StartMessageID r) (trk_StartSourceRef r) (trk_IncidentID r) v (trk_ReachabilityDown
    r).

Definition set_trk_ReachabilityDown (v : bool) (r : tracker) : tracker :=
  mkTracker
    (trk_Phase r) (trk_PendingSince r) (trk_RecoverySince r) (trk_LastEvidenceAt r)
    (trk_StartMessageID r) (trk_StartSourceRef r) (trk_IncidentID r) (trk_Notify r) v.

Record Snapshot : Type := mkSnapshot {
  snap_Version : Z;
  snap_Bootstrapped : bool;
  snap_LastCheckpointAt : Time;
  snap_Trackers : gmap string tracker;
  snap_Incidents : gmap string Incident;
  snap_Jobs : gmap string NotificationJob;
  snap_Cursors : gmap string Cursor
}.

Definition set_snap_Version (v : Z) (r : Snapshot) : Snapshot :=
  mkSnapshot
    v (snap_Bootstrapped r) (snap_LastCheckpointAt r) (snap_Trackers r) (snap_Incidents r)
    (snap_Jobs r) (snap_Cursors r).

Definition set_snap_Bootstrapped (v : bool) (r : Snapshot) : Snapshot :=
  mkSnapshot
    (snap_Version r) v (snap_LastCheckpointAt r) (snap_Trackers r) (snap_Incidents r)
    (snap_Jobs r) (snap_Cursors r).

Definition set_snap_LastCheckpointAt (v : Time) (r : Snapshot) : Snapshot :=
  mkSnapshot
    (snap_Version r) (snap_Bootstrapped r) v (snap_Trackers r) (snap_Incidents r) (snap_Jobs
    r) (snap_Cursors r).

Definition set_snap_Trackers (v : gmap string tracker) (r : Snapshot) : Snapshot :=
  mkSnapshot
    (snap_Version r) (snap_Bootstrapped r) (snap_LastCheckpointAt r) v (snap_Incidents r)
    (snap_Jobs r) (snap_Cursors r).

Definition set_snap_Incidents (v : gmap string Incident) (r : Snapshot) : Snapshot :=
  mkSnapshot
    (snap_Version r) (snap_Bootstrapped r) (snap_LastCheckpointAt r) (snap_Trackers r) v
    (snap_Jobs r) (snap_Cursors r).

Definition set_snap_Jobs (v : gmap string NotificationJob) (r : Snapshot) : Snapshot :=
  mkSnapshot
    (snap_Version r) (snap_Bootstrapped r) (snap_LastCheckpointAt r) (snap_Trackers r)
    (snap_Incidents r) v (snap_Cursors r).

Definition set_snap_Cursors (v : gmap string Cursor) (r : Snapshot) : Snapshot :=
  mkSnapshot
    (snap_Version r) (snap_Bootstrapped r) (snap_LastCheckpointAt r) (snap_Trackers r)
    (snap_Incidents r) (snap_Jobs r) v.

Record Query : Type := {
  qry_State : option State;
  qry_Limit : Z;
  qry_Offset : Z
}.

Inductive error : Type :=
| err_down_not_positive
| err_recovery_not_positive
| err_unsupported_version (v : Z)
| err_job_not_found (id : string)
| err_persistence (what : string).

(** The zero tracker a Go map read returns for a missing key. *)
Definition zero_tracker : tracker :=
  mkTracker phaseNone 0 0 0 "" "" "" false false.

Definition empty_Snapshot : Snapshot :=
  mkSnapshot 1 false 0 ∅ ∅ ∅ ∅.

#[export] Instance Incident_eq_dec : EqDecision Incident.
Proof. solve_decision. Defined.
#[export] Instance NotificationJob_eq_dec : EqDecision NotificationJob.
Proof. solve_decision. Defined.
#[export] Instance tracker_eq_dec : EqDecision tracker.
Proof. solve_decision. Defined.
#[export] Instance Cursor_eq_dec : EqDecision Cursor.
Proof. solve_decision. Defined.
#[export] Instance Snapshot_eq_dec : EqDecision Snapshot.
Proof. solve_decision. Defined.
