(* ===== verification/Engine.v ===== *)
(** The operations of the incident engine ([Service] of
    [internal/incidents/engine.go]), one definition per method and, for the long
    ones, per case of their switches.  An operation takes the snapshot the
    service holds (its [state] field, under the lock) and returns the new one.
    [cfg] is the service's configuration; a path [p] names the dynamic position
    of the [range] loops an operation runs, and [sv] is what
    [persistence.Save] answers ([None]: the service has no persistence). *)
From Stdlib Require Import Ascii ZArith.
From S2P Require Import Prelude.
From S2P Require Import GoStd.
From S2P Require Import Sha256.
From S2P Require Import Model.
From S2P Require Import Classify.
From S2P Require Import EngineState.
Local Open Scope string_scope.

Definition nul : string := String "000" EmptyString.

(** ** Helpers without state *)

Definition tracker_key (hostname iface : string) : string := hostname +:+ nul +:+ iface.

Definition incidentID (hostname iface : string) (started : Time) (messageID : string) : string :=
  EncodeToString (take 8 (Sum256 (bytes_of
    (hostname +:+ nul +:+ iface +:+ nul +:+ FormatRFC3339Nano started +:+ nul +:+ messageID)))).

Definition appendEvidence (ids : list string) (id : string) : list string :=
  if String.eqb id "" then ids
  else if bool_decide (last ids = Some id) then ids
  else ids ++ [id].

Definition initializeSnapshot (s : Snapshot) : Snapshot :=
  if (snap_Version s =? 0)%Z then set_snap_Version 1 s else s.

(** [make] then copy every entry: value copies of the maps. *)
Definition cloneIncident (i : Incident) : Incident := i.
Definition cloneCursors (c : gmap string Cursor) : gmap string Cursor := c.
Definition cloneSnapshot (s : Snapshot) : Snapshot := s.

Definition get_tracker (s : Snapshot) (key : string) : tracker :=
  default zero_tracker (snap_Trackers s !! key).

Definition put_tracker (key : string) (t : tracker) (s : Snapshot) : Snapshot :=
  set_snap_Trackers (<[key := t]> (snap_Trackers s)) s.

Definition delete_tracker (key : string) (s : Snapshot) : Snapshot :=
  set_snap_Trackers (delete key (snap_Trackers s)) s.

Definition put_incident (id : string) (i : Incident) (s : Snapshot) : Snapshot :=
  set_snap_Incidents (<[id := i]> (snap_Incidents s)) s.

Definition delete_incident (id : string) (s : Snapshot) : Snapshot :=
  set_snap_Incidents (delete id (snap_Incidents s)) s.

Definition put_job (id : string) (j : NotificationJob) (s : Snapshot) : Snapshot :=
  set_snap_Jobs (<[id := j]> (snap_Jobs s)) s.

(** [if incident, exists := s.state.Incidents[id]; exists { f; s.state.Incidents[incident.ID] = incident }] *)
Definition update_incident (id : string) (f : Incident -> Incident) (s : Snapshot) : Snapshot :=
  match snap_Incidents s !! id with
  | None => s
  | Some incident => let i := f incident in put_incident (inc_ID i) i s
  end.

(** ** The outbox *)

Definition enqueue_with_id (id incidentID : string) (kind : Kind) (at_ : Time) (s : Snapshot) : Snapshot :=
  match snap_Jobs s !! id with
  | Some _ => s
  | None => put_job id (mkJob id incidentID kind at_ 0 at_ "" None "" "" false) s
  end.

Definition job_id (incidentID : string) (kind : Kind) : string :=
  incidentID +:+ ":" +:+ Kind_string kind.

Definition escalation_id (fallbackIncidentID primaryIncidentID : string) : string :=
  fallbackIncidentID +:+ ":" +:+ Kind_string KindFallbackEscalated +:+ ":" +:+ primaryIncidentID.

Definition enqueueLocked (incidentID : string) (kind : Kind) (at_ : Time) (s : Snapshot) : Snapshot :=
  enqueue_with_id (job_id incidentID kind) incidentID kind at_ s.

Definition enqueueFallbackEscalationLocked (fallbackIncidentID primaryIncidentID : string)
    (at_ : Time) (s : Snapshot) : Snapshot :=
  enqueue_with_id (escalation_id fallbackIncidentID primaryIncidentID) fallbackIncidentID
    KindFallbackEscalated at_ s.

Section Service.
Context {GR : GoRange} {GS : GoSort}.
Context (cfg : Config).

Definition is_primary (i : Incident) : bool := String.eqb (inc_Interface i) (cfg_Interface cfg).

(** The condition under which the loop of [primaryDownAtLocked] returns. *)
Definition primary_down_at (hostname : string) (at_ : Time) (incident : Incident) : bool :=
  String.eqb (inc_Hostname incident) hostname && is_primary incident
  && match inc_ActivatedAt incident with
     | None => false
     | Some activated =>
       negb (Before at_ activated)
       && match inc_ResolvedAt incident with
          | None => true
          | Some resolved => Before at_ resolved
          end
     end.

Definition primaryDownAtLocked (p : list nat) (hostname : string) (at_ : Time) (s : Snapshot)
    : option Incident :=
  snd <$> List.find (fun '(_, incident) => primary_down_at hostname at_ incident)
            (range p (snap_Incidents s)).

(** One iteration of [escalateFallbacksLocked]. *)
Definition escalates (hostname : string) (incident : Incident) : bool :=
  String.eqb (inc_Hostname incident) hostname && negb (is_primary incident) && inc_Notify incident
  && match inc_State incident with StateActive | StatePendingRecovery => true | _ => false end.

Definition escalateFallbacksLocked (p : list nat) (hostname primaryIncidentID : string)
    (at_ : Time) (s : Snapshot) : Snapshot :=
  fold_left (fun s '(_, incident) =>
      if escalates hostname incident
      then enqueueFallbackEscalationLocked (inc_ID incident) primaryIncidentID at_ s
      else s)
    (range p (snap_Incidents s)) s.

(** ** Timers *)

Definition due_at (t : tracker) (incident : Incident) : Time :=
  (match trk_Phase t with
   | phasePendingFailure => trk_PendingSince t + inc_DownAfter incident
   | _ => trk_RecoverySince t + inc_RecoveredAfter incident
   end)%Z.

Definition due_priority (t : tracker) (incident : Incident) : Z :=
  match trk_Phase t with
  | phasePendingFailure => if is_primary incident then 1 else 2
  | _ => 0
  end.

Definition is_pending (t : tracker) : bool :=
  match trk_Phase t with
  | phasePendingFailure | phasePendingRecovery => true
  | _ => false
  end.

(** The loop of [nextDueTrackerLocked]; [sel] is the selection so far (key,
    tracker, due time, priority), [None] while [found] is false.  A pending
    tracker whose incident is missing is returned at once. *)
Fixpoint next_due_loop (now : Time) (s : Snapshot) (entries : list (string * tracker))
    (sel : option (string * tracker * Time * Z)) : option (string * tracker) :=
  match entries with
  | [] => match sel with Some (key, t, _, _) => Some (key, t) | None => None end
  | (key, current) :: rest =>
    if negb (is_pending current) then next_due_loop now s rest sel
    else match snap_Incidents s !! trk_IncidentID current with
         | None => Some (key, current)
         | Some incident =>
           let dueAt := due_at current incident in
           if After dueAt now then next_due_loop now s rest sel
           else
             let priority := due_priority current incident in
             let better :=
               match sel with
               | None => true
               | Some (_, _, selectedAt, selectedPriority) =>
                 Before dueAt selectedAt
                 || ((dueAt =? selectedAt)%Z && (priority <? selectedPriority)%Z)
               end in
             next_due_loop now s rest
               (if better then Some (key, current, dueAt, priority) else sel)
         end
  end.

Definition nextDueTrackerLocked (p : list nat) (now : Time) (s : Snapshot)
    : option (string * tracker) :=
  next_due_loop now s (range p (snap_Trackers s)) None.

(** The notification an activated incident asks for: a primary one is opened;
    a fallback one escalates when the primary is down and is opened otherwise. *)
Definition notify_activation (p : list nat) (incident : Incident) (activated : Time)
    (s : Snapshot) : Snapshot :=
  if is_primary incident then enqueueLocked (inc_ID incident) KindIncidentOpened activated s
  else match primaryDownAtLocked p (inc_Hostname incident) activated s with
       | Some primary =>
         enqueueFallbackEscalationLocked (inc_ID incident) (inc_ID primary) activated s
       | None => enqueueLocked (inc_ID incident) KindFallbackOpened activated s
       end.

(** The case [phasePendingFailure] of [advanceLocked]. *)
Definition activate (p : list nat) (key : string) (current : tracker) (s : Snapshot) : Snapshot :=
  match snap_Incidents s !! trk_IncidentID current with
  | None => delete_tracker key s
  | Some incident =>
    let activated := (trk_PendingSince current + inc_DownAfter incident)%Z in
    let incident := set_inc_State StateActive incident in
    let incident := set_inc_ActivatedAt (Some activated) incident in
    let incident := set_inc_Notify (trk_Notify current) incident in
    let s := put_incident (inc_ID incident) incident s in
    let s := put_tracker key (set_trk_Phase phaseActive current) s in
    let s := if inc_Notify incident then notify_activation (0 :: p) incident activated s else s in
    if is_primary incident
    then escalateFallbacksLocked (1 :: p) (inc_Hostname incident) (inc_ID incident) activated s
    else s
  end.

(** The case [phasePendingRecovery] of [advanceLocked]. *)
Definition resolve (key : string) (current : tracker) (s : Snapshot) : Snapshot :=
  match snap_Incidents s !! trk_IncidentID current with
  | None => delete_tracker key s
  | Some incident =>
    let resolved := (trk_RecoverySince current + inc_RecoveredAfter incident)%Z in
    let incident := set_inc_State StateResolved incident in
    let incident := set_inc_ResolvedAt (Some resolved) incident in
    let s := put_incident (inc_ID incident) incident s in
    let s :=
      if inc_Notify incident
      then enqueueLocked (inc_ID incident)
             (if is_primary incident then KindIncidentResolved else KindFallbackResolved) resolved s
      else s in
    put_tracker key
      (mkTracker phaseHealthy 0 0 (trk_LastEvidenceAt current) "" "" "" false false) s
  end.

Definition advance_body (p : list nat) (key : string) (current : tracker) (s : Snapshot)
    : Snapshot * bool :=
  match trk_Phase current with
  | phasePendingFailure => (activate p key current s, true)
  | phasePendingRecovery => (resolve key current s, true)
  | _ => (s, false)
  end.

(** The loop of [advanceLocked]; [None] means the fuel ran out. *)
Fixpoint advance_loop (fuel : nat) (p : list nat) (now : Time) (s : Snapshot) (changed : bool)
    : option (Snapshot * bool) :=
  match fuel with
  | O => None
  | S n =>
    match nextDueTrackerLocked (0 :: n :: p) now s with
    | None => Some (s, changed)
    | Some (key, current) =>
      let '(s', c) := advance_body (1 :: n :: p) key current s in
      advance_loop n p now s' (changed || c)
    end
  end.

Definition pending_trackers (s : Snapshot) : gmap string tracker :=
  filter (fun kt => is_pending kt.2 = true) (snap_Trackers s).

(** Each iteration leaves one pending tracker fewer, so one more than their
    number is fuel enough. *)
Definition advanceLocked (p : list nat) (now : Time) (s : Snapshot) : Snapshot * bool :=
  default (s, false) (advance_loop (S (size (pending_trackers s))) p now s false).

(** ** Evidence *)

Definition add_evidence (e : evidence) (i : Incident) : Incident :=
  let i := set_inc_LastEvidenceAt (ev_at e) i in
  let i := set_inc_EvidenceIDs (appendEvidence (inc_EvidenceIDs i) (ev_messageID e)) i in
  set_inc_EvidenceRefs (appendEvidence (inc_EvidenceRefs i) (ev_sourceRef e)) i.

Definition new_incident (id : string) (e : evidence) (notifyEligible : bool) : Incident :=
  mkIncident id 3 (ev_hostname e) (ev_iface e) StatePendingFailure (ev_at e) None None None
    (ev_at e) (appendEvidence [] (ev_messageID e)) (appendEvidence [] (ev_sourceRef e))
    (cfg_DownAfter cfg) (cfg_RecoveredAfter cfg) notifyEligible.

(** The case [evidence.online == false]; [current] already carries the new
    [LastEvidenceAt]. *)
Definition observe_offline (e : evidence) (notifyEligible : bool) (current : tracker)
    (s : Snapshot) : tracker * Snapshot :=
  match trk_Phase current with
  | phaseNone | phaseHealthy =>
    let id := incidentID (ev_hostname e) (ev_iface e) (ev_at e) (ev_messageID e) in
    (mkTracker phasePendingFailure (ev_at e) 0 (ev_at e) (ev_messageID e) (ev_sourceRef e) id
       notifyEligible (ev_reachability e),
     put_incident id (new_incident id e notifyEligible) s)
  | phasePendingFailure =>
    let current := set_trk_ReachabilityDown (trk_ReachabilityDown current || ev_reachability e) current in
    let current := set_trk_Notify (trk_Notify current || notifyEligible) current in
    (current,
     update_incident (trk_IncidentID current)
       (fun i => add_evidence e (set_inc_Notify (trk_Notify current) i)) s)
  | phasePendingRecovery =>
    let current := set_trk_Phase phaseActive current in
    let current := set_trk_RecoverySince 0 current in
    let current := set_trk_ReachabilityDown (trk_ReachabilityDown current || ev_reachability e) current in
    (current,
     update_incident (trk_IncidentID current)
       (fun i => add_evidence e (set_inc_RecoveryFirstAt None (set_inc_State StateActive i))) s)
  | phaseActive =>
    let current := set_trk_ReachabilityDown (trk_ReachabilityDown current || ev_reachability e) current in
    (current, update_incident (trk_IncidentID current) (add_evidence e) s)
  end.

Definition healthy_tracker (at_ : Time) : tracker :=
  mkTracker phaseHealthy 0 0 at_ "" "" "" false false.

(** The case [evidence.online == true]. *)
Definition observe_online (e : evidence) (current : tracker) (s : Snapshot) : tracker * Snapshot :=
  match trk_Phase current with
  | phaseNone => (healthy_tracker (ev_at e), s)
  | phaseHealthy => (current, s)
  | phasePendingFailure =>
    (healthy_tracker (ev_at e), delete_incident (trk_IncidentID current) s)
  | phaseActive =>
    let current := set_trk_Phase phasePendingRecovery current in
    let current := set_trk_RecoverySince (ev_at e) current in
    (current,
     update_incident (trk_IncidentID current)
       (fun i => add_evidence e
                   (set_inc_RecoveryFirstAt (Some (ev_at e)) (set_inc_State StatePendingRecovery i))) s)
  | phasePendingRecovery =>
    (current, update_incident (trk_IncidentID current) (add_evidence e) s)
  end.

Definition stale_evidence (e : evidence) (current : tracker) : bool :=
  negb (IsZero (trk_LastEvidenceAt current)) && Before (ev_at e) (trk_LastEvidenceAt current).

(** Interface-only "up" does not clear a failure reachability evidence opened. *)
Definition masked_recovery (e : evidence) (current : tracker) : bool :=
  ev_online e && String.eqb (ev_iface e) (cfg_Interface cfg)
  && trk_ReachabilityDown current && negb (ev_reachability e).

Definition set_sourceRef (r : string) (e : evidence) : evidence :=
  {| ev_hostname := ev_hostname e; ev_iface := ev_iface e; ev_online := ev_online e;
     ev_at := ev_at e; ev_messageID := ev_messageID e; ev_sourceRef := r;
     ev_reachability := ev_reachability e; ev_observeOnly := ev_observeOnly e |}.

(** What [observeLocked] does with classified evidence. *)
Definition observe_evidence (p : list nat) (e : evidence) (notifyEligible : bool) (s : Snapshot)
    : Snapshot :=
  let key := tracker_key (ev_hostname e) (ev_iface e) in
  let current := get_tracker s key in
  if stale_evidence e current then s
  else if ev_observeOnly e then
    let current := if decide (trk_Phase current = phaseNone)
                   then set_trk_Phase phaseHealthy current else current in
    put_tracker key (set_trk_LastEvidenceAt (ev_at e) current) s
  else
    let s := (advanceLocked p (ev_at e) s).1 in
    let current := get_tracker s key in
    if masked_recovery e current then s
    else
      let current := set_trk_LastEvidenceAt (ev_at e) current in
      let '(current, s) :=
        if ev_online e then observe_online e current s
        else observe_offline e notifyEligible current s in
      put_tracker key current s.

Definition observeLocked (p : list nat) (message : Message) (notifyEligible : bool)
    (sourceRef : string) (s : Snapshot) : Snapshot :=
  match classify message (cfg_Interface cfg) with
  | None => s
  | Some e => observe_evidence p (set_sourceRef sourceRef e) notifyEligible s
  end.

(** The loop over a batch, each observation at its own position. *)
Fixpoint observe_all (i : nat) (p : list nat) (observations : list Observation) (s : Snapshot)
    : Snapshot :=
  match observations with
  | [] => s
  | o :: rest =>
    observe_all (S i) p rest
      (observeLocked (i :: p) (obs_Message o) (obs_NotifyEligible o) (obs_SourceRef o) s)
  end.

(** ** The service's methods *)

Definition New (c : Config) : Snapshot * Config + error :=
  let c := if String.eqb (cfg_Interface c) ""
           then mkConfig "wan" (cfg_DownAfter c) (cfg_RecoveredAfter c) else c in
  if (cfg_DownAfter c <=? 0)%Z then inr err_down_not_positive
  else if (cfg_RecoveredAfter c <=? 0)%Z then inr err_recovery_not_positive
  else inl (empty_Snapshot, c).

Definition upgrade_tracker (s : Snapshot) (current : tracker) : option tracker :=
  match snap_Incidents s !! trk_IncidentID current with
  | Some incident =>
    if (inc_RuleVersion incident <? 3)%Z && negb (bool_decide (trk_Phase current = phaseHealthy))
    then Some (set_trk_ReachabilityDown true current) else None
  | None => None
  end.

(** [Load]: [loaded] is what [persistence.Load] answers. *)
Definition Load (p : list nat) (loaded : option (Snapshot + string)) (s : Snapshot)
    : Snapshot * option error :=
  match loaded with
  | None => (s, None)
  | Some (inr e) => (s, Some (err_persistence e))
  | Some (inl state) =>
    if (snap_Version state =? 0)%Z then (s, None)
    else if negb (snap_Version state =? 1)%Z
    then (s, Some (err_unsupported_version (snap_Version state)))
    else
      let state := initializeSnapshot state in
      (fold_left (fun st '(key, current) =>
           match upgrade_tracker st current with
           | Some t => put_tracker key t st
           | None => st
           end) (range p (snap_Trackers state)) state, None)
  end.

Definition saveLocked (sv : option (Snapshot -> option string)) (s : Snapshot) : option error :=
  match sv with
  | None => None
  | Some save => err_persistence <$> save (cloneSnapshot s)
  end.

Definition Observe (sv : option (Snapshot -> option string)) (p : list nat) (message : Message)
    (notifyEligible : bool) (s : Snapshot) : Snapshot * option error :=
  let s := observeLocked p message notifyEligible "" s in
  (s, saveLocked sv s).

Definition checkpoint (cursors : gmap string Cursor) (checkpointAt : Time) (s : Snapshot) : Snapshot :=
  set_snap_LastCheckpointAt checkpointAt
    (set_snap_Bootstrapped true (set_snap_Cursors (cloneCursors cursors) s)).

Definition Apply (sv : option (Snapshot -> option string)) (p : list nat)
    (observations : list Observation) (cursors : gmap string Cursor) (checkpointAt : Time)
    (s : Snapshot) : Snapshot * option error :=
  let s := checkpoint cursors checkpointAt (observe_all 0 p observations s) in
  (s, saveLocked sv s).

Definition Tick (sv : option (Snapshot -> option string)) (p : list nat) (now : Time) (s : Snapshot)
    : Snapshot * option error :=
  let '(s, changed) := advanceLocked p now s in
  if negb changed then (s, None) else (s, saveLocked sv s).

(** *** Rebuild *)

(** First loop: an incident keeps the notify flag its predecessor had. *)
Definition restore_notify (p : list nat) (previous : Snapshot) (s : Snapshot) : Snapshot :=
  fold_left (fun s '(key, incident) =>
      match snap_Incidents previous !! key with
      | Some old => put_incident key (set_inc_Notify (inc_Notify incident || inc_Notify old) incident) s
      | None => s
      end) (range p (snap_Incidents s)) s.

(** Second loop: a tracker follows its incident's flag. *)
Definition sync_tracker_notify (p : list nat) (s : Snapshot) : Snapshot :=
  fold_left (fun s '(key, current) =>
      match snap_Incidents s !! trk_IncidentID current with
      | Some incident => put_tracker key (set_trk_Notify (inc_Notify incident) current) s
      | None => s
      end) (range p (snap_Trackers s)) s.

(** Third loop: jobs of incidents that still exist are carried over. *)
Definition carry_jobs (p : list nat) (previous : Snapshot) (s : Snapshot) : Snapshot :=
  fold_left (fun s '(id, job) =>
      match snap_Incidents s !! job_IncidentID job with
      | Some _ => put_job id job s
      | None => s
      end) (range p (snap_Jobs previous)) s.

(** The inner loop of the fourth: primaries that went down while the fallback
    incident was open. *)
Definition escalate_overlaps (p : list nat) (incident : Incident) (activated : Time)
    (s : Snapshot) : Snapshot :=
  fold_left (fun s '(_, primary) =>
      match inc_ActivatedAt primary with
      | Some pa =>
        if String.eqb (inc_Hostname primary) (inc_Hostname incident) && is_primary primary
           && After pa activated
           && match inc_ResolvedAt incident with
              | None => true
              | Some resolved => Before pa resolved
              end
        then enqueueFallbackEscalationLocked (inc_ID incident) (inc_ID primary) pa s
        else s
      | None => s
      end) (range p (snap_Incidents s)) s.

(** Fourth loop, one incident: enqueue what its history asks for. *)
Definition rebuild_jobs (p : list nat) (incident : Incident) (s : Snapshot) : Snapshot :=
  match inc_ActivatedAt incident with
  | Some activated =>
    if negb (inc_Notify incident) then s
    else
      let s := notify_activation (0 :: p) incident activated s in
      let s :=
        match inc_State incident, inc_ResolvedAt incident with
        | StateResolved, Some resolved =>
          enqueueLocked (inc_ID incident)
            (if is_primary incident then KindIncidentResolved else KindFallbackResolved) resolved s
        | _, _ => s
        end in
      if negb (is_primary incident) then escalate_overlaps (1 :: p) incident activated s else s
  | None => s
  end.

Fixpoint rebuild_all_jobs (j : nat) (p : list nat) (entries : list (string * Incident))
    (s : Snapshot) : Snapshot :=
  match entries with
  | [] => s
  | (_, incident) :: rest => rebuild_all_jobs (S j) p rest (rebuild_jobs (j :: p) incident s)
  end.

Definition rebuild_state (p : list nat) (observations : list Observation)
    (cursors : gmap string Cursor) (checkpointAt : Time) (previous : Snapshot) : Snapshot :=
  let s := mkSnapshot 1 true checkpointAt ∅ ∅ ∅ (cloneCursors cursors) in
  let s := observe_all 0 (0 :: p) observations s in
  let s := restore_notify (1 :: p) previous s in
  let s := sync_tracker_notify (2 :: p) s in
  let s := carry_jobs (3 :: p) previous s in
  rebuild_all_jobs 0 (4 :: p) (range (5 :: p) (snap_Incidents s)) s.

Definition Rebuild (sv : option (Snapshot -> option string)) (p : list nat)
    (observations : list Observation) (cursors : gmap string Cursor) (checkpointAt : Time)
    (previous : Snapshot) : Snapshot * option error :=
  let s := rebuild_state p observations cursors checkpointAt previous in
  (s, saveLocked sv s).

(** *** Queries *)

(** [None]: the slice expression panics. *)
Definition List_ (p : list nat) (query : Query) (s : Snapshot) : option (list Incident) :=
  let items :=
    map (fun kv => cloneIncident kv.2)
      (List.filter (fun kv => match qry_State query with
                              | None => true
                              | Some st => bool_decide (inc_State kv.2 = st)
                              end) (range p (snap_Incidents s))) in
  let items := sort_slice (fun a b => After (inc_StartedAt a) (inc_StartedAt b)) items in
  let start := if (qry_Offset query <? 0)%Z then 0%Z else qry_Offset query in
  let len := Z.of_nat (length items) in
  if (len <=? start)%Z then Some []
  else
    let end_ := if (0 <? qry_Limit query)%Z && (int_wrap (start + qry_Limit query) <? len)%Z
                then int_wrap (start + qry_Limit query) else len in
    slice start end_ items.

Definition Get (id : string) (s : Snapshot) : option Incident :=
  cloneIncident <$> snap_Incidents s !! id.

Definition jobs_by_creation (p : list nat) (keep : NotificationJob -> bool) (s : Snapshot)
    : list NotificationJob :=
  sort_slice (fun a b => Before (job_CreatedAt a) (job_CreatedAt b))
    (List.filter keep (map snd (range p (snap_Jobs s)))).

Definition NotificationsFor (p : list nat) (incidentID : string) (s : Snapshot) : list NotificationJob :=
  jobs_by_creation p (fun job => String.eqb (job_IncidentID job) incidentID) s.

Definition unsent (job : NotificationJob) : bool :=
  match job_SentAt job with None => negb (job_Permanent job) | Some _ => false end.

Definition PendingNotifications (p : list nat) (s : Snapshot) : list NotificationJob :=
  jobs_by_creation p unsent s.

Definition DueNotifications (p : list nat) (now : Time) (s : Snapshot) : list NotificationJob :=
  jobs_by_creation p (fun job => unsent job && negb (After (job_NextAt job) now)) s.

(** *** Delivery results *)

(** Both methods put the previous job back when the checkpoint fails. *)
Definition update_job (sv : option (Snapshot -> option string)) (id : string)
    (f : NotificationJob -> NotificationJob) (s : Snapshot) : Snapshot * option error :=
  match snap_Jobs s !! id with
  | None => (s, Some (err_job_not_found id))
  | Some job =>
    let s' := put_job id (f job) s in
    match saveLocked sv s' with
    | Some err => (put_job id job s', Some err)
    | None => (s', None)
    end
  end.

Definition MarkNotificationSent (sv : option (Snapshot -> option string))
    (id adapter externalID : string) (at_ : Time) (s : Snapshot) : Snapshot * option error :=
  update_job sv id (fun job =>
    set_job_LastError "" (set_job_ExternalID externalID
      (set_job_Adapter adapter (set_job_SentAt (Some at_) job)))) s.

Definition MarkNotificationFailed (sv : option (Snapshot -> option string))
    (id message : string) (next : Time) (permanent : bool) (s : Snapshot) : Snapshot * option error :=
  update_job sv id (fun job =>
    set_job_Permanent permanent (set_job_NextAt next
      (set_job_LastError message (set_job_Attempts (job_Attempts job + 1)%Z job)))) s.

Definition Cursors (s : Snapshot) : gmap string Cursor := cloneCursors (snap_Cursors s).

Definition SetCursors (sv : option (Snapshot -> option string)) (cursors : gmap string Cursor)
    (s : Snapshot) : Snapshot * option error :=
  let s := set_snap_Cursors (cloneCursors cursors) s in
  (s, saveLocked sv s).

Definition ReplaceSnapshot (sv : option (Snapshot -> option string)) (state s : Snapshot)
    : Snapshot * option error :=
  let s := initializeSnapshot state in
  (s, saveLocked sv s).

End Service.
