(* ===== verification/EngineLemmas.v ===== *)
(** Lemmas about the engine's building blocks, shared by the invariants and the
    refinement: which field an operation touches, what the loop of
    [nextDueTrackerLocked] selects, and why the loop of [advanceLocked] ends. *)
From Stdlib Require Import ZArith Lia.
From S2P Require Import Prelude.
From S2P Require Import GoStd.
From S2P Require Import Model.
From S2P Require Import Classify.
From S2P Require Import EngineState.
From S2P Require Import Engine.

(** ** Projections of the state updates *)

Lemma trackers_put_incident id i s : snap_Trackers (put_incident id i s) = snap_Trackers s.
Proof. done. Qed.
Lemma incidents_put_incident id i s :
  snap_Incidents (put_incident id i s) = <[id := i]> (snap_Incidents s).
Proof. done. Qed.
Lemma jobs_put_incident id i s : snap_Jobs (put_incident id i s) = snap_Jobs s.
Proof. done. Qed.
Lemma trackers_put_tracker k t s :
  snap_Trackers (put_tracker k t s) = <[k := t]> (snap_Trackers s).
Proof. done. Qed.
Lemma incidents_put_tracker k t s : snap_Incidents (put_tracker k t s) = snap_Incidents s.
Proof. done. Qed.
Lemma jobs_put_tracker k t s : snap_Jobs (put_tracker k t s) = snap_Jobs s.
Proof. done. Qed.
Lemma trackers_put_job id j s : snap_Trackers (put_job id j s) = snap_Trackers s.
Proof. done. Qed.
Lemma incidents_put_job id j s : snap_Incidents (put_job id j s) = snap_Incidents s.
Proof. done. Qed.
Lemma jobs_put_job id j s : snap_Jobs (put_job id j s) = <[id := j]> (snap_Jobs s).
Proof. done. Qed.
Lemma trackers_delete_tracker k s :
  snap_Trackers (delete_tracker k s) = delete k (snap_Trackers s).
Proof. done. Qed.
Lemma incidents_delete_tracker k s : snap_Incidents (delete_tracker k s) = snap_Incidents s.
Proof. done. Qed.
Lemma jobs_delete_tracker k s : snap_Jobs (delete_tracker k s) = snap_Jobs s.
Proof. done. Qed.
Lemma trackers_delete_incident id s : snap_Trackers (delete_incident id s) = snap_Trackers s.
Proof. done. Qed.
Lemma incidents_delete_incident id s :
  snap_Incidents (delete_incident id s) = delete id (snap_Incidents s).
Proof. done. Qed.
Lemma jobs_delete_incident id s : snap_Jobs (delete_incident id s) = snap_Jobs s.
Proof. done. Qed.

Create HintDb snap.
#[export] Hint Rewrite trackers_put_incident incidents_put_incident jobs_put_incident
  trackers_put_tracker incidents_put_tracker jobs_put_tracker
  trackers_put_job incidents_put_job jobs_put_job
  trackers_delete_tracker incidents_delete_tracker jobs_delete_tracker
  trackers_delete_incident incidents_delete_incident jobs_delete_incident : snap.

Lemma trackers_enqueue id iid k a s : snap_Trackers (enqueue_with_id id iid k a s) = snap_Trackers s.
Proof. unfold enqueue_with_id. by destruct (snap_Jobs s !! id). Qed.
Lemma incidents_enqueue id iid k a s : snap_Incidents (enqueue_with_id id iid k a s) = snap_Incidents s.
Proof. unfold enqueue_with_id. by destruct (snap_Jobs s !! id). Qed.
#[export] Hint Rewrite trackers_enqueue incidents_enqueue : snap.

Lemma trackers_update_incident id f s : snap_Trackers (update_incident id f s) = snap_Trackers s.
Proof. unfold update_incident. by destruct (snap_Incidents s !! id). Qed.
Lemma jobs_update_incident id f s : snap_Jobs (update_incident id f s) = snap_Jobs s.
Proof. unfold update_incident. by destruct (snap_Incidents s !! id). Qed.
#[export] Hint Rewrite trackers_update_incident jobs_update_incident : snap.

Ltac snap_simpl := autorewrite with snap in *; cbn [fst snd] in *.

(** A loop body that keeps a field keeps it over the whole loop. *)
Lemma fold_left_keeps {A B S} (proj : S -> B) (f : S -> A -> S) (l : list A) (s : S) :
  (forall s a, proj (f s a) = proj s) -> proj (fold_left f l s) = proj s.
Proof.
  intros Hf. revert s. induction l as [|a l IH]; intros s; [done|].
  cbn. by rewrite IH, Hf.
Qed.

(** A loop body that preserves a property preserves it over the whole loop. *)
Lemma fold_left_preserves {A S} (P : S -> Prop) (f : S -> A -> S) (l : list A) (s : S) :
  (forall s a, a ∈ l -> P s -> P (f s a)) -> P s -> P (fold_left f l s).
Proof.
  revert s. induction l as [|a l IH]; intros s Hf Hs; [done|].
  cbn. apply IH; [|apply Hf; [left|done]].
  intros s' b Hb. apply Hf. by right.
Qed.

(** What one iteration establishes and every other keeps holds after the loop. *)
Lemma fold_left_hits {A S} (P : S -> Prop) (f : S -> A -> S) (l : list A) (s : S) (a : A) :
  a ∈ l -> (forall s b, P s -> P (f s b)) -> (forall s, P (f s a)) -> P (fold_left f l s).
Proof.
  intros Ha Hk Hf. revert s. induction Ha as [a l|a b l _ IH]; intros s; cbn.
  - apply fold_left_preserves; [auto|apply Hf].
  - by apply IH.
Qed.

Section Ranges.
Context {GR : GoRange}.

Lemma elem_of_range {V} p (m : gmap string V) k v : (k, v) ∈ range p m <-> m !! k = Some v.
Proof. rewrite (range_perm p m). apply elem_of_map_to_list. Qed.

Lemma find_range_Some {V} p (m : gmap string V) (P : V -> bool) k v :
  List.find (fun '(_, x) => P x) (range p m) = Some (k, v) -> m !! k = Some v /\ P v = true.
Proof.
  intros [Hin HP]%List.find_some. split; [|done].
  by apply (elem_of_range p), list_elem_of_In.
Qed.

Lemma find_range_None {V} p (m : gmap string V) (P : V -> bool) k v :
  List.find (fun '(_, x) => P x) (range p m) = None -> m !! k = Some v -> P v = false.
Proof.
  intros Hf Hk. apply (List.find_none _ _ Hf (k, v)).
  by apply list_elem_of_In, (elem_of_range p).
Qed.

End Ranges.

Section Advance.
Context {GR : GoRange} (cfg : Config).

Lemma trackers_escalate p h pid a s :
  snap_Trackers (escalateFallbacksLocked cfg p h pid a s) = snap_Trackers s.
Proof.
  apply fold_left_keeps. intros s' [k i].
  destruct (escalates cfg h i); [apply trackers_enqueue|done].
Qed.

Lemma incidents_escalate p h pid a s :
  snap_Incidents (escalateFallbacksLocked cfg p h pid a s) = snap_Incidents s.
Proof.
  apply fold_left_keeps. intros s' [k i].
  destruct (escalates cfg h i); [apply incidents_enqueue|done].
Qed.

Lemma trackers_notify_activation p i a s :
  snap_Trackers (notify_activation cfg p i a s) = snap_Trackers s.
Proof.
  unfold notify_activation. destruct (is_primary cfg i); [apply trackers_enqueue|].
  destruct (primaryDownAtLocked _ _ _ _ _); apply trackers_enqueue.
Qed.

Lemma incidents_notify_activation p i a s :
  snap_Incidents (notify_activation cfg p i a s) = snap_Incidents s.
Proof.
  unfold notify_activation. destruct (is_primary cfg i); [apply incidents_enqueue|].
  destruct (primaryDownAtLocked _ _ _ _ _); apply incidents_enqueue.
Qed.

(** The activated incident, and the state an activation leaves apart from jobs. *)
Definition activated_incident (t : tracker) (i : Incident) : Incident :=
  set_inc_Notify (trk_Notify t)
    (set_inc_ActivatedAt (Some (trk_PendingSince t + inc_DownAfter i)%Z)
      (set_inc_State StateActive i)).

Definition resolved_incident (t : tracker) (i : Incident) : Incident :=
  set_inc_ResolvedAt (Some (trk_RecoverySince t + inc_RecoveredAfter i)%Z)
    (set_inc_State StateResolved i).

Lemma activate_core p k t i s :
  snap_Incidents s !! trk_IncidentID t = Some i ->
  snap_Trackers (activate cfg p k t s) = <[k := set_trk_Phase phaseActive t]> (snap_Trackers s)
  /\ snap_Incidents (activate cfg p k t s) = <[inc_ID i := activated_incident t i]> (snap_Incidents s).
Proof.
  intros Hi. unfold activate. rewrite Hi. cbv zeta.
  split; repeat case_match;
    rewrite ?trackers_escalate, ?incidents_escalate, ?trackers_notify_activation,
      ?incidents_notify_activation; done.
Qed.

Lemma resolve_core k t i s :
  snap_Incidents s !! trk_IncidentID t = Some i ->
  snap_Trackers (resolve cfg k t s) = <[k := healthy_tracker (trk_LastEvidenceAt t)]> (snap_Trackers s)
  /\ snap_Incidents (resolve cfg k t s) = <[inc_ID i := resolved_incident t i]> (snap_Incidents s).
Proof.
  intros Hi. unfold resolve. rewrite Hi. cbv zeta.
  unfold enqueueLocked. split; case_match; snap_simpl; done.
Qed.

(** ** The selection loop *)

Definition due (now : Time) (s : Snapshot) (t : tracker) : Prop :=
  is_pending t = true
  /\ match snap_Incidents s !! trk_IncidentID t with
     | None => True
     | Some i => (due_at t i <= now)%Z
     end.

Lemma next_due_loop_Some now s entries sel k t :
  next_due_loop cfg now s entries sel = Some (k, t) ->
  (exists a b, sel = Some (k, t, a, b)) \/ ((k, t) ∈ entries /\ due now s t).
Proof.
  revert sel. induction entries as [|[k' t'] rest IH]; intros sel; cbn.
  { destruct sel as [[[[k0 t0] a] b]|]; [|done]. intros [= -> ->]. eauto. }
  destruct (is_pending t') eqn:Hp; cbn.
  2:{ intros [?|[??]]%IH; [by left|right; split; [by right|done]]. }
  destruct (snap_Incidents s !! trk_IncidentID t') as [i|] eqn:Hi.
  2:{ intros [= -> ->]. right. split; [left|]. split; [done|]. by rewrite Hi. }
  unfold After. destruct (Z.ltb_spec now (due_at t' i)).
  { intros [?|[??]]%IH; [by left|right; split; [by right|done]]. }
  intros [(a & b & Hsel)|[??]]%IH; [|right; split; [by right|done]].
  revert Hsel. case_match; [|by left; eauto].
  intros [= -> -> <- <-]. right. split; [left|]. split; [done|]. rewrite Hi. lia.
Qed.

Lemma next_due_loop_None now s entries sel :
  next_due_loop cfg now s entries sel = None ->
  sel = None /\ forall k t, (k, t) ∈ entries -> ~ due now s t.
Proof.
  revert sel. induction entries as [|[k' t'] rest IH]; intros sel; cbn.
  { destruct sel as [[[[k0 t0] a] b]|]; [done|]. intros _. split; [done|].
    by intros k t ?%elem_of_nil. }
  destruct (is_pending t') eqn:Hp; cbn.
  2:{ intros [-> Hrest]%IH. split; [done|].
      intros k t [[= -> ->]|Hin]%elem_of_cons; [|by eapply Hrest]. intros [? _]. congruence. }
  destruct (snap_Incidents s !! trk_IncidentID t') as [i|] eqn:Hi; [|done].
  unfold After. destruct (Z.ltb_spec now (due_at t' i)).
  - intros [-> Hrest]%IH. split; [done|].
    intros k t [[= -> ->]|Hin]%elem_of_cons; [|by eapply Hrest].
    intros [_ Hd]. rewrite Hi in Hd. lia.
  - intros [Hsel _]%IH. exfalso. revert Hsel. repeat case_match; done.
Qed.

Lemma nextDue_Some p now s k t :
  nextDueTrackerLocked cfg p now s = Some (k, t) ->
  snap_Trackers s !! k = Some t /\ due now s t.
Proof.
  intros [(a & b & ?)|[Hin Hd]]%next_due_loop_Some; [done|].
  split; [by apply (elem_of_range p)|done].
Qed.

Lemma nextDue_None p now s :
  nextDueTrackerLocked cfg p now s = None ->
  forall k t, snap_Trackers s !! k = Some t -> ~ due now s t.
Proof.
  intros [_ Hn]%next_due_loop_None k t Hk. apply (Hn k t). by apply (elem_of_range p).
Qed.

(** ** Termination *)

Lemma pending_trackers_insert k t t' s s' :
  snap_Trackers s !! k = Some t -> is_pending t = true -> is_pending t' = false ->
  snap_Trackers s' = <[k := t']> (snap_Trackers s) ->
  S (size (pending_trackers s')) = size (pending_trackers s).
Proof.
  intros Hk Hp Hp' Heq. unfold pending_trackers. rewrite Heq, map_filter_insert_False by (cbn; congruence).
  rewrite map_filter_delete.
  set (m := filter _ (snap_Trackers s)).
  assert (Hl : m !! k = Some t) by (by apply map_lookup_filter_Some_2).
  rewrite (map_size_delete_Some k m) by (by exists t).
  assert (size m <> 0%nat) by (intros H0%map_size_empty_inv; rewrite H0 in Hl; done).
  lia.
Qed.

Lemma pending_trackers_delete k t s :
  snap_Trackers s !! k = Some t -> is_pending t = true ->
  S (size (pending_trackers (delete_tracker k s))) = size (pending_trackers s).
Proof.
  intros Hk Hp. unfold pending_trackers. snap_simpl. rewrite map_filter_delete.
  set (m := filter _ (snap_Trackers s)).
  assert (Hl : m !! k = Some t) by (by apply map_lookup_filter_Some_2).
  rewrite (map_size_delete_Some k m) by (by exists t).
  assert (size m <> 0%nat) by (intros H0%map_size_empty_inv; rewrite H0 in Hl; done).
  lia.
Qed.

Lemma advance_body_pending p now k t s :
  snap_Trackers s !! k = Some t -> due now s t ->
  exists s', advance_body cfg p k t s = (s', true)
             /\ S (size (pending_trackers s')) = size (pending_trackers s).
Proof.
  intros Hk [Hp Hd]. unfold advance_body, is_pending in *.
  destruct (trk_Phase t) eqn:Hph; try done.
  - exists (activate cfg p k t s). split; [done|].
    destruct (snap_Incidents s !! trk_IncidentID t) as [i|] eqn:Hi.
    + apply (pending_trackers_insert k t (set_trk_Phase phaseActive t)); try done.
      * unfold is_pending. by rewrite Hph.
      * by apply (activate_core p k t i s).
    + unfold activate. rewrite Hi. apply (pending_trackers_delete k t); [done|].
      unfold is_pending. by rewrite Hph.
  - exists (resolve cfg k t s). split; [done|].
    destruct (snap_Incidents s !! trk_IncidentID t) as [i|] eqn:Hi.
    + apply (pending_trackers_insert k t (healthy_tracker (trk_LastEvidenceAt t))); try done.
      * unfold is_pending. by rewrite Hph.
      * by apply (resolve_core k t i s).
    + unfold resolve. rewrite Hi. apply (pending_trackers_delete k t); [done|].
      unfold is_pending. by rewrite Hph.
Qed.

(** What a run of the loop gives, for any property its body preserves. *)
Lemma advance_loop_ind (P : Snapshot -> Prop) fuel p now s c :
  (forall q k t s, P s -> snap_Trackers s !! k = Some t -> due now s t ->
     P (advance_body cfg q k t s).1) ->
  P s -> (size (pending_trackers s) < fuel)%nat ->
  exists s' c', advance_loop cfg fuel p now s c = Some (s', c') /\ P s'
    /\ (forall k t, snap_Trackers s' !! k = Some t -> ~ due now s' t)
    /\ (c' = false -> s' = s) /\ (c = true -> c' = true).
Proof.
  intros Hbody. revert s c. induction fuel as [|n IH]; intros s c Hs Hlt; [lia|].
  cbn. destruct (nextDueTrackerLocked _ _ _ _) as [[k t]|] eqn:Hnext.
  2:{ exists s, c. repeat split; try done. by eapply nextDue_None. }
  apply nextDue_Some in Hnext as [Hk Hd].
  destruct (advance_body_pending (1%nat :: n :: p) now k t s Hk Hd) as (s' & Hb & Hsz).
  rewrite Hb, orb_true_r.
  destruct (IH s' true) as (s'' & c'' & Hl & HP & Hn & _ & Hc'); [|lia|].
  { replace s' with (advance_body cfg (1%nat :: n :: p) k t s).1 by (by rewrite Hb).
    by apply Hbody. }
  exists s'', c''. rewrite (Hc' eq_refl) in *. repeat split; done.
Qed.

Lemma advanceLocked_ind (P : Snapshot -> Prop) p now s :
  (forall q k t s, P s -> snap_Trackers s !! k = Some t -> due now s t ->
     P (advance_body cfg q k t s).1) ->
  P s ->
  P (advanceLocked cfg p now s).1
  /\ (forall k t, snap_Trackers (advanceLocked cfg p now s).1 !! k = Some t ->
        ~ due now (advanceLocked cfg p now s).1 t)
  /\ ((advanceLocked cfg p now s).2 = false -> (advanceLocked cfg p now s).1 = s).
Proof.
  intros Hbody Hs.
  destruct (advance_loop_ind P (S (size (pending_trackers s))) p now s false Hbody Hs)
    as (s' & c' & Hl & HP & Hn & Hc & _); [lia|].
  unfold advanceLocked. rewrite Hl. done.
Qed.

Lemma advance_preserves (P : Snapshot -> Prop) p now s :
  (forall q k t s, P s -> snap_Trackers s !! k = Some t -> due now s t ->
     P (advance_body cfg q k t s).1) ->
  P s -> P (advanceLocked cfg p now s).1.
Proof. intros Hb Hs. by apply (advanceLocked_ind P p now s Hb Hs). Qed.

(** Every timer that runs out leaves one pending tracker fewer. *)
Lemma advance_loop_fewer fuel p now s c s' c' :
  advance_loop cfg fuel p now s c = Some (s', c') ->
  (size (pending_trackers s') <= size (pending_trackers s))%nat
  /\ (c = false -> c' = true -> (size (pending_trackers s') < size (pending_trackers s))%nat).
Proof.
  revert p s c. induction fuel as [|n IH]; intros p s c; [done|]. cbn.
  destruct (nextDueTrackerLocked _ _ _ _) as [[k t]|] eqn:Hnext; [|intros [= <- <-]; split; [lia|congruence]].
  apply nextDue_Some in Hnext as [Hk Hd].
  destruct (advance_body_pending (1%nat :: n :: p) now k t s Hk Hd) as (s1 & -> & Hsz).
  intros Hl. destruct (IH _ _ _ Hl) as [Hle _]. split; [|intros _ _]; lia.
Qed.

Lemma advanceLocked_changed p now s :
  (advanceLocked cfg p now s).2 = true -> (advanceLocked cfg p now s).1 <> s.
Proof.
  unfold advanceLocked.
  destruct (advance_loop cfg _ p now s false) as [[s' c']|] eqn:Hl; [|done]. cbn. intros -> Heq. subst s'.
  destruct (advance_loop_fewer _ _ _ _ _ _ _ Hl) as [_ H]. specialize (H eq_refl eq_refl). lia.
Qed.

(** With nothing due the call changes nothing. *)
Lemma advance_nothing_due p now s :
  (forall k t, snap_Trackers s !! k = Some t -> ~ due now s t) ->
  advanceLocked cfg p now s = (s, false).
Proof.
  intros Hn. unfold advanceLocked. cbn.
  destruct (nextDueTrackerLocked _ _ _ _) as [[k t]|] eqn:Hnext; [|done].
  apply nextDue_Some in Hnext as [Hk Hd]. by destruct (Hn k t Hk).
Qed.

End Advance.
