(* ===== verification/EngineWf.v ===== *)
(** The coherence invariant of the engine's state: every open tracker points to
    the incident of its own interface, in the state its phase says, with the
    same start; every open incident is pointed to by the tracker of its
    interface; every incident's timestamps are the ones its state calls for.
    Every operation that changes trackers or incidents preserves it. *)
From Stdlib Require Import ZArith Lia.
From S2P Require Import Prelude.
From S2P Require Import GoStd.
From S2P Require Import Model.
From S2P Require Import Classify.
From S2P Require Import EngineState.
From S2P Require Import Engine.
From S2P Require Import EngineLemmas.

(** ** The invariant *)

Definition confirmed_at (i : Incident) : Time := (inc_StartedAt i + inc_DownAfter i)%Z.

(** Which of the three optional times an incident carries, by its state. *)
Definition shape (i : Incident) : Prop :=
  match inc_State i with
  | StatePendingFailure =>
    inc_ActivatedAt i = None /\ inc_RecoveryFirstAt i = None /\ inc_ResolvedAt i = None
  | StateActive =>
    inc_ActivatedAt i = Some (confirmed_at i) /\ inc_RecoveryFirstAt i = None
    /\ inc_ResolvedAt i = None
  | StatePendingRecovery =>
    inc_ActivatedAt i = Some (confirmed_at i) /\ inc_ResolvedAt i = None
    /\ exists r, inc_RecoveryFirstAt i = Some r /\ (inc_StartedAt i <= r)%Z
  | StateResolved =>
    inc_ActivatedAt i = Some (confirmed_at i)
    /\ exists r, inc_RecoveryFirstAt i = Some r /\ (inc_StartedAt i <= r)%Z
                 /\ inc_ResolvedAt i = Some (r + inc_RecoveredAfter i)%Z
  end.

Record incident_ok (i : Incident) : Prop := {
  iok_down : (0 < inc_DownAfter i)%Z;
  iok_recovered : (0 < inc_RecoveredAfter i)%Z;
  iok_last : (inc_StartedAt i <= inc_LastEvidenceAt i)%Z;
  iok_shape : shape i
}.

(** The incident state an open phase stands for. *)
Definition open_state (ph : phase) : option State :=
  match ph with
  | phaseNone | phaseHealthy => None
  | phasePendingFailure => Some StatePendingFailure
  | phaseActive => Some StateActive
  | phasePendingRecovery => Some StatePendingRecovery
  end.

Definition incident_key (i : Incident) : string := tracker_key (inc_Hostname i) (inc_Interface i).

Record linked (key : string) (t : tracker) (i : Incident) : Prop := {
  lk_key : incident_key i = key;
  lk_state : open_state (trk_Phase t) = Some (inc_State i);
  lk_start : inc_StartedAt i = trk_PendingSince t;
  lk_recovery : trk_Phase t = phasePendingRecovery -> inc_RecoveryFirstAt i = Some (trk_RecoverySince t);
  lk_last : (inc_LastEvidenceAt i <= trk_LastEvidenceAt t)%Z;
  lk_notify : inc_Notify i = trk_Notify t
}.

(** A tracker with no failure under way. *)
Definition idle (t : tracker) : Prop :=
  trk_Phase t = phaseHealthy /\ trk_ReachabilityDown t = false.

Definition tracker_ok (s : Snapshot) (key : string) (t : tracker) : Prop :=
  match open_state (trk_Phase t) with
  | None => idle t
  | Some _ => exists i, snap_Incidents s !! trk_IncidentID t = Some i /\ linked key t i
  end.

Record wf (s : Snapshot) : Prop := {
  wf_incident : forall id i, snap_Incidents s !! id = Some i -> inc_ID i = id /\ incident_ok i;
  wf_tracker : forall k t, snap_Trackers s !! k = Some t -> tracker_ok s k t;
  wf_last : forall k t, snap_Trackers s !! k = Some t -> trk_LastEvidenceAt t <> 0%Z;
  wf_open : forall id i, snap_Incidents s !! id = Some i -> inc_State i <> StateResolved ->
    exists t, snap_Trackers s !! incident_key i = Some t
              /\ open_state (trk_Phase t) <> None /\ trk_IncidentID t = id
}.

Definition config_ok (cfg : Config) : Prop :=
  (0 < cfg_DownAfter cfg)%Z /\ (0 < cfg_RecoveredAfter cfg)%Z.

(** ** Consequences *)

Section Facts.
Context {s : Snapshot} (Hwf : wf s).

Lemma wf_linked k t :
  snap_Trackers s !! k = Some t -> open_state (trk_Phase t) <> None ->
  exists i, snap_Incidents s !! trk_IncidentID t = Some i /\ linked k t i
            /\ inc_ID i = trk_IncidentID t /\ incident_ok i.
Proof using Hwf.
  intros Hk Ho. pose proof (wf_tracker s Hwf k t Hk) as Ht. unfold tracker_ok in Ht.
  destruct (open_state (trk_Phase t)); [|done].
  destruct Ht as (i & Hi & Hl). exists i. by destruct (wf_incident s Hwf _ _ Hi).
Qed.

(** Two open trackers never share an incident. *)
Lemma wf_distinct k1 t1 k2 t2 :
  snap_Trackers s !! k1 = Some t1 -> snap_Trackers s !! k2 = Some t2 ->
  open_state (trk_Phase t1) <> None -> open_state (trk_Phase t2) <> None ->
  trk_IncidentID t1 = trk_IncidentID t2 -> k1 = k2.
Proof using Hwf.
  intros H1 H2 O1 O2 Hid.
  destruct (wf_linked k1 t1 H1 O1) as (i1 & L1 & [<- ? ? ? ? ?] & _).
  destruct (wf_linked k2 t2 H2 O2) as (i2 & L2 & [<- ? ? ? ? ?] & _).
  rewrite Hid in L1. by simplify_eq.
Qed.

Lemma wf_get_tracker k :
  get_tracker s k = zero_tracker \/ snap_Trackers s !! k = Some (get_tracker s k).
Proof using. unfold get_tracker. destruct (snap_Trackers s !! k); auto. Qed.

Lemma wf_closed_tracker k :
  open_state (trk_Phase (get_tracker s k)) = None -> trk_ReachabilityDown (get_tracker s k) = false.
Proof using Hwf.
  intros Ho. destruct (wf_get_tracker k) as [Hz|Hk]; [by rewrite Hz|].
  pose proof (wf_tracker s Hwf k _ Hk) as Ht. unfold tracker_ok in Ht. rewrite Ho in Ht. apply Ht.
Qed.

Lemma wf_open_tracker k :
  open_state (trk_Phase (get_tracker s k)) <> None ->
  snap_Trackers s !! k = Some (get_tracker s k).
Proof using. intros Ho. destruct (wf_get_tracker k) as [Hz|]; [|done]. by rewrite Hz in Ho. Qed.

End Facts.

(** ** Preservation, once and for all

    An operation either moves a tracker together with its incident, opens an
    incident, drops a pending one, or touches a tracker alone. *)

Lemma wf_move s s' k t i t' i' :
  wf s -> snap_Trackers s !! k = Some t -> open_state (trk_Phase t) <> None ->
  snap_Incidents s !! trk_IncidentID t = Some i ->
  snap_Trackers s' = <[k := t']> (snap_Trackers s) -> trk_LastEvidenceAt t' <> 0%Z ->
  snap_Incidents s' = <[trk_IncidentID t := i']> (snap_Incidents s) ->
  inc_ID i' = inc_ID i -> incident_key i' = k -> incident_ok i' ->
  (trk_IncidentID t' = trk_IncidentID t /\ linked k t' i')
    \/ (idle t' /\ inc_State i' = StateResolved) ->
  wf s'.
Proof.
  intros Hwf Hk Ho Hi HT Hnz HI Hid Hkey Hok Hnew.
  destruct (wf_incident s Hwf _ _ Hi) as [Hidi _].
  constructor.
  - intros id j. rewrite HI, lookup_insert. case_decide; [|by apply (wf_incident s Hwf)].
    intros [= <-]. split; [congruence|done].
  - intros k2 t2. rewrite HT, lookup_insert. case_decide as Hkk.
    + intros [= <-]. subst k2. unfold tracker_ok. destruct Hnew as [[Heq Hl]|[Hh _]].
      * rewrite (lk_state _ _ _ Hl), Heq. exists i'. split; [|done]. by rewrite HI, lookup_insert_eq.
      * unfold idle in Hh. by rewrite (proj1 Hh).
    + intros Hk2. pose proof (wf_tracker s Hwf k2 t2 Hk2) as Ht. unfold tracker_ok in *.
      destruct (open_state (trk_Phase t2)) eqn:Ho2; [|done].
      destruct Ht as (i2 & Hi2 & Hl2). exists i2. split; [|done].
      rewrite HI, lookup_insert_ne; [done|]. intros Heq.
      apply Hkk. by eapply (wf_distinct Hwf k t k2 t2); [..|congruence|].
  - intros k2 t2. rewrite HT, lookup_insert. case_decide; [by intros [= <-]|apply (wf_last s Hwf)].
  - intros id j. rewrite HI, lookup_insert. case_decide as Hidd.
    + intros [= <-] Hopen. rewrite HT, Hkey, lookup_insert_eq. exists t'.
      destruct Hnew as [[Heq Hl]|[_ Hr]]; [|done]. rewrite (lk_state _ _ _ Hl). by subst id.
    + intros Hj Hopen. destruct (wf_open s Hwf id j Hj Hopen) as (t2 & Ht2 & Ho2 & <-).
      exists t2. rewrite HT, lookup_insert_ne; [done|]. intros Heq.
      apply Hidd. rewrite <- Heq in Ht2. by simplify_eq.
Qed.

(** An interface with no open tracker has no open incident. *)
Lemma wf_no_open s k id i :
  wf s -> open_state (trk_Phase (get_tracker s k)) = None ->
  snap_Incidents s !! id = Some i -> incident_key i = k -> inc_State i = StateResolved.
Proof.
  intros Hwf Ho Hi <-. destruct (decide (inc_State i = StateResolved)) as [|Hne]; [done|].
  destruct (wf_open s Hwf id i Hi Hne) as (t & Ht & Hno & _).
  unfold get_tracker in Ho. by rewrite Ht in Ho.
Qed.

Lemma wf_open_incident s s' k t' i' :
  wf s -> open_state (trk_Phase (get_tracker s k)) = None ->
  snap_Incidents s !! trk_IncidentID t' = None ->
  snap_Trackers s' = <[k := t']> (snap_Trackers s) -> trk_LastEvidenceAt t' <> 0%Z ->
  snap_Incidents s' = <[trk_IncidentID t' := i']> (snap_Incidents s) ->
  inc_ID i' = trk_IncidentID t' -> incident_ok i' -> linked k t' i' ->
  wf s'.
Proof.
  intros Hwf Ho Hfree HT Hnz HI Hid Hok Hl. constructor.
  - intros id j. rewrite HI, lookup_insert. case_decide; [|by apply (wf_incident s Hwf)].
    intros [= <-]. split; [congruence|done].
  - intros k2 t2. rewrite HT, lookup_insert. case_decide as Hkk.
    + intros [= <-]. subst k2. unfold tracker_ok. rewrite (lk_state _ _ _ Hl).
      exists i'. split; [|done]. by rewrite HI, lookup_insert_eq.
    + intros Hk2. pose proof (wf_tracker s Hwf k2 t2 Hk2) as Ht. unfold tracker_ok in *.
      destruct (open_state (trk_Phase t2)) eqn:Ho2; [|done].
      destruct Ht as (i2 & Hi2 & Hl2). exists i2. split; [|done].
      rewrite HI, lookup_insert_ne; [done|]. congruence.
  - intros k2 t2. rewrite HT, lookup_insert. case_decide; [by intros [= <-]|apply (wf_last s Hwf)].
  - intros id j. rewrite HI, lookup_insert. case_decide as Hidd.
    + intros [= <-] _. rewrite HT, (lk_key _ _ _ Hl), lookup_insert_eq. exists t'.
      by rewrite (lk_state _ _ _ Hl).
    + intros Hj Hopen. destruct (wf_open s Hwf id j Hj Hopen) as (t2 & Ht2 & Ho2 & <-).
      exists t2. rewrite HT, lookup_insert_ne; [done|]. intros Heq.
      apply Hopen. eapply wf_no_open; eauto.
Qed.

Lemma wf_drop_incident s s' k t t' :
  wf s -> snap_Trackers s !! k = Some t -> open_state (trk_Phase t) <> None ->
  snap_Trackers s' = <[k := t']> (snap_Trackers s) -> trk_LastEvidenceAt t' <> 0%Z ->
  snap_Incidents s' = delete (trk_IncidentID t) (snap_Incidents s) ->
  idle t' -> wf s'.
Proof.
  intros Hwf Hk Ho HT Hnz HI Hh. constructor.
  - intros id j. rewrite HI. intros [_ Hj]%lookup_delete_Some. by apply (wf_incident s Hwf).
  - intros k2 t2. rewrite HT, lookup_insert. case_decide as Hkk.
    + intros [= <-]. unfold tracker_ok. by rewrite (proj1 Hh).
    + intros Hk2. pose proof (wf_tracker s Hwf k2 t2 Hk2) as Ht. unfold tracker_ok in *.
      destruct (open_state (trk_Phase t2)) eqn:Ho2; [|done].
      destruct Ht as (i2 & Hi2 & Hl2). exists i2. split; [|done].
      rewrite HI, lookup_delete_ne; [done|]. intros Heq.
      apply Hkk. by eapply (wf_distinct Hwf k t k2 t2); [..|congruence|].
  - intros k2 t2. rewrite HT, lookup_insert. case_decide; [by intros [= <-]|apply (wf_last s Hwf)].
  - intros id j. rewrite HI. intros [Hne Hj]%lookup_delete_Some Hopen.
    destruct (wf_open s Hwf id j Hj Hopen) as (t2 & Ht2 & Ho2 & <-).
    exists t2. rewrite HT, lookup_insert_ne; [done|]. intros Heq.
    rewrite <- Heq in Ht2. by simplify_eq.
Qed.

(** A tracker changed alone: it keeps its phase and incident, or it was absent
    or healthy and is healthy afterwards. *)
Lemma wf_touch s s' k t' :
  wf s ->
  snap_Trackers s' = <[k := t']> (snap_Trackers s) -> trk_LastEvidenceAt t' <> 0%Z ->
  snap_Incidents s' = snap_Incidents s ->
  (open_state (trk_Phase (get_tracker s k)) = None /\ idle t')
  \/ (open_state (trk_Phase (get_tracker s k)) <> None
      /\ trk_IncidentID t' = trk_IncidentID (get_tracker s k)
      /\ forall i, linked k (get_tracker s k) i -> linked k t' i) ->
  wf s'.
Proof.
  intros Hwf HT Hnz HI Hcase. constructor.
  - intros id j. rewrite HI. apply (wf_incident s Hwf).
  - intros k2 t2. rewrite HT, lookup_insert. case_decide as Hkk.
    + intros [= <-]. subst k2. unfold tracker_ok. destruct Hcase as [[_ Hh]|(Ho & Hid & Hlink)].
      * by rewrite (proj1 Hh).
      * destruct (wf_linked Hwf k _ (wf_open_tracker k Ho) Ho) as (i & Hi & Hl & _).
        rewrite (lk_state _ _ _ (Hlink i Hl)), HI, Hid. eauto.
    + intros Hk2. pose proof (wf_tracker s Hwf k2 t2 Hk2) as Ht. unfold tracker_ok in *.
      by rewrite HI.
  - intros k2 t2. rewrite HT, lookup_insert. case_decide; [by intros [= <-]|apply (wf_last s Hwf)].
  - intros id j. rewrite HI. intros Hj Hopen.
    destruct (wf_open s Hwf id j Hj Hopen) as (t2 & Ht2 & Ho2 & <-).
    destruct (decide (k = incident_key j)) as [->|Hne].
    + destruct Hcase as [[Ho _]|(Ho & Hid & Hlink)].
      { by destruct Hopen; eapply wf_no_open. }
      exists t'. rewrite HT, lookup_insert_eq.
      assert (Hget : get_tracker s (incident_key j) = t2) by (unfold get_tracker; by rewrite Ht2).
      destruct (wf_linked Hwf _ _ (wf_open_tracker _ Ho) Ho) as (i & Hi & Hl & _).
      rewrite (lk_state _ _ _ (Hlink i Hl)). repeat split; [done..|]. congruence.
    + exists t2. by rewrite HT, lookup_insert_ne.
Qed.

(** ** Timers preserve the invariant *)

Lemma shape_confirmed i :
  shape i -> inc_State i <> StatePendingFailure -> inc_ActivatedAt i = Some (confirmed_at i).
Proof. unfold shape. destruct (inc_State i); naive_solver. Qed.

(** The links of an open tracker, with its phase known. *)
Ltac open_links Hwf Hph :=
  match type of Hph with
  | trk_Phase ?t = _ =>
    assert (Ho : open_state (trk_Phase t) <> None) by (by rewrite Hph);
    pose proof (wf_open_tracker _ Ho) as Hk;
    destruct (wf_linked Hwf _ _ Hk Ho) as (i & Hi & Hl & Hid & Hok);
    pose proof (lk_state _ _ _ Hl) as Hls; rewrite Hph in Hls; injection Hls as Hls;
    pose proof (iok_shape _ Hok) as Hsh; unfold shape in Hsh; rewrite <- Hls in Hsh
  end.

Section Preservation.
Context {GR : GoRange} {cfg : Config}.

Lemma activated_incident_ok k t i :
  linked k t i -> incident_ok i -> trk_Phase t = phasePendingFailure ->
  incident_ok (activated_incident t i) /\ linked k (set_trk_Phase phaseActive t) (activated_incident t i).
Proof.
  intros [Hkey Hst Hstart Hrec Hlast Hn] [? ? ? Hsh] Hp.
  rewrite Hp in Hst. injection Hst as Hst. unfold shape in Hsh. rewrite <- Hst in Hsh.
  destruct Hsh as (_ & Hr & Hv). split.
  - constructor; cbn; try done. unfold shape, confirmed_at; cbn. by rewrite Hstart.
  - constructor; cbn; done.
Qed.

Lemma resolved_incident_ok k t i :
  linked k t i -> incident_ok i -> trk_Phase t = phasePendingRecovery ->
  incident_ok (resolved_incident t i).
Proof.
  intros [Hkey Hst Hstart Hrec Hlast Hn] [? ? ? Hsh] Hp.
  specialize (Hrec Hp). rewrite Hp in Hst. injection Hst as Hst.
  unfold shape in Hsh. rewrite <- Hst in Hsh. destruct Hsh as (Ha & _ & r & Hr & Hle).
  constructor; cbn; try done. unfold shape; cbn. split; [done|].
  exists r. rewrite Hr in Hrec. injection Hrec as <-. done.
Qed.

Lemma advance_body_wf q now k t s :
  wf s -> snap_Trackers s !! k = Some t -> due now s t -> wf (advance_body cfg q k t s).1.
Proof.
  intros Hwf Hk [Hp _].
  assert (Ho : open_state (trk_Phase t) <> None) by (unfold is_pending in Hp; by destruct (trk_Phase t)).
  destruct (wf_linked Hwf k t Hk Ho) as (i & Hi & Hl & Hid & Hok).
  unfold advance_body, is_pending in *. destruct (trk_Phase t) eqn:Hph; try done; cbn.
  - destruct (activate_core cfg q k t i s Hi) as [HT HI]. rewrite Hid in HI.
    destruct (activated_incident_ok k t i Hl Hok Hph) as [Hok' Hl'].
    eapply (wf_move s _ k t i); eauto; [by rewrite Hph|exact (wf_last s Hwf k t Hk)|by destruct Hl].
  - destruct (resolve_core cfg k t i s Hi) as [HT HI]. rewrite Hid in HI.
    pose proof (resolved_incident_ok k t i Hl Hok Hph).
    eapply (wf_move s _ k t i);
      eauto; [by rewrite Hph|exact (wf_last s Hwf k t Hk)|by destruct Hl|by right].
Qed.

Lemma advance_wf p now s : wf s -> wf (advanceLocked cfg p now s).1.
Proof. apply advance_preserves. intros. by eapply advance_body_wf. Qed.

(** ** Evidence preserves the invariant *)

(** Evidence that is not stale is not older than the tracker's last one. *)
Lemma not_stale_le s k e t :
  wf s -> snap_Trackers s !! k = Some t -> stale_evidence e t = false ->
  (trk_LastEvidenceAt t <= ev_at e)%Z.
Proof.
  unfold stale_evidence, IsZero, Before. intros Hwf Hk Hs.
  pose proof (wf_last s Hwf k t Hk).
  apply andb_false_iff in Hs as [Hs|Hs]; [apply negb_false_iff in Hs|]; lia.
Qed.

(** The timers never change when an interface was last heard of. *)
Lemma advance_body_last q now k t s k2 :
  wf s -> snap_Trackers s !! k = Some t -> due now s t ->
  trk_LastEvidenceAt (get_tracker (advance_body cfg q k t s).1 k2)
  = trk_LastEvidenceAt (get_tracker s k2).
Proof.
  intros Hwf Hk [Hp _].
  assert (Ho : open_state (trk_Phase t) <> None) by (unfold is_pending in Hp; by destruct (trk_Phase t)).
  destruct (wf_linked Hwf k t Hk Ho) as (i & Hi & _).
  unfold advance_body, is_pending, get_tracker in *. destruct (trk_Phase t) eqn:Hph; try done; cbn.
  - rewrite (proj1 (activate_core cfg q k t i s Hi)), lookup_insert.
    case_decide; [subst|done]. by rewrite Hk.
  - rewrite (proj1 (resolve_core cfg k t i s Hi)), lookup_insert.
    case_decide; [subst|done]. by rewrite Hk.
Qed.

Lemma advance_last p now s k :
  wf s ->
  trk_LastEvidenceAt (get_tracker (advanceLocked cfg p now s).1 k)
  = trk_LastEvidenceAt (get_tracker s k).
Proof.
  intros Hwf.
  apply (advance_preserves cfg (fun s' => wf s' /\
    trk_LastEvidenceAt (get_tracker s' k) = trk_LastEvidenceAt (get_tracker s k))); [|done].
  intros q k' t' s' [Hwf' Heq] Hk Hd. split; [by eapply advance_body_wf|].
  by rewrite <- Heq, (advance_body_last q now).
Qed.

Lemma stale_after_advance p now s k e :
  wf s -> stale_evidence e (get_tracker (advanceLocked cfg p now s).1 k)
          = stale_evidence e (get_tracker s k).
Proof. intros Hwf. unfold stale_evidence. by rewrite advance_last. Qed.

(** The tracker evidence is about to be recorded in. *)
Definition touched (e : evidence) (t : tracker) : tracker := set_trk_LastEvidenceAt (ev_at e) t.

(** The identifier evidence opens an incident under must be unused: a digest
    collision would overwrite another incident. *)
Definition opens (e : evidence) (t : tracker) : bool :=
  negb (ev_online e) && match trk_Phase t with phaseNone | phaseHealthy => true | _ => false end.

Definition evidence_id (e : evidence) : string :=
  incidentID (ev_hostname e) (ev_iface e) (ev_at e) (ev_messageID e).

Definition evidence_key (e : evidence) : string := tracker_key (ev_hostname e) (ev_iface e).

Definition id_unused (e : evidence) (s : Snapshot) : Prop :=
  opens e (get_tracker s (evidence_key e)) = true -> snap_Incidents s !! evidence_id e = None.

Lemma add_evidence_ok e i i' :
  incident_ok i' -> inc_StartedAt i' = inc_StartedAt i -> (inc_StartedAt i <= ev_at e)%Z ->
  incident_ok (add_evidence e i').
Proof. intros [? ? ? Hsh] He Hle. constructor; cbn; [done..|lia|]. exact Hsh. Qed.

(** Recording evidence on an open incident moves tracker and incident together. *)
Lemma record_evidence_wf e s s' t t' i f :
  let k := evidence_key e in
  wf s -> snap_Trackers s !! k = Some t -> stale_evidence e t = false ->
  ev_at e <> 0%Z ->
  snap_Incidents s !! trk_IncidentID t = Some i -> linked k t i ->
  s' = put_tracker k t' (update_incident (trk_IncidentID t) (fun i => add_evidence e (f i)) s) ->
  trk_IncidentID t' = trk_IncidentID t -> trk_LastEvidenceAt t' = ev_at e ->
  (incident_ok (f i) /\ inc_StartedAt (f i) = inc_StartedAt i /\ inc_ID (f i) = inc_ID i
   /\ incident_key (f i) = incident_key i
   /\ open_state (trk_Phase t') = Some (inc_State (f i))
   /\ trk_PendingSince t' = trk_PendingSince t
   /\ (trk_Phase t' = phasePendingRecovery -> inc_RecoveryFirstAt (f i) = Some (trk_RecoverySince t'))
   /\ inc_Notify (f i) = trk_Notify t') ->
  wf s'.
Proof.
  intros k Hwf Hk Hst Hnz Hi Hl -> Hid Hlast (Hok & Hstart & Hfid & Hfkey & Hos & Hps & Hrec & Hn).
  destruct (wf_incident s Hwf _ _ Hi) as [Hidi [_ _ Hle _]].
  pose proof (not_stale_le s k e t Hwf Hk Hst). pose proof (lk_last _ _ _ Hl).
  pose proof (lk_key _ _ _ Hl). pose proof (lk_start _ _ _ Hl). pose proof (lk_state _ _ _ Hl) as Hls.
  eapply (wf_move s _ k t i t' (add_evidence e (f i)));
    [done|done|by rewrite Hls|done|by snap_simpl|by rewrite Hlast|..].
  - snap_simpl. unfold update_incident. rewrite Hi. snap_simpl. f_equal. cbn. by rewrite Hfid.
  - cbn. by rewrite Hfid.
  - unfold incident_key in *. cbn. congruence.
  - by eapply add_evidence_ok; [|done|lia].
  - left. split; [done|].
    constructor; cbn; [unfold incident_key in *; cbn; congruence|done|congruence|done|lia|done].
Qed.

Lemma new_incident_ok id e n :
  config_ok cfg -> incident_ok (new_incident cfg id e n).
Proof. intros [? ?]. constructor; cbn; [done|done|lia|]. unfold shape; cbn. done. Qed.

Lemma observe_offline_wf e n s :
  wf s -> config_ok cfg -> ev_at e <> 0%Z ->
  stale_evidence e (get_tracker s (evidence_key e)) = false ->
  ev_online e = false -> id_unused e s ->
  let r := observe_offline cfg e n (touched e (get_tracker s (evidence_key e))) s in
  wf (put_tracker (evidence_key e) r.1 r.2).
Proof.
  intros Hwf Hcfg Hnz Hst Hon Hfree.
  unfold observe_offline. cbn [touched set_trk_LastEvidenceAt trk_Phase].
  destruct (trk_Phase (get_tracker s (evidence_key e))) eqn:Hph; cbn [fst snd].
  1,2: eapply (wf_open_incident s _ (evidence_key e));
       [done|by rewrite Hph| |by snap_simpl|done|by snap_simpl|done
         |by apply new_incident_ok|by constructor; cbn; try done; lia];
       apply Hfree; unfold opens; by rewrite Hon, Hph.
  all: open_links Hwf Hph.
  - eapply (record_evidence_wf e s _ _ _ i (set_inc_Notify _)); try done.
    destruct Hl, Hok. cbn. rewrite Hph, <- Hls. repeat split; done.
  - eapply (record_evidence_wf e s _ _ _ i (fun i => i)); try done.
    destruct Hl. cbn. rewrite Hph, <- Hls. repeat split; (done || apply Hok).
  - eapply (record_evidence_wf e s _ _ _ i
      (fun i => set_inc_RecoveryFirstAt None (set_inc_State StateActive i))); try done.
    destruct Hl, Hok, Hsh as (? & ? & _). cbn. repeat split; done.
Qed.

Lemma observe_online_wf e s :
  wf s -> ev_at e <> 0%Z ->
  stale_evidence e (get_tracker s (evidence_key e)) = false ->
  let r := observe_online e (touched e (get_tracker s (evidence_key e))) s in
  wf (put_tracker (evidence_key e) r.1 r.2).
Proof.
  intros Hwf Hnz Hst.
  unfold observe_online. cbn [touched set_trk_LastEvidenceAt trk_Phase].
  destruct (trk_Phase (get_tracker s (evidence_key e))) eqn:Hph; cbn [fst snd].
  1,2: eapply (wf_touch s _ (evidence_key e)); [done|by snap_simpl|done|done|];
       left; rewrite Hph; repeat split; try done; cbn; by apply wf_closed_tracker; [|rewrite Hph].
  all: open_links Hwf Hph.
  - eapply (wf_drop_incident s _ (evidence_key e) _ _ Hwf Hk Ho); by snap_simpl.
  - eapply (record_evidence_wf e s _ _ _ i (fun i =>
      set_inc_RecoveryFirstAt (Some (ev_at e)) (set_inc_State StatePendingRecovery i))); try done.
    pose proof (not_stale_le _ _ _ _ Hwf Hk Hst).
    destruct Hl, Hok, Hsh as (? & ? & ?). cbn. repeat split; try done.
    exists (ev_at e). split; [done|]. cbn. lia.
  - eapply (record_evidence_wf e s _ _ _ i (fun i => i)); try done.
    destruct Hl. cbn. rewrite Hph, <- Hls. repeat split; (done || apply Hok || intros _; by apply lk_recovery0).
Qed.

(** ** Whole operations *)

Lemma classify_netifd_at iface status mk cs e (P : evidence -> Prop) :
  (forall c b, P (mk c b)) -> classify_netifd iface status mk cs = Some e -> P e.
Proof.
  intros Hmk. induction cs as [|c cs IH]; cbn; [done|].
  case_match; [by intros [= <-]|apply IH].
Qed.

Lemma classify_repeater_at status mk cs e (P : evidence -> Prop) :
  (forall c b, P (mk c b)) -> classify_repeater status mk cs = Some e -> P e.
Proof.
  intros Hmk. induction cs as [|c cs IH]; cbn; [done|].
  case_match; [by intros [= <-]|apply IH].
Qed.

Lemma classify_at m iface e : classify m iface = Some e -> ev_at e = msg_ReceivedAt m /\ ev_at e <> 0%Z.
Proof.
  unfold classify, IsZero. case_match eqn:Hz; [done|].
  apply orb_false_iff in Hz as [_ Hz]. intros He.
  assert (ev_at e = msg_ReceivedAt m); [|split; [done|lia]].
  revert He. repeat case_match; try done.
  - by apply (classify_netifd_at _ _ _ _ e (fun e => ev_at e = msg_ReceivedAt m)).
  - by intros [= <-].
  - by apply (classify_repeater_at _ _ _ e (fun e => ev_at e = msg_ReceivedAt m)).
Qed.

(** The id is unused at the moment the evidence is recorded, after the timers. *)
Definition id_fresh (p : list nat) (e : evidence) (s : Snapshot) : Prop :=
  id_unused e (advanceLocked cfg p (ev_at e) s).1.

Lemma observe_evidence_wf p e n s :
  wf s -> config_ok cfg -> ev_at e <> 0%Z -> id_fresh p e s ->
  wf (observe_evidence cfg p e n s).
Proof.
  intros Hwf Hcfg Hnz Hfree. unfold observe_evidence. fold (evidence_key e).
  destruct (stale_evidence e (get_tracker s (evidence_key e))) eqn:Hst; [done|].
  destruct (ev_observeOnly e).
  { eapply (wf_touch s _ (evidence_key e)); [done|by snap_simpl|by case_decide|by snap_simpl|].
    destruct (open_state (trk_Phase (get_tracker s (evidence_key e)))) eqn:Ho.
    - right. case_decide as Hd; [by rewrite Hd in Ho|]. split; [done|]. split; [done|].
      pose proof (not_stale_le _ _ e _ Hwf (wf_open_tracker _ ltac:(by rewrite Ho)) Hst).
      intros i []. constructor; cbn; try done. lia.
    - left. pose proof (wf_closed_tracker Hwf _ Ho). split; [done|].
      split; case_decide; [done| |done|done]. cbn. by destruct (trk_Phase _). }
  pose proof (advance_wf p (ev_at e) s Hwf) as Hwf'.
  rewrite <- (stale_after_advance p (ev_at e) s) in Hst by done.
  unfold id_fresh in Hfree. set (s' := (advanceLocked cfg p (ev_at e) s).1) in *.
  destruct (masked_recovery _ _ _); [done|]. fold (touched e (get_tracker s' (evidence_key e))).
  destruct (ev_online e) eqn:Hon.
  - pose proof (observe_online_wf e s' Hwf' Hnz Hst) as H. cbv zeta in H.
    by destruct (observe_online _ _ _).
  - pose proof (observe_offline_wf e n s' Hwf' Hcfg Hnz Hst Hon Hfree) as H. cbv zeta in H.
    by destruct (observe_offline _ _ _ _ _).
Qed.

(** No digest collision when a message is observed, and over a batch. *)
Definition message_fresh (p : list nat) (m : Message) (s : Snapshot) : Prop :=
  match classify m (cfg_Interface cfg) with
  | None => True
  | Some e => id_fresh p e s
  end.

Fixpoint batch_fresh (i : nat) (p : list nat) (os : list Observation) (s : Snapshot) : Prop :=
  match os with
  | [] => True
  | o :: rest =>
    message_fresh (i :: p) (obs_Message o) s
    /\ batch_fresh (S i) p rest
         (observeLocked cfg (i :: p) (obs_Message o) (obs_NotifyEligible o) (obs_SourceRef o) s)
  end.

Lemma observeLocked_wf p m n r s :
  wf s -> config_ok cfg -> message_fresh p m s -> wf (observeLocked cfg p m n r s).
Proof.
  intros Hwf Hcfg Hf. unfold observeLocked, message_fresh in *.
  destruct (classify m _) as [e|] eqn:He; [|done].
  apply classify_at in He as [_ Hnz].
  by apply observe_evidence_wf.
Qed.

Lemma observe_all_wf i p os s :
  wf s -> config_ok cfg -> batch_fresh i p os s -> wf (observe_all cfg i p os s).
Proof.
  intros Hwf Hcfg. revert i s Hwf. induction os as [|o os IH]; intros i s Hwf; [done|].
  cbn. intros [Hf Hb]. apply IH; [|done]. by apply observeLocked_wf.
Qed.

End Preservation.
