(* ===== verification/EngineSpec.v ===== *)
(** What the engine promises about one interface, without maps, records or
    timers of other interfaces: a debounced link.  [abs s k] reads the link of
    interface [k] off the engine's state; the refinement says that the engine,
    which serves every interface from one state and one timer loop, moves each
    link exactly as the link's own machine does. *)
From Stdlib Require Import ZArith Lia.
From S2P Require Import Prelude.
From S2P Require Import GoStd.
From S2P Require Import Model.
From S2P Require Import Classify.
From S2P Require Import EngineState.
From S2P Require Import Engine.
From S2P Require Import EngineLemmas.
From S2P Require Import EngineWf.

(** ** The debounced link *)

(** A failure under way: its incident, its start, the thresholds captured when
    it started, whether reachability evidence opened or joined it. *)
Record failure : Type := {
  fl_incident : string;
  fl_since : Time;
  fl_down_after : Duration;
  fl_recovered_after : Duration;
  fl_reachability : bool;
  fl_notify : bool
}.

Inductive link : Type :=
| link_unknown
| link_up
| link_confirming (f : failure)
| link_down (f : failure)
| link_recovering (f : failure) (since : Time).

(** A link with the time of its last evidence (zero: none yet). *)
Definition link_state : Type := Time * link.

Definition link_timer (now : Time) (l : link) : link :=
  match l with
  | link_confirming f => if (fl_since f + fl_down_after f <=? now)%Z then link_down f else l
  | link_recovering f since => if (since + fl_recovered_after f <=? now)%Z then link_up else l
  | _ => l
  end.

Definition link_timer_state (now : Time) (l : link_state) : link_state := (l.1, link_timer now l.2).

Definition join_reachability (r : bool) (f : failure) : failure :=
  {| fl_incident := fl_incident f; fl_since := fl_since f; fl_down_after := fl_down_after f;
     fl_recovered_after := fl_recovered_after f; fl_reachability := fl_reachability f || r;
     fl_notify := fl_notify f |}.

Definition join_notify (n : bool) (f : failure) : failure :=
  {| fl_incident := fl_incident f; fl_since := fl_since f; fl_down_after := fl_down_after f;
     fl_recovered_after := fl_recovered_after f; fl_reachability := fl_reachability f;
     fl_notify := fl_notify f || n |}.

(** "Offline" evidence at a link whose timers are up to date. *)
Definition link_offline (cfg : Config) (e : evidence) (notify : bool) (l : link) : link :=
  match l with
  | link_unknown | link_up =>
    link_confirming
      {| fl_incident := evidence_id e; fl_since := ev_at e; fl_down_after := cfg_DownAfter cfg;
         fl_recovered_after := cfg_RecoveredAfter cfg; fl_reachability := ev_reachability e;
         fl_notify := notify |}
  | link_confirming f => link_confirming (join_notify notify (join_reachability (ev_reachability e) f))
  | link_down f => link_down (join_reachability (ev_reachability e) f)
  | link_recovering f _ => link_down (join_reachability (ev_reachability e) f)
  end.

(** "Online" evidence. *)
Definition link_online (e : evidence) (l : link) : link :=
  match l with
  | link_unknown | link_up | link_confirming _ => link_up
  | link_down f => link_recovering f (ev_at e)
  | link_recovering f since => link_recovering f since
  end.

Definition link_reachability_down (l : link) : bool :=
  match l with
  | link_confirming f | link_down f | link_recovering f _ => fl_reachability f
  | _ => false
  end.

Definition link_stale (e : evidence) (l : link_state) : bool :=
  negb (IsZero l.1) && Before (ev_at e) l.1.

(** Evidence at its own link. *)
Definition link_evidence (cfg : Config) (e : evidence) (notify : bool) (l : link_state) : link_state :=
  if link_stale e l then l
  else if ev_observeOnly e then
    (ev_at e, match l.2 with link_unknown => link_up | x => x end)
  else
    let x := link_timer (ev_at e) l.2 in
    if ev_online e && String.eqb (ev_iface e) (cfg_Interface cfg)
       && link_reachability_down x && negb (ev_reachability e)
    then (l.1, x)
    else (ev_at e, if ev_online e then link_online e x else link_offline cfg e notify x).

(** ** The abstraction *)

Definition failure_of (t : tracker) (i : Incident) : failure :=
  {| fl_incident := trk_IncidentID t; fl_since := trk_PendingSince t;
     fl_down_after := inc_DownAfter i; fl_recovered_after := inc_RecoveredAfter i;
     fl_reachability := trk_ReachabilityDown t; fl_notify := trk_Notify t |}.

Definition link_of (s : Snapshot) (t : tracker) : link :=
  match trk_Phase t, snap_Incidents s !! trk_IncidentID t with
  | phaseNone, _ => link_unknown
  | phaseHealthy, _ => link_up
  | phasePendingFailure, Some i => link_confirming (failure_of t i)
  | phaseActive, Some i => link_down (failure_of t i)
  | phasePendingRecovery, Some i => link_recovering (failure_of t i) (trk_RecoverySince t)
  | _, None => link_unknown
  end.

Definition abs (s : Snapshot) (key : string) : link_state :=
  let t := get_tracker s key in (trk_LastEvidenceAt t, link_of s t).

(** ** Reading a link off the state *)

Lemma abs_tracker s k t : snap_Trackers s !! k = Some t -> abs s k = (trk_LastEvidenceAt t, link_of s t).
Proof. intros Hk. unfold abs, get_tracker. by rewrite Hk. Qed.

Lemma link_of_open s t i :
  snap_Incidents s !! trk_IncidentID t = Some i ->
  link_of s t = match trk_Phase t with
                | phaseNone => link_unknown
                | phaseHealthy => link_up
                | phasePendingFailure => link_confirming (failure_of t i)
                | phaseActive => link_down (failure_of t i)
                | phasePendingRecovery => link_recovering (failure_of t i) (trk_RecoverySince t)
                end.
Proof. intros Hi. unfold link_of. rewrite Hi. by destruct (trk_Phase t). Qed.

(** A change confined to one tracker and to an incident no other open tracker
    uses leaves every other link alone. *)
Lemma abs_frame s s' k id k2 :
  wf s -> k2 <> k ->
  snap_Trackers s' !! k2 = snap_Trackers s !! k2 ->
  (forall id', id' <> id -> snap_Incidents s' !! id' = snap_Incidents s !! id') ->
  (forall t2, snap_Trackers s !! k2 = Some t2 -> open_state (trk_Phase t2) <> None ->
     trk_IncidentID t2 <> id) ->
  abs s' k2 = abs s k2.
Proof.
  intros Hwf Hne HT HI Hid. unfold abs, get_tracker. rewrite HT.
  destruct (snap_Trackers s !! k2) as [t2|] eqn:Hk2; cbn; [|done].
  f_equal. unfold link_of. specialize (Hid t2 eq_refl).
  destruct (trk_Phase t2) eqn:Hph; try done; by rewrite HI by (by apply Hid).
Qed.

Section Timers.
Context {GR : GoRange} (cfg : Config).

Lemma advance_body_abs q now k t s k2 :
  wf s -> snap_Trackers s !! k = Some t -> due now s t ->
  abs (advance_body cfg q k t s).1 k2
  = if decide (k2 = k) then link_timer_state now (abs s k) else abs s k2.
Proof.
  intros Hwf Hk [Hp Hdue].
  assert (Ho : open_state (trk_Phase t) <> None) by (unfold is_pending in Hp; by destruct (trk_Phase t)).
  destruct (wf_linked Hwf k t Hk Ho) as (i & Hi & Hl & Hid & Hok).
  rewrite Hi in Hdue. unfold due_at, link_timer_state in *.
  rewrite (abs_tracker s k t Hk), (link_of_open s t i Hi).
  unfold advance_body, is_pending in *. destruct (trk_Phase t) eqn:Hph; try done; cbn [fst snd].
  - destruct (activate_core cfg q k t i s Hi) as [HT HI]. rewrite Hid in HI.
    case_decide as Hkk.
    + subst k2. rewrite (abs_tracker _ k (set_trk_Phase phaseActive t)) by (by rewrite HT, lookup_insert_eq).
      erewrite link_of_open by (rewrite HI; apply lookup_insert_eq). cbn.
      by destruct (Z.leb_spec (trk_PendingSince t + inc_DownAfter i) now); [|lia].
    + eapply (abs_frame _ _ k (trk_IncidentID t)); [done|done|by rewrite HT, lookup_insert_ne|..].
      * intros id' Hne. by rewrite HI, lookup_insert_ne.
      * intros t2 Hk2 Ho2 Heq. apply Hkk. eapply (wf_distinct Hwf k2 t2 k t); (done || by rewrite Hph).
  - destruct (resolve_core cfg k t i s Hi) as [HT HI]. rewrite Hid in HI.
    case_decide as Hkk.
    + subst k2. erewrite abs_tracker by (by rewrite HT, lookup_insert_eq). cbn.
      by destruct (Z.leb_spec (trk_RecoverySince t + inc_RecoveredAfter i) now); [|lia].
    + eapply (abs_frame _ _ k (trk_IncidentID t)); [done|done|by rewrite HT, lookup_insert_ne|..].
      * intros id' Hne. by rewrite HI, lookup_insert_ne.
      * intros t2 Hk2 Ho2 Heq. apply Hkk. eapply (wf_distinct Hwf k2 t2 k t); (done || by rewrite Hph).
Qed.

Lemma link_timer_idem now l : link_timer now (link_timer now l) = link_timer now l.
Proof.
  destruct l as [| |f|f|f r]; try done; cbn.
  - destruct (fl_since f + fl_down_after f <=? now)%Z eqn:E; cbn; by rewrite ?E.
  - destruct (r + fl_recovered_after f <=? now)%Z eqn:E; cbn; by rewrite ?E.
Qed.

(** A link none of whose timers is due is not moved by its timer. *)
Lemma link_timer_not_due now s k :
  (forall k t, snap_Trackers s !! k = Some t -> ~ due now s t) ->
  link_timer_state now (abs s k) = abs s k.
Proof.
  intros Hn. unfold abs, get_tracker, link_timer_state. cbn [fst snd]. f_equal.
  destruct (snap_Trackers s !! k) as [t|] eqn:Hk; cbn; [|done].
  specialize (Hn k t Hk). unfold due, is_pending, due_at, link_of in *.
  destruct (trk_Phase t); try done; destruct (snap_Incidents s !! _) as [i|]; try done;
    cbn; case_match; try done; exfalso; apply Hn; (split; [done|lia]).
Qed.

(** The timer loop moves every link by its own timer, whatever the others do. *)
Lemma advance_abs p now s k :
  wf s -> abs (advanceLocked cfg p now s).1 k = link_timer_state now (abs s k).
Proof.
  intros Hwf.
  destruct (advanceLocked_ind cfg (fun s' => wf s' /\
    link_timer_state now (abs s' k) = link_timer_state now (abs s k)) p now s) as ([Hwf' Heq] & Hn & _);
    [|done|by rewrite <- Heq, link_timer_not_due].
  intros q k' t' s' [Hwf' Heq] Hk Hd. split; [by eapply advance_body_wf|].
  rewrite (advance_body_abs q now k' t' s' k Hwf' Hk Hd).
  case_decide; [subst|done]. rewrite <- Heq.
  unfold link_timer_state; cbn. by rewrite link_timer_idem.
Qed.

(** ** Evidence *)

Lemma link_reachability_abs s k :
  wf s -> trk_ReachabilityDown (get_tracker s k) = link_reachability_down (abs s k).2.
Proof.
  intros Hwf. unfold abs; cbn.
  destruct (open_state (trk_Phase (get_tracker s k))) eqn:Ho.
  - destruct (wf_linked Hwf k _ (wf_open_tracker k ltac:(by rewrite Ho)) ltac:(by rewrite Ho))
      as (i & Hi & _).
    rewrite (link_of_open _ _ i Hi). by destruct (trk_Phase (get_tracker s k)).
  - rewrite (wf_closed_tracker Hwf k Ho). unfold link_of.
    by destruct (trk_Phase (get_tracker s k)).
Qed.

Lemma abs_put s' s k t :
  snap_Trackers s' = <[k := t]> (snap_Trackers s) -> abs s' k = (trk_LastEvidenceAt t, link_of s' t).
Proof. intros HT. apply abs_tracker. by rewrite HT, lookup_insert_eq. Qed.

Lemma incidents_update_incident id i f s :
  snap_Incidents s !! id = Some i -> inc_ID (f i) = id ->
  snap_Incidents (update_incident id f s) = <[id := f i]> (snap_Incidents s).
Proof. intros Hi Hid. unfold update_incident. rewrite Hi. snap_simpl. by rewrite Hid. Qed.

(** Moving an open tracker with its incident: its own link and the others. *)
Lemma abs_record s k id t t' f i k2 :
  wf s -> id = trk_IncidentID t -> snap_Trackers s !! k = Some t -> open_state (trk_Phase t) <> None ->
  snap_Incidents s !! trk_IncidentID t = Some i -> inc_ID (f i) = inc_ID i ->
  trk_IncidentID t' = trk_IncidentID t ->
  abs (put_tracker k t' (update_incident id f s)) k2
  = if decide (k2 = k)
    then (trk_LastEvidenceAt t',
          match trk_Phase t' with
          | phaseNone => link_unknown
          | phaseHealthy => link_up
          | phasePendingFailure => link_confirming (failure_of t' (f i))
          | phaseActive => link_down (failure_of t' (f i))
          | phasePendingRecovery => link_recovering (failure_of t' (f i)) (trk_RecoverySince t')
          end)
    else abs s k2.
Proof.
  intros Hwf -> Hk Ho Hi Hf Hid.
  destruct (wf_incident s Hwf _ _ Hi) as [Hidi _].
  assert (HI : snap_Incidents (put_tracker k t' (update_incident (trk_IncidentID t) f s))
               = <[trk_IncidentID t := f i]> (snap_Incidents s)).
  { snap_simpl. apply incidents_update_incident; [done|congruence]. }
  case_decide as Hkk.
  - subst k2. erewrite abs_put by (by snap_simpl). f_equal.
    apply link_of_open. by rewrite HI, Hid, lookup_insert_eq.
  - eapply (abs_frame _ _ k (trk_IncidentID t)); [done|done|by snap_simpl; rewrite lookup_insert_ne|..].
    + intros id' Hne. by rewrite HI, lookup_insert_ne.
    + intros t2 Hk2 Ho2 Heq. apply Hkk. by eapply (wf_distinct Hwf k2 t2 k t).
Qed.

(** The link of an open tracker, in terms of its incident. *)
Lemma abs_open s k :
  wf s -> open_state (trk_Phase (get_tracker s k)) <> None ->
  exists i, snap_Trackers s !! k = Some (get_tracker s k)
    /\ snap_Incidents s !! trk_IncidentID (get_tracker s k) = Some i
    /\ linked k (get_tracker s k) i.
Proof.
  intros Hwf Ho. pose proof (wf_open_tracker k Ho) as Hk.
  destruct (wf_linked Hwf k _ Hk Ho) as (i & Hi & Hl & _). eauto.
Qed.

(** A new incident under an unused id. *)
Lemma abs_open_incident s k id t' i' k2 :
  wf s -> snap_Incidents s !! id = None -> trk_Phase t' = phasePendingFailure ->
  trk_IncidentID t' = id ->
  abs (put_tracker k t' (put_incident id i' s)) k2
  = if decide (k2 = k) then (trk_LastEvidenceAt t', link_confirming (failure_of t' i')) else abs s k2.
Proof.
  intros Hwf Hfree Hph <-. case_decide as Hkk.
  - subst k2. erewrite abs_put by (by snap_simpl). f_equal.
    erewrite link_of_open by (snap_simpl; apply lookup_insert_eq). by rewrite Hph.
  - eapply (abs_frame _ _ k (trk_IncidentID t')); [done|done|by snap_simpl; rewrite lookup_insert_ne|..].
    + intros id' Hne. snap_simpl. by rewrite lookup_insert_ne.
    + intros t2 Hk2 Ho2 Heq. destruct (wf_linked Hwf k2 t2 Hk2 Ho2) as (i & Hi & _). congruence.
Qed.

Lemma observe_offline_abs e n s k2 :
  wf s -> ev_online e = false -> id_unused e s ->
  let r := observe_offline cfg e n (touched e (get_tracker s (evidence_key e))) s in
  abs (put_tracker (evidence_key e) r.1 r.2) k2
  = if decide (k2 = evidence_key e)
    then (ev_at e, link_offline cfg e n (abs s (evidence_key e)).2) else abs s k2.
Proof.
  intros Hwf Hon Hfree. set (k := evidence_key e) in *.
  unfold id_unused, opens in Hfree. fold k in Hfree. rewrite Hon in Hfree.
  unfold observe_offline. cbn [touched set_trk_LastEvidenceAt trk_Phase].
  destruct (trk_Phase (get_tracker s k)) eqn:Hph; cbn [fst snd].
  1,2: cbv zeta; rewrite (abs_open_incident s k _ _ _ _ Hwf) by (done || by apply Hfree);
       unfold abs, link_of; rewrite Hph; by case_decide.
  all: destruct (abs_open s k Hwf) as (i & Hk & Hi & Hl); [by rewrite Hph|];
       rewrite (abs_tracker s k _ Hk), (link_of_open _ _ _ Hi), Hph.
  all: cbv zeta; rewrite (abs_record s k _ (get_tracker s k) _ _ i k2 Hwf eq_refl Hk)
         by (done || by rewrite Hph);
       cbn; rewrite ?Hph; by case_decide.
Qed.

Lemma abs_same s s' k2 :
  snap_Trackers s' !! k2 = snap_Trackers s !! k2 -> snap_Incidents s' = snap_Incidents s ->
  abs s' k2 = abs s k2.
Proof. intros HT HI. unfold abs, get_tracker, link_of. by rewrite HT, HI. Qed.

(** A tracker written alone. *)
Lemma abs_put_tracker s k t k2 :
  abs (put_tracker k t s) k2
  = if decide (k2 = k) then (trk_LastEvidenceAt t, link_of s t) else abs s k2.
Proof.
  case_decide as Hkk; [subst k2; by erewrite abs_put by (by snap_simpl)|].
  apply abs_same; snap_simpl; [by rewrite lookup_insert_ne|done].
Qed.

Lemma observe_online_abs e s k2 :
  wf s ->
  let r := observe_online e (touched e (get_tracker s (evidence_key e))) s in
  abs (put_tracker (evidence_key e) r.1 r.2) k2
  = if decide (k2 = evidence_key e)
    then (ev_at e, link_online e (abs s (evidence_key e)).2) else abs s k2.
Proof.
  intros Hwf. set (k := evidence_key e) in *.
  unfold observe_online. cbn [touched set_trk_LastEvidenceAt trk_Phase].
  destruct (trk_Phase (get_tracker s k)) eqn:Hph; cbn [fst snd].
  1,2: cbv zeta; rewrite abs_put_tracker; unfold abs at 2, link_of; cbn; by rewrite Hph.
  all: destruct (abs_open s k Hwf) as (i & Hk & Hi & Hl); [by rewrite Hph|];
       rewrite (abs_tracker s k _ Hk), (link_of_open _ _ _ Hi), Hph; cbv zeta.
  - rewrite abs_put_tracker. case_decide as Hkk; [done|].
    eapply (abs_frame _ _ k (trk_IncidentID (get_tracker s k))); [done|done|done|..].
    + intros id' Hne. snap_simpl. by rewrite lookup_delete_ne.
    + intros t2 Hk2 Ho2 Heq. apply Hkk. eapply (wf_distinct Hwf k2 t2 k); (done || by rewrite Hph).
  - rewrite (abs_record s k _ (get_tracker s k) _ _ i k2 Hwf eq_refl Hk) by (done || by rewrite Hph).
    cbn. by case_decide.
  - rewrite (abs_record s k _ (get_tracker s k) _ _ i k2 Hwf eq_refl Hk) by (done || by rewrite Hph).
    cbn. rewrite Hph. by case_decide.
Qed.

(** Whether evidence gets past the staleness test and moves the timers. *)
Definition reaches_timers (e : evidence) (l : link_state) : bool :=
  negb (link_stale e l) && negb (ev_observeOnly e).

Lemma link_stale_abs e s k : link_stale e (abs s k) = stale_evidence e (get_tracker s k).
Proof. done. Qed.

(** The refinement: evidence moves its own link by [link_evidence] and, when it
    is accepted, every other link by its timer up to the evidence's time. *)
Lemma observe_evidence_abs p e n s k2 :
  wf s -> id_fresh (cfg := cfg) p e s ->
  abs (observe_evidence cfg p e n s) k2
  = if decide (k2 = evidence_key e) then link_evidence cfg e n (abs s k2)
    else if reaches_timers e (abs s (evidence_key e))
         then link_timer_state (ev_at e) (abs s k2) else abs s k2.
Proof.
  intros Hwf Hfree. unfold observe_evidence, link_evidence, reaches_timers. fold (evidence_key e).
  set (k := evidence_key e). rewrite (link_stale_abs e s k).
  destruct (stale_evidence e (get_tracker s k)) eqn:Hst; cbn [negb andb].
  { case_decide as Hkk; [subst k2|done]. by rewrite link_stale_abs, Hst. }
  destruct (ev_observeOnly e) eqn:Hobs; cbn [negb andb].
  { rewrite abs_put_tracker. case_decide as Hkk; [subst k2|done].
    rewrite link_stale_abs, Hst. unfold abs; cbn [fst snd].
    case_decide as Hph; cbn; [unfold link_of; cbn; by rewrite Hph|]. f_equal.
    destruct (open_state (trk_Phase (get_tracker s k))) eqn:Ho.
    - destruct (abs_open s k Hwf) as (i & _ & Hi & _); [by rewrite Ho|].
      rewrite (link_of_open _ _ _ Hi), (link_of_open _ _ i) by done.
      cbn. by destruct (trk_Phase (get_tracker s k)).
    - unfold link_of; cbn. by destruct (trk_Phase (get_tracker s k)). }
  pose proof (advance_wf (cfg := cfg) p (ev_at e) s Hwf) as Hwf'.
  pose proof (fun k => advance_abs p (ev_at e) s k Hwf) as Habs.
  unfold id_fresh in Hfree. set (s' := (advanceLocked cfg p (ev_at e) s).1) in *.
  unfold masked_recovery. rewrite (link_reachability_abs s' k Hwf'), (Habs k).
  assert (Hcase : forall x, (if decide (k2 = k) then x else abs s' k2)
                 = if decide (k2 = k) then x else link_timer_state (ev_at e) (abs s k2))
    by (intros x; case_decide; [done|by rewrite Habs]).
  change (link_timer_state (ev_at e) (abs s k)).2 with (link_timer (ev_at e) (abs s k).2).
  match goal with |- abs (if ?b then _ else _) _ = _ => destruct b eqn:Hm end.
  { rewrite Habs. case_decide as Hkk; [subst k2|done].
    rewrite link_stale_abs, Hst. by rewrite Hm. }
  fold (touched e (get_tracker s' k)).
  destruct (ev_online e) eqn:Hon.
  - pose proof (observe_online_abs e s' k2 Hwf') as H. cbv zeta in H. fold k in H.
    destruct (observe_online _ _ _). cbn [fst snd] in H. rewrite H, Hcase, Habs.
    case_decide as Hkk; [subst k2|done]. rewrite link_stale_abs, Hst.
    by rewrite Hm.
  - pose proof (observe_offline_abs e n s' k2 Hwf' Hon Hfree) as H. cbv zeta in H. fold k in H.
    destruct (observe_offline _ _ _ _ _). cbn [fst snd] in H. rewrite H, Hcase, Habs.
    case_decide as Hkk; [subst k2|done]. by rewrite link_stale_abs, Hst.
Qed.

End Timers.
