(* ===== verification/EngineRebuild.v ===== *)
(** [Rebuild] of the incident engine: replaying the archive into a fresh state
    and carrying over from the previous one the notify flags and the jobs keeps
    the state coherent and loses no job of an incident that still exists. *)
From Stdlib Require Import ZArith Lia.
From S2P Require Import Prelude.
From S2P Require Import GoStd.
From S2P Require Import Model.
From S2P Require Import Classify.
From S2P Require Import EngineState.
From S2P Require Import Engine.
From S2P Require Import EngineLemmas.
From S2P Require Import EngineWf.

(** ** Loops that rewrite the entries of the map they range over *)

Definition rewrite_entry {V} (g : string -> V -> option V) (m : gmap string V) (kv : string * V)
    : gmap string V :=
  match g kv.1 kv.2 with Some v' => <[kv.1 := v']> m | None => m end.

Lemma rewrite_entries_lookup {V} (g : string -> V -> option V) (l : list (string * V))
    (m : gmap string V) (k : string) :
  NoDup l.*1 -> (forall k v, (k, v) ∈ l -> m !! k = Some v) ->
  fold_left (rewrite_entry g) l m !! k
  = if decide (k ∈ l.*1) then (fun v => default v (g k v)) <$> m !! k else m !! k.
Proof.
  revert m. induction l as [|[k' v'] l IH]; intros m; cbn.
  { intros _ _. by rewrite decide_False by (apply not_elem_of_nil). }
  intros [Hnin Hnd]%NoDup_cons Hm.
  assert (Hk' : m !! k' = Some v') by (apply Hm; left).
  assert (Hl : forall k v, (k, v) ∈ l -> rewrite_entry g m (k', v') !! k = Some v).
  { intros k2 v2 Hin. assert (k2 <> k') by (intros ->; apply Hnin, list_elem_of_fmap; by exists (k', v2)).
    unfold rewrite_entry; cbn. rewrite <- (Hm k2 v2) by (by right).
    destruct (g k' v'); [by rewrite lookup_insert_ne|done]. }
  rewrite (IH _ Hnd Hl). unfold rewrite_entry; cbn.
  destruct (decide (k = k')) as [->|Hne].
  - rewrite decide_False by done. rewrite decide_True by (by left). rewrite Hk'; cbn.
    destruct (g k' v'); cbn; [by rewrite lookup_insert_eq|done].
  - assert (Hlk : (match g k' v' with Some x => <[k' := x]> m | None => m end) !! k = m !! k)
      by (destruct (g k' v'); [by rewrite lookup_insert_ne|done]).
    rewrite Hlk. destruct (decide (k ∈ l.*1)) as [Hin|Hout].
    + by rewrite decide_True by (by right).
    + rewrite decide_False; [done|]. by intros [?|?]%elem_of_cons.
Qed.

(** A loop over snapshots seen through one of its maps. *)
Lemma fold_left_proj {A B S} (Inv : S -> Prop) (proj : S -> B) (f : S -> A -> S) (h : B -> A -> B)
    (l : list A) (s : S) :
  (forall s a, Inv s -> Inv (f s a) /\ proj (f s a) = h (proj s) a) -> Inv s ->
  Inv (fold_left f l s) /\ proj (fold_left f l s) = fold_left h l (proj s).
Proof.
  intros Hf. revert s. induction l as [|a l IH]; intros s Hs; [done|].
  cbn. destruct (Hf s a Hs) as [Hi <-]. by apply IH.
Qed.

Section Rebuild.
Context {GR : GoRange}.

Lemma range_keys {V} p (m : gmap string V) : NoDup (range p m).*1.
Proof. rewrite (range_perm p m). apply NoDup_fst_map_to_list. Qed.

Lemma rewrite_range_lookup {V} p (g : string -> V -> option V) (m : gmap string V) k :
  fold_left (rewrite_entry g) (range p m) m !! k = (fun v => default v (g k v)) <$> m !! k.
Proof.
  rewrite rewrite_entries_lookup; [|apply range_keys|by intros ? ? ?%elem_of_range].
  case_decide as Hin; [done|]. destruct (m !! k) as [v|] eqn:Hk; [|done].
  destruct Hin. apply list_elem_of_fmap. exists (k, v). split; [done|]. by apply elem_of_range.
Qed.

(** The flag [Rebuild] gives an incident. *)
Definition restored_notify (previous : Snapshot) (key : string) (i : Incident) : bool :=
  match snap_Incidents previous !! key with
  | Some old => inc_Notify i || inc_Notify old
  | None => inc_Notify i
  end.

Lemma restore_notify_core p previous s :
  snap_Trackers (restore_notify p previous s) = snap_Trackers s
  /\ snap_Jobs (restore_notify p previous s) = snap_Jobs s
  /\ forall id, snap_Incidents (restore_notify p previous s) !! id
                = (fun i => set_inc_Notify (restored_notify previous id i) i) <$> snap_Incidents s !! id.
Proof.
  unfold restore_notify. split; [|split].
  - apply fold_left_keeps. intros s' [k i]. by case_match.
  - apply fold_left_keeps. intros s' [k i]. by case_match.
  - intros id.
    set (g := fun key i => (fun old => set_inc_Notify (inc_Notify i || inc_Notify old) i)
                             <$> snap_Incidents previous !! key).
    destruct (fold_left_proj (fun _ => True) snap_Incidents
      (fun s '(key, incident) =>
         match snap_Incidents previous !! key with
         | Some old => put_incident key (set_inc_Notify (inc_Notify incident || inc_Notify old) incident) s
         | None => s
         end) (rewrite_entry g) (range p (snap_Incidents s)) s) as [_ ->].
    { intros s' [k i] _. split; [done|]. unfold rewrite_entry, g; cbn. by case_match. }
    { done. }
    rewrite rewrite_range_lookup. destruct (snap_Incidents s !! id) as [i|]; cbn; [|done].
    unfold g, restored_notify. destruct (snap_Incidents previous !! id); cbn; [done|].
    by destruct i.
Qed.

Definition synced_notify (s : Snapshot) (t : tracker) : tracker :=
  match snap_Incidents s !! trk_IncidentID t with
  | Some i => set_trk_Notify (inc_Notify i) t
  | None => t
  end.

Lemma sync_tracker_notify_core p s :
  snap_Incidents (sync_tracker_notify p s) = snap_Incidents s
  /\ snap_Jobs (sync_tracker_notify p s) = snap_Jobs s
  /\ forall k, snap_Trackers (sync_tracker_notify p s) !! k
               = synced_notify s <$> snap_Trackers s !! k.
Proof.
  unfold sync_tracker_notify. split; [|split].
  - apply fold_left_keeps. intros s' [k t]. by case_match.
  - apply fold_left_keeps. intros s' [k t]. by case_match.
  - intros k.
    set (g := fun (key : string) t => (fun i => set_trk_Notify (inc_Notify i) t)
                             <$> snap_Incidents s !! trk_IncidentID t).
    destruct (fold_left_proj (fun s' => snap_Incidents s' = snap_Incidents s) snap_Trackers
      (fun s '(key, current) =>
         match snap_Incidents s !! trk_IncidentID current with
         | Some incident => put_tracker key (set_trk_Notify (inc_Notify incident) current) s
         | None => s
         end) (rewrite_entry g) (range p (snap_Trackers s)) s) as [_ ->].
    { intros s' [k' t] Hs'. rewrite Hs'. unfold rewrite_entry, g; cbn. by case_match. }
    { done. }
    rewrite rewrite_range_lookup. destruct (snap_Trackers s !! k) as [t|]; cbn; [|done].
    unfold g, synced_notify. by destruct (snap_Incidents s !! trk_IncidentID t).
Qed.

(** Changing the notify flags of trackers and incidents alike keeps coherence. *)
Lemma wf_renotify s s' (b : string -> Incident -> bool) :
  wf s ->
  (forall id, snap_Incidents s' !! id = (fun i => set_inc_Notify (b id i) i) <$> snap_Incidents s !! id) ->
  (forall k, snap_Trackers s' !! k = synced_notify s' <$> snap_Trackers s !! k) ->
  wf s'.
Proof.
  intros Hwf HI HT.
  assert (Hphase : forall t, trk_Phase (synced_notify s' t) = trk_Phase t /\
    trk_IncidentID (synced_notify s' t) = trk_IncidentID t /\
    trk_ReachabilityDown (synced_notify s' t) = trk_ReachabilityDown t /\
    trk_LastEvidenceAt (synced_notify s' t) = trk_LastEvidenceAt t)
    by (intros t; unfold synced_notify; by case_match).
  constructor.
  - intros id i'. rewrite HI. destruct (snap_Incidents s !! id) as [i|] eqn:Hi; [|done].
    intros [= <-]. destruct (wf_incident s Hwf id i Hi) as [? [? ? ? ?]].
    split; [done|]. by constructor.
  - intros k t'. rewrite HT. destruct (snap_Trackers s !! k) as [t|] eqn:Hk; [|done].
    intros [= <-]. pose proof (wf_tracker s Hwf k t Hk) as Ht. unfold tracker_ok, idle in *.
    destruct (Hphase t) as (-> & -> & -> & _). destruct (open_state (trk_Phase t)) eqn:Ho; [|done].
    destruct Ht as (i & Hi & [? ? ? ? ? ?]).
    exists (set_inc_Notify (b (trk_IncidentID t) i) i). rewrite HI, Hi. split; [done|].
    unfold synced_notify. rewrite HI, Hi. constructor; cbn; done.
  - intros k t'. rewrite HT. destruct (snap_Trackers s !! k) as [t|] eqn:Hk; [|done].
    intros [= <-]. destruct (Hphase t) as (_ & _ & _ & ->). by apply (wf_last s Hwf k).
  - intros id i'. rewrite HI. destruct (snap_Incidents s !! id) as [i|] eqn:Hi; [|done].
    intros [= <-] Hst. destruct (wf_open s Hwf id i Hi Hst) as (t & Hk & Ho & Hid).
    exists (synced_notify s' t). rewrite HT. change (incident_key _) with (incident_key i).
    rewrite Hk. destruct (Hphase t) as (-> & -> & _). done.
Qed.

Lemma wf_core s s' :
  wf s -> snap_Trackers s' = snap_Trackers s -> snap_Incidents s' = snap_Incidents s -> wf s'.
Proof.
  intros [H1 H2 H3 H4] HT HI. constructor; intros *; rewrite ?HT, ?HI; [apply H1| |apply H3|apply H4].
  intros Hk. specialize (H2 _ _ Hk). unfold tracker_ok in *. by rewrite HI.
Qed.

(** ** Jobs *)

Lemma carry_jobs_core p previous s :
  snap_Trackers (carry_jobs p previous s) = snap_Trackers s
  /\ snap_Incidents (carry_jobs p previous s) = snap_Incidents s.
Proof. split; apply fold_left_keeps; intros s' [k j]; by case_match. Qed.

(** A step that only adds jobs. *)
Definition jobs_grow (s s' : Snapshot) : Prop :=
  snap_Trackers s' = snap_Trackers s /\ snap_Incidents s' = snap_Incidents s
  /\ snap_Jobs s ⊆ snap_Jobs s'.

#[global] Instance jobs_grow_preorder : PreOrder jobs_grow.
Proof.
  split; [by intros s|].
  intros s1 s2 s3 (T1 & I1 & J1) (T2 & I2 & J2). repeat split; [congruence..|by etrans].
Qed.

Lemma enqueue_grows id iid k a s : jobs_grow s (enqueue_with_id id iid k a s).
Proof.
  unfold jobs_grow. snap_simpl. split; [done|]. split; [done|].
  unfold enqueue_with_id. destruct (snap_Jobs s !! id) eqn:Hj; [done|].
  snap_simpl. by apply insert_subseteq.
Qed.

Lemma fold_left_grows {A} (f : Snapshot -> A -> Snapshot) l s :
  (forall s a, jobs_grow s (f s a)) -> jobs_grow s (fold_left f l s).
Proof.
  intros Hf. revert s. induction l as [|a l IH]; intros s; [reflexivity|].
  cbn. etrans; [apply Hf|apply IH].
Qed.

Context (cfg : Config).

Lemma escalate_grows p h pid a s : jobs_grow s (escalateFallbacksLocked cfg p h pid a s).
Proof.
  apply fold_left_grows. intros s' [k i]. case_match; [apply enqueue_grows|reflexivity].
Qed.

Lemma notify_activation_grows p i a s : jobs_grow s (notify_activation cfg p i a s).
Proof. unfold notify_activation. repeat case_match; apply enqueue_grows. Qed.

Lemma escalate_overlaps_grows p i a s : jobs_grow s (escalate_overlaps cfg p i a s).
Proof.
  apply fold_left_grows. intros s' [k i']. repeat case_match; (reflexivity || apply enqueue_grows).
Qed.

Lemma rebuild_jobs_grows p i s : jobs_grow s (rebuild_jobs cfg p i s).
Proof.
  unfold rebuild_jobs. destruct (inc_ActivatedAt i); [|reflexivity]. destruct (negb (inc_Notify i)); [reflexivity|].
  etrans; [apply notify_activation_grows|]. cbv zeta.
  match goal with |- jobs_grow ?s1 (if _ then escalate_overlaps _ _ _ _ ?s2 else _) =>
    assert (H : jobs_grow s1 s2) by (repeat case_match; (reflexivity || apply enqueue_grows)) end.
  etrans; [exact H|]. destruct (negb (is_primary cfg i)); [apply escalate_overlaps_grows|reflexivity].
Qed.

Lemma rebuild_all_jobs_grows j p es s : jobs_grow s (rebuild_all_jobs cfg j p es s).
Proof.
  revert j s. induction es as [|[k i] es IH]; intros j s; [reflexivity|].
  cbn. etrans; [apply rebuild_jobs_grows|apply IH].
Qed.


(** The replay starts from a state with nothing in it; [observe_all] does not
    look at the fields that differ from [empty_Snapshot]. *)
Lemma rebuild_state_wf p os cursors at_ previous :
  config_ok cfg ->
  batch_fresh (cfg := cfg) 0 (0%nat :: p) os (mkSnapshot 1 true at_ ∅ ∅ ∅ (cloneCursors cursors)) ->
  wf (rebuild_state cfg p os cursors at_ previous).
Proof.
  intros Hcfg Hfresh. unfold rebuild_state. cbv zeta.
  set (s0 := mkSnapshot 1 true at_ ∅ ∅ ∅ (cloneCursors cursors)) in *.
  assert (Hwf0 : wf s0) by (by constructor).
  pose proof (observe_all_wf 0 (0%nat :: p) os s0 Hwf0 Hcfg Hfresh) as Hwf1.
  set (s1 := observe_all cfg 0 (0%nat :: p) os s0) in *.
  destruct (restore_notify_core (1%nat :: p) previous s1) as (HT2 & _ & HI2).
  set (s2 := restore_notify (1%nat :: p) previous s1) in *.
  destruct (sync_tracker_notify_core (2%nat :: p) s2) as (HI3 & _ & HT3).
  set (s3 := sync_tracker_notify (2%nat :: p) s2) in *.
  assert (Hwf3 : wf s3).
  { apply (wf_renotify s1 s3 (restored_notify previous)); [done|intros id; by rewrite HI3|].
    intros k. rewrite HT3, HT2. unfold synced_notify. by rewrite HI3. }
  destruct (carry_jobs_core (3%nat :: p) previous s3) as [HT4 HI4].
  set (s4 := carry_jobs (3%nat :: p) previous s3) in *.
  pose proof (wf_core s3 s4 Hwf3 HT4 HI4) as Hwf4.
  destruct (rebuild_all_jobs_grows 0 (4%nat :: p) (range (5%nat :: p) (snap_Incidents s4)) s4) as (? & ? & _).
  by eapply wf_core.
Qed.
End Rebuild.
