(* ===== verification/EngineLife.v ===== *)
(** The life of an incident: what an operation may change of it.  An incident
    that has been confirmed never disappears, keeps its identity, start and
    captured thresholds, its activation and notify flag, and only gains
    evidence; once resolved it is never touched again.  Only an unconfirmed one
    can be dropped (a flap shorter than the threshold). *)
From Stdlib Require Import ZArith Lia.
From S2P Require Import Prelude.
From S2P Require Import GoStd.
From S2P Require Import Model.
From S2P Require Import Classify.
From S2P Require Import EngineState.
From S2P Require Import Engine.
From S2P Require Import EngineLemmas.
From S2P Require Import EngineWf.

Record evolves (i i' : Incident) : Prop := {
  evo_fixed : inc_ID i' = inc_ID i /\ inc_RuleVersion i' = inc_RuleVersion i
    /\ inc_Hostname i' = inc_Hostname i /\ inc_Interface i' = inc_Interface i
    /\ inc_StartedAt i' = inc_StartedAt i
    /\ inc_DownAfter i' = inc_DownAfter i /\ inc_RecoveredAfter i' = inc_RecoveredAfter i;
  evo_activated : inc_ActivatedAt i <> None ->
    inc_ActivatedAt i' = inc_ActivatedAt i /\ inc_Notify i' = inc_Notify i;
  evo_resolved : inc_State i = StateResolved -> i' = i;
  evo_pending : inc_State i' = StatePendingFailure -> inc_State i = StatePendingFailure;
  evo_evidence : inc_EvidenceIDs i `prefix_of` inc_EvidenceIDs i'
    /\ inc_EvidenceRefs i `prefix_of` inc_EvidenceRefs i'
}.

#[global] Instance evolves_preorder : PreOrder evolves.
Proof.
  split.
  - intros i. by constructor.
  - intros i1 i2 i3 [F1 A1 R1 P1 E1] [F2 A2 R2 P2 E2]. constructor.
    + naive_solver congruence.
    + intros H. destruct (A1 H) as [Ha Hn]. destruct A2 as [Ha' Hn']; [by rewrite Ha|]. split; congruence.
    + intros H. specialize (R1 H). subst i2. by apply R2.
    + auto.
    + destruct E1, E2. split; by etrans.
Qed.

(** Nothing is lost, everything evolves. *)
Definition all_evolve (s s' : Snapshot) : Prop :=
  forall id i, snap_Incidents s !! id = Some i ->
    exists i', snap_Incidents s' !! id = Some i' /\ evolves i i'.

(** Only a pending failure is lost. *)
Definition life (s s' : Snapshot) : Prop :=
  forall id i, snap_Incidents s !! id = Some i ->
    (inc_State i = StatePendingFailure /\ snap_Incidents s' !! id = None)
    \/ exists i', snap_Incidents s' !! id = Some i' /\ evolves i i'.

(** What holds over any number of operations. *)
Definition confirmed_life (s s' : Snapshot) : Prop :=
  forall id i, snap_Incidents s !! id = Some i -> inc_ActivatedAt i <> None ->
    exists i', snap_Incidents s' !! id = Some i' /\ evolves i i'.

#[global] Instance all_evolve_preorder : PreOrder all_evolve.
Proof.
  split; [intros s id i Hi; by exists i|].
  intros s1 s2 s3 H1 H2 id i Hi. destruct (H1 id i Hi) as (i2 & Hi2 & E1).
  destruct (H2 id i2 Hi2) as (i3 & Hi3 & E2). exists i3. split; [done|by etrans].
Qed.

#[global] Instance confirmed_life_preorder : PreOrder confirmed_life.
Proof.
  split; [intros s id i Hi _; by exists i|].
  intros s1 s2 s3 H1 H2 id i Hi Ha. destruct (H1 id i Hi Ha) as (i2 & Hi2 & E1).
  destruct (H2 id i2 Hi2) as (i3 & Hi3 & E2); [by destruct (evo_activated _ _ E1 Ha) as [-> _]|].
  exists i3. split; [done|by etrans].
Qed.

Lemma all_evolve_life s1 s2 s3 : all_evolve s1 s2 -> life s2 s3 -> life s1 s3.
Proof.
  intros H1 H2 id i Hi. destruct (H1 id i Hi) as (i2 & Hi2 & E1).
  destruct (H2 id i2 Hi2) as [[Hp Hn]|(i3 & Hi3 & E2)].
  - left. split; [by apply (evo_pending _ _ E1)|done].
  - right. exists i3. split; [done|by etrans].
Qed.

Lemma all_evolve_is_life s s' : all_evolve s s' -> life s s'.
Proof. intros H id i Hi. right. by apply H. Qed.

Lemma life_confirmed s s' : wf s -> life s s' -> confirmed_life s s'.
Proof.
  intros Hwf H id i Hi Ha. destruct (H id i Hi) as [[Hp _]|?]; [|done].
  destruct (wf_incident s Hwf id i Hi) as [_ [_ _ _ Hsh]]. unfold shape in Hsh.
  rewrite Hp in Hsh. naive_solver.
Qed.

Lemma life_same s s' : snap_Incidents s' = snap_Incidents s -> life s s'.
Proof. intros HI id i Hi. right. exists i. by rewrite HI. Qed.

Lemma all_evolve_insert s s' id i i' :
  snap_Incidents s !! id = Some i -> snap_Incidents s' = <[id := i']> (snap_Incidents s) ->
  evolves i i' -> all_evolve s s'.
Proof.
  intros Hi HI He id2 j Hj. rewrite HI, lookup_insert. case_decide; [|by exists j].
  subst. simplify_eq. by exists i'.
Qed.

Lemma appendEvidence_prefix ids id : ids `prefix_of` appendEvidence ids id.
Proof. unfold appendEvidence. repeat case_match; try done. by apply prefix_app_r. Qed.

Section Life.
Context {GR : GoRange} {cfg : Config}.

Lemma advance_body_evolves q now k t s :
  wf s -> snap_Trackers s !! k = Some t -> due now s t ->
  all_evolve s (advance_body cfg q k t s).1.
Proof.
  intros Hwf Hk [Hp _].
  assert (Ho : open_state (trk_Phase t) <> None) by (unfold is_pending in Hp; by destruct (trk_Phase t)).
  destruct (wf_linked Hwf k t Hk Ho) as (i & Hi & Hl & Hid & Hok).
  pose proof (iok_shape _ Hok) as Hsh. pose proof (lk_state _ _ _ Hl) as Hst.
  unfold advance_body, is_pending, shape in *.
  destruct (trk_Phase t) eqn:Hph; try done; injection Hst as Hst; rewrite <- Hst in Hsh; cbn [fst].
  - destruct (activate_core cfg q k t i s Hi) as [_ HI]. rewrite Hid in HI.
    eapply all_evolve_insert; [done|done|].
    destruct Hsh as (Ha & _). constructor; cbn; try done; by rewrite ?Ha, <- ?Hst.
  - destruct (resolve_core cfg k t i s Hi) as [_ HI]. rewrite Hid in HI.
    eapply all_evolve_insert; [done|done|].
    constructor; cbn; try done; by rewrite <- ?Hst.
Qed.

Lemma advance_evolves p now s : wf s -> all_evolve s (advanceLocked cfg p now s).1.
Proof.
  intros Hwf. apply (advance_preserves cfg (fun s' => wf s' /\ all_evolve s s')); [|by split].
  intros q k t s' [Hwf' He] Hk Hd. split; [by eapply advance_body_wf|].
  etrans; [done|by eapply advance_body_evolves].
Qed.

Lemma update_incident_evolves id f s :
  wf s -> (forall i, snap_Incidents s !! id = Some i -> evolves i (f i)) ->
  all_evolve s (update_incident id f s).
Proof.
  intros Hwf Hf. unfold update_incident. destruct (snap_Incidents s !! id) as [i|] eqn:Hi; [|done].
  destruct (wf_incident s Hwf _ _ Hi) as [Hid _]. specialize (Hf i eq_refl).
  destruct (evo_fixed _ _ Hf) as [Hfid _].
  eapply (all_evolve_insert _ _ id); [done| |done]. cbn. by rewrite Hfid, Hid.
Qed.

(** Evidence recorded on an incident that is not resolved. *)
Lemma add_evidence_evolves e i f :
  inc_State i <> StateResolved -> inc_State (f i) <> StatePendingFailure \/ inc_State (f i) = inc_State i ->
  inc_EvidenceIDs (f i) = inc_EvidenceIDs i -> inc_EvidenceRefs (f i) = inc_EvidenceRefs i ->
  inc_ID (f i) = inc_ID i /\ inc_RuleVersion (f i) = inc_RuleVersion i
    /\ inc_Hostname (f i) = inc_Hostname i /\ inc_Interface (f i) = inc_Interface i
    /\ inc_StartedAt (f i) = inc_StartedAt i
    /\ inc_DownAfter (f i) = inc_DownAfter i /\ inc_RecoveredAfter (f i) = inc_RecoveredAfter i ->
  (inc_ActivatedAt i <> None -> inc_ActivatedAt (f i) = inc_ActivatedAt i /\ inc_Notify (f i) = inc_Notify i) ->
  evolves i (add_evidence e (f i)).
Proof.
  intros Hr Hp HE HR HF HA. constructor; cbn; try done.
  - destruct Hp as [Hp|Hp]; congruence.
  - rewrite HE, HR. split; apply appendEvidence_prefix.
Qed.

Lemma open_not_resolved s k t i :
  wf s -> linked k t i -> inc_State i <> StateResolved.
Proof. intros _ Hl. pose proof (lk_state _ _ _ Hl). intros Hr. rewrite Hr in *. by destruct (trk_Phase t). Qed.

Lemma observe_offline_life e n s :
  wf s -> ev_online e = false -> id_unused e s ->
  let r := observe_offline cfg e n (touched e (get_tracker s (evidence_key e))) s in
  all_evolve s (put_tracker (evidence_key e) r.1 r.2).
Proof.
  intros Hwf Hon Hfree. unfold id_unused, opens in Hfree. rewrite Hon in Hfree.
  unfold observe_offline. cbn [touched set_trk_LastEvidenceAt trk_Phase].
  destruct (trk_Phase (get_tracker s (evidence_key e))) eqn:Hph; cbn [fst snd].
  1,2: cbv zeta; intros id i Hi; exists i; split; [|reflexivity]; snap_simpl;
       rewrite lookup_insert_ne; [done|]; intros <-;
       unfold evidence_id in Hfree; rewrite Hfree in Hi by done; done.
  all: open_links Hwf Hph; pose proof (open_not_resolved _ _ _ _ Hwf Hl).
  all: match goal with |- all_evolve _ (put_tracker _ _ ?s') => change (all_evolve s s') end.
  all: apply update_incident_evolves; [done|]; cbn; intros i' Hi'; assert (i' = i) as -> by congruence; clear Hi'.
  - apply (add_evidence_evolves e i (set_inc_Notify _)); cbn; try done; [by right|naive_solver].
  - apply (add_evidence_evolves e i (fun i => i)); try done. by right.
  - apply (add_evidence_evolves e i (fun i => set_inc_RecoveryFirstAt None (set_inc_State StateActive i)));
      cbn; try done. by left.
Qed.

Lemma observe_online_life e s :
  wf s ->
  let r := observe_online e (touched e (get_tracker s (evidence_key e))) s in
  life s (put_tracker (evidence_key e) r.1 r.2).
Proof.
  intros Hwf. unfold observe_online. cbn [touched set_trk_LastEvidenceAt trk_Phase].
  destruct (trk_Phase (get_tracker s (evidence_key e))) eqn:Hph; cbn [fst snd].
  1,2: by apply life_same.
  all: open_links Hwf Hph; pose proof (open_not_resolved _ _ _ _ Hwf Hl).
  1: { cbv zeta. intros id j Hj. snap_simpl.
       destruct (decide (trk_IncidentID (get_tracker s (evidence_key e)) = id)) as [<-|Hne].
       - left. simplify_eq. by rewrite lookup_delete_eq.
       - right. exists j. rewrite lookup_delete_ne by done. split; [done|reflexivity]. }
  all: apply all_evolve_is_life; match goal with |- all_evolve _ (put_tracker _ _ ?s') => change (all_evolve s s') end.
  all: apply update_incident_evolves; [done|]; cbn; intros i' Hi'; assert (i' = i) as -> by congruence; clear Hi'.
  - apply (add_evidence_evolves e i
      (fun i => set_inc_RecoveryFirstAt (Some (ev_at e)) (set_inc_State StatePendingRecovery i)));
      cbn; try done. by left.
  - apply (add_evidence_evolves e i (fun i => i)); try done. by right.
Qed.

Lemma observe_evidence_life p e n s :
  wf s -> id_fresh (cfg := cfg) p e s -> life s (observe_evidence cfg p e n s).
Proof.
  intros Hwf Hfree. unfold observe_evidence. fold (evidence_key e).
  destruct (stale_evidence _ _); [by apply life_same|].
  destruct (ev_observeOnly e); [by apply life_same|].
  eapply all_evolve_life; [by apply (advance_evolves p (ev_at e))|].
  pose proof (advance_wf (cfg := cfg) p (ev_at e) s Hwf) as Hwf'. unfold id_fresh in Hfree.
  set (s' := (advanceLocked cfg p (ev_at e) s).1) in *.
  destruct (masked_recovery _ _ _); [by apply life_same|]. fold (touched e (get_tracker s' (evidence_key e))).
  destruct (ev_online e) eqn:Hon.
  - pose proof (observe_online_life e s' Hwf') as H. cbv zeta in H. by destruct (observe_online _ _ _).
  - pose proof (observe_offline_life e n s' Hwf' Hon Hfree) as H. cbv zeta in H.
    destruct (observe_offline _ _ _ _ _). by apply all_evolve_is_life.
Qed.

Lemma observeLocked_life p m n r s :
  wf s -> message_fresh (cfg := cfg) p m s -> life s (observeLocked cfg p m n r s).
Proof.
  intros Hwf Hf. unfold observeLocked, message_fresh in *.
  destruct (classify m _) as [e|]; [by apply observe_evidence_life|by apply life_same].
Qed.

Lemma observe_all_life i p os s :
  wf s -> config_ok cfg -> batch_fresh (cfg := cfg) i p os s -> confirmed_life s (observe_all cfg i p os s).
Proof.
  intros Hwf Hcfg. revert i s Hwf. induction os as [|o os IH]; intros i s Hwf; [reflexivity|].
  cbn. intros [Hf Hb]. etrans; [|apply IH; [by apply observeLocked_wf|done]].
  apply life_confirmed; [done|]. by apply observeLocked_life.
Qed.

End Life.
