(* ===== verification/EngineJobs.v ===== *)
(** The notification outbox: every job belongs to a confirmed incident that is
    to be notified and is of a kind the incident's history calls for (sound);
    every such incident has its opening job, and its closing job once resolved
    (complete); a job is never overwritten by an enqueue. *)
From Stdlib Require Import ZArith Lia.
From S2P Require Import Prelude.
From S2P Require Import GoStd.
From S2P Require Import Model.
From S2P Require Import Classify.
From S2P Require Import EngineState.
From S2P Require Import Engine.
From S2P Require Import EngineLemmas.
From S2P Require Import EngineWf.
From S2P Require Import EngineRebuild.
From S2P Require Import EngineLife.

Section Jobs.
Context (cfg : Config).

(** ** Soundness *)

Definition kind_fits (i : Incident) (k : Kind) : Prop :=
  match k with
  | KindIncidentOpened => is_primary cfg i = true
  | KindIncidentResolved => is_primary cfg i = true /\ inc_State i = StateResolved
  | KindFallbackOpened | KindFallbackEscalated => is_primary cfg i = false
  | KindFallbackResolved => is_primary cfg i = false /\ inc_State i = StateResolved
  | KindTest => False
  end.

(** The id a job of an incident is stored under. *)
Definition job_name (id : string) (j : NotificationJob) : Prop :=
  match job_Kind j with
  | KindFallbackEscalated => exists primary, id = escalation_id (job_IncidentID j) primary
  | k => id = job_id (job_IncidentID j) k
  end.

Definition job_sound (s : Snapshot) (id : string) (j : NotificationJob) : Prop :=
  job_ID j = id /\ job_name id j
  /\ exists i, snap_Incidents s !! job_IncidentID j = Some i /\ inc_ActivatedAt i <> None
               /\ inc_Notify i = true /\ kind_fits i (job_Kind j).

Definition outbox_sound (s : Snapshot) : Prop :=
  forall id j, snap_Jobs s !! id = Some j -> job_sound s id j.

(** ** Completeness *)

Definition opening_job (jobs : gmap string NotificationJob) (i : Incident) : Prop :=
  if is_primary cfg i then is_Some (jobs !! job_id (inc_ID i) KindIncidentOpened)
  else is_Some (jobs !! job_id (inc_ID i) KindFallbackOpened)
       \/ exists primary, is_Some (jobs !! escalation_id (inc_ID i) primary).

Definition closing_job (jobs : gmap string NotificationJob) (i : Incident) : Prop :=
  is_Some (jobs !! job_id (inc_ID i)
             (if is_primary cfg i then KindIncidentResolved else KindFallbackResolved)).

Definition notified (jobs : gmap string NotificationJob) (i : Incident) : Prop :=
  inc_Notify i = true ->
  (inc_ActivatedAt i <> None -> opening_job jobs i)
  /\ (inc_State i = StateResolved -> closing_job jobs i).

Definition outbox_complete (s : Snapshot) : Prop :=
  forall id i, snap_Incidents s !! id = Some i -> notified (snap_Jobs s) i.

(** ** Enqueuing *)


Lemma enqueue_there id iid k a s : is_Some (snap_Jobs (enqueue_with_id id iid k a s) !! id).
Proof.
  unfold enqueue_with_id. destruct (snap_Jobs s !! id) eqn:Hj; [by rewrite Hj|].
  snap_simpl. rewrite lookup_insert_eq. by eexists.
Qed.

(** Every job id of [m] is one of [m']. *)
Definition ids_grow (m m' : gmap string NotificationJob) : Prop :=
  forall k, is_Some (m !! k) -> is_Some (m' !! k).

Lemma opening_mono m m' i : ids_grow m m' -> opening_job m i -> opening_job m' i.
Proof.
  unfold opening_job. intros Hs. destruct (is_primary cfg i); [apply Hs|].
  intros [?|[p ?]]; [left|right; exists p]; by apply Hs.
Qed.

Lemma notified_mono m m' i : ids_grow m m' -> notified m i -> notified m' i.
Proof.
  intros Hs Hn Hnot. destruct (Hn Hnot) as [Ho Hc]. split.
  - intros Ha. by eapply opening_mono; [|apply Ho].
  - intros Hr. by apply Hs, Hc.
Qed.

Lemma subseteq_ids_grow m m' : m ⊆ m' -> ids_grow m m'.
Proof. intros Hs k [v Hv]. exists v. by eapply lookup_weaken. Qed.

Lemma complete_grow s s' : jobs_grow s s' -> outbox_complete s -> outbox_complete s'.
Proof.
  intros (_ & HI & HJ) Hc id i. rewrite HI. intros Hi. eapply notified_mono; [by apply subseteq_ids_grow|by eapply Hc].
Qed.

(** Adding one sound job. *)
Lemma sound_enqueue s id iid k a i :
  outbox_sound s -> snap_Incidents s !! iid = Some i -> inc_ActivatedAt i <> None ->
  inc_Notify i = true -> kind_fits i k ->
  job_name id (mkJob id iid k a 0 a "" None "" "" false) ->
  outbox_sound (enqueue_with_id id iid k a s).
Proof.
  intros Hs Hi Ha Hn Hk Hname id' j. unfold job_sound. snap_simpl.
  unfold enqueue_with_id. destruct (snap_Jobs s !! id) eqn:Hj; [apply Hs|].
  snap_simpl. rewrite lookup_insert. case_decide; [|apply Hs].
  intros [= <-]. subst id'. split; [done|]. split; [done|]. cbn. eauto.
Qed.

(** A change that lets every incident evolve and adds no job. *)
Lemma sound_evolve s s' :
  outbox_sound s -> snap_Jobs s' = snap_Jobs s -> confirmed_life s s' -> outbox_sound s'.
Proof.
  intros Hs HJ Hl id j. rewrite HJ. intros Hj.
  destruct (Hs id j Hj) as (Hid & Hname & i & Hi & Ha & Hn & Hk).
  destruct (Hl _ i Hi Ha) as (i' & Hi' & [(FI & _ & _ & FF & _) FA FR _ _]).
  destruct (FA Ha) as [Ha' Hn'].
  split; [done|]. split; [done|]. exists i'. rewrite Ha', Hn'. repeat split; try done.
  assert (Hp : is_primary cfg i' = is_primary cfg i) by (unfold is_primary; by rewrite FF).
  unfold kind_fits in *. rewrite Hp. destruct (job_Kind j); try done;
    destruct Hk as [? Hr]; by rewrite (FR Hr).
Qed.

(** A change that adds no job and leaves each incident notified. *)
Lemma complete_evolve s s' :
  outbox_complete s -> snap_Jobs s' = snap_Jobs s ->
  (forall id i', snap_Incidents s' !! id = Some i' ->
     inc_ActivatedAt i' = None /\ inc_State i' <> StateResolved
     \/ exists i, snap_Incidents s !! id = Some i /\ inc_ID i' = inc_ID i
          /\ inc_Interface i' = inc_Interface i /\ inc_Notify i' = inc_Notify i
          /\ (inc_ActivatedAt i' <> None -> inc_ActivatedAt i <> None)
          /\ (inc_State i' = StateResolved -> inc_State i = StateResolved)) ->
  outbox_complete s'.
Proof.
  intros Hc HJ HI id i' Hi'. rewrite HJ.
  destruct (HI id i' Hi') as [[Ha Hr]|(i & Hi & Hid & Hf & Hn & Ha & Hr)].
  - intros _. by split; intros ?.
  - intros Hnot. rewrite Hn in Hnot. destruct (Hc id i Hi Hnot) as [Ho Hcl].
    assert (Hp : is_primary cfg i' = is_primary cfg i) by (unfold is_primary; by rewrite Hf).
    unfold opening_job, closing_job in *. rewrite Hp, Hid.
    split; [intros H; apply Ho, Ha, H|intros H; apply Hcl, Hr, H].
Qed.

(** ** Activation and resolution *)

Context {GR : GoRange}.

Lemma notify_activation_opening p i a s :
  opening_job (snap_Jobs (notify_activation cfg p i a s)) i.
Proof.
  unfold notify_activation, opening_job, enqueueLocked, enqueueFallbackEscalationLocked.
  destruct (is_primary cfg i); [apply enqueue_there|].
  destruct (primaryDownAtLocked _ _ _ _ _) as [pr|].
  - right. exists (inc_ID pr). apply enqueue_there.
  - left. apply enqueue_there.
Qed.

Lemma notify_activation_sound p i a s :
  outbox_sound s -> snap_Incidents s !! inc_ID i = Some i -> inc_ActivatedAt i <> None ->
  inc_Notify i = true -> outbox_sound (notify_activation cfg p i a s).
Proof.
  intros Hs Hi Ha Hn. unfold notify_activation, enqueueLocked, enqueueFallbackEscalationLocked.
  destruct (is_primary cfg i) eqn:Hp; [|destruct (primaryDownAtLocked _ _ _ _ _) as [pr|]];
    eapply sound_enqueue; try done; cbn; by eauto.
Qed.

Lemma escalate_sound p h pid a s :
  wf s -> outbox_sound s -> outbox_sound (escalateFallbacksLocked cfg p h pid a s).
Proof.
  intros Hwf Hs. unfold escalateFallbacksLocked.
  apply (fold_left_preserves (fun s' => outbox_sound s' /\ snap_Incidents s' = snap_Incidents s)); [|done].
  intros s' [k i] Hin%elem_of_range [Hs' HI]. destruct (escalates cfg h i) eqn:He; [|done].
  unfold enqueueFallbackEscalationLocked. snap_simpl. split; [|done].
  destruct (wf_incident s Hwf k i Hin) as [Hid [_ _ _ Hsh]].
  unfold escalates in He. apply andb_true_iff in He as [He Hst].
  apply andb_true_iff in He as [He Hn]. apply andb_true_iff in He as [_ Hp%negb_true_iff].
  eapply (sound_enqueue _ _ _ _ _ i); try done.
  - by rewrite HI, Hid.
  - unfold shape in Hsh. by destruct (inc_State i); destruct Hsh as [-> _].
  - cbn. eauto.
Qed.

Lemma complete_insert s s' id i' :
  outbox_complete s -> snap_Incidents s' = <[id := i']> (snap_Incidents s) ->
  snap_Jobs s ⊆ snap_Jobs s' -> notified (snap_Jobs s') i' -> outbox_complete s'.
Proof.
  intros Hc HI HJ Hn id2 j. rewrite HI, lookup_insert. case_decide; [by intros [= <-]|].
  intros Hj. eapply notified_mono; [by apply subseteq_ids_grow|by eapply Hc].
Qed.

(** An activation in three stages: the state, the incident's own notification,
    the escalation of the fallbacks of its host. *)
Lemma activate_stages q k t i s :
  snap_Incidents s !! trk_IncidentID t = Some i ->
  let i' := activated_incident t i in
  let a := (trk_PendingSince t + inc_DownAfter i)%Z in
  let s1 := put_tracker k (set_trk_Phase phaseActive t) (put_incident (inc_ID i) i' s) in
  let s2 := if inc_Notify i' then notify_activation cfg (0%nat :: q) i' a s1 else s1 in
  activate cfg q k t s
  = if is_primary cfg i' then escalateFallbacksLocked cfg (1%nat :: q) (inc_Hostname i') (inc_ID i') a s2
    else s2.
Proof. intros Hi. unfold activate. by rewrite Hi. Qed.

Lemma activate_outbox q now k t s :
  wf s -> snap_Trackers s !! k = Some t -> due now s t -> trk_Phase t = phasePendingFailure ->
  (outbox_sound s -> outbox_sound (activate cfg q k t s))
  /\ (outbox_complete s -> outbox_complete (activate cfg q k t s)).
Proof.
  intros Hwf Hk Hd Hph.
  destruct (wf_linked Hwf k t Hk) as (i & Hi & Hl & Hid & Hok); [by rewrite Hph|].
  pose proof (advance_body_wf (cfg := cfg) q now k t s Hwf Hk Hd) as Hwf'.
  pose proof (advance_body_evolves (cfg := cfg) q now k t s Hwf Hk Hd) as Hev.
  unfold advance_body in Hwf', Hev. rewrite Hph in Hwf', Hev. cbn [fst] in Hwf', Hev.
  destruct (activate_core cfg q k t i s Hi) as [HT HI].
  pose proof (activate_stages q k t i s Hi) as Hst. cbv zeta in Hst.
  set (i' := activated_incident t i) in *.
  set (s1 := put_tracker k (set_trk_Phase phaseActive t) (put_incident (inc_ID i) i' s)) in *.
  set (a := (trk_PendingSince t + inc_DownAfter i)%Z) in *.
  set (s2 := if inc_Notify i' then notify_activation cfg (0%nat :: q) i' a s1 else s1) in *.
  assert (Hi1 : snap_Incidents s1 !! inc_ID i' = Some i') by apply lookup_insert_eq.
  assert (G12 : jobs_grow s1 s2)
    by (unfold s2; destruct (inc_Notify i'); [apply notify_activation_grows|reflexivity]).
  assert (G23 : jobs_grow s2 (activate cfg q k t s))
    by (rewrite Hst; destruct (is_primary cfg i'); [apply escalate_grows|reflexivity]).
  destruct G12 as (T12 & I12 & J12) eqn:E12. destruct G23 as (T23 & I23 & J23) eqn:E23.
  split.
  - intros Hs. assert (Hs1 : outbox_sound s1).
    { apply (sound_evolve s s1 Hs eq_refl). intros id j Hj _.
      destruct (Hev id j Hj) as (j' & Hj' & He). exists j'. by rewrite I23, I12 in Hj'. }
    assert (Hs2 : outbox_sound s2).
    { unfold s2. destruct (inc_Notify i') eqn:Hn; [|done]. by apply notify_activation_sound. }
    rewrite Hst. destruct (is_primary cfg i'); [|done].
    apply escalate_sound; [|done]. eapply wf_core; [exact Hwf'|by rewrite T23|by rewrite I23].
  - intros Hc. eapply (complete_insert s _ (inc_ID i) i'); [done|done|by etrans|].
    eapply notified_mono; [by apply subseteq_ids_grow|]. intros Hn. split; [|done].
    intros _. unfold s2. rewrite Hn. apply notify_activation_opening.
Qed.

Lemma resolve_stages k t i s :
  snap_Incidents s !! trk_IncidentID t = Some i ->
  let i' := resolved_incident t i in
  let s1 := put_incident (inc_ID i) i' s in
  let s2 := if inc_Notify i'
            then enqueueLocked (inc_ID i') (if is_primary cfg i' then KindIncidentResolved
                                            else KindFallbackResolved)
                   (trk_RecoverySince t + inc_RecoveredAfter i)%Z s1 else s1 in
  resolve cfg k t s = put_tracker k (healthy_tracker (trk_LastEvidenceAt t)) s2.
Proof. intros Hi. unfold resolve. by rewrite Hi. Qed.

Lemma resolve_outbox (q : list nat) now k t s :
  wf s -> snap_Trackers s !! k = Some t -> due now s t -> trk_Phase t = phasePendingRecovery ->
  (outbox_sound s -> outbox_sound (resolve cfg k t s))
  /\ (outbox_complete s -> outbox_complete (resolve cfg k t s)).
Proof.
  intros Hwf Hk Hd Hph.
  destruct (wf_linked Hwf k t Hk) as (i & Hi & Hl & Hid & Hok); [by rewrite Hph|].
  pose proof (advance_body_evolves (cfg := cfg) q now k t s Hwf Hk Hd) as Hev.
  unfold advance_body in Hev. rewrite Hph in Hev. cbn [fst] in Hev.
  destruct (resolve_core cfg k t i s Hi) as [HT HI].
  pose proof (resolve_stages k t i s Hi) as Hst. cbv zeta in Hst.
  assert (Hact : inc_ActivatedAt i <> None).
  { pose proof (iok_shape _ Hok) as Hsh. pose proof (lk_state _ _ _ Hl) as Hls.
    rewrite Hph in Hls. injection Hls as Hls. unfold shape in Hsh. rewrite <- Hls in Hsh.
    by destruct Hsh as (-> & _). }
  set (i' := resolved_incident t i) in *. set (s1 := put_incident (inc_ID i) i' s) in *.
  split.
  - intros Hs. assert (Hs1 : outbox_sound s1).
    { apply (sound_evolve s s1 Hs eq_refl). intros id j Hj _.
      destruct (Hev id j Hj) as (j' & Hj' & He). exists j'. by rewrite HI in Hj'. }
    rewrite Hst. intros id j Hj. revert id j Hj.
    match goal with |- context [put_tracker _ _ ?s2] => change (outbox_sound s2) end.
    destruct (inc_Notify i') eqn:Hn; [|done].
    eapply (sound_enqueue s1 _ _ _ _ i'); try done.
    + apply lookup_insert_eq.
    + destruct (is_primary cfg i') eqn:Hp; cbn; rewrite ?Hp; done.
    + by destruct (is_primary cfg i').
  - intros Hc. eapply (complete_insert s _ (inc_ID i) i'); [done|done|..].
    + rewrite Hst. snap_simpl. destruct (inc_Notify i'); [|done].
      by apply (enqueue_grows _ _ _ _ s1).
    + intros Hn. destruct (Hc (trk_IncidentID t) i Hi) as [Hop _]; [done|].
      rewrite Hst. snap_simpl. rewrite Hn. split; [|intros _; apply enqueue_there].
      intros _. specialize (Hop Hact). change (opening_job (snap_Jobs s) i') in Hop.
      eapply opening_mono; [|exact Hop]. apply subseteq_ids_grow, (enqueue_grows _ _ _ _ s1).
Qed.

Lemma advance_body_outbox q now k t s :
  wf s -> snap_Trackers s !! k = Some t -> due now s t ->
  (outbox_sound s -> outbox_sound (advance_body cfg q k t s).1)
  /\ (outbox_complete s -> outbox_complete (advance_body cfg q k t s).1).
Proof.
  intros Hwf Hk Hd. unfold advance_body. destruct (trk_Phase t) eqn:Hph; try done.
  - by eapply activate_outbox.
  - by eapply resolve_outbox.
Qed.

Lemma advance_outbox p now s :
  wf s ->
  (outbox_sound s -> outbox_sound (advanceLocked cfg p now s).1)
  /\ (outbox_complete s -> outbox_complete (advanceLocked cfg p now s).1).
Proof.
  intros Hwf.
  split; intros Hs;
    [apply (advance_preserves cfg (fun s' => wf s' /\ outbox_sound s'))
    |apply (advance_preserves cfg (fun s' => wf s' /\ outbox_complete s'))]; try done;
    intros q k t s' [Hwf' Hs'] Hk Hd; (split; [by eapply advance_body_wf|]);
    by eapply advance_body_outbox.
Qed.

(** ** Evidence adds no job *)

(** The relation between an incident after and before that keeps it notified. *)
Definition still_notified (s : Snapshot) (id : string) (i' : Incident) : Prop :=
  inc_ActivatedAt i' = None /\ inc_State i' <> StateResolved
  \/ exists i, snap_Incidents s !! id = Some i /\ inc_ID i' = inc_ID i
       /\ inc_Interface i' = inc_Interface i /\ inc_Notify i' = inc_Notify i
       /\ (inc_ActivatedAt i' <> None -> inc_ActivatedAt i <> None)
       /\ (inc_State i' = StateResolved -> inc_State i = StateResolved).

Lemma still_notified_refl s id i : snap_Incidents s !! id = Some i -> still_notified s id i.
Proof. intros Hi. right. exists i. by repeat split. Qed.

Lemma still_notified_update s id f i :
  wf s -> snap_Incidents s !! id = Some i -> inc_ID (f i) = inc_ID i -> still_notified s id (f i) ->
  forall id' i', snap_Incidents (update_incident id f s) !! id' = Some i' -> still_notified s id' i'.
Proof.
  intros Hwf Hi Hf Hn id' i'. unfold update_incident. rewrite Hi. snap_simpl.
  destruct (wf_incident s Hwf _ _ Hi) as [Hid _]. rewrite Hf, Hid, lookup_insert.
  case_decide; [subst; by intros [= <-]|apply still_notified_refl].
Qed.

Lemma observe_offline_notified e n s :
  wf s ->
  let r := observe_offline cfg e n (touched e (get_tracker s (evidence_key e))) s in
  snap_Jobs r.2 = snap_Jobs s
  /\ forall id i', snap_Incidents r.2 !! id = Some i' -> still_notified s id i'.
Proof.
  intros Hwf. unfold observe_offline. cbn [touched set_trk_LastEvidenceAt trk_Phase].
  destruct (trk_Phase (get_tracker s (evidence_key e))) eqn:Hph; cbn [fst snd]; cbv zeta;
    (split; [by snap_simpl|]).
  1,2: intros id i'; snap_simpl; rewrite lookup_insert; case_decide;
       [intros [= <-]; by left|apply still_notified_refl].
  all: open_links Hwf Hph; (eapply (still_notified_update _ _ _ i); [done|done|done|]).
  - left. cbn. rewrite <- Hls. by destruct Hsh.
  - right. exists i. by repeat split.
  - right. exists i. by repeat split.
Qed.

Lemma observe_online_notified e s :
  wf s ->
  let r := observe_online e (touched e (get_tracker s (evidence_key e))) s in
  snap_Jobs r.2 = snap_Jobs s
  /\ forall id i', snap_Incidents r.2 !! id = Some i' -> still_notified s id i'.
Proof.
  intros Hwf. unfold observe_online. cbn [touched set_trk_LastEvidenceAt trk_Phase].
  destruct (trk_Phase (get_tracker s (evidence_key e))) eqn:Hph; cbn [fst snd]; cbv zeta;
    (split; [by snap_simpl|]).
  1,2: apply still_notified_refl.
  all: open_links Hwf Hph.
  - intros id i'. snap_simpl. intros [_ ?]%lookup_delete_Some. by apply still_notified_refl.
  - eapply (still_notified_update _ _ _ i); [done|done|done|]. right. exists i. by repeat split.
  - eapply (still_notified_update _ _ _ i); [done|done|done|]. right. exists i. by repeat split.
Qed.

Lemma observe_evidence_outbox p e n s :
  wf s -> id_fresh (cfg := cfg) p e s ->
  (outbox_sound s -> outbox_sound (observe_evidence cfg p e n s))
  /\ (outbox_complete s -> outbox_complete (observe_evidence cfg p e n s)).
Proof.
  intros Hwf Hfree. unfold observe_evidence. fold (evidence_key e).
  destruct (stale_evidence _ _); [done|]. destruct (ev_observeOnly e); [done|].
  pose proof (advance_wf (cfg := cfg) p (ev_at e) s Hwf) as Hwf'.
  destruct (advance_outbox p (ev_at e) s Hwf) as [Hs Hc]. unfold id_fresh in Hfree.
  set (s' := (advanceLocked cfg p (ev_at e) s).1) in *.
  destruct (masked_recovery _ _ _); [done|]. fold (touched e (get_tracker s' (evidence_key e))).
  destruct (ev_online e) eqn:Hon.
  - destruct (observe_online_notified e s' Hwf') as [HJ HI].
    pose proof (observe_online_life e s' Hwf') as Hl. cbv zeta in Hl.
    destruct (observe_online _ _ _) as [t r]. cbn [fst snd] in *. split; intros H.
    + eapply sound_evolve; [by apply Hs|by snap_simpl|by apply life_confirmed].
    + eapply complete_evolve; [by apply Hc|by snap_simpl|exact HI].
  - destruct (observe_offline_notified e n s' Hwf') as [HJ HI].
    pose proof (observe_offline_life (cfg := cfg) e n s' Hwf' Hon Hfree) as Hl. cbv zeta in Hl.
    destruct (observe_offline _ _ _ _ _) as [t r]. cbn [fst snd] in *. split; intros H.
    + eapply sound_evolve; [by apply Hs|by snap_simpl|].
      apply life_confirmed; [done|by apply all_evolve_is_life].
    + eapply complete_evolve; [by apply Hc|by snap_simpl|exact HI].
Qed.

Lemma observeLocked_outbox p m n r s :
  wf s -> message_fresh (cfg := cfg) p m s ->
  (outbox_sound s -> outbox_sound (observeLocked cfg p m n r s))
  /\ (outbox_complete s -> outbox_complete (observeLocked cfg p m n r s)).
Proof.
  intros Hwf Hf. unfold observeLocked, message_fresh in *.
  destruct (classify m _) as [e|]; [by apply observe_evidence_outbox|done].
Qed.

Lemma observe_all_outbox i p os s :
  wf s -> config_ok cfg -> batch_fresh (cfg := cfg) i p os s ->
  (outbox_sound s -> outbox_sound (observe_all cfg i p os s))
  /\ (outbox_complete s -> outbox_complete (observe_all cfg i p os s)).
Proof.
  intros Hwf Hcfg. revert i s Hwf. induction os as [|o os IH]; intros i s Hwf; [done|].
  cbn. intros [Hf Hb].
  pose proof (observeLocked_wf (cfg := cfg) (i :: p) _ (obs_NotifyEligible o) (obs_SourceRef o) _ Hwf Hcfg Hf) as Hwf'.
  destruct (observeLocked_outbox (i :: p) _ (obs_NotifyEligible o) (obs_SourceRef o) _ Hwf Hf).
  destruct (IH _ _ Hwf' Hb). auto.
Qed.

(** ** Delivery results leave jobs in place *)

Definition keeps_identity (f : NotificationJob -> NotificationJob) : Prop :=
  forall j, job_ID (f j) = job_ID j /\ job_Kind (f j) = job_Kind j
            /\ job_IncidentID (f j) = job_IncidentID j.

Lemma update_job_cases sv id f s :
  (snap_Jobs s !! id = None /\ update_job sv id f s = (s, Some (err_job_not_found id)))
  \/ exists j, snap_Jobs s !! id = Some j
      /\ ((exists e, saveLocked sv (put_job id (f j) s) = Some e /\ update_job sv id f s = (s, Some e))
          \/ (saveLocked sv (put_job id (f j) s) = None
              /\ update_job sv id f s = (put_job id (f j) s, None))).
Proof.
  unfold update_job. destruct (snap_Jobs s !! id) as [j|] eqn:Hj; [right|by left].
  exists j. split; [done|]. destruct (saveLocked sv (put_job id (f j) s)) as [e|] eqn:He; [left|by right].
  exists e. split; [done|]. f_equal. destruct s; unfold put_job, set_snap_Jobs; cbn in *.
  by rewrite insert_insert_eq, insert_id.
Qed.

Lemma update_job_outbox sv id f s :
  keeps_identity f ->
  (outbox_sound s -> outbox_sound (update_job sv id f s).1)
  /\ (outbox_complete s -> outbox_complete (update_job sv id f s).1).
Proof.
  intros Hf.
  destruct (update_job_cases sv id f s) as [[_ ->]|(j & Hj & [(e & _ & ->)|[_ ->]])]; try done. cbn.
  destruct (Hf j) as (F1 & F2 & F3). split.
  - intros Hs id' j'. snap_simpl. rewrite lookup_insert. case_decide; [|apply Hs].
    intros [= <-]. subst id'. destruct (Hs id j Hj) as (? & Hn & i & Hi).
    unfold job_sound, job_name in *. rewrite F1, F2, F3. eauto.
  - intros Hc id' i Hi. eapply notified_mono; [|by eapply Hc].
    intros k. snap_simpl. rewrite lookup_insert. case_decide; [by eexists|done].
Qed.

Lemma sent_keeps_identity adapter ext at_ :
  keeps_identity (fun job =>
    set_job_LastError "" (set_job_ExternalID ext (set_job_Adapter adapter (set_job_SentAt (Some at_) job)))).
Proof. by intros j. Qed.

Lemma failed_keeps_identity message next permanent :
  keeps_identity (fun job =>
    set_job_Permanent permanent (set_job_NextAt next
      (set_job_LastError message (set_job_Attempts (job_Attempts job + 1)%Z job)))).
Proof. by intros j. Qed.

(** ** Rebuilding enqueues what every incident's history calls for *)

Lemma rebuild_jobs_notified p i s : incident_ok i -> notified (snap_Jobs (rebuild_jobs cfg p i s)) i.
Proof.
  intros [_ _ _ Hsh] Hn. unfold rebuild_jobs.
  destruct (inc_ActivatedAt i) as [a|] eqn:Ha.
  2:{ split; [done|]. unfold shape in Hsh. intros Hr. rewrite Hr in Hsh. by destruct Hsh; simplify_eq. }
  rewrite Hn. cbn [negb]. cbv zeta.
  set (s1 := notify_activation cfg (0%nat :: p) i a s).
  set (s2 := match inc_State i with StateResolved => _ | _ => s1 end).
  assert (G1 : jobs_grow s1 s2)
    by (unfold s2; repeat case_match; (reflexivity || apply enqueue_grows)).
  set (s3 := if negb (is_primary cfg i) then _ else s2).
  assert (G2 : jobs_grow s2 s3)
    by (unfold s3; destruct (negb (is_primary cfg i)); [apply escalate_overlaps_grows|reflexivity]).
  destruct G1 as (_ & _ & J1%subseteq_ids_grow), G2 as (_ & _ & J2%subseteq_ids_grow). split.
  - intros _. eapply opening_mono; [exact J2|]. eapply opening_mono; [exact J1|].
    apply notify_activation_opening.
  - intros Hr. apply J2. unfold s2. rewrite Hr. unfold shape in Hsh. rewrite Hr in Hsh.
    destruct Hsh as (_ & r & _ & _ & ->). apply enqueue_there.
Qed.

Lemma rebuild_all_jobs_notified j p es s k i :
  (k, i) ∈ es -> incident_ok i -> notified (snap_Jobs (rebuild_all_jobs cfg j p es s)) i.
Proof.
  revert j s. induction es as [|[k' i'] es IH]; intros j s; [by intros ?%elem_of_nil|].
  intros [[= <- <-]|Hin]%elem_of_cons Hok; cbn; [|by apply IH].
  eapply notified_mono; [|by apply rebuild_jobs_notified].
  apply subseteq_ids_grow, rebuild_all_jobs_grows.
Qed.

Lemma rebuild_state_complete p os cursors at_ previous :
  wf (rebuild_state cfg p os cursors at_ previous) ->
  outbox_complete (rebuild_state cfg p os cursors at_ previous).
Proof.
  intros Hwf id i Hi. destruct (wf_incident _ Hwf id i Hi) as [_ Hok].
  revert Hi. unfold rebuild_state. cbv zeta.
  set (s4 := carry_jobs _ _ _).
  destruct (rebuild_all_jobs_grows cfg 0 (4%nat :: p) (range (5%nat :: p) (snap_Incidents s4)) s4)
    as (_ & -> & _).
  intros Hi. eapply rebuild_all_jobs_notified; [by apply elem_of_range|done].
Qed.

End Jobs.
