(* ===== verification/EngineSafety.v ===== *)
(** The incident engine as a transition system: the operations its clients can
    perform, and what holds in every state they can reach. *)
From Stdlib Require Import ZArith Lia.
From S2P Require Import Prelude.
From S2P Require Import GoStd.
From S2P Require Import Sha256.
From S2P Require Import Model.
From S2P Require Import Classify.
From S2P Require Import EngineState.
From S2P Require Import Engine.
From S2P Require Import EngineLemmas.
From S2P Require Import EngineWf.
From S2P Require Import EngineSpec.
From S2P Require Import EngineRebuild.
From S2P Require Import EngineLife.
From S2P Require Import EngineJobs.

Section System.
Context {GR : GoRange} (cfg : Config).

(** One call of a method that changes the state; the persistence may fail at
    any of them.  The side conditions exclude digest collisions. *)
Inductive step (s : Snapshot) : Snapshot -> Prop :=
| step_observe sv p m n :
    message_fresh (cfg := cfg) p m s -> step s (Observe cfg sv p m n s).1
| step_apply sv p os cursors at_ :
    batch_fresh (cfg := cfg) 0 p os s -> step s (Apply cfg sv p os cursors at_ s).1
| step_tick sv p now : step s (Tick cfg sv p now s).1
| step_sent sv id adapter ext at_ : step s (MarkNotificationSent sv id adapter ext at_ s).1
| step_failed sv id msg next permanent :
    step s (MarkNotificationFailed sv id msg next permanent s).1
| step_cursors sv cursors : step s (SetCursors sv cursors s).1.

(** A rebuild replaces the state by a replay of the archive. *)
Inductive rebuild_step (s : Snapshot) : Snapshot -> Prop :=
| step_rebuild sv p os cursors at_ :
    batch_fresh (cfg := cfg) 0 (0%nat :: p) os (mkSnapshot 1 true at_ ∅ ∅ ∅ (cloneCursors cursors)) ->
    rebuild_step s (Rebuild cfg sv p os cursors at_ s).1.

Definition any_step (s s' : Snapshot) : Prop := step s s' \/ rebuild_step s s'.

(** From the state [New] starts with. *)
Definition reachable (s : Snapshot) : Prop := rtc any_step empty_Snapshot s.
Definition incrementally_reachable (s : Snapshot) : Prop := rtc step empty_Snapshot s.

(** ** Every step preserves the invariants *)

Lemma checkpoint_core cursors at_ s :
  snap_Trackers (checkpoint cursors at_ s) = snap_Trackers s
  /\ snap_Incidents (checkpoint cursors at_ s) = snap_Incidents s
  /\ snap_Jobs (checkpoint cursors at_ s) = snap_Jobs s.
Proof. done. Qed.

Lemma Tick_state sv p now s : (Tick cfg sv p now s).1 = (advanceLocked cfg p now s).1.
Proof. unfold Tick. by destruct (advanceLocked cfg p now s) as [s' []]. Qed.

Lemma update_job_core sv id f s :
  snap_Trackers (update_job sv id f s).1 = snap_Trackers s
  /\ snap_Incidents (update_job sv id f s).1 = snap_Incidents s.
Proof. by destruct (update_job_cases sv id f s) as [[_ ->]|(j & _ & [(e & _ & ->)|[_ ->]])]. Qed.

Lemma step_wf s s' : config_ok cfg -> wf s -> step s s' -> wf s'.
Proof.
  intros Hcfg Hwf [sv p m n Hf|sv p os c a Hf|sv p now|sv id ad ext a|sv id msg nx pm|sv c].
  - by apply observeLocked_wf.
  - by apply (wf_core (observe_all cfg 0 p os s)); [apply observe_all_wf|..].
  - rewrite Tick_state. by apply advance_wf.
  - by apply (wf_core s); [|apply update_job_core..].
  - by apply (wf_core s); [|apply update_job_core..].
  - by apply (wf_core s).
Qed.

Lemma any_step_wf s s' : config_ok cfg -> wf s -> any_step s s' -> wf s'.
Proof.
  intros Hcfg Hwf [Hs|[sv p os c a Hf]]; [by eapply step_wf|]. by apply rebuild_state_wf.
Qed.

Lemma empty_wf : wf empty_Snapshot.
Proof. by constructor. Qed.

Lemma rtc_any_step_wf s s' : config_ok cfg -> wf s -> rtc any_step s s' -> wf s'.
Proof. intros Hcfg Hwf. induction 1; [done|]. eauto using any_step_wf. Qed.

Lemma step_outbox s s' :
  config_ok cfg -> wf s -> step s s' ->
  (outbox_sound cfg s -> outbox_sound cfg s') /\ (outbox_complete cfg s -> outbox_complete cfg s').
Proof.
  intros Hcfg Hwf [sv p m n Hf|sv p os c a Hf|sv p now|sv id ad ext a|sv id msg nx pm|sv c].
  - by apply observeLocked_outbox.
  - by apply (observe_all_outbox cfg 0 p os s).
  - rewrite Tick_state. by apply advance_outbox.
  - apply update_job_outbox. apply sent_keeps_identity.
  - apply update_job_outbox. apply failed_keeps_identity.
  - done.
Qed.

Lemma any_step_complete s s' :
  config_ok cfg -> wf s -> any_step s s' -> outbox_complete cfg s -> outbox_complete cfg s'.
Proof.
  intros Hcfg Hwf Hst. pose proof (any_step_wf s s' Hcfg Hwf Hst) as Hwf'.
  destruct Hst as [Hs|Hr]; [by apply step_outbox|].
  revert Hwf'. destruct Hr as [sv p os c a Hf]. intros Hwf' _. apply (rebuild_state_complete cfg p os c a s Hwf').
Qed.

Lemma step_life s s' : config_ok cfg -> wf s -> step s s' -> confirmed_life s s'.
Proof.
  intros Hcfg Hwf [sv p m n Hf|sv p os c a Hf|sv p now|sv id ad ext a|sv id msg nx pm|sv c].
  - apply life_confirmed; [done|]. by apply observeLocked_life.
  - by apply (observe_all_life 0 p os s).
  - rewrite Tick_state. apply life_confirmed, all_evolve_is_life, advance_evolves; done.
  - apply life_confirmed; [done|]. apply life_same, update_job_core.
  - apply life_confirmed; [done|]. apply life_same, update_job_core.
  - by apply life_confirmed, life_same.
Qed.

(** ** The links of all interfaces as one abstract system *)

Definition links : Type := string -> link_state.

Definition links_timer (now : Time) (L : links) : links := fun k => link_timer_state now (L k).

Definition links_evidence (e : evidence) (n : bool) (L : links) : links := fun k =>
  if decide (k = evidence_key e) then link_evidence cfg e n (L k)
  else if reaches_timers e (L (evidence_key e)) then link_timer_state (ev_at e) (L k) else L k.

(** Inputs of the engine: a clock tick, or a message with its eligibility. *)
Inductive input : Type :=
| in_tick (now : Time)
| in_message (m : Message) (eligible : bool).

Definition engine_input (p : list nat) (x : input) (s : Snapshot) : Snapshot :=
  match x with
  | in_tick now => (advanceLocked cfg p now s).1
  | in_message m n => observeLocked cfg p m n "" s
  end.

Definition links_input (x : input) (L : links) : links :=
  match x with
  | in_tick now => links_timer now L
  | in_message m n =>
    match classify m (cfg_Interface cfg) with
    | None => L
    | Some e => links_evidence (set_sourceRef "" e) n L
    end
  end.

Fixpoint engine_run (p : list nat) (xs : list input) (s : Snapshot) : Snapshot :=
  match xs with
  | [] => s
  | x :: rest => engine_run (length rest :: p) rest (engine_input (length rest :: p) x s)
  end.

Fixpoint run_fresh (p : list nat) (xs : list input) (s : Snapshot) : Prop :=
  match xs with
  | [] => True
  | x :: rest =>
    match x with
    | in_tick _ => True
    | in_message m _ => message_fresh (cfg := cfg) (length rest :: p) m s
    end /\ run_fresh (length rest :: p) rest (engine_input (length rest :: p) x s)
  end.

Lemma engine_input_wf p x s :
  config_ok cfg -> wf s ->
  match x with in_tick _ => True | in_message m _ => message_fresh (cfg := cfg) p m s end ->
  wf (engine_input p x s).
Proof.
  intros Hcfg Hwf Hf. destruct x; cbn; [by apply advance_wf|by apply observeLocked_wf].
Qed.

Lemma engine_input_abs p x s :
  wf s ->
  match x with in_tick _ => True | in_message m _ => message_fresh (cfg := cfg) p m s end ->
  forall k, abs (engine_input p x s) k = links_input x (abs s) k.
Proof.
  intros Hwf Hf k. destruct x as [now|m n]; cbn.
  - by apply advance_abs.
  - unfold observeLocked, message_fresh in *. destruct (classify m _) as [e|]; [|done].
    by apply observe_evidence_abs.
Qed.

Lemma links_input_ext x L L' : (forall k, L k = L' k) -> forall k, links_input x L k = links_input x L' k.
Proof.
  intros HL k. destruct x as [now|m n]; cbn; [unfold links_timer; by rewrite HL|].
  destruct (classify m _) as [e|]; [|done]. unfold links_evidence. by rewrite !HL.
Qed.

Lemma engine_run_abs p xs s :
  config_ok cfg -> wf s -> run_fresh p xs s ->
  forall k, abs (engine_run p xs s) k = fold_left (fun L x => links_input x L) xs (abs s) k.
Proof.
  intros Hcfg. revert p s. induction xs as [|x xs IH]; intros p s Hwf; [done|].
  cbn [run_fresh engine_run fold_left]. intros [Hf Hr] k.
  rewrite (IH _ _ (engine_input_wf _ _ _ Hcfg Hwf Hf) Hr k).
  pose proof (engine_input_abs _ _ _ Hwf Hf) as Habs. clear - Habs.
  revert Habs. generalize (abs (engine_input (length xs :: p) x s)), (links_input x (abs s)).
  revert k. induction xs as [|y xs IH]; intros k L L' HL; [apply HL|].
  cbn. apply IH. by apply links_input_ext.
Qed.

End System.
