(* ===== verification/Scenarios.v ===== *)
(** Concrete inputs: the messages, configuration and instances the witnesses of
    the theorems evaluate on, and scenarios of [internal/incidents/engine_test.go]
    replayed on the model. *)
From Stdlib Require Import ZArith.
From S2P Require Import Prelude.
From S2P Require Import GoStd.
From S2P Require Import Sha256.
From S2P Require Import Model.
From S2P Require Import Classify.
From S2P Require Import EngineState.
From S2P Require Import Engine.
From S2P Require Import EngineLemmas.
From S2P Require Import EngineWf.
From S2P Require Import EngineJobs.
From S2P Require Import EngineSafety.
Local Open Scope Z_scope.

#[export] Existing Instance listed_range.
#[export] Existing Instance merge_sort_slice.

Definition wan_config : Config := mkConfig "wan" Minute Minute.

Lemma wan_config_ok : config_ok wan_config.
Proof. done. Qed.

Definition message_at (host tag text : string) (t : Time) (id : string) : Message :=
  {| msg_ID := id; msg_ReceivedAt := t; msg_Timestamp := None; msg_Transport := ""; msg_Source := "";
     msg_Priority := None; msg_Facility := None; msg_Severity := None; msg_Hostname := host;
     msg_AppName := ""; msg_ProcID := ""; msg_MsgID := ""; msg_Tag := tag; msg_Message := text;
     msg_StructuredData := None; msg_Raw := None |}.

Definition start : Time := Date 2026 9 18 12 0 0.
Definition sec (n : Z) : Time := start + n * Second.

Definition repeater (iface status : string) (n : Z) (id : string) : Message :=
  message_at "router-a" "gl-repeater"
    ("(repeater.lua:1253) interface " +:+ iface +:+ " status " +:+ status) (sec n) id.

Definition netifd (text : string) (n : Z) (id : string) : Message :=
  message_at "router-a" "netifd" text (sec n) id.

Definition observe (m : Message) (s : Snapshot) : Snapshot := observeLocked wan_config [] m true "" s.
Definition tick (n : Z) (s : Snapshot) : Snapshot := (advanceLocked wan_config [] (sec n) s).1.

(** What the Go tests look at: states by interface, kinds of the jobs. *)
Definition states (s : Snapshot) : list (string * State) :=
  map (fun kv => (inc_Interface kv.2, inc_State kv.2)) (map_to_list (snap_Incidents s)).
Definition kinds (s : Snapshot) : list Kind := map (fun kv => job_Kind kv.2) (map_to_list (snap_Jobs s)).

Definition wan_down : Message := repeater "wan" "offline" 0 "down-1".
Definition wan_up : Message := repeater "wan" "online" 70 "up-1".
Definition wan_pending : Snapshot := observe wan_down empty_Snapshot.
Definition wan_active : Snapshot := tick 60 wan_pending.

(** TestEngineRequiresSustainedFailureAndRecovery *)
Example sustained_failure_and_recovery :
  states (tick 59 wan_pending) = [("wan", StatePendingFailure)]
  /\ states wan_active = [("wan", StateActive)] /\ kinds wan_active = [KindIncidentOpened]
  /\ states (tick 129 (observe wan_up wan_active)) = [("wan", StatePendingRecovery)]
  /\ states (tick 130 (observe wan_up wan_active)) = [("wan", StateResolved)]
  /\ kinds (tick 130 (observe wan_up wan_active)) = [KindIncidentOpened; KindIncidentResolved].
Proof. vm_compute. by repeat split. Qed.

(** TestEngineSuppressesShortFlap *)
Example short_flap :
  let s := tick 120 (observe (repeater "wan" "online" 3 "up") wan_pending) in
  states s = [] /\ kinds s = [].
Proof. vm_compute. by split. Qed.

(** TestReachabilityFailureIgnoresInterfaceOnlyRecovery *)
Example interface_only_recovery :
  let s := tick 180 (observe (netifd "Interface 'wan' is now up" 70 "interface-up") wan_active) in
  states s = [("wan", StateActive)]
  /\ states (tick 300 (observe (repeater "wan" "online" 240 "reachability-up") s)) = [("wan", StateResolved)].
Proof. vm_compute. by split. Qed.

(** TestStarlinkSelectionArmsMonitoringWithoutChangingIncidentState *)
Example starlink_selection :
  let s := tick 120 (observe (message_at "router-a" "gl-repeater"
             "(repeater.lua:1253) switch to STARLINK" start "selected") empty_Snapshot) in
  states s = [] /\ trk_Phase (get_tracker s (tracker_key "router-a" "wwan")) = phaseHealthy.
Proof. vm_compute. by split. Qed.

Definition fallback_active : Snapshot := tick 60 (observe (repeater "wwan" "offline" 0 "starlink-down") empty_Snapshot).

(** TestEngineEscalatesActiveBackupFailureWhenPrimaryFails *)
Example escalates_active_backup :
  kinds (tick 130 (observe (repeater "wan" "offline" 70 "wan-down") fallback_active))
  ≡ₚ [KindFallbackOpened; KindIncidentOpened; KindFallbackEscalated].
Proof. vm_compute. solve_Permutation. Qed.

(** ** The states of the scenarios are reachable *)

Lemma wan_pending_reachable : reachable wan_config wan_pending.
Proof.
  apply rtc_once. left. apply (step_observe _ _ None [] wan_down true).
  intros _. vm_compute. reflexivity.
Defined.

Lemma tick_step (n : Z) (s : Snapshot) : step wan_config s (tick n s).
Proof. unfold tick. rewrite <- (Tick_state wan_config None [] (sec n) s). constructor. Qed.

Lemma wan_active_reachable : reachable wan_config wan_active.
Proof.
  eapply rtc_r; [apply wan_pending_reachable|].
  left. apply tick_step.
Defined.

Lemma reachable_facts (s : Snapshot) : reachable wan_config s -> wf s /\ outbox_complete wan_config s.
Proof.
  intros Hr.
  enough (H : forall s0, wf s0 -> outbox_complete wan_config s0 -> rtc (any_step wan_config) s0 s ->
            wf s /\ outbox_complete wan_config s) by (by apply (H empty_Snapshot empty_wf)).
  clear Hr. pose proof wan_config_ok. intros s0 Hwf Hc Hr. induction Hr as [|s1 s2 s3 H12 _ IH]; [done|].
  apply IH; [by eapply (any_step_wf wan_config)|by eapply (any_step_complete wan_config)].
Qed.

Lemma wan_pending_wf : wf wan_pending.
Proof. apply reachable_facts, wan_pending_reachable. Qed.
