(* ===== verification/EngineTimers.v ===== *)
(** What the timer loop does to one failure, exactly; in which order the timers
    fire; and that recording the same message twice is recording it once. *)
From Stdlib Require Import ZArith Lia.
From S2P Require Import Prelude.
From S2P Require Import GoStd.
From S2P Require Import Model.
From S2P Require Import Classify.
From S2P Require Import EngineState.
From S2P Require Import Engine.
From S2P Require Import EngineLemmas.
From S2P Require Import EngineWf.

(** ** One failure through the loop *)

(** The timer of an open tracker has run out. *)
Definition fires (now : Time) (t : tracker) (i : Incident) : bool := is_pending t && (due_at t i <=? now)%Z.

(** What its firing leaves. *)
Definition settle (t : tracker) (i : Incident) : tracker * Incident :=
  match trk_Phase t with
  | phasePendingFailure => (set_trk_Phase phaseActive t, activated_incident t i)
  | phasePendingRecovery => (healthy_tracker (trk_LastEvidenceAt t), resolved_incident t i)
  | _ => (t, i)
  end.

Section Timers.
Context {GR : GoRange} (cfg : Config).

Lemma due_fires now s t i :
  snap_Incidents s !! trk_IncidentID t = Some i -> due now s t <-> fires now t i = true.
Proof. intros Hi. unfold due, fires. by rewrite Hi, andb_true_iff, Z.leb_le. Qed.

Lemma advance_body_core q now k t i s :
  snap_Incidents s !! trk_IncidentID t = Some i -> inc_ID i = trk_IncidentID t -> due now s t ->
  snap_Trackers (advance_body cfg q k t s).1 = <[k := (settle t i).1]> (snap_Trackers s)
  /\ snap_Incidents (advance_body cfg q k t s).1 = <[trk_IncidentID t := (settle t i).2]> (snap_Incidents s).
Proof.
  intros Hi Hid [Hp _]. unfold advance_body, settle, is_pending in *. rewrite <- Hid.
  destruct (trk_Phase t); try done; [by apply activate_core|by apply resolve_core].
Qed.

Lemma settled_not_pending t i : is_pending t = true -> is_pending (settle t i).1 = false.
Proof. unfold settle, is_pending. by destruct (trk_Phase t). Qed.

Lemma settled_incident t i : is_pending t = true ->
  inc_State (settle t i).2 = StateResolved
  \/ open_state (trk_Phase (settle t i).1) <> None /\ trk_IncidentID (settle t i).1 = trk_IncidentID t.
Proof. unfold settle, is_pending. destruct (trk_Phase t); try done; [by right|by left]. Qed.

(** An open tracker and its incident after the loop. *)
Lemma advance_open p now s k t i :
  wf s -> snap_Trackers s !! k = Some t -> open_state (trk_Phase t) <> None ->
  snap_Incidents s !! trk_IncidentID t = Some i ->
  let s' := (advanceLocked cfg p now s).1 in
  let r := if fires now t i then settle t i else (t, i) in
  snap_Trackers s' !! k = Some r.1 /\ snap_Incidents s' !! trk_IncidentID t = Some r.2.
Proof.
  intros Hwf Hk Ho Hi.
  set (before s0 := snap_Trackers s0 !! k = Some t /\ snap_Incidents s0 !! trk_IncidentID t = Some i).
  set (after s0 := fires now t i = true /\ snap_Trackers s0 !! k = Some (settle t i).1
                   /\ snap_Incidents s0 !! trk_IncidentID t = Some (settle t i).2).
  destruct (advanceLocked_ind cfg (fun s0 => wf s0 /\ (before s0 \/ after s0)) p now s)
    as ([Hwf' HP] & Hn & _); [|by split; [|left]|].
  - intros q k0 t0 s0 [Hwf0 HP0] Hk0 Hd. split; [by eapply advance_body_wf|].
    assert (Ho0 : open_state (trk_Phase t0) <> None)
      by (destruct Hd as [Hd _]; unfold is_pending in Hd; by destruct (trk_Phase t0)).
    destruct (wf_linked Hwf0 k0 t0 Hk0 Ho0) as (i0 & Hi0 & Hl0 & Hid0 & _).
    destruct (advance_body_core q now k0 t0 i0 s0 Hi0 Hid0 Hd) as [HT HI].
    unfold before, after. rewrite HT, HI. destruct (decide (k0 = k)) as [->|Hne].
    + destruct HP0 as [[Hb1 Hb2]|(Hf & Ha1 & _)].
      * rewrite Hb1 in Hk0. injection Hk0 as <-. rewrite Hb2 in Hi0. injection Hi0 as <-.
        right. rewrite !lookup_insert_eq. split; [by eapply due_fires|done].
      * rewrite Ha1 in Hk0. injection Hk0 as <-. destruct Hd as [Hd _].
        rewrite settled_not_pending in Hd; [done|]. by apply andb_true_iff in Hf as [? _].
    + assert (Hid : trk_IncidentID t0 <> trk_IncidentID t).
      { intros E. destruct HP0 as [[Hb1 Hb2]|(Hf & Ha1 & Ha2)].
        - apply Hne. by eapply (wf_distinct Hwf0).
        - apply andb_true_iff in Hf as [Hp _]. destruct (settled_incident t i Hp) as [Hr|[Ho' Hid']].
          + rewrite E, Ha2 in Hi0. injection Hi0 as <-. destruct Hl0 as [_ Hst _ _ _ _].
            rewrite Hr in Hst. by destruct (trk_Phase t0).
          + apply Hne. eapply (wf_distinct Hwf0); eauto. by rewrite Hid'. }
      rewrite !lookup_insert_ne by done. done.
  - cbv zeta. destruct (fires now t i) eqn:Hf; destruct HP as [[H1 H2]|(Hf' & H1 & H2)]; try done.
    destruct (Hn k t H1). by eapply due_fires.
Qed.

(** A timer that runs out belongs to an open tracker and its incident. *)
Lemma due_linked now s k t :
  wf s -> snap_Trackers s !! k = Some t -> due now s t ->
  exists i, snap_Incidents s !! trk_IncidentID t = Some i /\ inc_ID i = trk_IncidentID t
            /\ open_state (trk_Phase t) <> None.
Proof.
  intros Hwf Hk [Hd _].
  assert (Ho : open_state (trk_Phase t) <> None) by (unfold is_pending in Hd; by destruct (trk_Phase t)).
  destruct (wf_linked Hwf k t Hk Ho) as (i & Hi & _ & Hid & _). by exists i.
Qed.

(** What is left alone: a tracker that is not open keeps its place, and so does
    whatever is stored under the id of no open tracker. *)
Lemma advance_closed_tracker p now s k :
  wf s -> (forall t, snap_Trackers s !! k = Some t -> open_state (trk_Phase t) = None) ->
  snap_Trackers (advanceLocked cfg p now s).1 !! k = snap_Trackers s !! k.
Proof.
  intros Hwf Hc.
  apply (advance_preserves cfg (fun s0 => wf s0 /\ snap_Trackers s0 !! k = snap_Trackers s !! k) p now s); [|done].
  intros q k0 t0 s0 [Hwf0 Hk] Hk0 Hd. split; [by eapply advance_body_wf|].
  destruct (due_linked now s0 k0 t0 Hwf0 Hk0 Hd) as (i0 & Hi0 & Hid0 & Ho0).
  destruct (advance_body_core q now k0 t0 i0 s0 Hi0 Hid0 Hd) as [-> _].
  rewrite lookup_insert_ne; [done|]. intros ->. apply Ho0, Hc. by rewrite <- Hk.
Qed.

Lemma advance_other_incident p now s id :
  wf s ->
  (forall k t, snap_Trackers s !! k = Some t -> open_state (trk_Phase t) <> None -> trk_IncidentID t <> id) ->
  snap_Incidents (advanceLocked cfg p now s).1 !! id = snap_Incidents s !! id.
Proof.
  intros Hwf Hno.
  set (other s0 := forall k t, snap_Trackers s0 !! k = Some t -> open_state (trk_Phase t) <> None ->
                     trk_IncidentID t <> id).
  apply (advance_preserves cfg
           (fun s0 => wf s0 /\ other s0 /\ snap_Incidents s0 !! id = snap_Incidents s !! id) p now s); [|done].
  intros q k0 t0 s0 (Hwf0 & Ho & Hi) Hk0 Hd. split; [by eapply advance_body_wf|].
  destruct (due_linked now s0 k0 t0 Hwf0 Hk0 Hd) as (i0 & Hi0 & Hid0 & Ho0).
  destruct (advance_body_core q now k0 t0 i0 s0 Hi0 Hid0 Hd) as [HT ->].
  rewrite lookup_insert_ne by by eapply Ho. split; [|done].
  intros k t. rewrite HT. destruct (decide (k0 = k)) as [->|Hne].
  - rewrite lookup_insert_eq. intros [= <-] Ht. specialize (Ho k t0 Hk0 Ho0).
    unfold settle in *. by destruct (trk_Phase t0).
  - rewrite lookup_insert_ne by done. by apply Ho.
Qed.

(** ** The order of the timers *)

(** Earlier first; at the same instant recoveries, then the primary interface,
    then fallbacks. *)
Definition fires_before (t1 : tracker) (i1 : Incident) (t2 : tracker) (i2 : Incident) : Prop :=
  (due_at t1 i1 < due_at t2 i2
   \/ due_at t1 i1 = due_at t2 i2 /\ due_priority cfg t1 i1 <= due_priority cfg t2 i2)%Z.

Definition selected_of (s : Snapshot) (sel : string * tracker * Time * Z) : Prop :=
  let '(_, t, at_, pr) := sel in
  exists i, snap_Incidents s !! trk_IncidentID t = Some i /\ at_ = due_at t i /\ pr = due_priority cfg t i.

Lemma next_due_loop_minimal now s entries sel k t :
  (forall k' t', (k', t') ∈ entries -> is_pending t' = true ->
     is_Some (snap_Incidents s !! trk_IncidentID t')) ->
  (match sel with Some x => selected_of s x | None => True end) ->
  next_due_loop cfg now s entries sel = Some (k, t) ->
  exists i, snap_Incidents s !! trk_IncidentID t = Some i
    /\ (forall k' t' i', (k', t') ∈ entries -> snap_Incidents s !! trk_IncidentID t' = Some i' ->
          fires now t' i' = true -> fires_before t i t' i')
    /\ (match sel with
        | Some (_, t', _, _) => forall i', snap_Incidents s !! trk_IncidentID t' = Some i' -> fires_before t i t' i'
        | None => True
        end).
Proof.
  revert sel. induction entries as [|[k0 t0] rest IH]; intros sel Hall Hsel H; cbn in H.
  - destruct sel as [[[[k1 t1] a] pr]|]; [|done]. injection H as -> ->.
    destruct Hsel as (i & Hi & -> & ->). exists i. split_and!; [done| |].
    + by intros ? ? ? ?%elem_of_nil.
    + intros i' Hi'. rewrite Hi in Hi'. injection Hi' as <-. right. lia.
  - assert (Hall' : forall k' t', (k', t') ∈ rest -> is_pending t' = true ->
              is_Some (snap_Incidents s !! trk_IncidentID t')) by (intros; eapply Hall; [by right|done]).
    destruct (is_pending t0) eqn:Hp; cbn in H.
    2:{ destruct (IH sel Hall' Hsel H) as (i & Hi & Hr & Hs). exists i. split_and!; [done| |done].
        intros k' t' i' Hin Hi' Hf. apply elem_of_cons in Hin as [[= -> ->]|Hin]; [|by eapply Hr].
        unfold fires in Hf. by rewrite Hp in Hf. }
    destruct (Hall k0 t0 ltac:(left) Hp) as [i0 Hi0]. rewrite Hi0 in H. unfold After in H.
    destruct (now <? due_at t0 i0)%Z eqn:Ha.
    { destruct (IH sel Hall' Hsel H) as (i & Hi & Hr & Hs). exists i. split_and!; [done| |done].
      intros k' t' i' Hin Hi' Hf. apply elem_of_cons in Hin as [[= -> ->]|Hin]; [|by eapply Hr].
      rewrite Hi0 in Hi'. injection Hi' as <-. unfold fires in Hf. apply andb_true_iff in Hf as [_ Hf].
      apply Z.leb_le in Hf. apply Z.ltb_lt in Ha. lia. }
    set (better := match sel with None => true | Some (_, _, a, pr) => _ end) in H.
    set (sel' := if better then Some (k0, t0, due_at t0 i0, due_priority cfg t0 i0) else sel) in H.
    assert (Hsel' : match sel' with Some x => selected_of s x | None => True end)
      by (unfold sel'; destruct better; [by exists i0|done]).
    destruct (IH sel' Hall' Hsel' H) as (i & Hi & Hr & Hs). exists i.
    assert (H0 : fires_before t i t0 i0 /\ match sel with
        | Some (_, t', _, _) => forall i', snap_Incidents s !! trk_IncidentID t' = Some i' -> fires_before t i t' i'
        | None => True
        end).
    { unfold sel' in Hs. destruct sel as [[[[k1 t1] a] pr]|]; [|by split; [apply Hs|]].
      destruct Hsel as (i1 & Hi1 & -> & ->). unfold better in Hs.
      destruct (Before _ _ || _) eqn:Eb; cbn in Hs.
      - specialize (Hs i0 Hi0). split; [done|]. intros i' Hi'. rewrite Hi1 in Hi'. injection Hi' as <-.
        unfold fires_before, Before in *. apply orb_true_iff in Eb as [Eb%Z.ltb_lt|Eb]; [lia|].
        apply andb_true_iff in Eb as [E1%Z.eqb_eq E2%Z.ltb_lt]. lia.
      - specialize (Hs i1 Hi1). split.
        + unfold fires_before, Before in *. apply orb_false_iff in Eb as [E1%Z.ltb_ge E2].
          apply andb_false_iff in E2 as [E2%Z.eqb_neq|E2%Z.ltb_ge]; lia.
        + intros i' Hi'. rewrite Hi1 in Hi'. by injection Hi' as <-. }
    split_and!; [done| |apply H0].
    intros k' t' i' Hin Hi' Hf. apply elem_of_cons in Hin as [[= -> ->]|Hin]; [|by eapply Hr].
    rewrite Hi0 in Hi'. injection Hi' as <-. apply H0.
Qed.
End Timers.
