(* ===== verification/EngineReplay.v ===== *)
(** Replayed records are harmless (the comment on [Service.Apply]): observing
    the message that was observed last changes nothing. *)
From Stdlib Require Import ZArith Lia.
From S2P Require Import Prelude.
From S2P Require Import GoStd.
From S2P Require Import Model.
From S2P Require Import Classify.
From S2P Require Import EngineState.
From S2P Require Import Engine.
From S2P Require Import EngineLemmas.
From S2P Require Import EngineWf.
From S2P Require Import EngineSpec.

(** ** Writing what is there *)

Lemma put_tracker_same (k : string) (t : tracker) (s : Snapshot) :
  snap_Trackers s !! k = Some t -> put_tracker k t s = s.
Proof. intros H. destruct s. unfold put_tracker, set_snap_Trackers. cbn in *. by rewrite insert_id. Qed.

Lemma put_tracker_twice (k : string) (t t' : tracker) (s : Snapshot) :
  put_tracker k t (put_tracker k t' s) = put_tracker k t s.
Proof. unfold put_tracker, set_snap_Trackers. cbn. by rewrite insert_insert_eq. Qed.

Lemma update_incident_same (id : string) (f : Incident -> Incident) (i : Incident) (s : Snapshot) :
  snap_Incidents s !! id = Some i -> inc_ID i = id -> f i = i -> update_incident id f s = s.
Proof.
  intros H Hid Hf. unfold update_incident. rewrite H, Hf, Hid.
  destruct s. unfold put_incident, set_snap_Incidents. cbn in *. by rewrite insert_id.
Qed.

Lemma appendEvidence_twice (ids : list string) (id : string) :
  appendEvidence (appendEvidence ids id) id = appendEvidence ids id.
Proof.
  unfold appendEvidence. destruct (String.eqb_spec id "") as [|Hn]; [done|].
  destruct (bool_decide (last ids = Some id)) eqn:E; [by rewrite E|].
  rewrite bool_decide_true; [done|]. by rewrite last_snoc.
Qed.

Lemma add_evidence_twice (e : evidence) (i : Incident) :
  add_evidence e (add_evidence e i) = add_evidence e i.
Proof. unfold add_evidence. cbn. by rewrite !appendEvidence_twice. Qed.

(** [i] already carries the evidence. *)
Definition carries (e : evidence) (i : Incident) : Prop := add_evidence e i = i.

Section Replay.
Context {GR : GoRange} (cfg : Config).

Definition record_evidence (e : evidence) (n : bool) (t : tracker) (s : Snapshot) : tracker * Snapshot :=
  if ev_online e then observe_online e t s else observe_offline cfg e n t s.

(** The incident an open tracker stands for carries the evidence and, while the
    failure is being confirmed, the tracker's notify flag. *)
Definition recorded (e : evidence) (n : bool) (t : tracker) (s : Snapshot) : Prop :=
  trk_LastEvidenceAt t = ev_at e
  /\ (ev_online e = false -> (trk_ReachabilityDown t || ev_reachability e) = trk_ReachabilityDown t)
  /\ match trk_Phase t with
     | phaseNone => False
     | phaseHealthy => ev_online e = true
     | ph =>
       (exists i, snap_Incidents s !! trk_IncidentID t = Some i /\ inc_ID i = trk_IncidentID t
                  /\ carries e i /\ (ph = phasePendingFailure -> inc_Notify i = trk_Notify t))
       /\ (ph = phasePendingFailure -> ev_online e = false /\ (trk_Notify t || n) = trk_Notify t)
       /\ (ph = phaseActive -> ev_online e = false)
       /\ (ph = phasePendingRecovery -> ev_online e = true)
     end.

Lemma record_recorded (e : evidence) (n : bool) (t : tracker) (s : Snapshot) :
  recorded e n t s -> record_evidence e n t s = (t, s).
Proof.
  intros (Hl & Hr & Hp). unfold record_evidence.
  destruct (trk_Phase t) eqn:Hph; [done| | | |].
  - rewrite Hp. unfold observe_online. by rewrite Hph.
  - destruct Hp as ((i & Hi & Hid & Hc & Hn) & Ho & _). destruct (Ho eq_refl) as [Ho' Hnt].
    rewrite Ho'. specialize (Hr Ho'). unfold observe_offline. rewrite Hph, Hr.
    assert (Ht : set_trk_Notify (trk_Notify t || n) (set_trk_ReachabilityDown (trk_ReachabilityDown t) t) = t)
      by (rewrite Hnt; by destruct t).
    cbn [trk_Notify set_trk_ReachabilityDown] in *. rewrite Ht. f_equal.
    apply (update_incident_same _ _ i); [done|done|].
    rewrite <- (Hn eq_refl). replace (set_inc_Notify (inc_Notify i) i) with i by (by destruct i). exact Hc.
  - destruct Hp as ((i & Hi & Hid & Hc & _) & _ & Ho & _). rewrite (Ho eq_refl).
    unfold observe_offline. rewrite Hph, (Hr (Ho eq_refl)).
    replace (set_trk_ReachabilityDown (trk_ReachabilityDown t) t) with t by (by destruct t).
    f_equal. by apply (update_incident_same _ _ i).
  - destruct Hp as ((i & Hi & Hid & Hc & _) & _ & _ & Ho). rewrite (Ho eq_refl).
    unfold observe_online. rewrite Hph. f_equal. by apply (update_incident_same _ _ i).
Qed.

Lemma new_failure_recorded (e : evidence) (n : bool) (s : Snapshot) :
  ev_online e = false ->
  let id := evidence_id e in
  let t := mkTracker phasePendingFailure (ev_at e) 0 (ev_at e) (ev_messageID e) (ev_sourceRef e) id n
             (ev_reachability e) in
  recorded e n t (put_tracker (evidence_key e) t (put_incident id (new_incident cfg id e n) s)).
Proof.
  intros Hon. split_and!; [done|intros _; cbn; apply orb_diag|]. cbn. split_and!; try done.
  - eexists. snap_simpl. rewrite lookup_insert_eq. split_and!; try done.
    unfold carries, add_evidence, new_incident. cbn. by rewrite !appendEvidence_twice.
  - intros _. split; [done|]. apply orb_diag.
Qed.

(** Recording leaves the evidence recorded. *)
Lemma record_leaves_recorded (e : evidence) (n : bool) (s : Snapshot) :
  wf s ->
  let t := touched e (get_tracker s (evidence_key e)) in
  let r := record_evidence e n t s in
  recorded e n r.1 (put_tracker (evidence_key e) r.1 r.2).
Proof.
  intros Hwf t. set (k := evidence_key e) in *. unfold record_evidence.
  assert (Hopen : open_state (trk_Phase t) <> None ->
    exists i, snap_Incidents s !! trk_IncidentID t = Some i /\ inc_ID i = trk_IncidentID t
              /\ inc_Notify i = trk_Notify t).
  { intros Ho. destruct (abs_open s k Hwf Ho) as (i & _ & Hi & Hl). exists i. split; [done|].
    split; [|by destruct Hl]. by destruct (wf_incident s Hwf _ _ Hi). }
  assert (Hrec : forall f, (forall i, inc_ID (f i) = inc_ID i) ->
    open_state (trk_Phase t) <> None -> exists i i',
      snap_Incidents s !! trk_IncidentID t = Some i /\ i' = add_evidence e (f i)
      /\ snap_Incidents (update_incident (trk_IncidentID t) (fun i => add_evidence e (f i)) s)
         !! trk_IncidentID t = Some i' /\ inc_ID i' = trk_IncidentID t /\ carries e i').
  { intros f Hf Ho. destruct (Hopen Ho) as (i & Hi & Hid & _). exists i, (add_evidence e (f i)).
    split; [done|]. split; [done|].
    assert (Hid' : inc_ID (add_evidence e (f i)) = trk_IncidentID t) by (cbn; by rewrite Hf).
    rewrite (incidents_update_incident _ i) by done. rewrite lookup_insert_eq.
    split_and!; [done|done|apply add_evidence_twice]. }
  assert (Hlast : trk_LastEvidenceAt t = ev_at e) by done. clearbody t.
  destruct (ev_online e) eqn:Hon.
  - unfold observe_online. destruct (trk_Phase t) eqn:Hph; cbn [fst snd].
    + by split_and!; rewrite ?Hon.
    + split_and!; [done|by rewrite Hon|]. by rewrite ?Hph.
    + by split_and!; rewrite ?Hon.
    + destruct (Hrec (fun i => set_inc_RecoveryFirstAt (Some (ev_at e)) (set_inc_State StatePendingRecovery i)))
        as (i & i' & Hi & _ & Hi' & Hid & Hc); [done|done|].
      split_and!; [done|by rewrite Hon|]. cbn. split_and!; try done. exists i'. snap_simpl. by split_and!.
    + destruct (Hrec (fun i => i)) as (i & i' & Hi & _ & Hi' & Hid & Hc); [done|done|].
      split_and!; [done|by rewrite Hon|]. rewrite ?Hph. split_and!; try done. exists i'. snap_simpl. by split_and!.
  - unfold observe_offline. destruct (trk_Phase t) eqn:Hph; cbn [fst snd].
    + apply new_failure_recorded. done.
    + apply new_failure_recorded. done.
    + destruct (Hrec (fun i => set_inc_Notify (trk_Notify t || n) i))
        as (i & i' & Hi & Hf & Hi' & Hid & Hc); [done|done|].
      split_and!; [done|intros _; cbn; by rewrite <- orb_assoc, orb_diag|]. cbn. rewrite ?Hph.
      split_and!; try done; [exists i'; snap_simpl; split_and!; try done; intros _; by rewrite Hf|].
      intros _. split; [done|]. by rewrite <- orb_assoc, orb_diag.
    + destruct (Hrec (fun i => i)) as (i & i' & Hi & _ & Hi' & Hid & Hc); [done|done|].
      split_and!; [done|intros _; cbn; by rewrite <- orb_assoc, orb_diag|]. cbn. rewrite ?Hph.
      split_and!; try done. exists i'. snap_simpl. by split_and!.
    + destruct (Hrec (fun i => set_inc_RecoveryFirstAt None (set_inc_State StateActive i)))
        as (i & i' & Hi & _ & Hi' & Hid & Hc); [done|done|].
      split_and!; [done|intros _; cbn; by rewrite <- orb_assoc, orb_diag|]. cbn.
      split_and!; try done. exists i'. snap_simpl. by split_and!.
Qed.

(** ** No timer is left to fire *)

Lemma due_moves now s k t :
  wf s -> snap_Trackers s !! k = Some t -> due now s t -> link_timer now (abs s k).2 <> (abs s k).2.
Proof.
  intros Hwf Hk Hd. rewrite (abs_tracker s k t Hk). cbn.
  assert (Ho : open_state (trk_Phase t) <> None)
    by (destruct Hd as [Hd _]; unfold is_pending in Hd; by destruct (trk_Phase t)).
  destruct (wf_linked Hwf k t Hk Ho) as (i & Hi & _). rewrite (link_of_open s t i Hi).
  destruct Hd as [Hp Hd]. rewrite Hi in Hd. unfold is_pending, due_at in *.
  destruct (trk_Phase t); try done; cbn; by rewrite (proj2 (Z.leb_le _ _) Hd).
Qed.

(** Every threshold a link carries is positive. *)
Definition positive (l : link) : Prop :=
  match l with
  | link_confirming f | link_down f | link_recovering f _ =>
    (0 < fl_down_after f /\ 0 < fl_recovered_after f)%Z
  | _ => True
  end.

Lemma abs_positive s k : wf s -> positive (abs s k).2.
Proof.
  intros Hwf. destruct (decide (open_state (trk_Phase (get_tracker s k)) = None)) as [Ho|Ho].
  - unfold abs, link_of. cbn. by destruct (trk_Phase (get_tracker s k)).
  - destruct (abs_open s k Hwf Ho) as (i & _ & Hi & _).
    destruct (wf_incident s Hwf _ _ Hi) as [_ [Hd Hr _ _]]. unfold abs. cbn.
    rewrite (link_of_open _ _ i Hi). by destruct (trk_Phase (get_tracker s k)).
Qed.

Lemma link_evidence_settled e n l :
  config_ok cfg -> positive l.2 -> link_stale e l = false -> ev_observeOnly e = false ->
  link_timer (ev_at e) (link_evidence cfg e n l).2 = (link_evidence cfg e n l).2.
Proof.
  intros [Hd Hr] Hp Hst Hobs. unfold link_evidence. rewrite Hst, Hobs.
  assert (Hp' : positive (link_timer (ev_at e) l.2)).
  { destruct l as [last [| |f|f|f r]]; cbn in *; try done; by case_match. }
  pose proof (link_timer_idem (ev_at e) l.2) as Hi. set (x := link_timer (ev_at e) l.2) in *.
  case_match; [done|]. cbn [snd]. destruct (ev_online e); cbn.
  - destruct x as [| |f|f|f r]; cbn in *; try done.
    destruct (Z.leb_spec (ev_at e + fl_recovered_after f) (ev_at e)); [lia|done].
  - destruct x as [| |f|f|f r]; cbn in *; try done.
    + destruct (Z.leb_spec (ev_at e + cfg_DownAfter cfg) (ev_at e)); [lia|done].
    + destruct (Z.leb_spec (ev_at e + cfg_DownAfter cfg) (ev_at e)); [lia|done].
    + destruct (_ <=? _)%Z; [discriminate Hi|done].
Qed.

Lemma observe_leaves_nothing_due p e n s :
  wf s -> config_ok cfg -> ev_at e <> 0%Z -> id_fresh (cfg := cfg) p e s ->
  stale_evidence e (get_tracker s (evidence_key e)) = false -> ev_observeOnly e = false ->
  let s' := observe_evidence cfg p e n s in
  forall k t, snap_Trackers s' !! k = Some t -> ~ due (ev_at e) s' t.
Proof.
  intros Hwf Hcfg Hz Hf Hst Hobs s' k t Hk Hd.
  assert (Hwf' : wf s') by (by apply observe_evidence_wf).
  apply (due_moves _ _ _ _ Hwf' Hk Hd). unfold s'. rewrite observe_evidence_abs by done.
  rewrite <- link_stale_abs in Hst. case_decide as Hkk.
  - subst k. by apply link_evidence_settled; [|apply abs_positive| |].
  - unfold reaches_timers. rewrite Hst, Hobs. cbn. apply link_timer_idem.
Qed.

(** ** The same evidence again *)

Lemma observe_evidence_again p q e n s :
  wf s -> config_ok cfg -> ev_at e <> 0%Z -> id_fresh (cfg := cfg) p e s ->
  observe_evidence cfg q e n (observe_evidence cfg p e n s) = observe_evidence cfg p e n s.
Proof.
  intros Hwf Hcfg Hz Hf.
  pose proof (observe_leaves_nothing_due p e n s Hwf Hcfg Hz Hf) as Hnd. cbv zeta in Hnd.
  unfold observe_evidence in *. fold (evidence_key e) in *. set (k := evidence_key e) in *.
  destruct (stale_evidence e (get_tracker s k)) eqn:Hst; [by rewrite Hst|].
  destruct (ev_observeOnly e) eqn:Hobs.
  { set (c := if decide (trk_Phase (get_tracker s k) = phaseNone)
              then set_trk_Phase phaseHealthy (get_tracker s k) else get_tracker s k).
    assert (Hg : get_tracker (put_tracker k (set_trk_LastEvidenceAt (ev_at e) c) s) k
                 = set_trk_LastEvidenceAt (ev_at e) c)
      by (unfold get_tracker; snap_simpl; by rewrite lookup_insert_eq).
    rewrite Hg. unfold stale_evidence, Before. cbn [trk_LastEvidenceAt set_trk_LastEvidenceAt].
    rewrite Z.ltb_irrefl, andb_false_r. rewrite decide_False; [by rewrite put_tracker_twice|].
    cbn. unfold c. by case_decide. }
  specialize (Hnd eq_refl eq_refl).
  set (s1 := (advanceLocked cfg p (ev_at e) s).1) in *.
  assert (Hwf1 : wf s1) by (by apply advance_wf).
  destruct (masked_recovery cfg e (get_tracker s1 k)) eqn:Hm.
  { unfold s1 at 1. rewrite stale_after_advance, Hst by done.
    rewrite (advance_nothing_due cfg q (ev_at e) s1 Hnd). cbn [fst]. by rewrite Hm. }
  fold (touched e (get_tracker s1 k)) in *.
  pose proof (record_leaves_recorded e n s1 Hwf1) as Hr. cbv zeta in Hr. fold k in Hr.
  unfold record_evidence in Hr.
  destruct (if ev_online e then observe_online e (touched e (get_tracker s1 k)) s1
            else observe_offline cfg e n (touched e (get_tracker s1 k)) s1) as [c s2] eqn:Hrec.
  cbn [fst snd] in Hr.
  assert (Hg : get_tracker (put_tracker k c s2) k = c)
    by (unfold get_tracker; snap_simpl; by rewrite lookup_insert_eq).
  pose proof (record_recorded e n c _ Hr) as Hagain. destruct Hr as (Hl & _ & Hc).
  rewrite Hg. unfold stale_evidence, Before. rewrite Hl, Z.ltb_irrefl, andb_false_r.
  rewrite (advance_nothing_due cfg q (ev_at e) _ Hnd). cbn [fst]. rewrite Hg.
  assert (Hm' : masked_recovery cfg e c = false).
  { destruct (ev_online e) eqn:Hon; [|unfold masked_recovery; by rewrite Hon].
    unfold masked_recovery in *. rewrite Hon in *. unfold observe_online, touched in Hrec.
    destruct (trk_Phase _) in Hrec; injection Hrec as <- _; cbn; try done; by rewrite andb_false_r. }
  rewrite Hm'. replace (set_trk_LastEvidenceAt (ev_at e) c) with c by (rewrite <- Hl; by destruct c).
  unfold record_evidence in Hagain. rewrite Hagain. by rewrite put_tracker_twice.
Qed.

Lemma observeLocked_again p q m n r s :
  wf s -> config_ok cfg -> message_fresh (cfg := cfg) p m s ->
  observeLocked cfg q m n r (observeLocked cfg p m n r s) = observeLocked cfg p m n r s.
Proof.
  intros Hwf Hcfg Hf. unfold observeLocked, message_fresh in *.
  destruct (classify m (cfg_Interface cfg)) as [e|] eqn:Hc; [|done].
  apply observe_evidence_again; [done|done| |exact Hf].
  exact (proj2 (classify_at _ _ _ Hc)).
Qed.
End Replay.
