(* ===== verification/EngineProps.v ===== *)
(** The properties of the incident engine: coherence and notification in every
    reachable state, the refinement of the debounced links, termination and
    order of the timers, the life of an incident, the effect of a failed
    checkpoint, and the engine's treatment of stale, masked and short-lived
    evidence. *)
From Stdlib Require Import ZArith Lia.
From S2P Require Import Prelude.
From S2P Require Import GoStd.
From S2P Require Import Sha256.
From S2P Require Import Model.
From S2P Require Import Classify.
From S2P Require Import EngineState.
From S2P Require Import Engine.
From S2P Require Import EngineLemmas.
From S2P Require Import EngineWf.
From S2P Require Import EngineSpec.
From S2P Require Import EngineRebuild.
From S2P Require Import EngineLife.
From S2P Require Import EngineJobs.
From S2P Require Import EngineSafety.
From S2P Require Import Scenarios.

(** ** Reachable states *)

(** C1: in every state the service can reach from its start, by observing
    messages, applying batches, ticking, recording deliveries or rebuilding,
    whatever the persistence answers, trackers and incidents are coherent: an
    open tracker points to the incident of its own interface in the matching
    state, every open incident is tracked, and the times an incident carries
    are those of its state ([ActivatedAt] is the start plus the captured
    threshold, [ResolvedAt] the first recovery plus the captured one). *)
Theorem reachable_coherent {GR : GoRange} (cfg : Config) (s : Snapshot) :
  config_ok cfg -> reachable cfg s -> wf s.
Proof. intros Hcfg Hr. by eapply rtc_any_step_wf; [|apply empty_wf|]. Qed.

Lemma reachable_coherent_witness : reachable wan_config wan_pending /\ wf wan_pending.
Proof.
  split; [apply wan_pending_reachable|].
  apply (reachable_coherent wan_config); [apply wan_config_ok|apply wan_pending_reachable].
Defined.

(** C2: the engine refines one debounced link per interface.  Over any sequence
    of clock ticks and messages, started from any coherent state, the link of
    every interface is the one the abstract machine reaches on the same inputs:
    interfaces interact only through the time accepted evidence advances the
    timers to. *)
Theorem engine_refines_links {GR : GoRange} (cfg : Config) (p : list nat) (xs : list input)
    (s : Snapshot) (k : string) :
  config_ok cfg -> wf s -> run_fresh cfg p xs s ->
  abs (engine_run cfg p xs s) k = fold_left (fun L x => links_input cfg x L) xs (abs s) k.
Proof. intros. by apply engine_run_abs. Qed.

Lemma engine_refines_links_witness :
  abs (engine_run wan_config [] [in_message wan_down true; in_tick (sec 60)] empty_Snapshot)
      (tracker_key "router-a" "wan")
  = fold_left (fun L x => links_input wan_config x L) [in_message wan_down true; in_tick (sec 60)]
      (abs empty_Snapshot) (tracker_key "router-a" "wan").
Proof.
  apply engine_refines_links; [apply wan_config_ok|apply empty_wf|].
  split; [intros _; vm_compute; reflexivity|by split].
Defined.

(** C13: [advanceLocked] terminates: one more iteration than there are pending
    trackers is enough, any larger bound gives the same result, and afterwards
    no timer is due; it reports a change exactly when the state has changed. *)
Theorem advance_settles {GR : GoRange} (cfg : Config) (p : list nat) (now : Time) (s : Snapshot) :
  advance_loop cfg (S (size (pending_trackers s))) p now s false = Some (advanceLocked cfg p now s)
  /\ (forall k t, snap_Trackers (advanceLocked cfg p now s).1 !! k = Some t ->
        ~ due now (advanceLocked cfg p now s).1 t)
  /\ ((advanceLocked cfg p now s).2 = true <-> (advanceLocked cfg p now s).1 <> s).
Proof.
  destruct (advanceLocked_ind cfg (fun _ => True) p now s) as (_ & Hn & Hc); try done.
  split; [|split; [done|split; [apply advanceLocked_changed|]]].
  2: { intros Hne. destruct (advanceLocked cfg p now s).2; [done|]. by destruct Hne; apply Hc. }
  unfold advanceLocked.
  destruct (advance_loop_ind cfg (fun _ => True) (S (size (pending_trackers s))) p now s false)
    as (s' & c' & -> & _); try done. lia.
Qed.

(** C10: no alert is lost: in every reachable state each confirmed incident that
    is to be notified has its opening job in the outbox (the escalation stands
    for it when the primary was already down) and, once resolved, its closing
    job; rebuilding from the archive re-establishes this. *)
Theorem reachable_outbox_complete {GR : GoRange} (cfg : Config) (s : Snapshot) :
  config_ok cfg -> reachable cfg s -> outbox_complete cfg s.
Proof.
  intros Hcfg Hr.
  enough (H : forall s0, wf s0 -> outbox_complete cfg s0 -> rtc (any_step cfg) s0 s -> outbox_complete cfg s)
    by (by apply (H empty_Snapshot empty_wf)).
  clear Hr. intros s0 Hwf Hc Hr. induction Hr as [|s1 s2 s3 H12 _ IH]; [done|].
  apply IH; [by eapply any_step_wf|by eapply any_step_complete].
Qed.

Lemma reachable_outbox_complete_witness : outbox_complete wan_config wan_active.
Proof. apply reachable_outbox_complete; [apply wan_config_ok|apply wan_active_reachable]. Defined.

(** C15: no false alert: without a rebuild, every job in the outbox belongs to an
    incident that exists, was confirmed and is to be notified; it is stored
    under the id derived from its incident and kind (so there is at most one of
    each), its kind fits a primary or a fallback incident, and a recovery is
    announced only for a resolved incident. *)
Theorem incremental_outbox_sound {GR : GoRange} (cfg : Config) (s : Snapshot) :
  config_ok cfg -> incrementally_reachable cfg s -> outbox_sound cfg s.
Proof.
  intros Hcfg Hr.
  enough (H : forall s0, wf s0 -> outbox_sound cfg s0 -> rtc (step cfg) s0 s -> outbox_sound cfg s)
    by (by apply (H empty_Snapshot empty_wf)).
  clear Hr. intros s0 Hwf Hs Hr. induction Hr as [|s1 s2 s3 H12 _ IH]; [done|].
  apply IH; [by eapply step_wf|by eapply step_outbox].
Qed.

Lemma incremental_outbox_sound_witness : outbox_sound wan_config wan_active.
Proof.
  apply incremental_outbox_sound; [apply wan_config_ok|].
  eapply rtc_l; [apply (step_observe _ _ None [] wan_down true); intros _; vm_compute; reflexivity|].
  apply rtc_once. apply tick_step.
Defined.

(** C16: the incremental operations (observing, applying a batch, ticking, and
    recording deliveries, but not a rebuild from the archive, which starts the
    incidents anew) never lose or rewrite a confirmed incident: along any
    sequence of them it keeps its id, interface, start, captured thresholds,
    activation time and notify flag, its evidence lists only grow at the end,
    and once resolved it is not changed any more. *)
Theorem confirmed_incidents_endure {GR : GoRange} (cfg : Config) (s s' : Snapshot) :
  config_ok cfg -> wf s -> rtc (step cfg) s s' -> confirmed_life s s'.
Proof.
  intros Hcfg Hwf Hr. induction Hr as [|s1 s2 s3 H12 _ IH]; [reflexivity|].
  etrans; [by eapply step_life|]. apply IH. by eapply step_wf.
Qed.

Lemma confirmed_incidents_endure_witness : confirmed_life wan_active (tick 120 wan_active).
Proof.
  apply (confirmed_incidents_endure wan_config); [apply wan_config_ok| |].
  - eapply rtc_any_step_wf; [apply wan_config_ok|apply empty_wf|apply wan_active_reachable].
  - apply rtc_once. apply tick_step.
Defined.
