(* ===== verification/EngineClaims.v ===== *)
(** Properties of the incident engine, second part: when and in which order the
    timers fire, what a short failure, a repeated message, an interface-only
    recovery and a failed checkpoint leave, the escalation of fallbacks, the
    queries, and which messages are evidence. *)
From Stdlib Require Import ZArith Lia.
From S2P Require Import Prelude.
From S2P Require Import GoStd.
From S2P Require Import Sha256.
From S2P Require Import Model.
From S2P Require Import Classify.
From S2P Require Import EngineState.
From S2P Require Import Engine.
From S2P Require Import EngineLemmas.
From S2P Require Import EngineWf.
From S2P Require Import EngineSpec.
From S2P Require Import EngineRebuild.
From S2P Require Import EngineJobs.
From S2P Require Import EngineSafety.
From S2P Require Import EngineTimers.
From S2P Require Import EngineReplay.
From S2P Require Import Scenarios.

(** ** Timers *)

(** The instant at which the timer of a pending tracker runs out. *)
Definition runs_out (t : tracker) (i : Incident) : option Time :=
  match trk_Phase t with
  | phasePendingFailure => Some (inc_StartedAt i + inc_DownAfter i)%Z
  | phasePendingRecovery => Some (trk_RecoverySince t + inc_RecoveredAfter i)%Z
  | _ => None
  end.

(** It has not run out at [now]. *)
Definition still_waits (now : Time) (t : tracker) (i : Incident) : Prop :=
  match runs_out t i with Some at_ => (now < at_)%Z | None => True end.

Lemma still_waits_fires now t i :
  inc_StartedAt i = trk_PendingSince t ->
  still_waits now t i <-> fires now t i = false.
Proof.
  unfold still_waits, runs_out, fires, is_pending, due_at. intros ->.
  destruct (trk_Phase t); simpl; by rewrite ?Z.leb_gt.
Qed.

(** What the firing of a timer leaves, in the terms of the incident. *)
Lemma settled_exactly t i at_ T :
  inc_StartedAt i = trk_PendingSince t -> inc_Notify i = trk_Notify t -> runs_out t i = Some at_ ->
  T = Some (settle t i).1 ->
  match trk_Phase t with
  | phasePendingFailure =>
    (settle t i).2 = set_inc_ActivatedAt (Some at_) (set_inc_State StateActive i)
    /\ T = Some (set_trk_Phase phaseActive t)
  | _ =>
    (settle t i).2 = set_inc_ResolvedAt (Some at_) (set_inc_State StateResolved i)
    /\ T = Some (mkTracker phaseHealthy 0 0 (trk_LastEvidenceAt t) "" "" "" false false)
  end.
Proof.
  intros Hs Hn Hr ->. unfold settle, runs_out in *.
  destruct (trk_Phase t); try done; injection Hr as <-; (split; [|done]); [|done].
  unfold activated_incident. rewrite <- Hs, <- Hn. by destruct i.
Qed.

(** C30: a tick at [now] confirms a pending failure exactly if its start plus
    the threshold captured with it has been reached, with that instant and not
    the tick's as the time of its confirmation, and resolves an outage in the
    same way; nothing else of the incident changes, and if it is to be notified
    its notification is in the outbox. Every tracker whose timer has not run
    out, and every incident that belongs to no tracker whose timer has, is
    exactly as it was, and there is no new one. *)
Theorem timers_fire_on_time {GR : GoRange} (cfg : Config) (sv : option (Snapshot -> option string))
    (p : list nat) (now : Time) (s : Snapshot) :
  wf s -> outbox_complete cfg s ->
  let s' := (Tick cfg sv p now s).1 in
  (forall k t i at_, snap_Trackers s !! k = Some t -> snap_Incidents s !! trk_IncidentID t = Some i ->
     runs_out t i = Some at_ -> (at_ <= now)%Z ->
     exists i', snap_Incidents s' !! trk_IncidentID t = Some i' /\ notified cfg (snap_Jobs s') i'
       /\ match trk_Phase t with
          | phasePendingFailure =>
            i' = set_inc_ActivatedAt (Some at_) (set_inc_State StateActive i)
            /\ snap_Trackers s' !! k = Some (set_trk_Phase phaseActive t)
          | _ =>
            i' = set_inc_ResolvedAt (Some at_) (set_inc_State StateResolved i)
            /\ snap_Trackers s' !! k
               = Some (mkTracker phaseHealthy 0 0 (trk_LastEvidenceAt t) "" "" "" false false)
          end)
  /\ (forall k t, snap_Trackers s !! k = Some t ->
       (forall i, snap_Incidents s !! trk_IncidentID t = Some i -> still_waits now t i) ->
       snap_Trackers s' !! k = Some t)
  /\ (forall id, (forall k t i, snap_Trackers s !! k = Some t -> trk_IncidentID t = id ->
                     snap_Incidents s !! id = Some i -> still_waits now t i) ->
       snap_Incidents s' !! id = snap_Incidents s !! id).
Proof.
  intros Hwf Hoc s'. unfold s'. rewrite Tick_state.
  assert (Hoc' := proj2 (advance_outbox cfg p now s Hwf) Hoc).
  assert (Hst : forall k t, snap_Trackers s !! k = Some t -> open_state (trk_Phase t) <> None ->
            exists i, snap_Incidents s !! trk_IncidentID t = Some i
              /\ inc_StartedAt i = trk_PendingSince t /\ inc_Notify i = trk_Notify t).
  { intros k t Hk Ho. destruct (wf_linked Hwf k t Hk Ho) as (i & Hi & [] & _). by exists i. }
  split_and!.
  - intros k t i at_ Hk Hi Hr Hat.
    assert (Ho : open_state (trk_Phase t) <> None) by (unfold runs_out in Hr; by destruct (trk_Phase t)).
    destruct (Hst k t Hk Ho) as (i0 & Hi0 & Hs & Hn). rewrite Hi in Hi0. injection Hi0 as <-.
    destruct (advance_open cfg p now s k t i Hwf Hk Ho Hi) as [HT HI].
    destruct (fires now t i) eqn:Hf.
    2: { apply still_waits_fires in Hf; [|done]. unfold still_waits in Hf. rewrite Hr in Hf. lia. }
    eexists. split; [exact HI|]. split; [by eapply Hoc'|]. rewrite HT. by apply settled_exactly.
  - intros k t Hk Hw. destruct (decide (open_state (trk_Phase t) = None)) as [Ho|Ho].
    + rewrite advance_closed_tracker; [done|done|]. intros t' Hk'. by simplify_eq.
    + destruct (Hst k t Hk Ho) as (i & Hi & Hs & _).
      destruct (advance_open cfg p now s k t i Hwf Hk Ho Hi) as [HT _].
      by rewrite (proj1 (still_waits_fires now t i Hs) (Hw i Hi)) in HT.
  - intros id Hw. set (own (kt : string * tracker) := open_state (trk_Phase kt.2) <> None /\ trk_IncidentID kt.2 = id).
    destruct (decide (Exists own (map_to_list (snap_Trackers s)))) as [He|Hno].
    + apply Exists_exists in He as ([k t] & Hk%elem_of_map_to_list & Ho & <-).
      destruct (Hst k t Hk Ho) as (i & Hi & Hs & _).
      destruct (advance_open cfg p now s k t i Hwf Hk Ho Hi) as [_ HI].
      rewrite (proj1 (still_waits_fires now t i Hs) (Hw k t i Hk eq_refl Hi)) in HI.
      etrans; [exact HI|done].
    + apply advance_other_incident; [done|]. intros k t Hk Ho Hid. apply Hno, Exists_exists.
      exists (k, t). split; [by apply elem_of_map_to_list|done].
Qed.

Lemma timers_fire_on_time_witness :
  exists i', snap_Incidents (Tick wan_config None [] (sec 60) wan_pending).1
               !! trk_IncidentID (get_tracker wan_pending (tracker_key "router-a" "wan")) = Some i'
             /\ inc_State i' = StateActive.
Proof.
  destruct (snap_Trackers wan_pending !! tracker_key "router-a" "wan") as [t|] eqn:Ht;
    [|vm_compute in Ht; discriminate Ht].
  destruct (snap_Incidents wan_pending !! trk_IncidentID t) as [i|] eqn:Hi;
    [|vm_compute in Ht; injection Ht as <-; vm_compute in Hi; discriminate Hi].
  destruct (timers_fire_on_time wan_config None [] (sec 60) wan_pending wan_pending_wf
              (proj2 (reachable_facts _ wan_pending_reachable))) as [H _].
  unfold get_tracker. rewrite Ht. simpl default.
  assert (Hp : trk_Phase t = phasePendingFailure) by (vm_compute in Ht; injection Ht as <-; reflexivity).
  destruct (runs_out t i) as [at_|] eqn:Hr; [|unfold runs_out in Hr; rewrite Hp in Hr; discriminate Hr].
  assert (Hd : (at_ <= sec 60)%Z)
    by (vm_compute in Ht; injection Ht as <-; vm_compute in Hi; injection Hi as <-;
        vm_compute in Hr; injection Hr as <-; vm_compute; discriminate).
  destruct (H _ t i at_ Ht Hi Hr Hd) as (i' & H1 & _ & H2). rewrite Hp in H2. destruct H2 as [-> _].
  eexists. split; [exact H1|reflexivity].
Defined.

(** Of the timers that have run out the loop takes the one
    that ran out first; among those that ran out at the same instant recoveries
    come first, then the primary interface, then fallbacks, whatever order the
    map is visited in. *)
Theorem timers_in_order {GR : GoRange} (cfg : Config) (p : list nat) (now : Time) (s : Snapshot)
    (k : string) (t : tracker) :
  wf s -> nextDueTrackerLocked cfg p now s = Some (k, t) ->
  exists i, snap_Trackers s !! k = Some t /\ snap_Incidents s !! trk_IncidentID t = Some i
    /\ fires now t i = true
    /\ forall k' t' i', snap_Trackers s !! k' = Some t' -> snap_Incidents s !! trk_IncidentID t' = Some i' ->
         fires now t' i' = true -> fires_before cfg t i t' i'.
Proof.
  intros Hwf H. destruct (nextDue_Some cfg p now s k t H) as [Hk Hd].
  assert (Hall : forall k' t', (k', t') ∈ range p (snap_Trackers s) -> is_pending t' = true ->
                   is_Some (snap_Incidents s !! trk_IncidentID t')).
  { intros k' t' Hk'%elem_of_range Hp.
    assert (Ho : open_state (trk_Phase t') <> None) by (unfold is_pending in Hp; by destruct (trk_Phase t')).
    destruct (wf_linked Hwf k' t' Hk' Ho) as (i' & Hi' & _). by exists i'. }
  destruct (next_due_loop_minimal cfg now s _ None k t Hall I H) as (i & Hi & Hm & _).
  exists i. split_and!; [done|done|by eapply due_fires|].
  intros k' t' i' Hk'. apply (Hm k'). by apply elem_of_range.
Qed.

(** The primary and a fallback fail at the same instant. *)
Definition both_pending : Snapshot := observe (repeater "wwan" "offline" 0 "starlink-down") wan_pending.

Lemma both_pending_wf : wf both_pending.
Proof.
  unfold both_pending, observe. apply observeLocked_wf; [apply wan_pending_wf|apply wan_config_ok|].
  intros _. vm_compute. reflexivity.
Qed.

Lemma timers_in_order_witness :
  exists k t, nextDueTrackerLocked wan_config [] (sec 60) both_pending = Some (k, t)
    /\ k = tracker_key "router-a" "wan"
    /\ exists i, snap_Incidents both_pending !! trk_IncidentID t = Some i /\ fires (sec 60) t i = true.
Proof.
  destruct (nextDueTrackerLocked wan_config [] (sec 60) both_pending) as [[k t]|] eqn:H;
    [|vm_compute in H; discriminate H].
  exists k, t. split; [reflexivity|]. split; [vm_compute in H; injection H as <- <-; reflexivity|].
  destruct (timers_in_order wan_config [] (sec 60) both_pending k t both_pending_wf H) as (i & _ & Hi & Hf & _).
  exists i. split; [exact Hi|exact Hf].
Defined.

(** ** Evidence *)

(** A failure whose interface is back before the
    threshold leaves no trace: its incident is gone, the tracker is healthy and
    no job ever refers to it. *)
Theorem flap_leaves_nothing {GR : GoRange} (cfg : Config) (p : list nat) (e : evidence) (n : bool)
    (s : Snapshot) (i : Incident) :
  config_ok cfg -> wf s -> outbox_sound cfg s -> ev_at e <> 0%Z ->
  let k := evidence_key e in let t := get_tracker s k in
  trk_Phase t = phasePendingFailure -> snap_Incidents s !! trk_IncidentID t = Some i ->
  ev_online e = true -> ev_observeOnly e = false -> stale_evidence e t = false ->
  masked_recovery cfg e t = false ->
  (ev_at e < inc_StartedAt i + inc_DownAfter i)%Z ->
  let s' := observe_evidence cfg p e n s in
  snap_Incidents s' !! trk_IncidentID t = None
  /\ get_tracker s' k = healthy_tracker (ev_at e)
  /\ forall id j, snap_Jobs s' !! id = Some j -> job_IncidentID j <> trk_IncidentID t.
Proof.
  intros Hcfg Hwf Hso Hz k t Hph Hi Hon Hobs Hst Hm Hlt s'.
  assert (Ho : open_state (trk_Phase t) <> None) by (by rewrite Hph).
  pose proof (wf_open_tracker k Ho) as Hk. fold t in Hk.
  destruct (wf_linked Hwf k t Hk Ho) as (i0 & Hi0 & [_ _ Hstart _ _ _] & _).
  rewrite Hi in Hi0. injection Hi0 as <-.
  destruct (advance_open cfg p (ev_at e) s k t i Hwf Hk Ho Hi) as [HT HI].
  assert (Hf : fires (ev_at e) t i = false).
  { unfold fires, is_pending, due_at. rewrite Hph, <- Hstart. simpl. apply Z.leb_gt. lia. }
  rewrite Hf in HT, HI. simpl in HT, HI.
  assert (Hfresh : id_fresh (cfg := cfg) p e s) by (intros Hop; unfold opens in Hop; by rewrite Hon in Hop).
  assert (Hs' : s' = put_tracker k (healthy_tracker (ev_at e))
                       (delete_incident (trk_IncidentID t) (advanceLocked cfg p (ev_at e) s).1)).
  { unfold s', observe_evidence. change (tracker_key (ev_hostname e) (ev_iface e)) with k.
    fold t. cbv zeta. rewrite Hst, Hobs.
    assert (Hg : get_tracker (advanceLocked cfg p (ev_at e) s).1 k = t) by (unfold get_tracker; by rewrite HT).
    rewrite Hg, Hm, Hon. unfold observe_online. simpl. by rewrite Hph. }
  assert (Hnone : snap_Incidents s' !! trk_IncidentID t = None)
    by (rewrite Hs'; snap_simpl; apply lookup_delete_eq).
  split_and!; [done| |].
  - rewrite Hs'. unfold get_tracker. snap_simpl. by rewrite lookup_insert_eq.
  - assert (Hso' : outbox_sound cfg s') by (by apply observe_evidence_outbox).
    intros id j Hj E. destruct (Hso' id j Hj) as (_ & _ & i' & Hi' & _). congruence.
Qed.

Definition flap_evidence : evidence := mk_evidence (repeater "wan" "online" 3 "up") "router-a" true false "wan" true.

Lemma wan_pending_sound : outbox_sound wan_config wan_pending.
Proof.
  intros id j Hj. assert (He : snap_Jobs wan_pending = empty) by (vm_compute; reflexivity).
  by rewrite He in Hj.
Qed.

Lemma flap_leaves_nothing_witness :
  get_tracker (observe_evidence wan_config [] flap_evidence true wan_pending) (evidence_key flap_evidence)
  = healthy_tracker (ev_at flap_evidence).
Proof.
  destruct (snap_Incidents wan_pending !! trk_IncidentID (get_tracker wan_pending (evidence_key flap_evidence)))
    as [i|] eqn:Hi; [|vm_compute in Hi; discriminate Hi].
  assert (Hlt : (ev_at flap_evidence < inc_StartedAt i + inc_DownAfter i)%Z)
    by (vm_compute in Hi; injection Hi as <-; vm_compute; reflexivity).
  refine (proj1 (proj2 (flap_leaves_nothing wan_config [] flap_evidence true wan_pending i
    wan_config_ok wan_pending_wf wan_pending_sound _ _ Hi _ _ _ _ Hlt)));
    vm_compute; (reflexivity || discriminate).
Defined.

(** Replayed records are harmless: observing the message that
    was observed last once more leaves the whole state as it is, whatever order
    the maps are visited in the second time. *)
Theorem replay_harmless {GR : GoRange} (cfg : Config) (p q : list nat) (m : Message) (n : bool)
    (r : string) (s : Snapshot) :
  config_ok cfg -> wf s -> message_fresh (cfg := cfg) p m s ->
  observeLocked cfg q m n r (observeLocked cfg p m n r s) = observeLocked cfg p m n r s.
Proof. intros Hcfg Hwf. by apply observeLocked_again. Qed.

Lemma replay_harmless_witness :
  observeLocked wan_config [7] wan_down true "" (observeLocked wan_config [] wan_down true "" empty_Snapshot)
  = observeLocked wan_config [] wan_down true "" empty_Snapshot.
Proof.
  apply replay_harmless; [apply wan_config_ok|apply empty_wf|].
  intros _. vm_compute. reflexivity.
Defined.
