(* ===== verification/EngineEscalation.v ===== *)
(** Properties of the incident engine, third part: recoveries that only the
    interface reports, failed checkpoints, the escalation of fallbacks and the
    queries. *)
From Stdlib Require Import ZArith Lia.
From S2P Require Import Prelude.
From S2P Require Import GoStd.
From S2P Require Import Sha256.
From S2P Require Import Model.
From S2P Require Import Classify.
From S2P Require Import EngineState.
From S2P Require Import Engine.
From S2P Require Import EngineLemmas.
From S2P Require Import EngineWf.
From S2P Require Import EngineSpec.
From S2P Require Import EngineRebuild.
From S2P Require Import EngineJobs.
From S2P Require Import EngineSafety.
From S2P Require Import Scenarios.

(** ** Reachability *)

(** The failure under way at a link, unless it is recovering. *)
Definition failing (l : link) : option failure :=
  match l with
  | link_confirming f | link_down f => Some f
  | _ => None
  end.

Section Masking.
Context {GR : GoRange} (cfg : Config).

(** The only recoveries the messages report for the interface [k] are those of
    the primary interface without reachability evidence. *)
Definition interface_recoveries_only (k : string) (x : input) : Prop :=
  match x with
  | in_tick _ => True
  | in_message m _ =>
    forall e, classify m (cfg_Interface cfg) = Some e -> evidence_key e = k -> ev_online e = true ->
      ev_iface e = cfg_Interface cfg /\ ev_reachability e = false
  end.

Definition unreachable (id : string) (l : link) : Prop :=
  exists f, failing l = Some f /\ fl_incident f = id /\ fl_reachability f = true.

Lemma link_timer_unreachable now id l : unreachable id l -> unreachable id (link_timer now l).
Proof.
  intros (f & Hf & Hid & Hr). destruct l; cbn in *; simplify_eq; try by eexists.
  destruct (_ <=? _)%Z; by eexists.
Qed.

Lemma link_evidence_unreachable e n id l :
  (ev_online e = true -> ev_iface e = cfg_Interface cfg /\ ev_reachability e = false) ->
  unreachable id l.2 -> unreachable id (link_evidence cfg e n l).2.
Proof.
  intros He Hu. unfold link_evidence. destruct (link_stale e l); [done|].
  destruct (ev_observeOnly e).
  { by destruct l as [last []]. }
  apply (link_timer_unreachable (ev_at e)) in Hu. set (x := link_timer (ev_at e) l.2) in *.
  destruct Hu as (f & Hf & Hid & Hr). destruct (ev_online e) eqn:Hon.
  - destruct (He eq_refl) as [-> ->]. rewrite String.eqb_refl.
    assert (Hd : link_reachability_down x = true) by (destruct x; cbn in *; congruence).
    rewrite Hd. by exists f.
  - cbn. destruct x; cbn in *; try done; injection Hf as <-; eexists;
      (split; [reflexivity|]); cbn; by rewrite Hr.
Qed.

Lemma links_input_unreachable x k id (L : links) :
  interface_recoveries_only k x -> unreachable id (L k).2 -> unreachable id (links_input cfg x L k).2.
Proof.
  destruct x as [now|m n]; cbn; intros Hx Hu; [by apply link_timer_unreachable|].
  destruct (classify m (cfg_Interface cfg)) as [e|] eqn:Hc; [|done]. unfold links_evidence.
  case_decide as Hk.
  - apply link_evidence_unreachable; [|done]. intros Hon. by apply (Hx e).
  - case_match; [by apply link_timer_unreachable|done].
Qed.

(** C39: an outage of the primary interface that
    reachability evidence reports cannot end, nor start to end, before
    reachability evidence reports the recovery: whatever else is observed and
    however time passes, the same incident stays open. *)
Theorem reachability_outage_persists (p : list nat) (xs : list input) (s : Snapshot) (k id : string) :
  config_ok cfg -> wf s -> run_fresh cfg p xs s ->
  Forall (interface_recoveries_only k) xs ->
  unreachable id (abs s k).2 -> unreachable id (abs (engine_run cfg p xs s) k).2.
Proof.
  intros Hcfg Hwf Hf Hx Hu. rewrite engine_run_abs by done. clear Hwf Hf.
  generalize dependent (abs s). intros L. revert L.
  induction Hx as [|x xs Hx _ IH]; intros L Hu; cbn; [done|]. apply IH.
  by apply links_input_unreachable.
Qed.
End Masking.

Lemma reachability_outage_persists_witness :
  exists id, unreachable id
    (abs (engine_run wan_config [] [in_tick (sec 60); in_message (netifd "Interface 'wan' is now up" 70 "up") true]
            wan_pending) (tracker_key "router-a" "wan")).2.
Proof.
  exists (trk_IncidentID (get_tracker wan_pending (tracker_key "router-a" "wan"))).
  apply reachability_outage_persists.
  - apply wan_config_ok.
  - apply wan_pending_wf.
  - split; [done|]. split; [|done]. vm_compute. intros H; discriminate H.
  - constructor; [done|]. constructor; [|done]. intros e He _ _.
    vm_compute in He. injection He as <-. split; reflexivity.
  - vm_compute. eexists. split; [reflexivity|]. split; reflexivity.
Defined.

(** ** Delivery results *)

(** Recording a delivery result changes exactly
    the job it is for, and only if the checkpoint is written: when saving fails
    the state is as before and the error is returned; for an unknown job nothing
    is saved. *)
Theorem failed_checkpoint_rolls_back (save : Snapshot -> option string) (id adapter ext msg : string)
    (at_ next : Time) (permanent : bool) (s : Snapshot) :
  let sent j := set_job_LastError "" (set_job_ExternalID ext (set_job_Adapter adapter (set_job_SentAt (Some at_) j))) in
  let failed j := set_job_Permanent permanent
    (set_job_NextAt next (set_job_LastError msg (set_job_Attempts (job_Attempts j + 1)%Z j))) in
  let outcome f r :=
    match snap_Jobs s !! id with
    | None => r = (s, Some (err_job_not_found id))
    | Some j =>
      match save (put_job id (f j) s) with
      | Some e => r = (s, Some (err_persistence e))
      | None => r = (put_job id (f j) s, None)
      end
    end in
  outcome sent (MarkNotificationSent (Some save) id adapter ext at_ s)
  /\ outcome failed (MarkNotificationFailed (Some save) id msg next permanent s).
Proof.
  intros sent failed outcome.
  assert (H : forall f, outcome f (update_job (Some save) id f s)).
  { intros f. unfold outcome.
    destruct (update_job_cases (Some save) id f s) as [[-> ->]|(j & -> & [(e & He & ->)|[He ->]])]; [done|..];
      unfold saveLocked, cloneSnapshot in He; destruct (save (put_job id (f j) s)); cbn in He; by simplify_eq. }
  split; apply H.
Qed.

(** ** Escalation *)

Section Escalation.
Context {GR : GoRange} (cfg : Config).

Definition escalated (fallback primary : string) (s : Snapshot) : Prop :=
  is_Some (snap_Jobs s !! escalation_id fallback primary).

Lemma enqueue_keeps (id id' iid : string) (kd : Kind) (a : Time) (s : Snapshot) :
  is_Some (snap_Jobs s !! id) -> is_Some (snap_Jobs (enqueue_with_id id' iid kd a s) !! id).
Proof.
  intros H. unfold enqueue_with_id. destruct (snap_Jobs s !! id') eqn:E; [done|]. snap_simpl.
  destruct (decide (id' = id)) as [->|Hne]; [by rewrite lookup_insert_eq|by rewrite lookup_insert_ne].
Qed.

Lemma escalate_hits p host primary a s k i :
  snap_Incidents s !! k = Some i -> escalates cfg host i = true ->
  escalated (inc_ID i) primary (escalateFallbacksLocked cfg p host primary a s).
Proof.
  intros Hi He. apply (fold_left_hits _ _ _ _ (k, i)).
  - by apply elem_of_range.
  - intros s' [k' i'] Hs'. case_match; [by apply enqueue_keeps|done].
  - intros s'. rewrite He. apply enqueue_there.
Qed.

Lemma escalate_overlaps_hits p i a s kp primary pa :
  snap_Incidents s !! kp = Some primary -> inc_ActivatedAt primary = Some pa ->
  inc_Hostname primary = inc_Hostname i -> is_primary cfg primary = true -> (a < pa)%Z ->
  match inc_ResolvedAt i with None => True | Some r => (pa < r)%Z end ->
  escalated (inc_ID i) (inc_ID primary) (escalate_overlaps cfg p i a s).
Proof.
  intros Hp Ha Hh Hpr Hlt Hres. apply (fold_left_hits _ _ _ _ (kp, primary)).
  - by apply elem_of_range.
  - intros s' [k' i'] Hs'. repeat case_match; try done; by apply enqueue_keeps.
  - intros s'. rewrite Ha, Hh, String.eqb_refl, Hpr. unfold After, Before.
    rewrite (proj2 (Z.ltb_lt _ _) Hlt).
    assert (Hr : match inc_ResolvedAt i with None => true | Some r => (pa <? r)%Z end = true)
      by (case_match; [by apply Z.ltb_lt|done]).
    rewrite Hr. apply enqueue_there.
Qed.

(** By what is recorded of it the incident is confirmed and not over at [at_]. *)
Definition down_at (j : Incident) (at_ : Time) : Prop :=
  (exists activated, inc_ActivatedAt j = Some activated /\ activated <= at_)%Z
  /\ forall resolved, inc_ResolvedAt j = Some resolved -> (at_ < resolved)%Z.

Lemma down_at_primary at_ j :
  is_primary cfg j = true -> down_at j at_ -> primary_down_at cfg (inc_Hostname j) at_ j = true.
Proof.
  intros Hp [(a & Ha & Hle) Hr]. unfold primary_down_at, Before. rewrite String.eqb_refl, Hp, Ha. simpl.
  rewrite (proj2 (Z.ltb_ge _ _) Hle). simpl. destruct (inc_ResolvedAt j) as [r|]; [|done].
  by apply Z.ltb_lt, Hr.
Qed.

(** C31: when the primary of a router is confirmed down, every fallback of that
    router whose failure is confirmed and is to be notified gets an escalation;
    when a fallback that is to be notified is confirmed down and, at the
    instant of its confirmation, the primary is down by what is known of it,
    the fallback gets an escalation instead of the notice that the primary
    still works. *)
Theorem both_down_escalates (p : list nat) (k : string) (t : tracker) (s : Snapshot) (i : Incident) :
  wf s -> snap_Trackers s !! k = Some t -> trk_Phase t = phasePendingFailure ->
  snap_Incidents s !! trk_IncidentID t = Some i ->
  let s' := activate cfg p k t s in
  (is_primary cfg i = true ->
     forall id j, snap_Incidents s !! id = Some j -> is_primary cfg j = false ->
       inc_Hostname j = inc_Hostname i -> inc_Notify j = true ->
       inc_State j = StateActive \/ inc_State j = StatePendingRecovery ->
       escalated id (inc_ID i) s')
  /\ (is_primary cfg i = false -> trk_Notify t = true ->
      (exists id j, snap_Incidents s !! id = Some j /\ is_primary cfg j = true
         /\ inc_Hostname j = inc_Hostname i /\ down_at j (inc_StartedAt i + inc_DownAfter i)%Z) ->
      (exists primary, escalated (inc_ID i) primary s')
      /\ (snap_Jobs s !! job_id (inc_ID i) KindFallbackOpened = None ->
          snap_Jobs s' !! job_id (inc_ID i) KindFallbackOpened = None)).
Proof.
  intros Hwf Hk Hph Hi s'.
  assert (Ho : open_state (trk_Phase t) <> None) by (by rewrite Hph).
  destruct (wf_linked Hwf k t Hk Ho) as (i0 & Hi0 & [_ Hst Hstart _ _ _] & Hid & _).
  rewrite Hi in Hi0. injection Hi0 as <-. rewrite Hph in Hst. injection Hst as Hst.
  unfold s', activate. rewrite Hi. cbv zeta.
  set (i1 := set_inc_Notify (trk_Notify t)
    (set_inc_ActivatedAt (Some (trk_PendingSince t + inc_DownAfter i)%Z) (set_inc_State StateActive i))).
  change (is_primary cfg i1) with (is_primary cfg i). change (inc_ID i1) with (inc_ID i).
  set (s1 := put_tracker k _ (put_incident (inc_ID i) i1 s)).
  split.
  - intros Hp id j Hj Hnp Hh Hn Hs. rewrite Hp.
    destruct (wf_incident s Hwf id j Hj) as [<- _].
    set (s2 := if inc_Notify i1 then _ else s1).
    assert (H2 : snap_Incidents s2 = snap_Incidents s1)
      by (unfold s2; case_match; [apply incidents_notify_activation|done]).
    apply (escalate_hits _ _ _ _ _ (inc_ID j)).
    + rewrite H2. unfold s1. snap_simpl. rewrite lookup_insert_ne; [done|].
      intros E. rewrite <- E, Hid, Hi in Hj. congruence.
    + unfold escalates. change (inc_Hostname i1) with (inc_Hostname i).
      rewrite Hh, String.eqb_refl, Hnp, Hn. by destruct Hs as [-> | ->].
  - intros Hp Hn (id & j & Hj & Hpj & Hhj & Hd). apply (down_at_primary _ j Hpj) in Hd. rewrite Hhj in Hd. rewrite Hp. change (inc_Notify i1) with (trk_Notify t). rewrite Hn.
    unfold notify_activation. change (is_primary cfg i1) with (is_primary cfg i). rewrite Hp.
    change (inc_Hostname i1) with (inc_Hostname i). rewrite <- Hstart.
    destruct (primaryDownAtLocked cfg _ _ _ s1) as [pr|] eqn:E.
    + split; [exists (inc_ID pr); apply enqueue_there|].
      intros Hnone. unfold enqueueFallbackEscalationLocked, enqueue_with_id.
      case_match; [done|]. snap_simpl. rewrite lookup_insert_ne; [done|].
      unfold escalation_id, job_id. intros Heq.
      apply (f_equal (sdrop (String.length (inc_ID i)))) in Heq.
      rewrite !sdrop_app in Heq. discriminate Heq.
    + exfalso. unfold primaryDownAtLocked in E. apply fmap_None in E.
      assert (Hj' : snap_Incidents s1 !! id = Some j).
      { unfold s1. snap_simpl. rewrite lookup_insert_ne; [done|]. intros Heq.
        rewrite <- Heq, Hid, Hi in Hj. injection Hj as <-.
        unfold primary_down_at in Hd. by rewrite Hp, andb_false_r in Hd. }
      pose proof (find_range_None _ _ _ _ _ E Hj') as Hf. congruence.
Qed.

End Escalation.

(** The fallback is down and the primary about to be confirmed. *)
Definition primary_pending : Snapshot := observe (repeater "wan" "offline" 70 "wan-down") fallback_active.

Lemma observe_reachable (m : Message) (s : Snapshot) :
  message_fresh (cfg := wan_config) [] m s -> reachable wan_config s -> reachable wan_config (observe m s).
Proof.
  intros Hf Hr. eapply rtc_r; [exact Hr|]. left. exact (step_observe wan_config s None [] m true Hf).
Qed.

Lemma fallback_active_reachable : reachable wan_config fallback_active.
Proof.
  eapply rtc_r; [|left; apply tick_step]. apply observe_reachable; [|apply rtc_refl].
  intros _. vm_compute. reflexivity.
Qed.

Lemma primary_pending_reachable : reachable wan_config primary_pending.
Proof. apply observe_reachable; [intros _; vm_compute; reflexivity|apply fallback_active_reachable]. Qed.

Lemma both_down_escalates_witness :
  exists fallback primary,
    escalated fallback primary
      (activate wan_config [] (tracker_key "router-a" "wan")
         (get_tracker primary_pending (tracker_key "router-a" "wan")) primary_pending).
Proof.
  destruct (snap_Trackers primary_pending !! tracker_key "router-a" "wan") as [t|] eqn:Ht;
    [|vm_compute in Ht; discriminate Ht].
  destruct (snap_Incidents primary_pending !! trk_IncidentID t) as [i|] eqn:Hi;
    [|vm_compute in Ht; injection Ht as <-; vm_compute in Hi; discriminate Hi].
  assert (Hph : trk_Phase t = phasePendingFailure) by (vm_compute in Ht; injection Ht as <-; reflexivity).
  set (id := trk_IncidentID (get_tracker primary_pending (tracker_key "router-a" "wwan"))).
  destruct (snap_Incidents primary_pending !! id) as [j|] eqn:Hj; [|vm_compute in Hj; discriminate Hj].
  assert (Hw : wf primary_pending) by apply reachable_facts, primary_pending_reachable.
  destruct (both_down_escalates wan_config [] _ t primary_pending i Hw Ht Hph Hi) as [H _].
  exists id, (inc_ID i). unfold get_tracker. rewrite Ht. simpl default.
  apply (H ltac:(vm_compute in Ht; injection Ht as <-; vm_compute in Hi; injection Hi as <-; reflexivity) id j Hj);
    vm_compute in Hj; injection Hj as <-; try reflexivity; try (left; reflexivity).
  vm_compute in Ht. injection Ht as <-. vm_compute in Hi. injection Hi as <-. reflexivity.
Defined.

Section Rebuilding.
Context {GR : GoRange} (cfg : Config).

Lemma rebuild_all_jobs_hits (P : Snapshot -> Prop) j p entries s k i :
  (forall s s', jobs_grow s s' -> P s -> P s') ->
  (forall q s', snap_Incidents s' = snap_Incidents s -> P (rebuild_jobs cfg q i s')) ->
  (k, i) ∈ entries -> P (rebuild_all_jobs cfg j p entries s).
Proof.
  intros Hg. revert j s. induction entries as [|[k' i'] l IH]; intros j s Hi Hin; cbn.
  { by apply elem_of_nil in Hin. }
  apply elem_of_cons in Hin as [Heq|Hin].
  - injection Heq as -> ->. eapply Hg; [apply rebuild_all_jobs_grows|]. by apply Hi.
  - apply IH; [|done]. intros q s' Hs'. apply Hi.
    rewrite Hs'. by destruct (rebuild_jobs_grows cfg (j :: p) i' s) as (_ & ? & _).
Qed.

(** After a rebuild from the archive every
    confirmed fallback incident that is to be notified has an escalation for
    every outage of its primary that was confirmed while it was open, even if
    the replay itself saw them in another order. *)
Theorem rebuild_escalates_overlaps (p : list nat) (os : list Observation) (cursors : gmap string Cursor)
    (at_ : Time) (previous : Snapshot) (id idp : string) (i primary : Incident) (a pa : Time) :
  let s := rebuild_state cfg p os cursors at_ previous in
  config_ok cfg ->
  batch_fresh (cfg := cfg) 0 (0%nat :: p) os (mkSnapshot 1 true at_ ∅ ∅ ∅ (cloneCursors cursors)) ->
  snap_Incidents s !! id = Some i -> is_primary cfg i = false -> inc_Notify i = true ->
  inc_ActivatedAt i = Some a ->
  snap_Incidents s !! idp = Some primary -> is_primary cfg primary = true ->
  inc_Hostname primary = inc_Hostname i -> inc_ActivatedAt primary = Some pa -> (a < pa)%Z ->
  match inc_ResolvedAt i with None => True | Some r => (pa < r)%Z end ->
  escalated id idp s.
Proof.
  intros s Hcfg Hfresh Hi Hp Hn Ha Hpi Hpp Hh Hpa Hlt Hres.
  assert (Hwf : wf s) by by apply rebuild_state_wf.
  destruct (wf_incident s Hwf id i Hi) as [Hid _], (wf_incident s Hwf idp primary Hpi) as [Hidp _].
  unfold s, rebuild_state in *. cbv zeta in *. set (s4 := carry_jobs _ _ _) in *.
  destruct (rebuild_all_jobs_grows cfg 0 (4%nat :: p) (range (5%nat :: p) (snap_Incidents s4)) s4)
    as (_ & HI & _).
  rewrite HI in Hi, Hpi. apply (rebuild_all_jobs_hits _ _ _ _ _ id i).
  - intros s1 s2 (_ & _ & Hg) H. unfold escalated in *. by eapply subseteq_ids_grow.
  - intros q s' Hs'. unfold rebuild_jobs. rewrite Ha, Hn, Hp. cbv zeta. cbn [negb].
    rewrite <- Hid at 1. rewrite <- Hidp. eapply (escalate_overlaps_hits cfg _ _ _ _ idp primary pa); try done.
    assert (Hrest : forall s2, snap_Incidents s2 = snap_Incidents s4 -> snap_Incidents s2 !! idp = Some primary)
      by (by intros s2 ->).
    apply Hrest. repeat case_match; unfold enqueueLocked;
      rewrite ?incidents_enqueue, ?incidents_notify_activation; done.
  - by apply elem_of_range.
Qed.
End Rebuilding.

(** Evidence that reaches the engine late (an imported archive): the fallback
    failed before the primary did, and is heard of once the primary is
    confirmed down. *)
Definition late_observations : list Observation :=
  map (fun m => {| obs_Message := m; obs_NotifyEligible := true; obs_SourceRef := "" |})
    [ repeater "wan" "offline" 100 "wan-down"; netifd "Interface 'tethering' is now up" 200 "t-1";
      repeater "wwan" "offline" 30 "wwan-down"; netifd "Interface 'tethering' is now up" 300 "t-2" ].

Definition late_applied : Snapshot := (Apply wan_config None [] late_observations ∅ (sec 300) empty_Snapshot).1.
Definition late_rebuilt : Snapshot := (Rebuild wan_config None [] late_observations ∅ (sec 300) empty_Snapshot).1.

(** The same observations in the same order: applied, both outages are confirmed
    and the fallback's notice says the primary works; rebuilt, the escalation is
    there as well. *)
Example late_evidence_misses_escalation :
  states late_applied = states late_rebuilt
  /\ kinds late_applied ≡ₚ [KindFallbackOpened; KindIncidentOpened]
  /\ kinds late_rebuilt ≡ₚ [KindFallbackOpened; KindIncidentOpened; KindFallbackEscalated].
Proof. vm_compute. split; [reflexivity|]. split; solve_Permutation. Qed.

Lemma rebuild_escalates_overlaps_witness :
  exists fallback primary, escalated fallback primary
    (rebuild_state wan_config [] late_observations ∅ (sec 300) empty_Snapshot).
Proof.
  set (s := rebuild_state wan_config [] late_observations ∅ (sec 300) empty_Snapshot).
  set (id k := trk_IncidentID (get_tracker s (tracker_key "router-a" k))).
  exists (id "wwan"), (id "wan").
  destruct (snap_Incidents s !! id "wwan") as [i|] eqn:Hi; [|vm_compute in Hi; discriminate Hi].
  destruct (snap_Incidents s !! id "wan") as [j|] eqn:Hj; [|vm_compute in Hj; discriminate Hj].
  apply (rebuild_escalates_overlaps wan_config [] late_observations ∅ (sec 300) empty_Snapshot
           (id "wwan") (id "wan") i j (sec 90) (sec 160) wan_config_ok); try assumption.
  { vm_compute. repeat split. }
  all: vm_compute in Hi, Hj; injection Hi as <-; injection Hj as <-; vm_compute; reflexivity || exact I.
Defined.

(** ** Queries *)

Section Queries.
Context {GR : GoRange} {GS : GoSort}.

Definition in_state (st : option State) (i : Incident) : bool :=
  match st with None => true | Some st => bool_decide (inc_State i = st) end.

Definition matching (st : option State) (s : Snapshot) : list Incident :=
  List.filter (in_state st) (map snd (map_to_list (snap_Incidents s))).

Lemma filter_map_snd {A B} (f : B -> bool) (l : list (A * B)) :
  map snd (List.filter (fun kv => f kv.2) l) = List.filter f (map snd l).
Proof. induction l as [|[a b] l IH]; simpl; [done|]. by destruct (f b); simpl; rewrite IH. Qed.

Lemma sorted_by_time {A} (key : A -> Z) (less : A -> A -> bool) (l : list A) :
  (forall x y, less x y = (key x <? key y)%Z) ->
  StronglySorted (fun x y => key x <= key y)%Z (sort_slice less l).
Proof.
  intros Hl. eapply StronglySorted_impl; [|apply (sort_slice_sorted less l)].
  - intros x y H. cbn in H. rewrite Hl in H. by apply Z.ltb_ge in H.
  - intros x y. rewrite !Hl, Z.ltb_lt, Z.ltb_ge. lia.
  - intros x y z. rewrite !Hl, !Z.ltb_ge. lia.
Qed.

Lemma slice_is {A} (lo hi : Z) (l : list A) :
  (0 <= lo <= hi)%Z -> (hi <= Z.of_nat (length l))%Z ->
  slice lo hi l = Some (take (Z.to_nat (hi - lo)) (drop (Z.to_nat lo) l)).
Proof.
  intros [? ?] ?. unfold slice.
  by rewrite (proj2 (Z.leb_le 0 lo)), (proj2 (Z.leb_le lo hi)), (proj2 (Z.leb_le hi _)).
Qed.

(** The incidents in the asked state, newest start first. *)
Definition listing (p : list nat) (st : option State) (s : Snapshot) : list Incident :=
  sort_slice (fun a b => After (inc_StartedAt a) (inc_StartedAt b))
    (map (fun kv => cloneIncident kv.2)
      (List.filter (fun kv => in_state st kv.2) (range p (snap_Incidents s)))).

Lemma listing_spec p st s :
  listing p st s ≡ₚ matching st s
  /\ StronglySorted (fun x y => inc_StartedAt y <= inc_StartedAt x)%Z (listing p st s).
Proof.
  unfold listing, matching. split.
  - rewrite sort_slice_perm. etrans; [apply reflexive_eq, (filter_map_snd (in_state st))|].
    apply filter_perm. by rewrite (range_perm p).
  - eapply StronglySorted_impl;
      [|apply (sorted_by_time (fun i => - inc_StartedAt i)%Z (fun a b => After (inc_StartedAt a) (inc_StartedAt b)))].
    + intros x y H. cbn in H. lia.
    + intros x y. unfold After. apply Bool.eq_true_iff_eq. rewrite !Z.ltb_lt. lia.
Qed.

(** Listing incidents gives those in the asked state, newest
    start first, and a page is exactly the requested stretch of that list: a
    negative offset counts as zero, one past the end gives nothing, and no
    positive limit means the rest. With offset and limit whose sum is an [int]
    the slice expression never panics. *)
Theorem incident_list (p : list nat) (query : Query) (s : Snapshot) :
  (Z.max 0 (qry_Offset query) + qry_Limit query <= max_int)%Z ->
  exists all, all ≡ₚ matching (qry_State query) s
    /\ StronglySorted (fun x y => inc_StartedAt y <= inc_StartedAt x)%Z all
    /\ List_ p query s
       = Some (let rest := drop (Z.to_nat (qry_Offset query)) all in
               if (0 <? qry_Limit query)%Z then take (Z.to_nat (qry_Limit query)) rest else rest).
Proof.
  intros Hint. destruct (listing_spec p (qry_State query) s) as [H1 H2].
  exists (listing p (qry_State query) s). split; [done|]. split; [done|].
  change (List_ p query s) with
    (let items := listing p (qry_State query) s in
     let start := if (qry_Offset query <? 0)%Z then 0%Z else qry_Offset query in
     let len := Z.of_nat (length items) in
     if (len <=? start)%Z then Some []
     else
       let end_ := if (0 <? qry_Limit query)%Z && (int_wrap (start + qry_Limit query) <? len)%Z
                   then int_wrap (start + qry_Limit query) else len in
       slice start end_ items).
  generalize (listing p (qry_State query) s). intros all. cbv zeta.
  set (start := if (qry_Offset query <? 0)%Z then 0%Z else qry_Offset query).
  assert (Hs : start = Z.max 0 (qry_Offset query))
    by (unfold start; destruct (Z.ltb_spec (qry_Offset query) 0); lia).
  replace (Z.to_nat (qry_Offset query)) with (Z.to_nat start) by lia.
  destruct (Z.leb_spec (Z.of_nat (length all)) start) as [Hle|Hgt].
  { rewrite (drop_ge all) by lia. case_match; [by rewrite take_nil|done]. }
  destruct (Z.ltb_spec 0 (qry_Limit query)) as [Hl|Hl]; simpl.
  - rewrite int_wrap_small by (unfold max_int in *; lia).
    destruct (Z.ltb_spec (start + qry_Limit query) (Z.of_nat (length all))).
    + rewrite slice_is by lia. do 2 f_equal. lia.
    + rewrite slice_is by lia. rewrite !take_ge; [done|rewrite length_drop; lia..].
  - rewrite slice_is by lia. rewrite take_ge; [done|rewrite length_drop; lia].
Qed.

Lemma jobs_by_creation_spec (p : list nat) (keep : NotificationJob -> bool) (s : Snapshot) :
  jobs_by_creation p keep s ≡ₚ List.filter keep (map snd (map_to_list (snap_Jobs s)))
  /\ StronglySorted (fun x y => job_CreatedAt x <= job_CreatedAt y)%Z (jobs_by_creation p keep s).
Proof.
  unfold jobs_by_creation. split.
  - rewrite sort_slice_perm. apply filter_perm. by rewrite (range_perm p).
  - by apply sorted_by_time.
Qed.

(** The jobs handed to delivery are exactly those of the
    outbox that are neither sent nor given up and whose next attempt is due,
    each once, oldest first; the jobs of an incident are listed in the same
    way. *)
Theorem due_notifications (p : list nat) (now : Time) (incidentID : string) (s : Snapshot) :
  let jobs := map snd (map_to_list (snap_Jobs s)) in
  DueNotifications p now s
    ≡ₚ List.filter (fun j => bool_decide (job_SentAt j = None) && negb (job_Permanent j)
                             && (job_NextAt j <=? now)%Z) jobs
  /\ StronglySorted (fun x y => job_CreatedAt x <= job_CreatedAt y)%Z (DueNotifications p now s)
  /\ NotificationsFor p incidentID s ≡ₚ List.filter (fun j => String.eqb (job_IncidentID j) incidentID) jobs
  /\ StronglySorted (fun x y => job_CreatedAt x <= job_CreatedAt y)%Z (NotificationsFor p incidentID s).
Proof.
  intros jobs. unfold DueNotifications, NotificationsFor.
  destruct (jobs_by_creation_spec p (fun job => unsent job && negb (After (job_NextAt job) now)) s) as [H1 H2].
  destruct (jobs_by_creation_spec p (fun job => String.eqb (job_IncidentID job) incidentID) s) as [H3 H4].
  split_and!; try done. rewrite H1. apply reflexive_eq. apply List.filter_ext. intros j.
  unfold unsent, After. rewrite Z.leb_antisym. destruct (job_SentAt j); [done|].
  by rewrite bool_decide_true.
Qed.
End Queries.

Definition first_page : Query := {| qry_State := Some StateActive; qry_Limit := 1; qry_Offset := -1 |}.

Lemma incident_list_witness :
  exists all, all ≡ₚ matching (Some StateActive) primary_pending
    /\ StronglySorted (fun x y => inc_StartedAt y <= inc_StartedAt x)%Z all
    /\ List_ [] first_page primary_pending = Some (take 1 (drop 0 all)).
Proof. apply (incident_list [] first_page primary_pending). vm_compute. intros H. discriminate H. Defined.

(** Offset and limit whose sum exceeds an [int] make the slice expression panic. *)
Example oversized_page_panics :
  List_ [] {| qry_State := None; qry_Limit := max_int; qry_Offset := 1 |} primary_pending = None.
Proof. vm_compute. reflexivity. Qed.
