(* ===== verification/EngineEvidence.v ===== *)
(** Which netifd messages the incident engine takes as evidence, and that a
    message can be read in one way only. *)
From Stdlib Require Import ZArith.
From S2P Require Import Prelude.
From S2P Require Import GoStd.
From S2P Require Import Model.
From S2P Require Import Classify.
From S2P Require Import Scenarios.
Local Open Scope string_scope.

(** ** Which messages are evidence *)

Lemma netifd_text_inj (pre suf a b : string) : pre +:+ a +:+ suf = pre +:+ b +:+ suf -> a = b.
Proof.
  intros H. apply (f_equal (sdrop (String.length pre))) in H. rewrite !sdrop_app in H.
  apply (f_equal srev) in H. rewrite !srev_append in H.
  apply (f_equal (sdrop (String.length (srev suf)))) in H. rewrite !sdrop_app in H.
  apply (f_equal srev) in H. by rewrite !srev_involutive in H.
Qed.

Section Netifd.
Variables (iface status : string).

(** [status] is what netifd logs about the interface [c]. *)
Definition netifd_reports (c : string) (online : bool) : Prop :=
  if online then status = "Interface '" +:+ c +:+ "' is now up"
  else status = "Interface '" +:+ c +:+ "' is now down"
       \/ c = iface /\ status = "Interface '" +:+ c +:+ "' has lost the connection".

Lemma text_suffix (pre a b suf suf' : string) :
  pre +:+ a +:+ suf = pre +:+ b +:+ suf' -> srev suf +:+ srev a = srev suf' +:+ srev b.
Proof.
  intros H. apply (f_equal (sdrop (String.length pre))) in H. rewrite !sdrop_app in H.
  apply (f_equal srev) in H. by rewrite !srev_append in H.
Qed.

Lemma netifd_reports_functional c o c' o' :
  netifd_reports c o -> netifd_reports c' o' -> c = c' /\ o = o'.
Proof.
  assert (Hne : forall a b x y, "Interface '" +:+ a +:+ x = "Interface '" +:+ b +:+ y ->
            srev x +:+ srev a <> srev y +:+ srev b -> False)
    by (intros a b x y H Hn; by apply Hn, (text_suffix "Interface '")).
  assert (Heq : forall a b x, "Interface '" +:+ a +:+ x = "Interface '" +:+ b +:+ x -> a = b)
    by (intros a b x; apply netifd_text_inj).
  unfold netifd_reports. intros H H'.
  destruct o, o'; repeat match goal with H : _ \/ _ |- _ => destruct H as [H|H] end;
    repeat match goal with H : _ /\ _ |- _ => destruct H as [-> H] end;
    rewrite H in H'; split; try done; try (by eapply Heq);
    exfalso; (eapply Hne; [exact H'|]); discriminate.
Qed.

Lemma netifd_down_reports c : netifd_down iface c status = true <-> netifd_reports c false.
Proof.
  unfold netifd_down, netifd_reports.
  by rewrite orb_true_iff, andb_true_iff, !String.eqb_eq.
Qed.

Lemma netifd_up_reports c : netifd_up c status = true <-> netifd_reports c true.
Proof. apply String.eqb_eq. Qed.

Lemma classify_netifd_spec (mk : string -> bool -> evidence) (cs : list string) (e : evidence) :
  classify_netifd iface status mk cs = Some e
  <-> exists c online, c ∈ cs /\ netifd_reports c online /\ e = mk c online.
Proof.
  induction cs as [|a cs IH]; cbn [classify_netifd].
  { split; [done|]. by intros (c & o & ?%elem_of_nil & _). }
  destruct (netifd_down iface a status || netifd_up a status) eqn:Ha.
  - assert (Hr : netifd_reports a (netifd_up a status)).
    { destruct (netifd_up a status) eqn:Hu; [by apply netifd_up_reports|].
      rewrite orb_false_r in Ha. by apply netifd_down_reports. }
    split; [intros [= <-]; exists a, (netifd_up a status); by split; [left|]|].
    intros (c & o & _ & Hc & ->). by destruct (netifd_reports_functional c o _ _ Hc Hr) as [-> ->].
  - rewrite IH. apply orb_false_iff in Ha as [Hd Hu]. split; intros (c & o & Hin & Hc & ->); exists c, o.
    + by split; [right|].
    + apply elem_of_cons in Hin as [->|Hin]; [|done]. destruct o;
        [apply netifd_up_reports in Hc|apply netifd_down_reports in Hc]; congruence.
Qed.
End Netifd.

(** C40: a message of netifd is evidence exactly when it names a host, carries
    a time, and its trimmed text is one of the known sentences about the
    primary interface, the Starlink one or the tethering one; losing the
    connection counts for the primary alone, and no message can be read in two
    ways. *)
Theorem classify_netifd_exact (message : Message) (iface : string) (e : evidence) :
  msg_Tag message = "netifd" ->
  (classify message iface = Some e
   <-> TrimSpace (msg_Hostname message) <> "" /\ msg_ReceivedAt message <> 0%Z
       /\ exists c online, c ∈ [iface; "wwan"; "tethering"]
          /\ netifd_reports iface (TrimSpace (msg_Message message)) c online
          /\ e = mk_evidence message (TrimSpace (msg_Hostname message)) false false c online).
Proof.
  intros Htag. unfold classify, IsZero. cbv zeta. rewrite Htag, String.eqb_refl.
  destruct (String.eqb_spec (TrimSpace (msg_Hostname message)) "") as [|Hh];
    [split; [done|by intros [? _]]|].
  destruct (Z.eqb_spec (msg_ReceivedAt message) 0) as [|Ht]; [split; [done|by intros (_ & ? & _)]|].
  simpl orb. cbv iota. rewrite classify_netifd_spec. tauto.
Qed.

Lemma classify_netifd_exact_witness :
  exists e, classify (netifd "Interface 'wwan' is now up" 0 "id") "wan" = Some e /\ ev_iface e = "wwan".
Proof.
  exists (mk_evidence (netifd "Interface 'wwan' is now up" 0 "id") "router-a" false false "wwan" true).
  split; [|reflexivity]. apply classify_netifd_exact; [reflexivity|].
  split; [vm_compute; discriminate|]. split; [vm_compute; discriminate|].
  exists "wwan", true. split; [right; left|]. split; reflexivity.
Defined.
