(* ===== verification/GoLib.v ===== *)
(** More of Go's standard library, as far as the message store uses it:
    runes, [net.SplitHostPort], [sort.Search] and comparison of strings written
    out; [container/heap], [regexp], Unicode case and [encoding/json] as classes
    that state what their documentation promises, with instances. *)
From Stdlib Require Import Ascii ZArith Lia.
From S2P Require Import Prelude.
From S2P Require Import GoStd.
From S2P Require Import Model.
Local Open Scope string_scope.

(** * Bytes and runes *)

(** [strings.LastIndexByte] and [strings.IndexByte] for one byte. *)
Definition IndexByte (s : string) (c : ascii) : option nat := Index s (String c EmptyString).

Fixpoint LastIndexByte (s : string) (c : ascii) : option nat :=
  match s with
  | EmptyString => None
  | String d s' =>
    match LastIndexByte s' c with
    | Some i => Some (S i)
    | None => if Ascii.eqb d c then Some O else None
    end
  end.

Definition between (lo hi : Z) (c : ascii) : bool := ((lo <=? byte_of c) && (byte_of c <=? hi))%Z.
Definition continuation : ascii -> bool := between 0x80 0xBF.

(** What may follow the first byte of a two, three or four byte rune. *)
Definition second_of_two (a b : ascii) : bool := between 0xC2 0xDF a && continuation b.

Definition second_of_three (a b : ascii) : bool :=
  (between 0xE0 0xE0 a && between 0xA0 0xBF b)
  || ((between 0xE1 0xEC a || between 0xEE 0xEF a) && continuation b)
  || (between 0xED 0xED a && between 0x80 0x9F b).

Definition second_of_four (a b : ascii) : bool :=
  (between 0xF0 0xF0 a && between 0x90 0xBF b)
  || (between 0xF1 0xF3 a && continuation b)
  || (between 0xF4 0xF4 a && between 0x80 0x8F b).

(** The runes a [for range] loop over a string sees: a one-byte rune is
    [Some] byte, any other (an invalid byte counts as one) is [None]. *)
Fixpoint runes (s : string) : list (option ascii) :=
  match s with
  | EmptyString => []
  | String a ra =>
    if (byte_of a <? 0x80)%Z then Some a :: runes ra
    else None :: match ra with
      | String b rb =>
        if second_of_two a b then runes rb
        else match rb with
          | String c rc =>
            if second_of_three a b && continuation c then runes rc
            else match rc with
              | String d rd =>
                if second_of_four a b && continuation c && continuation d then runes rd else runes ra
              | EmptyString => runes ra
              end
          | EmptyString => runes ra
          end
      | EmptyString => []
      end
  end.

(** [strings.Trim(s, cutset)] for a cutset of one-byte characters. *)
Fixpoint trim_left_set (cut : ascii -> bool) (s : string) : string :=
  match s with
  | String c s' => if cut c then trim_left_set cut s' else s
  | EmptyString => EmptyString
  end.

Definition Trim (cut : ascii -> bool) (s : string) : string :=
  srev (trim_left_set cut (srev (trim_left_set cut s))).

(** [strings.Join]. *)
Fixpoint Join (parts : list string) (sep : string) : string :=
  match parts with
  | [] => EmptyString
  | [part] => part
  | part :: rest => part +:+ sep +:+ Join rest sep
  end.

(** [a < b] on strings: bytewise. *)
Definition string_less (a b : string) : bool :=
  match String.compare a b with Lt => true | _ => false end.

(** How [fmt.Sprint] prints a map whose values print so: by key. *)
Definition sprint_map {GS : GoSort} (fields : list (string * string)) : string :=
  "map[" +:+ Join (map (fun kv => kv.1 +:+ ":" +:+ kv.2) (sort_slice (fun a b => string_less a.1 b.1) fields)) " "
         +:+ "]".

(** * Package net *)

(** [net.SplitHostPort]; [None] is the error. *)
Definition SplitHostPort (hostport : string) : option (string * string) :=
  match LastIndexByte hostport ":" with
  | None => None
  | Some i =>
    let port := sdrop (S i) hostport in
    let checked (host : string) (j k : nat) :=
      if bool_decide (is_Some (IndexByte (sdrop j hostport) "[")) then None
      else if bool_decide (is_Some (IndexByte (sdrop k hostport) "]")) then None
      else Some (host, port) in
    if HasPrefix hostport "["
    then match IndexByte hostport "]" with
         | None => None
         | Some e =>
           if (S e =? i)%nat then checked (sdrop 1 (stake e hostport)) 1%nat (S e) else None
         end
    else
      let host := stake i hostport in
      if bool_decide (is_Some (IndexByte host ":")) then None else checked host O O
  end.

(** * Package sort *)

(** [sort.Search(n, f)]: binary search between [i] and [j]; each round halves
    the distance, so [n] rounds are enough. *)
Fixpoint search_loop (fuel : nat) (f : nat -> bool) (i j : nat) : nat :=
  match fuel with
  | O => i
  | S n =>
    if (i <? j)%nat then
      let h := Nat.div2 (i + j) in
      if negb (f h) then search_loop n f (S h) j else search_loop n f i h
    else i
  end.

Definition sort_Search (n : nat) (f : nat -> bool) : nat := search_loop n f 0 n.

Lemma search_loop_spec fuel f i j :
  (j - i <= fuel)%nat -> (i <= j)%nat ->
  (forall a b, (a <= b)%nat -> f a = true -> f b = true) ->
  (forall a, (a < i)%nat -> f a = false) -> (forall a, (j <= a)%nat -> f a = true) ->
  let r := search_loop fuel f i j in
  (r <= j)%nat /\ (forall a, (a < r)%nat -> f a = false) /\ (forall a, (r <= a)%nat -> f a = true).
Proof.
  revert i j. induction fuel as [|fuel IH]; intros i j Hfuel Hij Hmono Hlo Hhi; cbn [search_loop]; cbv zeta.
  { assert (i = j) as -> by lia. split; [lia|by split]. }
  destruct (Nat.ltb_spec i j); [|assert (i = j) as -> by lia; split; [lia|by split]].
  assert (Hh : (i <= Nat.div2 (i + j) /\ Nat.div2 (i + j) < j)%nat)
    by (rewrite Nat.div2_div; split; [apply Nat.div_le_lower_bound; lia|apply Nat.div_lt_upper_bound; lia]).
  set (h := Nat.div2 (i + j)) in *. destruct (f h) eqn:Hf; cbn [negb].
  - assert (Hge : forall a, (h <= a)%nat -> f a = true) by (intros a Ha; by apply (Hmono h)).
    destruct (IH i h) as (? & ? & ?); try lia; try done. split; [lia|by split].
  - apply IH; try lia; try done.
    intros a Ha. destruct (f a) eqn:E; [|done]. rewrite <- Hf. symmetry. apply (Hmono a); [lia|done].
Qed.

(** The first index at which a monotone condition holds. *)
Lemma sort_Search_spec n f :
  (forall a b, (a <= b)%nat -> f a = true -> f b = true) -> (forall a, (n <= a)%nat -> f a = true) ->
  (sort_Search n f <= n)%nat /\ (forall a, (a < sort_Search n f)%nat -> f a = false)
  /\ (forall a, (sort_Search n f <= a)%nat -> f a = true).
Proof. intros Hm Hn. apply search_loop_spec; try done; lia. Qed.

(** * Package container/heap *)

Definition strict_weak {A : Type} (less : A -> A -> bool) : Prop :=
  (forall x y, less x y = true -> less y x = false)
  /\ (forall x y z, less y x = false -> less z y = false -> less z x = false).

(** [Init] establishes an invariant of the slice, [Push] and [Pop] keep it, and
    [Pop] removes a minimum with respect to [Less]. *)
Class GoHeap := {
  heap_ok : forall {A : Type}, (A -> A -> bool) -> list A -> Prop;
  heap_Init : forall {A : Type}, (A -> A -> bool) -> list A -> list A;
  heap_Push : forall {A : Type}, (A -> A -> bool) -> A -> list A -> list A;
  heap_Pop : forall {A : Type}, (A -> A -> bool) -> list A -> option (A * list A);
  heap_Init_spec : forall {A : Type} (less : A -> A -> bool) (l : list A),
    strict_weak less -> heap_Init less l ≡ₚ l /\ heap_ok less (heap_Init less l);
  heap_Push_spec : forall {A : Type} (less : A -> A -> bool) (x : A) (l : list A),
    strict_weak less -> heap_ok less l ->
    heap_Push less x l ≡ₚ x :: l /\ heap_ok less (heap_Push less x l);
  heap_Pop_spec : forall {A : Type} (less : A -> A -> bool) (l : list A),
    strict_weak less -> heap_ok less l -> l <> [] ->
    exists x l', heap_Pop less l = Some (x, l') /\ l ≡ₚ x :: l' /\ heap_ok less l'
                 /\ Forall (fun y => less y x = false) l'
}.

(** * Package encoding/json *)

(** The codec of stored messages.  [json_Encode] is what [Encoder.Encode] writes
    without the final newline, [None] its error; [json_Unmarshal] decodes a
    stored line into a message and [json_key] into the two fields an index
    entry is made of; [json_Marshal_map] prints a map of dynamic values. *)
Class GoJson := {
  json_Encode : Message -> option string;
  json_Unmarshal : string -> option Message;
  json_key : string -> option (Time * string);
  json_Marshal_map : list (string * any) -> option string
}.

(** What is documented of them: an encoded value is one line; decoding it gives
    back a message received at the same instant; both decoders read the same
    fields. *)
Class GoJsonLaws {J : GoJson} := {
  encode_one_line : forall m line, json_Encode m = Some line -> IndexByte line (ascii_of_nat 10) = None;
  unmarshal_encoded : forall m line, json_Encode m = Some line ->
    exists m', json_Unmarshal (line +:+ newline) = Some m' /\ msg_ReceivedAt m' = msg_ReceivedAt m;
  key_of_message : forall line m, json_Unmarshal line = Some m ->
    json_key line = Some (msg_ReceivedAt m, msg_Hostname m)
}.

(** * Packages regexp and unicode *)

(** [regexp.Compile] with its error text, and [strings.ToLower]. *)
Class GoText := {
  regexp_Compile : string -> (string -> bool) + string;
  ToLower : string -> string
}.

(** Lower case maps rune to rune. *)
Class GoTextLaws {T : GoText} := {
  ToLower_empty : forall s, ToLower s = "" -> s = ""
}.
