(* ===== verification/GoStrings.v ===== *)
(** More of Go's package [strings] and of UTF-8: [ReplaceAll] and [Split] for what
    the code passes them, decoding into runes, and lemmas on the occurrence of one
    string in another. *)
From Stdlib Require Import Ascii ZArith Lia DecimalString.
From S2P Require Import Prelude.
From S2P Require Import GoStd.
From S2P Require Import GoLib.
Local Open Scope string_scope.

(** [strings.ReplaceAll(s, old, new)] for an [old] that is not empty: every round
    leaves less of [s], so its length bounds the rounds. *)
Fixpoint replace_loop (fuel : nat) (s old new : string) : string :=
  match fuel with
  | O => s
  | S fuel =>
    match Index s old with
    | None => s
    | Some i => stake i s +:+ new +:+ replace_loop fuel (sdrop (i + String.length old) s) old new
    end
  end.

Definition ReplaceAll (s old new : string) : string := replace_loop (S (String.length s)) s old new.

(** [strings.Split(s, sep)] for a separator of one byte. *)
Fixpoint Split (sep : ascii) (s : string) : list string :=
  match s with
  | EmptyString => [EmptyString]
  | String c s' =>
    match Split sep s' with
    | [] => []
    | part :: rest => if Ascii.eqb c sep then EmptyString :: part :: rest else String c part :: rest
    end
  end.

(** [[]rune(s)], each rune by its encoding; an invalid byte becomes U+FFFD. *)
Definition replacement_rune : string :=
  String (ascii_of_nat 239) (String (ascii_of_nat 191) (String (ascii_of_nat 189) EmptyString)).

Fixpoint rune_texts (s : string) : list string :=
  match s with
  | EmptyString => []
  | String a ra =>
    if (byte_of a <? 0x80)%Z then String a EmptyString :: rune_texts ra
    else match ra with
      | String b rb =>
        if second_of_two a b then String a (String b EmptyString) :: rune_texts rb
        else match rb with
          | String c rc =>
            if second_of_three a b && continuation c
            then String a (String b (String c EmptyString)) :: rune_texts rc
            else match rc with
              | String d rd =>
                if second_of_four a b && continuation c && continuation d
                then String a (String b (String c (String d EmptyString))) :: rune_texts rd
                else replacement_rune :: rune_texts ra
              | EmptyString => replacement_rune :: rune_texts ra
              end
          | EmptyString => replacement_rune :: rune_texts ra
          end
      | EmptyString => [replacement_rune]
      end
  end.

(** [string(runes)]. *)
Definition concat_texts (rs : list string) : string := foldr String.append EmptyString rs.

Example decoded_texts :
  rune_texts ("a€" +:+ String (ascii_of_nat 226) "z") = ["a"; "€"; replacement_rune; "z"].
Proof. vm_compute. reflexivity. Qed.

(** ** Occurrence *)

Definition occurs (t s : string) : Prop := exists a b, s = a +:+ t +:+ b.

Lemma prefix_split t s : String.prefix t s = true -> s = t +:+ sdrop (String.length t) s.
Proof.
  revert s. induction t as [|c t IH]; intros [|d s]; cbn; try done.
  destruct (ascii_dec c d) as [->|]; [|done]. intros H. rewrite scons_app. by rewrite <- (IH s H).
Qed.

Lemma prefix_app t b : String.prefix t (t +:+ b) = true.
Proof. induction t as [|c t IH]; [by destruct b|]. rewrite scons_app. cbn. by destruct (ascii_dec c c). Qed.

Lemma Index_split s t i : Index s t = Some i -> s = stake i s +:+ t +:+ sdrop (i + String.length t) s.
Proof.
  revert i. induction s as [|c s IH]; intros i; cbn [Index]; destruct (String.prefix t _) eqn:Hp.
  - intros [= <-]. rewrite (prefix_split _ _ Hp) at 1. done.
  - done.
  - intros [= <-]. rewrite (prefix_split _ _ Hp) at 1. done.
  - destruct (Index s t) as [j|] eqn:Hj; [|done]. intros [= <-]. cbn. rewrite scons_app. f_equal. by apply IH.
Qed.

Lemma Index_none s t : Index s t = None -> ~ occurs t s.
Proof.
  intros H (a & b & ->). revert H. induction a as [|c a IH]; [|rewrite scons_app; cbn [Index]].
  - rewrite snil_app. pose proof (prefix_app t b) as Hp. by destruct (t +:+ b); cbn [Index]; rewrite Hp.
  - destruct (String.prefix t _); [done|]. destruct (Index _ t) eqn:E; [done|]. intros _. by apply IH.
Qed.

Lemma Contains_occurs s t : Contains s t = true <-> occurs t s.
Proof.
  unfold Contains. rewrite bool_decide_eq_true. split.
  - intros [i Hi]. apply Index_split in Hi. by eexists _, _.
  - intros Ho. destruct (Index s t) eqn:E; [by eexists|]. by apply Index_none in E.
Qed.

Lemma occurs_app_l t u v : occurs t u -> occurs t (u +:+ v).
Proof. intros (a & b & ->). exists a, (b +:+ v). by rewrite !sapp_assoc. Qed.

Lemma occurs_app_r t u v : occurs t v -> occurs t (u +:+ v).
Proof. intros (a & b & ->). exists (u +:+ a), b. by rewrite sapp_assoc. Qed.

(** An occurrence of a string without a byte lies on one side of that byte. *)
Definition lacks (c : ascii) : string -> bool := all_bytes (fun d => negb (Ascii.eqb d c)).

Lemma prefix_skip t b u c v :
  lacks c t = true -> t +:+ b = u +:+ String c v -> exists b', u = t +:+ b'.
Proof.
  revert u. induction t as [|d t IH]; intros u; [by exists u|].
  cbn. intros [Hd Ht]%andb_true_iff. rewrite scons_app. destruct u as [|e u]; rewrite ?snil_app, ?scons_app; intros [= -> Heq].
  - by rewrite Ascii.eqb_refl in Hd.
  - destruct (IH u Ht Heq) as [b' ->]. exists b'. by rewrite scons_app.
Qed.

Lemma occurs_skip t u c v :
  lacks c t = true -> t <> "" -> occurs t (u +:+ String c v) -> occurs t u \/ occurs t v.
Proof.
  intros Hc Ht (a & b & Heq). revert a Heq. induction u as [|d u IH]; intros [|e a];
    rewrite ?snil_app, ?scons_app.
  - destruct t as [|d t]; [done|]. rewrite scons_app. intros [= -> _]. cbn in Hc. by rewrite Ascii.eqb_refl in Hc.
  - intros [= -> ->]. right. by exists a, b.
  - intros Heq. destruct (prefix_skip t b (String d u) c v Hc (eq_sym Heq)) as [b' ->].
    left. by exists "", b'.
  - intros [= -> Heq]. destruct (IH a Heq) as [(a' & b' & ->)|]; [left|by right].
    exists (String e a'), b'. by rewrite scons_app.
Qed.

(** ** [ReplaceAll] *)

(** What is put in does not complete an occurrence of [t]. *)
Definition apart (t new : string) : Prop :=
  forall u v, occurs t (u +:+ new +:+ v) -> occurs t u \/ occurs t v.

Lemma Index_first s t i : Index s t = Some i -> t <> "" -> ~ occurs t (stake i s).
Proof.
  intros Hi Ht (a & b & Hs). revert s i Hi Hs. induction a as [|c a IH]; intros s i Hi Hs.
  - rewrite snil_app in Hs. destruct s as [|d s].
    { cbn [Index] in Hi. by destruct t. }
    cbn [Index] in Hi. destruct (String.prefix t (String d s)) eqn:Hp; [injection Hi as <-; by destruct t|].
    assert (Hps : String d s = stake i (String d s) +:+ sdrop i (String d s)).
    { clear. revert i. induction (String d s) as [|c r IH]; intros [|i]; cbn; rewrite ?snil_app, ?scons_app; try done.
      by rewrite <- IH. }
    rewrite Hps, Hs, sapp_assoc, prefix_app in Hp. done.
  - destruct s as [|d s].
    { cbn [Index] in Hi. by destruct (String.prefix t ""), i. }
    cbn [Index] in Hi. destruct (String.prefix t (String d s)); [injection Hi as <-; by rewrite scons_app in Hs|].
    destruct (Index s t) as [j|] eqn:Hj; [|done]. injection Hi as <-. cbn in Hs. rewrite scons_app in Hs.
    injection Hs as _ Hs. exact (IH _ _ Hj Hs).
Qed.

Lemma replace_absent fuel s old new t :
  apart t new -> ~ occurs t s -> ~ occurs t (replace_loop fuel s old new).
Proof.
  intros Ha. revert s. induction fuel as [|fuel IH]; intros s Hs; cbn; [done|].
  destruct (Index s old) as [i|] eqn:Hi; [|done]. apply Index_split in Hi. rewrite Hi in Hs.
  intros [Ho|Ho]%Ha.
  - apply Hs. by apply occurs_app_l.
  - revert Ho. apply IH. intros Ho. apply Hs. by apply occurs_app_r, occurs_app_r.
Qed.

Lemma replace_gone fuel s old new :
  apart old new -> old <> "" -> String.length s < fuel -> ~ occurs old (replace_loop fuel s old new).
Proof.
  intros Ha Hold. revert s. induction fuel as [|fuel IH]; intros s Hf; [lia|]. cbn.
  destruct (Index s old) as [i|] eqn:Hi; [|by apply Index_none].
  intros [Ho|Ho]%Ha; [by apply (Index_first s old i)|].
  revert Ho. apply IH. apply Index_split in Hi. apply (f_equal String.length) in Hi.
  rewrite !slength_app in Hi. destruct old; [done|]. cbn in Hi. cbn. lia.
Qed.

(** ** Decoding *)

(** A text that decodes as one rune whatever follows it. *)
Definition one_rune (r : string) : Prop := forall t, rune_texts (r +:+ t) = r :: rune_texts t.

Lemma replacement_one : one_rune replacement_rune.
Proof. intros t. unfold replacement_rune. rewrite !scons_app, snil_app. by vm_compute. Qed.

Lemma rune_texts_one s : Forall one_rune (rune_texts s).
Proof.
  enough (H : forall n s, String.length s <= n -> Forall one_rune (rune_texts s)) by by eapply H.
  intros n. induction n as [|n IH]; intros [|a ra] Hl; cbn in Hl; try (constructor || lia).
  cbn [rune_texts]. destruct (byte_of a <? 0x80)%Z eqn:Ha.
  { constructor; [|apply IH; lia]. intros t. rewrite !scons_app. cbn. by rewrite Ha. }
  destruct ra as [|b rb]; [constructor; [apply replacement_one|constructor]|].
  destruct (second_of_two a b) eqn:H2.
  { constructor; [|apply IH; cbn in Hl; lia]. intros t. rewrite !scons_app. cbn. by rewrite Ha, H2. }
  destruct rb as [|c rc]; [constructor; [apply replacement_one|apply IH; cbn in *; lia]|].
  destruct (second_of_three a b && continuation c) eqn:H3.
  { constructor; [|apply IH; cbn in Hl; lia]. intros t. rewrite !scons_app. cbn. by rewrite Ha, H2, H3. }
  destruct rc as [|d rd]; [constructor; [apply replacement_one|apply IH; cbn in *; lia]|].
  destruct (second_of_four a b && continuation c && continuation d) eqn:H4.
  - constructor; [|apply IH; cbn in Hl; lia]. intros t. rewrite !scons_app. cbn. by rewrite Ha, H2, H3, H4.
  - constructor; [apply replacement_one|apply IH; cbn in *; lia].
Qed.

(** Encoding runes and decoding them again gives the runes. *)
Lemma rune_texts_concat rs : Forall one_rune rs -> rune_texts (concat_texts rs) = rs.
Proof. induction 1 as [|r rs Hr _ IH]; [done|]. change (rune_texts (r +:+ concat_texts rs) = r :: rs). by rewrite Hr, IH. Qed.

Lemma concat_texts_app rs rs' : concat_texts (rs ++ rs') = concat_texts rs +:+ concat_texts rs'.
Proof. induction rs as [|r rs IH]; [done|]. cbn. rewrite sapp_assoc. f_equal. exact IH. Qed.

(** ** Printed numbers are not padded *)

(** A minus sign or a digit. *)
Definition numeric (c : ascii) : bool := between 45 57 c.

Lemma numeric_Itoa z : all_bytes numeric (Itoa z) = true.
Proof.
  assert (H : forall d, all_bytes numeric (NilEmpty.string_of_uint d) = true) by (induction d; done).
  assert (H0 : forall d, all_bytes numeric (NilZero.string_of_uint d) = true) by (intros []; [done|apply H..]).
  destruct (Itoa_cases z) as [(d & -> & _)|(d & -> & _)]; [apply H0|]. cbn. apply H0.
Qed.

Lemma Itoa_nonempty z : Itoa z <> "".
Proof.
  destruct (Itoa_cases z) as [(d & -> & _)|(d & -> & _)]; [|done].
  by destruct (NilZero_uint_head d) as (c & s & -> & _).
Qed.

(** Nothing that starts like a number is white space. *)
Lemma numeric_not_space c : numeric c = true ->
  space1 c = false /\ (forall d, space2 c d = false /\ space2 d c = false)
  /\ forall d e, space3 c d e = false /\ space3 e d c = false.
Proof.
  unfold numeric, between, space1, space2, space3. intros H. assert (45 <= byte_of c <= 57)%Z by lia.
  split_and!; intros; try split; lia.
Qed.

Lemma no_space_first s2 s3 c t :
  space1 c = false -> (forall d, s2 c d = false) -> (forall d e, s3 c d e = false) ->
  starts_space s2 s3 (String c t) = false.
Proof.
  intros H1 H2 H3. cbn [starts_space]. rewrite H1. destruct t as [|d t]; [done|]. rewrite H2.
  destruct t as [|e t]; [done|]. apply H3.
Qed.

Lemma TrimSpace_numeric s : all_bytes numeric s = true -> TrimSpace s = s.
Proof.
  intros H. unfold TrimSpace, TrimRightSpace, TrimLeftSpace.
  assert (Hf : forall c t, all_bytes numeric (String c t) = true -> numeric c = true)
    by (intros c t [? _]%andb_true_iff; done).
  assert (Hl : starts_space space2 space3 s = false).
  { destruct s as [|c s]; [done|]. destruct (numeric_not_space c (Hf _ _ H)) as (H1 & H2 & H3).
    apply no_space_first; [done|apply H2|intros d e; apply H3]. }
  rewrite (trim_front_stays _ _ _ Hl). rewrite <- all_bytes_srev in H.
  rewrite trim_front_stays; [apply srev_involutive|].
  destruct (srev s) as [|c t]; [done|]. destruct (numeric_not_space c (Hf _ _ H)) as (H1 & H2 & H3).
  apply no_space_first; [done|intros d; apply H2|intros d e; apply H3].
Qed.

Lemma TrimSpace_Itoa z : TrimSpace (Itoa z) = Itoa z.
Proof. apply TrimSpace_numeric, numeric_Itoa. Qed.
