(* ===== verification/GoTime.v ===== *)
(** [time.Parse(time.RFC3339Nano, value)], the instant only; that the civil date of
    a day is a date of the calendar and names that day; and that [time.Parse] reads
    what [Format] writes of a time to the second, in the years of four digits. *)
From Stdlib Require Import Ascii ZArith Lia.
From S2P Require Import Prelude.
From S2P Require Import GoStd.
Local Open Scope string_scope.

(** [getnum]: one or two digits, two if [fixed]. *)
Definition getnum (fixed : bool) (s : string) : option (Z * string) :=
  match s with
  | String a rest =>
    match digit_value a with
    | None => None
    | Some x =>
      match rest with
      | String b rest' =>
        match digit_value b with
        | Some y => Some ((x * 10 + y)%Z, rest')
        | None => if fixed then None else Some (x, rest)
        end
      | EmptyString => if fixed then None else Some (x, rest)
      end
    end
  | EmptyString => None
  end.

(** The literal text of a layout. *)
Definition literal (c : ascii) (s : string) : option string :=
  match s with String d rest => if Ascii.eqb c d then Some rest else None | EmptyString => None end.

(** Digits of a year: exactly four. *)
Definition getyear (s : string) : option (Z * string) :=
  match decimal 0 (stake 4 s) with
  | Some y => if (4 <=? String.length s)%nat then Some (y, sdrop 4 s) else None
  | None => None
  end.

Fixpoint leading_digits (s : string) : nat :=
  match s with
  | String c rest => if bool_decide (is_Some (digit_value c)) then S (leading_digits rest) else O
  | EmptyString => O
  end.

(** A fraction of a second of any length after a dot or a comma; the digits
    after the ninth are ignored. *)
Definition getfraction (s : string) : Z * string :=
  match s with
  | String c rest =>
    let n := leading_digits rest in
    if (Ascii.eqb c "." || Ascii.eqb c ",") && (0 <? n)%nat
    then let digits := stake 9 (stake n rest) in
         ((default 0 (decimal 0 digits) * 10 ^ (9 - Z.of_nat (String.length digits)))%Z, sdrop n rest)
    else (0%Z, s)
  | EmptyString => (0%Z, s)
  end.

(** The zone, [Z] or a signed offset: seconds east of Greenwich. *)
Definition getzone (s : string) : option (Z * string) :=
  match s with
  | String "Z" rest => Some (0%Z, rest)
  | String sign rest =>
    match getnum true rest with
    | None => None
    | Some (hours, rest) =>
      match literal ":" rest with
      | None => None
      | Some rest =>
        match getnum true rest with
        | None => None
        | Some (minutes, rest) =>
          if ((24 <? hours) || (60 <? minutes))%Z then None
          else
            let offset := ((hours * 60 + minutes) * 60)%Z in
            if Ascii.eqb sign "+" then Some (offset, rest)
            else if Ascii.eqb sign "-" then Some ((- offset)%Z, rest)
            else None
        end
      end
    end
  | EmptyString => None
  end.

Definition is_leap (y : Z) : bool := ((y mod 4 =? 0) && (negb (y mod 100 =? 0) || (y mod 400 =? 0)))%Z.

Definition daysIn (m y : Z) : Z :=
  if (m =? 2)%Z then if is_leap y then 29 else 28
  else if existsb (Z.eqb m) [4; 6; 9; 11]%Z then 30 else 31.

Definition and_then {A B : Type} (x : option (A * string)) (k : A -> string -> option B) : option B :=
  match x with Some (a, rest) => k a rest | None => None end.

Definition skip {B : Type} (c : ascii) (s : string) (k : string -> option B) : option B :=
  match literal c s with Some rest => k rest | None => None end.

(** The hour may be one digit. *)
Definition ParseRFC3339 (value : string) : option Time :=
  and_then (getyear value) (fun y s => skip "-" s (fun s =>
  and_then (getnum true s) (fun m s => skip "-" s (fun s =>
  and_then (getnum true s) (fun d s => skip "T" s (fun s =>
  and_then (getnum false s) (fun h s => skip ":" s (fun s =>
  and_then (getnum true s) (fun mi s => skip ":" s (fun s =>
  and_then (getnum true s) (fun sec s =>
  let '(nanos, s) := getfraction s in
  and_then (getzone s) (fun offset s =>
    if negb (String.eqb s "") then None
    else if ((m <? 1) || (12 <? m) || (d <? 1) || (daysIn m y <? d) || (23 <? h) || (59 <? mi) || (59 <? sec))%Z
    then None
    else Some (Date y m d h mi sec + nanos - offset * Second)%Z)))))))))))).

Example parsed_times :
  map ParseRFC3339 ["2026-09-18T12:00:00Z"; "2026-09-18T14:00:00.25+02:00"; "2026-02-29T00:00:00Z"; "2026-09-18 12:00:00Z";
                    "2026-09-18T12:00:00"]
  = [Some (Date 2026 9 18 12 0 0); Some (Date 2026 9 18 12 0 0 + 250000000)%Z; None; None; None].
Proof. vm_compute. reflexivity. Qed.

Example formatted_time_parsed :
  ParseRFC3339 (FormatRFC3339Nano (Date 2026 9 18 12 34 56 + 7000)%Z) = Some (Date 2026 9 18 12 34 56 + 7000)%Z.
Proof. vm_compute. reflexivity. Qed.

(** ** The calendar *)

Ltac euclid := Z.to_euclidean_division_equations; lia.

(** The year of a day of the 400-year era, counted from March, and the day in it. *)
Lemma era_year doe :
  (0 <= doe < 146097)%Z ->
  let yoe := ((doe - doe / 1460 + doe / 36524 - doe / 146096) / 365)%Z in
  let doy := (doe - (365 * yoe + yoe / 4 - yoe / 100))%Z in
  (0 <= yoe <= 399 /\ 0 <= doy <= 365
   /\ (doy = 365 -> (yoe + 1) mod 4 = 0 /\ ((yoe + 1) mod 100 <> 0 \/ (yoe + 1) mod 400 = 0)))%Z.
Proof. intros H. cbv zeta. split; [euclid|]. split; [euclid|]. intros E. split; euclid. Qed.

(** A month and a day of it from the day of a year that starts in March. *)
Lemma march_month doy :
  (0 <= doy <= 365)%Z ->
  let mp := ((5 * doy + 2) / 153)%Z in
  let d := (doy - (153 * mp + 2) / 5 + 1)%Z in
  (0 <= mp <= 11 /\ 1 <= d <= 31 /\ (mp = 11 -> d <= 29 /\ (d = 29 -> doy = 365))
   /\ (mp = 1 \/ mp = 3 \/ mp = 6 \/ mp = 8 -> d <= 30))%Z.
Proof. intros H. cbv zeta. split_and!; euclid. Qed.

Lemma civil_date day :
  let '(y, m, d) := civil day in
  (1 <= m <= 12 /\ 1 <= d <= daysIn m y /\ day_number y m d = day)%Z.
Proof.
  unfold civil. cbv zeta. set (z := (day + 306)%Z).
  pose proof (era_year (z mod 146097) (Z.mod_pos_bound z 146097 ltac:(lia))) as Hy. cbv zeta in Hy.
  set (yoe := ((_ - _ + _ - _) / 365)%Z) in *. set (doy := (_ - (_ + _ - _))%Z) in *.
  destruct Hy as (Hyoe & Hdoy & Hleap). pose proof (march_month doy Hdoy) as Hm. cbv zeta in Hm.
  set (mp := ((5 * doy + 2) / 153)%Z) in *. set (d := (doy - (153 * mp + 2) / 5 + 1)%Z) in *.
  destruct Hm as (Hmp & Hd & Hfeb & Hshort).
  set (m := (if mp <? 10 then mp + 3 else mp - 9)%Z).
  set (y := (yoe + z / 146097 * 400 + (if m <=? 2 then 1 else 0))%Z).
  assert (Hm : (m = mp + 3 /\ mp < 10 \/ m = mp - 9 /\ 10 <= mp)%Z)
    by (unfold m; destruct (Z.ltb_spec mp 10); lia).
  split; [lia|]. split; [split; [lia|]|].
  - unfold daysIn. destruct (Z.eqb_spec m 2) as [E|Hne].
    + assert (Hmp11 : mp = 11%Z) by lia. specialize (Hfeb Hmp11) as [Hd29 H29].
      destruct (is_leap y) eqn:Hl; [done|]. destruct (Z.eq_dec d 29%Z) as [E29|]; [exfalso|lia].
      destruct (Hleap (H29 E29)) as [H4 H100].
      assert (Ey : (y = (yoe + 1) + z / 146097 * 400)%Z) by (unfold y; rewrite E; cbn; lia).
      apply not_true_iff_false in Hl. apply Hl. unfold is_leap. rewrite Ey.
      rewrite andb_true_iff, orb_true_iff, negb_true_iff, !Z.eqb_eq, Z.eqb_neq.
      clear - H4 H100. split; [euclid|]. destruct H100 as [H|H]; [left|right]; euclid.
    + case_match eqn:E; [|lia]. apply existsb_exists in E as (x & Hx & <-%Z.eqb_eq).
      assert (d <= 30)%Z; [apply Hshort|done]. cbn in Hx. lia.
  - unfold day_number.
    assert (Hy : ((if m <=? 2 then y - 1 else y) = z / 146097 * 400 + yoe)%Z)
      by (unfold y; destruct (m <=? 2)%Z; lia).
    assert (Hmp' : ((if m <=? 2 then m + 9 else m - 3) = mp)%Z) by (destruct (Z.leb_spec m 2); lia).
    rewrite Hy, Hmp'. rewrite (Z.add_comm (z / 146097 * 400)), Z.div_add, Z.mod_add, Z.div_small, Z.mod_small by lia.
    unfold d, doy. pose proof (Z.div_mod z 146097 ltac:(lia)). lia.
Qed.

(** ** Numbers of fixed width *)

Fixpoint counted (n : nat) (z : Z) : list Z :=
  match n with O => [] | S n => z :: counted n (Z.succ z) end.

Lemma counted_in n lo z : (lo <= z < lo + Z.of_nat n)%Z -> In z (counted n lo).
Proof. revert lo. induction n as [|n IH]; intros lo H; [lia|]. destruct (Z.eq_dec lo z); [by left|right; apply IH; lia]. Qed.

Definition below (n : Z) : list Z := counted (Z.to_nat n) 0.

Lemma below_in n z : (0 <= z < n)%Z -> In z (below n).
Proof. intros H. apply counted_in. lia. Qed.

Lemma pad_digits2 z :
  (0 <= z < 100)%Z ->
  exists a b x y, pad 2 z = String a (String b "") /\ digit_value a = Some x /\ digit_value b = Some y /\ (x * 10 + y = z)%Z.
Proof.
  intros H. apply (below_in 100) in H.
  assert (Hall : forallb (fun z => match pad 2 z with
    | String a (String b "") => match digit_value a, digit_value b with
                                | Some x, Some y => (x * 10 + y =? z)%Z
                                | _, _ => false
                                end
    | _ => false
    end) (below 100) = true) by (vm_compute; reflexivity).
  rewrite forallb_forall in Hall. specialize (Hall z H).
  repeat case_match; try done. do 4 eexists. split_and!; [done|done|done|]. by apply Z.eqb_eq.
Qed.

Lemma getnum_pad fixed z s : (0 <= z < 100)%Z -> getnum fixed (pad 2 z +:+ s) = Some (z, s).
Proof.
  intros H. destruct (pad_digits2 z H) as (a & b & x & y & -> & Ha & Hb & <-).
  rewrite !scons_app, snil_app. cbn [getnum]. by rewrite Ha, Hb.
Qed.

Lemma getyear_pad z s : (0 <= z < 10000)%Z -> getyear (pad 4 z +:+ s) = Some (z, s).
Proof.
  intros H. apply (below_in 10000) in H.
  assert (Hall : forallb (fun z => (String.length (pad 4 z) =? 4)%nat
                                   && match decimal 0 (pad 4 z) with Some y => (y =? z)%Z | None => false end)
                   (below 10000) = true) by (vm_compute; reflexivity).
  rewrite forallb_forall in Hall. specialize (Hall z H). apply andb_true_iff in Hall as [Hl%Nat.eqb_eq Hd].
  destruct (decimal 0 (pad 4 z)) as [y|] eqn:Hy; [|done]. apply Z.eqb_eq in Hd as ->.
  pose proof (stake_app (pad 4 z) s) as Ht. pose proof (sdrop_app (pad 4 z) s) as Hr. rewrite Hl in Ht, Hr.
  unfold getyear. by rewrite Ht, Hr, Hy, slength_app, Hl.
Qed.

(** ** Times *)

(** The year has four digits. *)
Definition four_digits (t : Time) : Prop := (0 <= (civil (day_of t)).1.1 < 10000)%Z.

Lemma Date_of_clock t :
  let '(y, m, d) := civil (day_of t) in let s := (nanos_of_day t / Second)%Z in
  Date y m d (s / 3600) ((s / 60) mod 60) (s mod 60) = (t / Second * Second)%Z.
Proof.
  pose proof (civil_date (day_of t)) as H. destruct (civil (day_of t)) as [[y m] d]. destruct H as (_ & _ & H).
  cbv zeta. unfold Date. rewrite H. unfold day_of, nanos_of_day, Second. f_equal. clear. euclid.
Qed.

Lemma skip_cons {B} c s (k : string -> option B) : skip c (String c s) k = k s.
Proof. unfold skip, literal. by rewrite Ascii.eqb_refl. Qed.

(** Written to the second and read back, a time has lost what is below. *)
Lemma parse_format t : four_digits t -> ParseRFC3339 (FormatRFC3339 t) = Some (t / Second * Second)%Z.
Proof.
  unfold four_digits, FormatRFC3339, date_text, clock_text.
  pose proof (civil_date (day_of t)) as H. pose proof (Date_of_clock t) as HD.
  destruct (civil (day_of t)) as [[y m] d]. cbn [fst]. cbv zeta in HD. rewrite <- HD. clear HD.
  destruct H as (Hm & Hd & _). intros Hy. cbv zeta. set (s := (nanos_of_day t / Second)%Z).
  assert (Hs : (0 <= s < 86400)%Z) by (unfold s, nanos_of_day, Second; clear; euclid).
  assert (Hd31 : (d <= 31)%Z) by (unfold daysIn in Hd; repeat case_match; lia).
  assert (Hh : (0 <= s / 3600 <= 23)%Z) by euclid. assert (Hmi : (0 <= (s / 60) mod 60 <= 59)%Z) by euclid.
  assert (Hsec : (0 <= s mod 60 <= 59)%Z) by euclid. clearbody s.
  rewrite !sapp_assoc. rewrite !scons_app, !snil_app. unfold ParseRFC3339, and_then.
  rewrite getyear_pad by done. rewrite skip_cons, getnum_pad by lia. rewrite skip_cons, getnum_pad by lia.
  rewrite skip_cons, getnum_pad by lia. rewrite skip_cons, getnum_pad by lia. rewrite skip_cons, getnum_pad by lia.
  change (getfraction "Z") with (0%Z, "Z"). cbv iota. change (getzone "Z") with (Some (0%Z, "")). cbv iota.
  change (negb ("" =? "")) with false. cbv iota.
  match goal with |- context [if ?c then None else _] => destruct c eqn:E end.
  - exfalso. rewrite !orb_true_iff, !Z.ltb_lt in E. decompose [or] E; lia.
  - f_equal. lia.
Qed.
