(* ===== verification/GoInstances.v ===== *)
(** Concrete instances of the library classes the message store is stated over:
    a heap kept sorted, a codec of tab-separated records, ASCII text. *)
From Stdlib Require Import Ascii ZArith Lia DecimalString.
From S2P Require Import Prelude.
From S2P Require Import GoStd.
From S2P Require Import GoLib.
From S2P Require Import Model.
Local Open Scope string_scope.

(** ** A heap: the slice is kept sorted *)

Definition sorted_slice {A : Type} (less : A -> A -> bool) (l : list A) : Prop :=
  StronglySorted (fun x y => less y x = false) l.

Definition pop_first {A : Type} (less : A -> A -> bool) (l : list A) : option (A * list A) :=
  match l with [] => None | x :: l' => Some (x, l') end.

Lemma merge_slice_spec {A : Type} (less : A -> A -> bool) (l : list A) :
  strict_weak less -> merge_slice less l ≡ₚ l /\ sorted_slice less (merge_slice less l).
Proof. intros [H1 H2]. split; [apply merge_slice_perm|by apply merge_slice_sorted]. Qed.

Lemma push_sorted_spec {A : Type} (less : A -> A -> bool) (x : A) (l : list A) :
  strict_weak less -> sorted_slice less l ->
  merge_slice less (x :: l) ≡ₚ x :: l /\ sorted_slice less (merge_slice less (x :: l)).
Proof. intros H _. by apply merge_slice_spec. Qed.

Lemma pop_first_spec {A : Type} (less : A -> A -> bool) (l : list A) :
  strict_weak less -> sorted_slice less l -> l <> [] ->
  exists x l', pop_first less l = Some (x, l') /\ l ≡ₚ x :: l' /\ sorted_slice less l'
               /\ Forall (fun y => less y x = false) l'.
Proof.
  intros _ Hs Hne. destruct l as [|x l]; [done|]. exists x, l.
  apply StronglySorted_inv in Hs as [Hs Hx]. by split_and!.
Qed.

#[export] Instance sorted_heap : GoHeap :=
  {| heap_ok := @sorted_slice; heap_Init := @merge_slice; heap_Pop := @pop_first;
     heap_Push := fun A less x l => merge_slice less (x :: l);
     heap_Init_spec := @merge_slice_spec; heap_Push_spec := @push_sorted_spec;
     heap_Pop_spec := @pop_first_spec |}.

(** ** A codec: time, id, host and text, separated by tabs *)

Definition tab : ascii := ascii_of_nat 9.

Definition cut_at (c : ascii) (s : string) : option (string * string) :=
  match IndexByte s c with
  | Some i => Some (stake i s, sdrop (S i) s)
  | None => None
  end.

Lemma cut_at_app (a b : string) (c : ascii) :
  IndexByte a c = None -> cut_at c (a +:+ String c b) = Some (a, b).
Proof.
  intros Ha. assert (H : IndexByte (a +:+ String c b) c = Some (String.length a)).
  { unfold IndexByte in *. induction a as [|d a IH].
    - rewrite snil_app. cbn. destruct (ascii_dec c c); [by destruct b|done].
    - rewrite scons_app. cbn [Index String.prefix] in *. destruct (ascii_dec c d); [by destruct a|].
      destruct (Index a _); [done|]. by rewrite IH. }
  unfold cut_at. rewrite H. f_equal. clear.
  assert (stake (String.length a) (a +:+ String c b) = a /\ sdrop (S (String.length a)) (a +:+ String c b) = b)
    as [H1 H2].
  { induction a as [|d a [H1 H2]]; [done|]. rewrite scons_app. cbn in *. by rewrite H1. }
  by rewrite H1, H2.
Qed.

Definition tab_message (t : Time) (id host text : string) : Message :=
  {| msg_ID := id; msg_ReceivedAt := t; msg_Timestamp := None; msg_Transport := ""; msg_Source := "";
     msg_Priority := None; msg_Facility := None; msg_Severity := None; msg_Hostname := host;
     msg_AppName := ""; msg_ProcID := ""; msg_MsgID := ""; msg_Tag := ""; msg_Message := text;
     msg_StructuredData := None; msg_Raw := None |}.

Definition tab_line (m : Message) : string :=
  Itoa (msg_ReceivedAt m) +:+ String tab (msg_ID m +:+ String tab (msg_Hostname m +:+ String tab (msg_Message m))).

Definition tab_decode (line : string) : option Message :=
  match cut_at tab (TrimSuffix line newline) with
  | Some (t, rest) =>
    match NilZero.int_of_string t, cut_at tab rest with
    | Some t, Some (id, rest) =>
      match cut_at tab rest with
      | Some (host, text) => Some (tab_message (Z.of_int t) id host text)
      | None => None
      end
    | _, _ => None
    end
  | None => None
  end.

(** Messages that would not be read back are refused. *)
Definition tab_encode (m : Message) : option string :=
  let line := tab_line m in
  match IndexByte line (ascii_of_nat 10), tab_decode (line +:+ newline) with
  | None, Some m' => if (msg_ReceivedAt m' =? msg_ReceivedAt m)%Z then Some line else None
  | _, _ => None
  end.

#[export] Instance tab_codec : GoJson :=
  {| json_Encode := tab_encode; json_Unmarshal := tab_decode;
     json_key := fun line => (fun m => (msg_ReceivedAt m, msg_Hostname m)) <$> tab_decode line;
     json_Marshal_map := fun _ => Some "{}" |}.

#[export] Instance tab_codec_laws : GoJsonLaws.
Proof.
  assert (H : forall m line, tab_encode m = Some line ->
            IndexByte line (ascii_of_nat 10) = None
            /\ exists m', tab_decode (line +:+ newline) = Some m' /\ msg_ReceivedAt m' = msg_ReceivedAt m).
  { intros m line. unfold tab_encode. cbv zeta. destruct (IndexByte (tab_line m) _) eqn:E1; [done|].
    destruct (tab_decode _) as [m'|] eqn:E2; [|done]. destruct (Z.eqb_spec (msg_ReceivedAt m') (msg_ReceivedAt m));
      [|done]. intros [= <-]. split; [done|]. by exists m'. }
  split.
  - intros m line Hl. by apply (H m).
  - intros m line Hl. by apply (H m).
  - intros line m Hm. cbn in *. by rewrite Hm.
Qed.

(** ** ASCII text; every regular expression is refused *)

Definition lower_byte (c : ascii) : ascii :=
  if between 65 90 c then ascii_of_N (Z.to_N (byte_of c + 32)) else c.

Fixpoint ascii_lower (s : string) : string :=
  match s with EmptyString => EmptyString | String c s' => String (lower_byte c) (ascii_lower s') end.

#[export] Instance ascii_text : GoText :=
  {| regexp_Compile := fun _ => inr "unsupported expression"; ToLower := ascii_lower |}.

#[export] Instance ascii_text_laws : GoTextLaws.
Proof. split. by intros []. Qed.
