(* ===== verification/Storage.v ===== *)
(** The message store ([internal/storage/store.go], [file_store.go],
    [query_index.go], [text_filter.go]): NDJSON files partitioned by day and
    source, a position index per file that is extended when the file grows, and
    the query that merges the indexes.  The store's files are part of the state.
    Whatever can go wrong outside, a cancelled context or a failing system call,
    is asked from an environment [env] at named points. *)
From Stdlib Require Import Ascii ZArith.
From S2P Require Import Prelude.
From S2P Require Import GoStd.
From S2P Require Import GoLib.
From S2P Require Import Model.
Local Open Scope string_scope.

Inductive store_error : Type :=
| err_canceled
| err_io (what : string)
| err_no_id
| err_encode
| err_invalid_filter (what : string)
| err_line_too_long (path : string)
| err_bad_line (path : string)
| err_read_record.

(** ** Data *)

Record StoreQuery : Type := mkStoreQuery {
  sq_Text : string;
  sq_Hosts : list string;
  sq_Limit : Z;
  sq_Offset : Z;
  sq_Since : option Time;
  sq_Until : option Time
}.

(** A file: its identity ([os.SameFile]), bytes and modification time. *)
Record os_file : Type := mkOsFile { of_id : nat; of_content : string; of_ModTime : Time }.

Record FileInfo : Type := mkFileInfo { fi_id : nat; fi_Size : Z; fi_ModTime : Time }.

Record indexEntry : Type := mkIndexEntry {
  ie_receivedAt : Time;
  ie_host : string;
  ie_offset : Z;
  ie_length : nat
}.

Record fileIndex : Type := mkFileIndex { fx_info : FileInfo; fx_entries : list indexEntry }.

(** The files are named by their path below the root. *)
Record FileStore : Type := mkFileStore {
  fs_files : gmap string os_file;
  fs_next : nat;
  fs_indexes : gmap string fileIndex
}.

Definition NewFileStore : FileStore := mkFileStore ∅ 0 ∅.

(** Where the environment can interrupt an operation. *)
Inductive Point : Type :=
| at_start
| at_mkdir
| at_open (path : string)
| at_list
| at_file (path : string)
| at_line (path : string) (offset : Z)
| at_close (path : string)
| at_entry (n : nat)
| at_read (path : string) (offset : Z).

Definition Env : Type := Point -> option store_error.
Definition calm : Env := fun _ => None.

(** The files as an operation finds them when it gets to a point: other
    goroutines may append in between. *)
Notation View := (Point -> gmap string os_file).

(** Nothing is appended in between. *)
Definition still (st : FileStore) : View := fun _ => fs_files st.

Definition size_of (s : string) : Z := Z.of_nat (String.length s).
Definition stat (f : os_file) : FileInfo := mkFileInfo (of_id f) (size_of (of_content f)) (of_ModTime f).
Definition SameFile (a b : FileInfo) : bool := Nat.eqb (fi_id a) (fi_id b).

Definition defaultQueryLimit : Z := 200.
Definition maxScannerToken : Z := (4 * 1024 * 1024)%Z.

(** ** Partitions *)

Definition allowed_byte (c : ascii) : bool :=
  (between 97 122 c || between 65 90 c || between 48 57 c || between 46 46 c || between 45 45 c
   || between 95 95 c)%Z.

(** The loop over the runes of the source. *)
Fixpoint filename_of (rs : list (option ascii)) : string :=
  match rs with
  | [] => EmptyString
  | Some c :: rest => String (if allowed_byte c then c else "_"%char) (filename_of rest)
  | None :: rest => String "_" (filename_of rest)
  end.

Definition trimmed_byte (c : ascii) : bool :=
  Ascii.eqb c "." || Ascii.eqb c "_" || Ascii.eqb c "-".

Definition partition_source (msg : Message) : string :=
  let source := TrimSpace (msg_Source msg) in
  let source := if String.eqb source "" then TrimSpace (msg_Hostname msg) else source in
  let source := if String.eqb source "" then "unknown" else source in
  match SplitHostPort source with Some (host, _) => host | None => source end.

Definition ndjson : string := ".ndjson".

Definition sourceFilename (msg : Message) : string :=
  let cleaned := Trim trimmed_byte (filename_of (runes (partition_source msg))) in
  let cleaned := if String.eqb cleaned "" then "unknown" else cleaned in
  cleaned +:+ ndjson.

Definition pathFor (msg : Message) : string :=
  let '(y, m, d) := civil (day_of (msg_ReceivedAt msg)) in
  pad 4 y +:+ "/" +:+ pad 2 m +:+ "/" +:+ pad 2 d +:+ "/" +:+ sourceFilename msg.

Section Store.
Context {GS : GoSort} {GH : GoHeap} {GT : GoText} {J : GoJson}.

(** ** Text filter *)

(** A nil map is not the nil interface, so [Marshal] prints it as [null]. *)
Definition jsonText (value : option (list (string * any))) : string :=
  match value with
  | None => "null"
  | Some fields => default "" (json_Marshal_map fields)
  end.

Definition messageSearchText (msg : Message) : string :=
  Join [msg_ID msg; msg_Transport msg; msg_Source msg; msg_Hostname msg; msg_AppName msg;
        msg_ProcID msg; msg_MsgID msg; msg_Tag msg; msg_Message msg;
        jsonText (msg_StructuredData msg); jsonText (msg_Raw msg)] " ".

Definition matchesText (msg : Message) (needle : string) : bool :=
  Contains (ToLower (messageSearchText msg)) needle.

Definition is_regexp (text : string) : bool :=
  (2 <=? String.length text)%nat && HasPrefix text "/" && HasSuffix text "/".

Definition CompileTextFilter (text : string) : (Message -> bool) + store_error :=
  let text := TrimSpace text in
  if is_regexp text then
    match regexp_Compile ("(?i)" +:+ stake (String.length text - 2) (sdrop 1 text)) with
    | inl expression => inl (fun msg => expression (messageSearchText msg))
    | inr what => inr (err_invalid_filter what)
    end
  else
    let text := ToLower text in
    inl (fun msg => String.eqb text "" || matchesText msg text).

(** ** Append *)

(** What becomes of the system calls of an append, after the checks: a write may
    leave a part of the line in the file. *)
Inductive append_io : Type :=
| io_written (modtime : Time)
| io_mkdir_failed
| io_open_failed
| io_write_failed (written : nat) (modtime : Time).

(** [os.OpenFile(path, O_APPEND|O_CREATE|O_WRONLY)] and a write of [data]. *)
Definition write_file (path data : string) (modtime : Time) (st : FileStore) : FileStore :=
  match fs_files st !! path with
  | Some f =>
    mkFileStore (<[path := mkOsFile (of_id f) (of_content f +:+ data) modtime]> (fs_files st))
      (fs_next st) (fs_indexes st)
  | None =>
    mkFileStore (<[path := mkOsFile (fs_next st) data modtime]> (fs_files st)) (S (fs_next st))
      (fs_indexes st)
  end.

Definition stamped (now : Time) (msg : Message) : Message :=
  if IsZero (msg_ReceivedAt msg)
  then {| msg_ID := msg_ID msg; msg_ReceivedAt := now; msg_Timestamp := msg_Timestamp msg;
          msg_Transport := msg_Transport msg; msg_Source := msg_Source msg;
          msg_Priority := msg_Priority msg; msg_Facility := msg_Facility msg;
          msg_Severity := msg_Severity msg; msg_Hostname := msg_Hostname msg;
          msg_AppName := msg_AppName msg; msg_ProcID := msg_ProcID msg; msg_MsgID := msg_MsgID msg;
          msg_Tag := msg_Tag msg; msg_Message := msg_Message msg;
          msg_StructuredData := msg_StructuredData msg; msg_Raw := msg_Raw msg |}
  else msg.

Definition Append (env : Env) (io : append_io) (now : Time) (msg : Message) (st : FileStore)
    : FileStore * option store_error :=
  match env at_start with
  | Some err => (st, Some err)
  | None =>
    if String.eqb (msg_ID msg) "" then (st, Some err_no_id)
    else
      let msg := stamped now msg in
      let path := pathFor msg in
      match io with
      | io_mkdir_failed => (st, Some (err_io "create message partition"))
      | _ =>
        match json_Encode msg with
        | None => (st, Some err_encode)
        | Some line =>
          let data := line +:+ newline in
          match io with
          | io_open_failed => (st, Some (err_io "open message partition"))
          | io_write_failed n modtime =>
            (write_file path (stake n data) modtime st, Some (err_io "append message"))
          | _ => (write_file path data (match io with io_written t => t | _ => 0%Z end) st, None)
          end
        end
      end
  end.

(** ** The index *)

(** [WalkDir], the files with the extension ".ndjson", in descending order. *)
Definition list_files (files : gmap string os_file) : list string :=
  sort_slice (fun a b => string_less b a)
    (List.filter (fun path => HasSuffix path ndjson) (map fst (map_to_list files))).

Definition messageFiles (st : FileStore) : list string := list_files (fs_files st).

(** What the split function of [scanIndex] gives: lines with their newline, the
    last one possibly without. *)
Fixpoint lines_keep (s : string) : list string :=
  match s with
  | EmptyString => []
  | String c s' =>
    if Ascii.eqb c (ascii_of_nat 10) then String c EmptyString :: lines_keep s'
    else match lines_keep s' with
         | [] => [String c EmptyString]
         | line :: rest => String c line :: rest
         end
  end.

(** The scanner's buffer holds [maxScannerToken] bytes; a line without a newline
    must leave room for the read that finds the end of the file. *)
Definition line_fits (line : string) : bool :=
  if HasSuffix line newline then (size_of line <=? maxScannerToken)%Z
  else (size_of line <? maxScannerToken)%Z.

Fixpoint scan_lines (env : Env) (path : string) (offset : Z) (lines : list string)
    (entries : list indexEntry) : list indexEntry + store_error :=
  match lines with
  | [] => inl entries
  | line :: rest =>
    if negb (line_fits line) then inr (err_line_too_long path)
    else match env (at_line path offset) with
         | Some err => inr err
         | None =>
           match json_key line with
           | None => inr (err_bad_line path)
           | Some (receivedAt, host) =>
             scan_lines env path (offset + size_of line) rest
               (entries ++ [mkIndexEntry receivedAt host offset (String.length line)])%list
           end
         end
  end.

(** [content] is what the section of the file holds. *)
Definition scanIndex (env : Env) (path content : string) (offset : Z) (entries : list indexEntry)
    : list indexEntry + store_error :=
  scan_lines env path offset (lines_keep content) entries.

Definition entry_less (a b : indexEntry) : bool :=
  if (ie_receivedAt a =? ie_receivedAt b)%Z then (ie_offset b <? ie_offset a)%Z
  else After (ie_receivedAt a) (ie_receivedAt b).

(** The file did not change since it was indexed. *)
Definition unchanged (previous info : FileInfo) : bool :=
  SameFile previous info && (fi_Size previous =? fi_Size info)%Z
  && (fi_ModTime previous =? fi_ModTime info)%Z.

Definition grown (previous info : FileInfo) : bool :=
  SameFile previous info && (fi_Size previous <? fi_Size info)%Z.

(** One file of the loop of [queryIndexes]. *)
Definition index_file (env : Env) (path : string) (f : os_file) (previous : option fileIndex)
    : fileIndex + store_error :=
  let info := stat f in
  match previous with
  | Some previous =>
    if unchanged (fx_info previous) info then inl previous
    else
      let '(offset, entries) :=
        if grown (fx_info previous) info then (fi_Size (fx_info previous), fx_entries previous)
        else (0%Z, []) in
      match scanIndex env path (sdrop (Z.to_nat offset) (of_content f)) offset entries with
      | inl entries => inl (mkFileIndex info (sort_slice entry_less entries))
      | inr err => inr err
      end
  | None =>
    match scanIndex env path (of_content f) 0 [] with
    | inl entries => inl (mkFileIndex info (sort_slice entry_less entries))
    | inr err => inr err
    end
  end.

(** The loop of [queryIndexes]; a file is what it holds when it is opened and its
    size taken, under the lock that appends hold: later bytes are not read. *)
Fixpoint index_files (env : Env) (seen : View) (indexes : gmap string fileIndex) (files : list string)
    (next : gmap string fileIndex) : gmap string fileIndex + store_error :=
  match files with
  | [] => inl next
  | path :: rest =>
    match env (at_file path) with
    | Some err => inr err
    | None =>
      match env (at_open path), seen (at_open path) !! path with
      | Some err, _ => inr err
      | None, None => inr (err_io "open")
      | None, Some f =>
        match index_file env path f (indexes !! path) with
        | inl index => index_files env seen indexes rest (<[path := index]> next)
        | inr err => inr err
        end
      end
    end
  end.

(** [s.indexes] afterwards, and what is returned. *)
Definition queryIndexes (env : Env) (seen : View) (indexes : gmap string fileIndex)
    : gmap string fileIndex * ((gmap string fileIndex * list string) + store_error) :=
  match env at_list with
  | Some err => (indexes, inr err)
  | None =>
    let files := list_files (seen at_list) in
    match index_files env seen indexes files ∅ with
    | inr err => (indexes, inr err)
    | inl next => (next, inl (next, files))
    end
  end.

(** ** The query *)

Record indexCursor : Type := mkIndexCursor {
  ic_path : string;
  ic_entries : list indexEntry;
  ic_position : nat;
  ic_order : nat
}.

Definition zero_entry : indexEntry := mkIndexEntry 0 "" 0 0.

(** [entries[position]]; the positions of cursors on the heap are in range. *)
Definition cursor_entry (c : indexCursor) : indexEntry := nth (ic_position c) (ic_entries c) zero_entry.

Definition cursor_less (a b : indexCursor) : bool :=
  let x := cursor_entry a in
  let y := cursor_entry b in
  if (ie_receivedAt x =? ie_receivedAt y)%Z then (ic_order a <? ic_order b)%nat
  else After (ie_receivedAt x) (ie_receivedAt y).

Definition selectedHosts (values : list string) : gset string :=
  list_to_set (List.filter (fun host => negb (String.eqb host "")) (map TrimSpace values)).

(** Where a file's cursor starts: at the first entry not after [until]. *)
Definition start_position (q : StoreQuery) (entries : list indexEntry) : nat :=
  match sq_Until q with
  | None => 0
  | Some until =>
    sort_Search (length entries)
      (fun i => match entries !! i with
                | Some e => negb (After (ie_receivedAt e) until)
                | None => true
                end)
  end.

(** The loop that fills the heap; [order] counts the files. *)
Fixpoint initial_cursors (q : StoreQuery) (indexes : gmap string fileIndex) (order : nat)
    (files : list string) : list indexCursor :=
  match files with
  | [] => []
  | path :: rest =>
    let entries := match indexes !! path with Some index => fx_entries index | None => [] end in
    let position := start_position q entries in
    let others := initial_cursors q indexes (S order) rest in
    if (position <? length entries)%nat then mkIndexCursor path entries position order :: others
    else others
  end.

(** [os.Open(path)] and [f.ReadAt(data, entry.offset)]. *)
Definition read_record (env : Env) (seen : View) (path : string) (e : indexEntry)
    : string + store_error :=
  match env (at_read path (ie_offset e)), seen (at_read path (ie_offset e)) !! path with
  | Some err, _ => inr err
  | None, None => inr (err_io "open")
  | None, Some f =>
    if (ie_offset e + Z.of_nat (ie_length e) <=? size_of (of_content f))%Z
    then inl (stake (ie_length e) (sdrop (Z.to_nat (ie_offset e)) (of_content f)))
    else inr err_read_record
  end.

(** What the loop does with the entry it has taken from the heap. *)
Inductive verdict : Type :=
| stop_loop
| skip_entry
| skip_page
| take_message (msg : Message)
| fail_loop (err : store_error).

Definition judge (env : Env) (seen : View) (q : StoreQuery) (hosts : gset string) (text : string)
    (matcher : Message -> bool) (skipped : Z) (path : string) (e : indexEntry) : verdict :=
  if match sq_Since q with Some since => Before (ie_receivedAt e) since | None => false end
  then stop_loop
  else if negb (bool_decide (hosts = ∅)) && negb (bool_decide (ie_host e ∈ hosts)) then skip_entry
  else if String.eqb text "" && (skipped <? sq_Offset q)%Z then skip_page
  else
    match read_record env seen path e with
    | inr err => fail_loop err
    | inl data =>
      match json_Unmarshal data with
      | None => fail_loop (err_bad_line path)
      | Some msg =>
        if negb (String.eqb text "") && negb (matcher msg) then skip_entry
        else if (skipped <? sq_Offset q)%Z then skip_page
        else take_message msg
      end
    end.

(** [n] counts the rounds; [None] means the fuel ran out.  [Pop] of a heap that
    is not empty never fails. *)
Fixpoint query_loop (fuel : nat) (env : Env) (seen : View) (q : StoreQuery) (limit : Z)
    (hosts : gset string) (text : string) (matcher : Message -> bool) (n : nat)
    (pending : list indexCursor) (skipped : Z) (messages : list Message)
    : option (list Message + store_error) :=
  match fuel with
  | O => None
  | S fuel =>
    if (length pending =? 0)%nat || negb (Z.of_nat (length messages) <? limit)%Z
    then Some (inl messages)
    else match env (at_entry n) with
      | Some err => Some (inr err)
      | None =>
        match heap_Pop cursor_less pending with
        | None => Some (inl messages)
        | Some (cursor, popped) =>
          let entry := cursor_entry cursor in
          let position := S (ic_position cursor) in
          let pending :=
            if (position <? length (ic_entries cursor))%nat
            then heap_Push cursor_less
                   (mkIndexCursor (ic_path cursor) (ic_entries cursor) position (ic_order cursor)) popped
            else popped in
          let continue := query_loop fuel env seen q limit hosts text matcher (S n) pending in
          match judge env seen q hosts text matcher skipped (ic_path cursor) entry with
          | stop_loop => Some (inl messages)
          | fail_loop err => Some (inr err)
          | skip_entry => continue skipped messages
          | skip_page => continue (skipped + 1)%Z messages
          | take_message msg => continue skipped (messages ++ [msg])%list
          end
        end
      end
  end.

Definition entries_left (c : indexCursor) : nat := length (ic_entries c) - ic_position c.

(** One round per entry that is left, and one to find the heap empty. *)
Definition query_fuel (pending : list indexCursor) : nat := S (list_sum (map entries_left pending)).

(** A query while others append: what it leaves in [s.indexes], and its answer. *)
Definition query_during (env : Env) (seen : View) (q : StoreQuery) (indexes : gmap string fileIndex)
    : gmap string fileIndex * (list Message + store_error) :=
  match CompileTextFilter (sq_Text q) with
  | inr err => (indexes, inr err)
  | inl matcher =>
    match queryIndexes env seen indexes with
    | (kept, inr err) => (kept, inr err)
    | (kept, inl (next, files)) =>
      let limit := if (sq_Limit q <=? 0)%Z then defaultQueryLimit else sq_Limit q in
      let hosts := selectedHosts (sq_Hosts q) in
      let text := ToLower (TrimSpace (sq_Text q)) in
      let pending := initial_cursors q next 0 files in
      (kept, default (inl [])
               (query_loop (query_fuel pending) env seen q limit hosts text matcher 0
                  (heap_Init cursor_less pending) 0 []))
    end
  end.

Definition with_indexes (st : FileStore) (indexes : gmap string fileIndex) : FileStore :=
  mkFileStore (fs_files st) (fs_next st) indexes.

(** A query on its own. *)
Definition Query (env : Env) (q : StoreQuery) (st : FileStore) : FileStore * (list Message + store_error) :=
  let '(indexes, answer) := query_during env (still st) q (fs_indexes st) in (with_indexes st indexes, answer).
End Store.
