(* ===== verification/StorageLemmas.v ===== *)
(** Lemmas of the message store: lines and their positions, the index of a file
    and its extension, the merge of the indexes. *)
From Stdlib Require Import Ascii ZArith Lia.
From S2P Require Import Prelude.
From S2P Require Import GoStd.
From S2P Require Import GoLib.
From S2P Require Import Model.
From S2P Require Import Storage.
Local Open Scope string_scope.

(** ** Strings *)

Lemma size_of_app (a b : string) : size_of (a +:+ b) = (size_of a + size_of b)%Z.
Proof. unfold size_of. rewrite slength_app. lia. Qed.

Lemma size_of_nonneg (s : string) : (0 <= size_of s)%Z.
Proof. unfold size_of. lia. Qed.

Definition concat_lines (lines : list string) : string := foldr String.append "" lines.

(** ** Lines *)

(** Empty or ending with a newline. *)
Fixpoint complete (s : string) : bool :=
  match s with
  | EmptyString => true
  | String c EmptyString => Ascii.eqb c (ascii_of_nat 10)
  | String _ s' => complete s'
  end.

Lemma complete_tail c s : complete (String c s) = true -> complete s = true.
Proof. by destruct s. Qed.

Lemma complete_app a b : complete a = true -> complete b = true -> complete (a +:+ b) = true.
Proof.
  intros Ha Hb. induction a as [|c a IH]; [done|]. rewrite scons_app.
  specialize (IH (complete_tail _ _ Ha)). destruct a as [|d a]; [|exact IH].
  rewrite snil_app. destruct b; [exact Ha|exact Hb].
Qed.

Lemma lines_keep_nonempty c s : lines_keep (String c s) <> [].
Proof. cbn. destruct (Ascii.eqb _ _); [done|]. by destruct (lines_keep s). Qed.

Lemma concat_lines_keep (s : string) : concat_lines (lines_keep s) = s.
Proof.
  induction s as [|c s IH]; [done|]. cbn [lines_keep].
  destruct (Ascii.eqb c _); cbn [concat_lines foldr].
  - change (foldr String.append "" (lines_keep s)) with (concat_lines (lines_keep s)). by rewrite IH.
  - destruct (lines_keep s) as [|l ls]; cbn [concat_lines foldr] in *; [by rewrite <- IH|].
    rewrite scons_app. f_equal. exact IH.
Qed.

Lemma lines_keep_app (a b : string) :
  complete a = true -> lines_keep (a +:+ b) = (lines_keep a ++ lines_keep b)%list.
Proof.
  induction a as [|c a IH]; intros Ha; [done|]. rewrite scons_app. cbn [lines_keep].
  rewrite (IH (complete_tail _ _ Ha)). destruct (Ascii.eqb c _) eqn:Hc; [done|].
  destruct a as [|d a]; [cbn in Ha; congruence|].
  destruct (lines_keep (String d a)) as [|l ls] eqn:E; [by apply lines_keep_nonempty in E|done].
Qed.

Lemma complete_app_r a b : complete (a +:+ b) = true -> complete b = true.
Proof.
  induction a as [|c a IH]; [done|]. rewrite scons_app. intros H. by apply IH, (complete_tail c).
Qed.

(** A single line. *)
Lemma lines_keep_line (line : string) :
  IndexByte line (ascii_of_nat 10) = None -> lines_keep (line +:+ newline) = [line +:+ newline].
Proof.
  unfold IndexByte. induction line as [|c s IH]; [done|]. rewrite scons_app.
  cbn [lines_keep Index String.prefix].
  destruct (ascii_dec (ascii_of_nat 10) c) as [<-|Hne]; [by destruct s|].
  destruct (Index s _) eqn:E; [done|]. intros _.
  rewrite (proj2 (Ascii.eqb_neq _ _)) by congruence. by rewrite IH.
Qed.

Lemma complete_line (line : string) : complete (line +:+ newline) = true.
Proof.
  induction line as [|c s IH]; [done|]. rewrite scons_app.
  destruct (s +:+ newline) eqn:E; [by destruct s|exact IH].
Qed.

(** ** Records: the lines of a file, decoded, with their positions *)

Section Records.
Context {GS : GoSort} {J : GoJson} {JL : GoJsonLaws}.

Definition good_line (line : string) : Prop :=
  line_fits line = true /\ is_Some (json_Unmarshal line).

Definition record : Type := indexEntry * Message.

Definition entry_of (offset : Z) (line : string) (m : Message) : indexEntry :=
  mkIndexEntry (msg_ReceivedAt m) (msg_Hostname m) offset (String.length line).

Fixpoint records_of (offset : Z) (lines : list string) : list record :=
  match lines with
  | [] => []
  | line :: rest =>
    match json_Unmarshal line with
    | Some m => [(entry_of offset line m, m)]
    | None => []
    end ++ records_of (offset + size_of line) rest
  end.

Lemma scan_lines_calm path offset lines entries :
  Forall good_line lines ->
  scan_lines calm path offset lines entries = inl (entries ++ (records_of offset lines).*1)%list.
Proof.
  intros Hl. revert offset entries. induction Hl as [|line lines [Hfit [m Hm]] _ IH]; intros offset entries; cbn.
  { by rewrite app_nil_r. }
  rewrite Hfit, (key_of_message _ _ Hm), Hm. cbn. rewrite IH. by rewrite <- app_assoc.
Qed.

(** A line that is too long or cannot be decoded stops the scan. *)
Lemma scan_lines_stuck env path offset lines entries :
  Exists (fun line => line_fits line = false \/ json_key line = None) lines ->
  exists err, scan_lines env path offset lines entries = inr err.
Proof.
  intros Hl. revert offset entries. induction lines as [|line lines IH]; intros offset entries.
  { by apply Exists_nil in Hl. }
  apply Exists_cons in Hl. cbn.
  destruct (line_fits line) eqn:Hf; [|by eexists]. cbn. destruct (env _); [by eexists|].
  destruct (json_key line) as [[t h]|] eqn:Hk; [|by eexists].
  destruct Hl as [[?|?]|Hl]; [done..|]. by apply IH.
Qed.

Lemma records_of_app offset l1 l2 :
  records_of offset (l1 ++ l2)
  = (records_of offset l1 ++ records_of (offset + size_of (concat_lines l1)) l2)%list.
Proof.
  revert offset. induction l1 as [|line l1 IH]; intros offset; cbn.
  { by rewrite Z.add_0_r. }
  rewrite IH, app_assoc. f_equal. f_equal.
  change (foldr String.append "" l1) with (concat_lines l1). rewrite size_of_app. lia.
Qed.

(** The records of a file. *)
Definition records (content : string) : list record := records_of 0 (lines_keep content).

Definition readable (content : string) : Prop :=
  complete content = true /\ Forall good_line (lines_keep content).

Lemma readable_app a b : readable a -> readable b -> readable (a +:+ b).
Proof.
  intros [Ha Hla] [Hb Hlb]. split; [by apply complete_app|].
  rewrite lines_keep_app by done. by apply Forall_app.
Qed.

Lemma readable_app_r a b : complete a = true -> readable (a +:+ b) -> Forall good_line (lines_keep b).
Proof. intros Ha [_ H]. rewrite lines_keep_app in H by done. by apply Forall_app in H as [_ H]. Qed.

Lemma records_app a b :
  complete a = true ->
  records (a +:+ b) = (records a ++ records_of (size_of a) (lines_keep b))%list.
Proof.
  intros Ha. unfold records. rewrite lines_keep_app, records_of_app by done.
  by rewrite concat_lines_keep, Z.add_0_l.
Qed.

(** Offsets grow along the file, so they tell its records apart. *)
Lemma records_of_offsets offset lines :
  Forall (fun r => (offset <= ie_offset r.1)%Z) (records_of offset lines).
Proof.
  revert offset. induction lines as [|line lines IH]; intros offset; cbn; [constructor|].
  apply Forall_app. split.
  - destruct (json_Unmarshal line); repeat constructor. cbn. lia.
  - eapply Forall_impl; [apply IH|]. cbn. pose proof (size_of_nonneg line). lia.
Qed.

Lemma records_of_ascending offset lines :
  Forall (fun line => line <> "") lines ->
  StronglySorted (fun r r' => ie_offset r.1 < ie_offset r'.1)%Z (records_of offset lines).
Proof.
  intros Hl. revert offset. induction Hl as [|line lines Hne _ IH]; intros offset; cbn; [constructor|].
  destruct (json_Unmarshal line); cbn; [|apply IH]. constructor; [apply IH|].
  eapply Forall_impl; [apply records_of_offsets|]. cbn. intros r.
  assert (0 < size_of line)%Z by (unfold size_of; destruct line; [done|cbn; lia]). lia.
Qed.

Lemma lines_keep_not_empty s : Forall (fun line => line <> "") (lines_keep s).
Proof.
  induction s as [|c s IH]; cbn; [constructor|]. destruct (Ascii.eqb _ _); [by constructor|].
  destruct (lines_keep s); [by repeat constructor|]. inversion IH; subst. by constructor.
Qed.

(** What is read back at the position of an entry is the line it was made of. *)
Lemma records_of_read pre lines r :
  r ∈ records_of (size_of pre) lines ->
  exists line, stake (ie_length r.1) (sdrop (Z.to_nat (ie_offset r.1)) (pre +:+ concat_lines lines)) = line
    /\ json_Unmarshal line = Some r.2 /\ ie_receivedAt r.1 = msg_ReceivedAt r.2
    /\ ie_host r.1 = msg_Hostname r.2
    /\ (ie_offset r.1 + Z.of_nat (ie_length r.1) <= size_of (pre +:+ concat_lines lines))%Z.
Proof.
  revert pre. induction lines as [|line lines IH]; intros pre; cbn.
  { by intros ?%elem_of_nil. }
  change (foldr String.append "" lines) with (concat_lines lines).
  intros [Hr|Hr]%elem_of_app.
  - destruct (json_Unmarshal line) as [m|] eqn:Hm; [|by apply elem_of_nil in Hr].
    apply list_elem_of_singleton in Hr as ->. cbn. exists line.
    replace (Z.to_nat (size_of pre)) with (String.length pre) by (unfold size_of; lia).
    rewrite sdrop_app, stake_app. split_and!; try done.
    rewrite !size_of_app. pose proof (size_of_nonneg (concat_lines lines)). unfold size_of in *. lia.
  - rewrite <- size_of_app in Hr. destruct (IH _ Hr) as (l & H1 & H2). exists l.
    rewrite sapp_assoc in *. done.
Qed.

Lemma records_read content r :
  r ∈ records content ->
  exists line, stake (ie_length r.1) (sdrop (Z.to_nat (ie_offset r.1)) content) = line
    /\ json_Unmarshal line = Some r.2 /\ ie_receivedAt r.1 = msg_ReceivedAt r.2
    /\ ie_host r.1 = msg_Hostname r.2
    /\ (ie_offset r.1 + Z.of_nat (ie_length r.1) <= size_of content)%Z.
Proof.
  intros Hr. pose proof (records_of_read "" (lines_keep content) r Hr) as H.
  by rewrite snil_app, concat_lines_keep in H.
Qed.
End Records.

(** ** The index of a file *)

Lemma StronglySorted_app_mid {A} (R : A -> A -> Prop) l1 l2 :
  StronglySorted R (l1 ++ l2) -> forall x y, x ∈ l1 -> y ∈ l2 -> R x y.
Proof.
  induction l1 as [|a l1 IH]; cbn; intros Hs x y Hx Hy; [by apply elem_of_nil in Hx|].
  apply StronglySorted_inv in Hs as [Hs Ha]. apply elem_of_cons in Hx as [->|Hx].
  - rewrite Forall_forall in Ha. apply Ha, elem_of_app. by right.
  - by apply IH.
Qed.

(** Later first; of the same instant the later line first. *)
Definition entry_before (a b : indexEntry) : Prop :=
  (ie_receivedAt b < ie_receivedAt a)%Z
  \/ (ie_receivedAt a = ie_receivedAt b /\ ie_offset b < ie_offset a)%Z.

Lemma entry_less_true a b : entry_less a b = true <-> entry_before a b.
Proof.
  unfold entry_less, entry_before, After.
  destruct (Z.eqb_spec (ie_receivedAt a) (ie_receivedAt b)); rewrite Z.ltb_lt; lia.
Qed.

Lemma entry_less_false a b : entry_less a b = false <-> ~ entry_before a b.
Proof. rewrite <- entry_less_true. by destruct (entry_less a b). Qed.

Lemma entry_less_strict_weak : strict_weak entry_less.
Proof.
  split.
  - intros x y. rewrite entry_less_true, entry_less_false. unfold entry_before. lia.
  - intros x y z. rewrite !entry_less_false. unfold entry_before. lia.
Qed.

Section Index.
Context {GS : GoSort} {J : GoJson} {JL : GoJsonLaws}.

Definition sorted_entries : list indexEntry -> Prop :=
  StronglySorted (fun x y => entry_less y x = false).

Lemma sort_entries (l : list indexEntry) :
  sort_slice entry_less l ≡ₚ l /\ sorted_entries (sort_slice entry_less l).
Proof.
  destruct entry_less_strict_weak as [H1 H2]. split; [apply sort_slice_perm|].
  by apply sort_slice_sorted.
Qed.

(** The index is one of the bytes [content]. *)
Definition covers (index : fileIndex) (content : string) : Prop :=
  fi_Size (fx_info index) = size_of content
  /\ fx_entries index ≡ₚ (records content).*1 /\ sorted_entries (fx_entries index).

(** An index that was made of a file is one of what the file began with. *)
Definition index_ok (f : os_file) (index : fileIndex) : Prop :=
  fi_id (fx_info index) = of_id f ->
  exists pre suf, of_content f = pre +:+ suf /\ readable pre /\ covers index pre.

Lemma size_of_suffix_empty pre suf : size_of pre = size_of (pre +:+ suf) -> suf = "".
Proof. rewrite size_of_app. unfold size_of. destruct suf; [done|cbn; lia]. Qed.

Lemma rescan path f :
  readable (of_content f) ->
  exists index, match scanIndex calm path (of_content f) 0 [] with
                | inl entries => inl (mkFileIndex (stat f) (sort_slice entry_less entries))
                | inr err => inr err
                end = inl index
    /\ fi_id (fx_info index) = of_id f /\ covers index (of_content f).
Proof.
  intros [_ Hg]. unfold scanIndex. rewrite scan_lines_calm by done. eexists. split; [done|].
  split; [done|]. destruct (sort_entries (([] ++ (records_of 0 (lines_keep (of_content f))).*1)%list)).
  by split_and!.
Qed.

(** Whether an index is reused, extended or made anew, it is one of the whole
    file. *)
Lemma index_file_calm path f previous :
  readable (of_content f) -> (forall index, previous = Some index -> index_ok f index) ->
  exists index, index_file calm path f previous = inl index
    /\ fi_id (fx_info index) = of_id f /\ covers index (of_content f).
Proof.
  intros Hread Hprev. destruct previous as [index|]; [|by apply rescan]. cbn.
  destruct (SameFile (fx_info index) (stat f)) eqn:Hsame; unfold unchanged, grown; rewrite Hsame; cbn [andb];
    [|by apply rescan].
  apply Nat.eqb_eq in Hsame. destruct (Hprev index eq_refl Hsame) as (pre & suf & Hc & [Hpre _] & Hsize & Hp & Hs).
  change (fi_Size (stat f)) with (size_of (of_content f)). rewrite Hsize.
  destruct (Z.eqb_spec (size_of pre) (size_of (of_content f))) as [Heq|Hne]; cbn [andb].
  - destruct (Z.eqb_spec (fi_ModTime (fx_info index)) (fi_ModTime (stat f))).
    + exists index. split; [done|]. split; [done|]. rewrite Hc in Heq.
      apply size_of_suffix_empty in Heq as ->. rewrite sapp_nil_r in Hc. by rewrite Hc.
    + rewrite Z.ltb_irrefl || rewrite Heq, Z.ltb_irrefl. by apply rescan.
  - destruct (Z.ltb_spec (size_of pre) (size_of (of_content f))) as [Hlt|Hge]; [|by apply rescan].
    cbn. replace (Z.to_nat (size_of pre)) with (String.length pre) by (unfold size_of; lia).
    unfold scanIndex. rewrite Hc in Hread |- *. rewrite sdrop_app, scan_lines_calm
      by (by eapply readable_app_r).
    eexists. split; [done|]. split; [done|]. unfold covers. cbn [fx_info fx_entries fi_Size stat].
    destruct (sort_entries (fx_entries index ++ (records_of (size_of pre) (lines_keep suf)).*1)%list) as [H1 H2].
    split; [by rewrite <- Hc|]. split; [|done]. rewrite H1, records_app, fmap_app by done. by rewrite Hp.
Qed.

(** ** The store *)

Definition is_partition (path : string) : bool := HasSuffix path ndjson.

Definition store_ok (st : FileStore) : Prop :=
  (forall path f, fs_files st !! path = Some f -> readable (of_content f) /\ (of_id f < fs_next st)%nat)
  /\ (forall path f index, fs_files st !! path = Some f -> fs_indexes st !! path = Some index ->
        index_ok f index)
  /\ (forall path index, fs_indexes st !! path = Some index -> is_Some (fs_files st !! path)).

Lemma elem_of_messageFiles st path :
  path ∈ messageFiles st <-> is_Some (fs_files st !! path) /\ is_partition path = true.
Proof.
  unfold messageFiles, list_files. rewrite sort_slice_perm, list_elem_of_In, filter_In, <- list_elem_of_In.
  rewrite list_elem_of_fmap. split.
  - intros [([k f] & -> & Hkf%elem_of_map_to_list) Hs]. by split; [eexists|].
  - intros [[f Hf] Hs]. split; [|done]. exists (path, f). split; [done|]. by apply elem_of_map_to_list.
Qed.

Lemma messageFiles_NoDup st : NoDup (messageFiles st).
Proof.
  unfold messageFiles, list_files. rewrite sort_slice_perm. apply NoDup_ListNoDup, List.NoDup_filter, NoDup_ListNoDup.
  apply NoDup_fst_map_to_list.
Qed.

(** The loop finds the files of [st]. *)
Lemma index_files_calm st (seen : View) files next :
  store_ok st ->
  Forall (fun path => is_Some (fs_files st !! path) /\ seen (at_open path) !! path = fs_files st !! path) files ->
  exists next', index_files calm seen (fs_indexes st) files next = inl next'
    /\ forall path, if decide (path ∈ files)
         then exists f index, fs_files st !! path = Some f /\ next' !! path = Some index
                /\ fi_id (fx_info index) = of_id f /\ covers index (of_content f)
         else next' !! path = next !! path.
Proof.
  intros (Hf & Hi & _) Hfiles. revert next. induction Hfiles as [|path files [[f Hpath] Hseen] _ IH]; intros next.
  { exists next. split; [done|]. intros path. by rewrite decide_False by apply not_elem_of_nil. }
  cbn. rewrite Hseen, Hpath. destruct (Hf path f Hpath) as [Hread _].
  destruct (index_file_calm path f (fs_indexes st !! path) Hread) as (index & -> & Hid & Hcov).
  { intros index Hindex. by eapply Hi. }
  destruct (IH (<[path := index]> next)) as (next' & -> & Hnext). exists next'. split; [done|].
  intros path'. specialize (Hnext path'). destruct (decide (path' ∈ files)) as [Hin|Hout].
  - by rewrite decide_True by (by right).
  - destruct (decide (path' = path)) as [->|Hne].
    + rewrite decide_True by (by left). exists f, index. by rewrite Hnext, lookup_insert_eq.
    + rewrite decide_False by (by intros [?|?]%elem_of_cons). by rewrite Hnext, lookup_insert_ne.
Qed.

Lemma queryIndexes_calm st (seen : View) :
  store_ok st -> list_files (seen at_list) = messageFiles st ->
  (forall path, is_Some (fs_files st !! path) -> seen (at_open path) !! path = fs_files st !! path) ->
  exists next, queryIndexes calm seen (fs_indexes st) = (next, inl (next, messageFiles st))
    /\ store_ok (with_indexes st next)
    /\ forall path f, fs_files st !! path = Some f -> is_partition path = true ->
         exists index, next !! path = Some index /\ covers index (of_content f).
Proof.
  intros Hok Hl Hseen. unfold queryIndexes. cbn. rewrite Hl.
  destruct (index_files_calm st seen (messageFiles st) ∅ Hok) as (next & -> & Hnext).
  { apply Forall_forall. intros path Hpath. apply elem_of_messageFiles in Hpath as [? _]. auto. }
  exists next. split; [done|]. destruct Hok as (Hf & Hi & Hd). split; [split_and!|].
  - exact Hf.
  - cbn. intros path f index Hpath Hindex Hid. specialize (Hnext path). case_decide as Hin.
    + destruct Hnext as (f' & index' & Hf' & Hx & _ & Hcov). simplify_eq.
      exists (of_content f'), "". rewrite sapp_nil_r. split; [done|]. by destruct (Hf _ _ Hf') as [? _].
    + by rewrite Hnext in Hindex.
  - cbn. intros path index Hindex. specialize (Hnext path). case_decide as Hin.
    + destruct Hnext as (f' & ? & ? & _). by eexists.
    + by rewrite Hnext in Hindex.
  - intros path f Hpath Hp. specialize (Hnext path).
    rewrite decide_True in Hnext by (apply elem_of_messageFiles; by split; [eexists|]).
    destruct Hnext as (f' & index & Hf' & Hx & _ & Hcov). simplify_eq. by exists index.
Qed.
End Index.

Lemma HasSuffix_app (a b : string) : HasSuffix (a +:+ b) b = true.
Proof.
  unfold HasSuffix. rewrite slength_app. apply andb_true_iff. split; [apply Nat.leb_le; lia|].
  replace (String.length a + String.length b - String.length b)%nat with (String.length a) by lia.
  rewrite sdrop_app. apply String.eqb_refl.
Qed.

Lemma TrimSuffix_app (a b : string) : TrimSuffix (a +:+ b) b = a.
Proof.
  unfold TrimSuffix. rewrite HasSuffix_app, slength_app.
  replace (String.length a + String.length b - String.length b)%nat with (String.length a) by lia.
  apply stake_app.
Qed.
