(* ===== verification/StorageMerge.v ===== *)
(** The merge of the partition indexes: the loop of [Query] visits the entries of
    all files in one order, latest first. *)
From Stdlib Require Import Ascii ZArith Lia.
From S2P Require Import Prelude.
From S2P Require Import GoStd.
From S2P Require Import GoLib.
From S2P Require Import Model.
From S2P Require Import Storage.
From S2P Require Import StorageLemmas.

(** An entry with the file it is in. *)
Record item : Type := mkItem { it_path : string; it_order : nat; it_entry : indexEntry }.

Definition it_at (a : item) : Time := ie_receivedAt (it_entry a).

(** Later first; then by file, then the later line of a file first. *)
Definition item_before (a b : item) : Prop :=
  (it_at b < it_at a)%Z
  \/ it_at a = it_at b
     /\ ((it_order a < it_order b)%nat
         \/ it_order a = it_order b /\ (ie_offset (it_entry b) < ie_offset (it_entry a))%Z).

Lemma item_before_trans a b c : item_before a b -> item_before b c -> item_before a c.
Proof. unfold item_before. lia. Qed.

Lemma item_before_irrefl a : ~ item_before a a.
Proof. unfold item_before. lia. Qed.

(** ** Cursors *)

Definition item_of (c : indexCursor) (e : indexEntry) : item := mkItem (ic_path c) (ic_order c) e.

(** The entries a cursor has not visited. *)
Definition left_of (c : indexCursor) : list item :=
  map (item_of c) (drop (ic_position c) (ic_entries c)).

Definition remaining (pending : list indexCursor) : list item := flat_map left_of pending.

#[global] Instance remaining_proper : Proper ((≡ₚ) ==> (≡ₚ)) remaining.
Proof. intros l l' H. unfold remaining. by rewrite H. Qed.

Record cursor_ok (c : indexCursor) : Prop := {
  cursor_in_range : (ic_position c < length (ic_entries c))%nat;
  cursor_sorted : StronglySorted entry_before (ic_entries c)
}.

Definition advanced (c : indexCursor) : indexCursor :=
  mkIndexCursor (ic_path c) (ic_entries c) (S (ic_position c)) (ic_order c).

Definition head_of (c : indexCursor) : item := item_of c (cursor_entry c).

Lemma left_of_head c :
  cursor_ok c -> left_of c = head_of c :: left_of (advanced c).
Proof.
  intros [Hr _]. unfold left_of, head_of, cursor_entry. cbn [ic_position ic_entries advanced].
  destruct (lookup_lt_is_Some_2 _ _ Hr) as [e He]. rewrite (drop_S _ _ _ He).
  by rewrite (nth_lookup_Some _ _ _ _ He).
Qed.

Lemma left_of_end c : (length (ic_entries c) <= S (ic_position c))%nat -> left_of (advanced c) = [].
Proof. intros H. unfold left_of. cbn. by rewrite drop_ge. Qed.

Lemma advanced_ok c :
  cursor_ok c -> (S (ic_position c) < length (ic_entries c))%nat -> cursor_ok (advanced c).
Proof. by intros [? ?] ?. Qed.

(** The head of a cursor comes before the rest of it. *)
Lemma head_before_left c x : cursor_ok c -> x ∈ left_of (advanced c) -> item_before (head_of c) x.
Proof.
  intros [Hr Hs] Hx. unfold left_of in Hx. apply list_elem_of_In, in_map_iff in Hx as (e & <- & He).
  apply list_elem_of_In in He. cbn [ic_position ic_entries advanced] in He.
  destruct (lookup_lt_is_Some_2 _ _ Hr) as [h Hh].
  assert (Hb : entry_before h e).
  { rewrite <- (take_drop (S (ic_position c)) (ic_entries c)) in Hs.
    eapply StronglySorted_app_mid; [exact Hs| |exact He].
    apply list_elem_of_lookup. exists (ic_position c). by rewrite lookup_take_lt by lia. }
  unfold head_of, cursor_entry, item_before, it_at. rewrite (nth_lookup_Some _ _ _ _ Hh). cbn.
  unfold entry_before in Hb. lia.
Qed.

Lemma cursor_less_strict_weak : strict_weak cursor_less.
Proof.
  split.
  - intros x y. unfold cursor_less, After. cbv zeta.
    generalize (ie_receivedAt (cursor_entry x)) (ie_receivedAt (cursor_entry y)). intros a b.
    rewrite (Z.eqb_sym b a). destruct (Z.eqb_spec a b); rewrite ?Nat.ltb_lt, ?Nat.ltb_ge, ?Z.ltb_lt, ?Z.ltb_ge; lia.
  - intros x y z. unfold cursor_less, After. cbv zeta.
    generalize (ie_receivedAt (cursor_entry x)) (ie_receivedAt (cursor_entry y)) (ie_receivedAt (cursor_entry z)).
    intros a b c. destruct (Z.eqb_spec b a), (Z.eqb_spec c b), (Z.eqb_spec c a);
      rewrite ?Nat.ltb_ge, ?Z.ltb_ge; lia.
Qed.

(** A cursor that is not less than another, of another file, has a later head. *)
Lemma not_less_before c y :
  cursor_less y c = false -> ic_order c <> ic_order y -> item_before (head_of c) (head_of y).
Proof.
  unfold cursor_less, After, item_before, it_at, head_of. cbn [item_of it_order it_entry].
  generalize (ie_receivedAt (cursor_entry y)) (ie_receivedAt (cursor_entry c)). intros a b.
  destruct (Z.eqb_spec a b); rewrite ?Nat.ltb_ge, ?Z.ltb_ge; lia.
Qed.

(** The least cursor's head comes first of all that remains. *)
Lemma least_head c popped x :
  cursor_ok c -> Forall cursor_ok popped -> NoDup (map ic_order (c :: popped)) ->
  Forall (fun y => cursor_less y c = false) popped ->
  x ∈ left_of (advanced c) ++ remaining popped -> item_before (head_of c) x.
Proof.
  intros Hc Hp Hnd Hless [Hx|Hx]%elem_of_app; [by apply head_before_left|].
  unfold remaining in Hx. apply list_elem_of_In, in_flat_map in Hx as (y & Hy & Hx).
  apply list_elem_of_In in Hy, Hx. rewrite !Forall_forall in *.
  cbn in Hnd. apply NoDup_cons in Hnd as [Hnin _].
  assert (Hne : ic_order c <> ic_order y).
  { intros E. apply Hnin. rewrite E. by apply list_elem_of_fmap_2. }
  pose proof (not_less_before c y (Hless y Hy) Hne) as Hb.
  rewrite (left_of_head y (Hp y Hy)) in Hx. apply elem_of_cons in Hx as [->|Hx]; [done|].
  eapply item_before_trans; [exact Hb|]. by apply head_before_left, Hx; apply Hp.
Qed.

(** So it heads every sorted list of what remains. *)
Lemma sorted_head (L R : list item) h :
  StronglySorted item_before L -> L ≡ₚ h :: R -> (forall x, x ∈ R -> item_before h x) ->
  exists L', L = h :: L' /\ L' ≡ₚ R.
Proof.
  intros Hs Hp Hh. destruct L as [|a L]; [by apply Permutation_nil_cons in Hp|].
  assert (a = h) as ->.
  { assert (Ha : a ∈ h :: R) by (rewrite <- Hp; by left).
    assert (Hin : h ∈ a :: L) by (rewrite Hp; by left).
    apply elem_of_cons in Ha as [Ha|Ha], Hin as [Hin|Hin]; try done.
    apply StronglySorted_inv in Hs as [_ Hf]. rewrite Forall_forall in Hf.
    destruct (item_before_irrefl h). eapply item_before_trans; [by apply Hh|by apply Hf]. }
  exists L. split; [done|]. by apply Permutation_cons_inv in Hp.
Qed.

(** ** The loop *)

Section Loop.
Context {GH : GoHeap} {J : GoJson}.
Variables (seen : View) (q : StoreQuery) (limit : Z) (hosts : gset string) (text : string)
  (matcher : Message -> bool).

(** What the loop does with the entries, taken in order. *)
Fixpoint consume (L : list item) (skipped : Z) (messages : list Message) : list Message + store_error :=
  match L with
  | [] => inl messages
  | it :: L' =>
    if negb (Z.of_nat (length messages) <? limit)%Z then inl messages
    else match judge calm seen q hosts text matcher skipped (it_path it) (it_entry it) with
         | stop_loop => inl messages
         | fail_loop err => inr err
         | skip_entry => consume L' skipped messages
         | skip_page => consume L' (skipped + 1)%Z messages
         | take_message msg => consume L' skipped (messages ++ [msg])
         end
  end.

Lemma consume_full L skipped messages :
  (Z.of_nat (length messages) <? limit)%Z = false -> consume L skipped messages = inl messages.
Proof. intros H. destruct L as [|it L]; cbn; [done|]. by rewrite H. Qed.

Definition loop_ok (pending : list indexCursor) : Prop :=
  heap_ok cursor_less pending /\ Forall cursor_ok pending /\ NoDup (map ic_order pending).

(** One round: the least cursor leaves the heap, and comes back at its next entry. *)
Lemma pop_round pending :
  loop_ok pending -> pending <> [] ->
  exists c popped, heap_Pop cursor_less pending = Some (c, popped)
    /\ remaining pending ≡ₚ head_of c :: left_of (advanced c) ++ remaining popped
    /\ (forall x, x ∈ left_of (advanced c) ++ remaining popped -> item_before (head_of c) x)
    /\ let next := if (S (ic_position c) <? length (ic_entries c))%nat
                   then heap_Push cursor_less (advanced c) popped else popped in
       loop_ok next /\ remaining next ≡ₚ left_of (advanced c) ++ remaining popped.
Proof.
  intros (Hheap & Hok & Hnd) Hne.
  destruct (heap_Pop_spec cursor_less pending cursor_less_strict_weak Hheap Hne)
    as (c & popped & Hpop & Hperm & Hheap' & Hleast).
  exists c, popped. split; [done|]. rewrite Hperm in Hok. apply Forall_cons in Hok as [Hc Hp].
  assert (Hnd' : NoDup (map ic_order (c :: popped))) by (by rewrite <- Hperm).
  split_and!.
  - unfold remaining. rewrite Hperm. cbn. by rewrite (left_of_head c Hc).
  - intros x. by apply least_head.
  - cbv zeta. destruct (Nat.ltb_spec (S (ic_position c)) (length (ic_entries c))) as [Hlt|Hge].
    + destruct (heap_Push_spec cursor_less (advanced c) popped cursor_less_strict_weak Hheap') as [HP HH].
      split; [split_and!|]; [done| |by rewrite HP|by rewrite HP].
      rewrite HP. constructor; [by apply advanced_ok|done].
    + rewrite left_of_end by lia. cbn in Hnd'. by apply NoDup_cons in Hnd' as [_ ?].
Qed.

Lemma query_loop_consume fuel pending L n skipped messages :
  loop_ok pending -> L ≡ₚ remaining pending -> StronglySorted item_before L -> length L < fuel ->
  query_loop fuel calm seen q limit hosts text matcher n pending skipped messages
  = Some (consume L skipped messages).
Proof.
  revert pending L n skipped messages.
  induction fuel as [|fuel IH]; intros pending L n skipped messages Hok HL Hs Hfuel; [lia|].
  cbn [query_loop]. destruct (Z.of_nat (length messages) <? limit)%Z eqn:Hlim; cbn [negb];
    [rewrite orb_false_r|by rewrite orb_true_r, consume_full].
  destruct (decide (pending = [])) as [->|Hne].
  { cbn. cbn in HL. by apply Permutation_nil_r in HL as ->. }
  destruct (pop_round pending Hok Hne) as (c & popped & Hpop & Hrem & Hfirst & Hok' & Hrem').
  assert (length pending =? 0 = false)%nat as -> by (apply Nat.eqb_neq; by destruct pending).
  change (calm (at_entry n)) with (@None store_error). cbv iota. rewrite Hpop. cbv zeta. rewrite Hrem in HL.
  destruct (sorted_head L _ _ Hs HL Hfirst) as (L' & -> & HL').
  apply StronglySorted_inv in Hs as [Hs _]. cbn [length] in Hfuel.
  cbn [consume]. rewrite Hlim. cbn [negb head_of item_of it_path it_entry].
  change (mkIndexCursor (ic_path c) (ic_entries c) (S (ic_position c)) (ic_order c)) with (advanced c).
  destruct (judge _ _ _ _ _ _ _ _ _); [done|..|done]; (apply IH; [done|by rewrite HL', Hrem'|done|lia]).
Qed.

Lemma remaining_fuel pending L :
  L ≡ₚ remaining pending -> length L < query_fuel pending.
Proof.
  intros ->. unfold query_fuel, remaining. apply Nat.lt_succ_r.
  induction pending as [|c pending IH]; [done|].
  cbn [flat_map map list_sum foldr]. rewrite length_app. apply Nat.add_le_mono; [|exact IH].
  unfold left_of. by rewrite length_map, length_drop.
Qed.
End Loop.
