(* ===== verification/StorageQuery.v ===== *)
(** The query of the message store answers with a page of the stored messages:
    the entries the merge visits are those of the whole archive, and taking
    them in order is filtering, skipping and cutting. *)
From Stdlib Require Import Ascii ZArith Lia.
From S2P Require Import Prelude.
From S2P Require Import GoStd.
From S2P Require Import GoLib.
From S2P Require Import Model.
From S2P Require Import Storage.
From S2P Require Import StorageLemmas.
From S2P Require Import StorageMerge.
Local Open Scope list_scope.

(** ** What the loop makes of the entries *)

Section Consume.
Context {GH : GoHeap} {J : GoJson}.
Variables (seen : View) (q : StoreQuery) (limit : Z) (hosts : gset string) (text : string)
  (matcher : Message -> bool).

(** An item of the archive with the message at its position. *)
Definition readable_item (im : item * Message) : Prop :=
  (exists data, read_record calm seen (it_path im.1) (it_entry im.1) = inl data
                /\ json_Unmarshal data = Some im.2)
  /\ ie_receivedAt (it_entry im.1) = msg_ReceivedAt im.2
  /\ ie_host (it_entry im.1) = msg_Hostname im.2.

Definition not_before_since (at_ : Time) : bool :=
  match sq_Since q with Some since => negb (Before at_ since) | None => true end.

Definition selected (m : Message) : bool :=
  not_before_since (msg_ReceivedAt m)
  && (bool_decide (hosts = ∅) || bool_decide (msg_Hostname m ∈ hosts))
  && (String.eqb text "" || matcher m).

(** The verdict on a readable item. *)
Lemma judge_readable im skipped :
  readable_item im ->
  judge calm seen q hosts text matcher skipped (it_path im.1) (it_entry im.1)
  = if negb (not_before_since (msg_ReceivedAt im.2)) then stop_loop
    else if negb (selected im.2) then skip_entry
    else if (skipped <? sq_Offset q)%Z then skip_page else take_message im.2.
Proof.
  intros ((data & Hread & Hm) & Hat & Hhost). unfold judge. rewrite Hread, Hm, Hat, Hhost.
  unfold selected, not_before_since.
  destruct (match sq_Since q with Some since => Before (msg_ReceivedAt im.2) since | None => false end) eqn:Hs.
  { by destruct (sq_Since q); [rewrite Hs|]. }
  destruct (sq_Since q); [rewrite Hs|]; cbn [negb andb];
    destruct (bool_decide (hosts = ∅)), (bool_decide (msg_Hostname im.2 ∈ hosts)), (String.eqb text ""),
      (matcher im.2), (skipped <? sq_Offset q)%Z; done.
Qed.

Lemma selected_since m : selected m = true -> not_before_since (msg_ReceivedAt m) = true.
Proof. unfold selected. by rewrite !andb_true_iff; intros [[? _] _]. Qed.

(** Behind an item before [since] nothing is selected. *)
Lemma nothing_selected (P : list (item * Message)) im :
  Forall readable_item (im :: P) -> StronglySorted item_before (map fst (im :: P)) ->
  not_before_since (msg_ReceivedAt im.2) = false -> List.filter selected (map snd (im :: P)) = [].
Proof.
  intros Hr Hs Hb.
  assert (H : forall im', im' ∈ im :: P -> selected im'.2 = false).
  { intros im' Hin. apply not_true_is_false. intros Hsel%selected_since.
    rewrite Forall_forall in Hr. destruct (Hr im') as (_ & Hat' & _); [done|].
    destruct (Hr im) as (_ & Hat & _); [by left|]. apply elem_of_cons in Hin as [->|Hin]; [congruence|].
    cbn in Hs. apply StronglySorted_inv in Hs as [_ Hf]. rewrite Forall_forall in Hf.
    specialize (Hf im'.1). assert (item_before im.1 im'.1) as Hlt by (apply Hf; by apply list_elem_of_fmap_2).
    unfold item_before, it_at in Hlt. rewrite Hat, Hat' in Hlt. unfold not_before_since, Before in *.
    destruct (sq_Since q) as [since|]; [|done]. apply negb_true_iff, Z.ltb_ge in Hsel.
    apply negb_false_iff, Z.ltb_lt in Hb. lia. }
  assert (Hnone : forall m, m ∈ map snd (im :: P) -> selected m = false)
    by (intros m (im' & -> & Hin)%list_elem_of_fmap; by apply H).
  by apply filter_none.
Qed.

Definition page (limit offset : Z) (ms : list Message) : list Message :=
  take (Z.to_nat limit) (drop (Z.to_nat offset) ms).

Lemma consume_page P skipped messages :
  Forall readable_item P -> StronglySorted item_before (map fst P) ->
  consume seen q limit hosts text matcher (map fst P) skipped messages
  = inl (messages ++ page (limit - Z.of_nat (length messages)) (sq_Offset q - skipped)
                       (List.filter selected (map snd P))).
Proof.
  revert skipped messages. induction P as [|im P IH]; intros skipped messages Hr Hs.
  { cbn. unfold page. by rewrite drop_nil, take_nil, app_nil_r. }
  pose proof (nothing_selected P im Hr Hs) as Hnone.
  apply Forall_cons in Hr as [Him Hr]. cbn [map] in Hs. apply StronglySorted_inv in Hs as [Hs _].
  cbn [map consume]. destruct (Z.ltb_spec (Z.of_nat (length messages)) limit) as [Hlim|Hlim]; cbn [negb].
  2: { unfold page. replace (Z.to_nat (limit - _)) with O by lia. by rewrite app_nil_r. }
  rewrite judge_readable by done.
  destruct (not_before_since _) eqn:Hsince; cbn [negb].
  2: { rewrite <- (map_cons snd im P), Hnone by done. unfold page. by rewrite drop_nil, take_nil, app_nil_r. }
  cbn [List.filter]. destruct (selected im.2) eqn:Hsel; cbn [negb]; [|by apply IH].
  destruct (Z.ltb_spec skipped (sq_Offset q)) as [Hoff|Hoff]; rewrite IH by done; unfold page.
  - replace (Z.to_nat (sq_Offset q - skipped)) with (S (Z.to_nat (sq_Offset q - (skipped + 1)))) by lia.
    done.
  - replace (Z.to_nat (sq_Offset q - skipped)) with O by lia.
    rewrite length_app. cbn [length drop].
    replace (Z.to_nat (limit - Z.of_nat (length messages)))
      with (S (Z.to_nat (limit - Z.of_nat (length messages + 1)))) by lia.
    cbn [take]. by rewrite <- app_assoc.
Qed.
End Consume.

(** ** The archive *)

Section Archive.
Context {GS : GoSort} {GH : GoHeap} {GT : GoText} {J : GoJson} {JL : GoJsonLaws}.

(** The bytes of a partition. *)
Definition content_of (st : FileStore) (path : string) : string :=
  match fs_files st !! path with Some f => of_content f | None => "" end.

Definition archive_file (st : FileStore) (order : nat) (path : string) : list (item * Message) :=
  map (fun r => (mkItem path order r.1, r.2)) (records (content_of st path)).

(** Every record of the files, numbered in their order. *)
Fixpoint archive (st : FileStore) (order : nat) (files : list string) : list (item * Message) :=
  match files with
  | [] => []
  | path :: rest => archive_file st order path ++ archive st (S order) rest
  end.

(** The messages the store holds. *)
Definition stored (st : FileStore) : list Message :=
  flat_map (fun path => map snd (records (content_of st path))) (messageFiles st).

Lemma archive_messages st order files :
  map snd (archive st order files) = flat_map (fun path => map snd (records (content_of st path))) files.
Proof.
  revert order. induction files as [|path files IH]; intros order; cbn; [done|].
  rewrite map_app, IH. f_equal. unfold archive_file. by rewrite map_map.
Qed.

Lemma elem_of_archive st order files im :
  im ∈ archive st order files ->
  exists path r, path ∈ files /\ r ∈ records (content_of st path) /\ it_path im.1 = path
    /\ it_entry im.1 = r.1 /\ im.2 = r.2 /\ (order <= it_order im.1)%nat.
Proof.
  revert order. induction files as [|path files IH]; intros order; cbn; [by intros ?%elem_of_nil|].
  intros [H|H]%elem_of_app.
  - unfold archive_file in H. apply list_elem_of_fmap in H as (r & -> & Hr).
    exists path, r. split_and!; try done. by left.
  - destruct (IH _ H) as (p & r & Hp & Hr & H1 & H2 & H3 & H4). exists p, r.
    split_and!; try done; [by right|lia].
Qed.

(** Whenever a record is read the files hold at least what [st] holds. *)
Definition kept_in (st : FileStore) (seen : View) : Prop :=
  forall path f offset, fs_files st !! path = Some f ->
    complete (of_content f) = true
    /\ exists f' suf, seen (at_read path offset) !! path = Some f' /\ of_content f' = of_content f +:+ suf.

Lemma archive_readable st seen files :
  kept_in st seen -> Forall (fun path => is_Some (fs_files st !! path)) files ->
  forall order, Forall (readable_item seen) (archive st order files).
Proof.
  intros Hkept Hfiles order. apply Forall_forall. intros im Him.
  destruct (elem_of_archive st order files im Him) as (path & r & Hp & Hr & H1 & H2 & H3 & _).
  rewrite Forall_forall in Hfiles. destruct (Hfiles path Hp) as [f Hf].
  unfold content_of in Hr. rewrite Hf in Hr.
  destruct (Hkept path f (ie_offset r.1) Hf) as (Hc & f' & suf & Hf' & Hsuf).
  assert (Hr' : r ∈ records (of_content f')) by (rewrite Hsuf, records_app by done; apply elem_of_app; by left).
  destruct (records_read _ _ Hr') as (line & Hline & Hm & Hat & Hhost & Hin).
  unfold readable_item, read_record. rewrite H1, H2, H3, Hf'. cbn.
  rewrite (proj2 (Z.leb_le _ _) Hin). split; [|done]. exists line. by rewrite Hline.
Qed.

(** Two entries of the archive at the same file and offset are the same. *)
Definition place (im : item * Message) : nat * Z := (it_order im.1, ie_offset (it_entry im.1)).

Lemma StronglySorted_lt_NoDup {A} (key : A -> Z) (l : list A) :
  StronglySorted (fun x y => key x < key y)%Z l -> NoDup (map key l).
Proof.
  induction 1 as [|x l _ IH Hx]; [constructor|]. cbn. apply NoDup_cons. split; [|done].
  intros (y & Heq & Hy)%list_elem_of_fmap. rewrite Forall_forall in Hx. specialize (Hx y Hy). lia.
Qed.

Lemma NoDup_offsets content : NoDup (map (fun r => ie_offset r.1) (records content)).
Proof. apply StronglySorted_lt_NoDup, records_of_ascending, lines_keep_not_empty. Qed.

Lemma archive_NoDup st order files : NoDup (map place (archive st order files)).
Proof.
  revert order. induction files as [|path files IH]; intros order; cbn; [constructor|].
  rewrite map_app. apply NoDup_app. split_and!; [|intros pl H1 H2|apply IH].
  - unfold archive_file. rewrite map_map. unfold place. cbn.
    rewrite <- (map_map (fun r : record => ie_offset r.1) (pair order)).
    apply (NoDup_fmap_2 (pair order)), NoDup_offsets.
  - apply list_elem_of_fmap in H1 as (im1 & -> & H1), H2 as (im2 & Heq & H2).
    unfold archive_file in H1. apply list_elem_of_fmap in H1 as (r & -> & _).
    destruct (elem_of_archive _ _ _ _ H2) as (_ & _ & _ & _ & _ & _ & _ & Hle).
    unfold place in Heq. injection Heq as Ho _. cbn in Ho. lia.
Qed.

(** The archive in the order in which the loop visits it. *)
Definition visited_order (x y : item * Message) : Prop := ~ item_before y.1 x.1.

#[local] Instance item_before_dec a b : Decision (item_before a b).
Proof. unfold item_before. apply _. Defined.

#[local] Instance visited_order_dec : RelDecision visited_order.
Proof. intros x y. unfold visited_order. apply _. Defined.

Definition timeline (st : FileStore) : list (item * Message) :=
  merge_sort visited_order (archive st 0 (messageFiles st)).

Lemma visited_strict x y : visited_order x y -> place x <> place y -> item_before x.1 y.1.
Proof.
  unfold visited_order, place, item_before, it_at. intros H Hne.
  destruct (decide (it_order x.1 = it_order y.1)) as [E|]; [|lia].
  assert (ie_offset (it_entry x.1) <> ie_offset (it_entry y.1)) by congruence. lia.
Qed.

Lemma StronglySorted_strict (P : list (item * Message)) :
  StronglySorted visited_order P -> NoDup (map place P) -> StronglySorted item_before (map fst P).
Proof.
  induction 1 as [|x P _ IH Hx]; cbn; [constructor|]. intros [Hnin Hnd]%NoDup_cons.
  constructor; [by apply IH|]. apply Forall_forall. intros y (z & -> & Hz)%list_elem_of_fmap.
  rewrite Forall_forall in Hx. apply visited_strict; [by apply Hx|].
  intros E. apply Hnin. rewrite E. by apply list_elem_of_fmap_2.
Qed.

Lemma timeline_spec st :
  timeline st ≡ₚ archive st 0 (messageFiles st) /\ StronglySorted item_before (map fst (timeline st)).
Proof.
  assert (Hp : timeline st ≡ₚ archive st 0 (messageFiles st)) by apply merge_sort_Permutation.
  split; [done|]. apply StronglySorted_strict.
  - apply StronglySorted_merge_sort.
    + intros x y z. unfold visited_order, item_before, it_at. lia.
    + intros x y. unfold visited_order, item_before, it_at. lia.
  - rewrite Hp. apply archive_NoDup.
Qed.
End Archive.

(** ** The cursors the query starts with *)

Section Start.
Context {GS : GoSort} {GH : GoHeap} {GT : GoText} {J : GoJson} {JL : GoJsonLaws}.
Variables (st : FileStore) (q : StoreQuery) (indexes : gmap string fileIndex).

Definition not_after_until (at_ : Time) : bool :=
  match sq_Until q with Some until => negb (After at_ until) | None => true end.

Lemma covers_sorted index content :
  covers index content -> StronglySorted entry_before (fx_entries index).
Proof.
  intros (_ & Hp & Hs). assert (Hnd : NoDup (map ie_offset (fx_entries index))).
  { rewrite Hp. rewrite <- list_fmap_compose. apply NoDup_offsets. }
  clear Hp. revert Hnd. unfold sorted_entries in Hs.
  induction Hs as [|x l _ IH Hx]; cbn; [constructor|]. intros [Hnin Hnd]%NoDup_cons.
  constructor; [by apply IH|]. apply Forall_forall. intros y Hy. rewrite Forall_forall in Hx.
  specialize (Hx y Hy). apply entry_less_false in Hx. unfold entry_before in *.
  assert (ie_offset x <> ie_offset y) by (intros E; apply Hnin; rewrite E; by apply list_elem_of_fmap_2).
  lia.
Qed.

(** What the binary search leaves out is what is too late. *)
Lemma start_position_spec entries :
  StronglySorted entry_before entries ->
  drop (start_position q entries) entries
  = List.filter (fun e => not_after_until (ie_receivedAt e)) entries.
Proof.
  intros Hs. unfold start_position, not_after_until. destruct (sq_Until q) as [until|];
    [|by rewrite drop_0, filter_all].
  set (f := fun i => match entries !! i with Some e => negb (After (ie_receivedAt e) until) | None => true end).
  destruct (sort_Search_spec (length entries) f) as (Hle & Hlo & Hhi).
  - intros a b Hab. unfold f. destruct (entries !! b) as [eb|] eqn:Hb; [|done].
    destruct (decide (a = b)) as [->|Hne]; [by rewrite Hb|].
    destruct (lookup_lt_is_Some_2 entries a) as [ea Ha].
    { apply lookup_lt_Some in Hb. lia. }
    rewrite Ha. assert (Hbefore : entry_before ea eb).
    { rewrite <- (take_drop b entries) in Hs. eapply StronglySorted_app_mid; [exact Hs| |].
      - apply list_elem_of_lookup. exists a. by rewrite lookup_take_lt by lia.
      - apply list_elem_of_lookup. exists O. by rewrite lookup_drop, Nat.add_0_r. }
    unfold After, entry_before in *. rewrite !negb_true_iff, !Z.ltb_ge. lia.
  - intros a Ha. unfold f. by rewrite lookup_ge_None_2.
  - set (n := sort_Search (length entries) f) in *.
    rewrite <- (take_drop n entries) at 2. rewrite List.filter_app.
    rewrite filter_none, filter_all; [done|..]; intros e (i & Hi)%list_elem_of_lookup.
    + rewrite lookup_drop in Hi. specialize (Hhi (n + i)%nat). unfold f in Hhi. rewrite Hi in Hhi.
      apply Hhi. lia.
    + apply lookup_take_Some in Hi as [Hi Hlt]. specialize (Hlo i Hlt). unfold f in Hlo.
      by rewrite Hi in Hlo.
Qed.

Lemma initial_cursors_spec order files :
  (forall path, path ∈ files ->
     exists index, indexes !! path = Some index /\ covers index (content_of st path)) ->
  let pending := initial_cursors q indexes order files in
  remaining pending ≡ₚ map fst (List.filter (fun im => not_after_until (it_at im.1)) (archive st order files))
  /\ Forall cursor_ok pending /\ NoDup (map ic_order pending)
  /\ Forall (fun c => order <= ic_order c) pending.
Proof.
  revert order. induction files as [|path files IH]; intros order Hcov; cbn [initial_cursors archive].
  { by split_and!; try constructor. }
  destruct (Hcov path) as (index & -> & Hindex); [by left|]. cbv zeta.
  destruct (IH (S order)) as (Hrem & Hok & Hnd & Hord); [intros p Hp; apply Hcov; by right|].
  pose proof (covers_sorted _ _ Hindex) as Hs.
  pose proof (start_position_spec _ Hs) as Hstart. destruct Hindex as (_ & Hperm & _).
  set (entries := fx_entries index) in *. set (position := start_position q entries) in *.
  set (others := initial_cursors q indexes (S order) files) in *.
  set (c := mkIndexCursor path entries position order).
  assert (Hleft : left_of c ≡ₚ map fst (List.filter (fun im : item * Message => not_after_until (it_at im.1))
            (archive_file st order path))).
  { unfold left_of. cbn [c ic_position ic_entries]. rewrite Hstart.
    assert (Hp : List.filter (fun e => not_after_until (ie_receivedAt e)) entries
                 ≡ₚ List.filter (fun e => not_after_until (ie_receivedAt e)) (records (content_of st path)).*1)
      by (by apply filter_perm).
    rewrite Hp. apply reflexive_eq. unfold archive_file.
    clear. induction (records (content_of st path)) as [|r rs IH]; [done|]. cbn.
    unfold it_at at 1. cbn. destruct (not_after_until _); cbn; [f_equal|]; exact IH. }
  assert (Horder : Forall (fun c => order <= ic_order c) others)
    by (eapply Forall_impl; [exact Hord|]; cbn; lia).
  rewrite List.filter_app, map_app, <- Hleft.
  destruct (Nat.ltb_spec position (length entries)) as [Hlt|Hge]; cbn [remaining flat_map].
  - change (flat_map left_of others) with (remaining others). rewrite Hrem.
    split_and!; [done|by constructor|cbn; apply NoDup_cons; split; [|done]|by constructor].
    intros (c' & Heq & Hc')%list_elem_of_fmap. rewrite Forall_forall in Hord.
    specialize (Hord c' Hc'). cbn in Hord, Heq. lia.
  - assert (left_of c = []) as -> by (unfold left_of; cbn; by rewrite drop_ge).
    by split_and!.
Qed.
End Start.

Lemma StronglySorted_filter {A} (R : A -> A -> Prop) (f : A -> bool) l :
  StronglySorted R l -> StronglySorted R (List.filter f l).
Proof.
  induction 1 as [|x l _ IH Hx]; cbn; [constructor|]. destruct (f x); [|done].
  constructor; [done|]. rewrite Forall_forall in *. intros y Hy. apply Hx.
  apply list_elem_of_In in Hy. apply filter_In in Hy as [Hy _]. by apply list_elem_of_In.
Qed.

Lemma StronglySorted_map {A B} (R : B -> B -> Prop) (g : A -> B) l :
  StronglySorted R (map g l) <-> StronglySorted (fun x y => R (g x) (g y)) l.
Proof.
  induction l as [|x l IH]; cbn [map]; [split; constructor|].
  split; intros [Hs Hx]%StronglySorted_inv; constructor; try (by apply IH); by apply Forall_map.
Qed.

(** ** The query *)

Section Query.
Context {GS : GoSort} {GH : GoHeap} {GT : GoText} {GTL : GoTextLaws} {J : GoJson} {JL : GoJsonLaws}.

(** The messages a query asks for. *)
Definition wanted (q : StoreQuery) (matcher : Message -> bool) (m : Message) : bool :=
  not_after_until q (msg_ReceivedAt m) && not_before_since q (msg_ReceivedAt m)
  && (bool_decide (selectedHosts (sq_Hosts q) = ∅) || bool_decide (msg_Hostname m ∈ selectedHosts (sq_Hosts q)))
  && matcher m.

Definition query_limit (q : StoreQuery) : Z :=
  if (sq_Limit q <=? 0)%Z then defaultQueryLimit else sq_Limit q.

(** An empty filter accepts every message. *)
Lemma compiled_empty text matcher m :
  CompileTextFilter text = inl matcher ->
  String.eqb (ToLower (TrimSpace text)) "" || matcher m = matcher m.
Proof.
  unfold CompileTextFilter. destruct (String.eqb_spec (ToLower (TrimSpace text)) "") as [He|]; [|done].
  pose proof (ToLower_empty _ He) as Ht. rewrite Ht in *. cbn. by intros [= <-].
Qed.

Lemma selected_wanted seen q matcher P :
  CompileTextFilter (sq_Text q) = inl matcher -> Forall (readable_item seen) P ->
  List.filter (selected q (selectedHosts (sq_Hosts q)) (ToLower (TrimSpace (sq_Text q))) matcher)
    (map snd (List.filter (fun im => not_after_until q (it_at im.1)) P))
  = List.filter (wanted q matcher) (map snd P).
Proof.
  intros Hm. induction 1 as [|im P (_ & Hat & _) _ IH]; [done|].
  cbn [map List.filter]. change (it_at im.1 = msg_ReceivedAt im.2) in Hat. rewrite Hat.
  unfold wanted at 1.
  destruct (not_after_until q _); cbn [map List.filter andb]; rewrite IH; [|done].
  unfold selected. by rewrite (compiled_empty _ _ _ Hm).
Qed.

(** A query that finds the files of [st], and later at least what they hold, is
    answered with the page of [st]. *)
Lemma query_during_page st seen q matcher :
  store_ok st -> CompileTextFilter (sq_Text q) = inl matcher ->
  list_files (seen at_list) = messageFiles st ->
  (forall path, is_Some (fs_files st !! path) -> seen (at_open path) !! path = fs_files st !! path) ->
  kept_in st seen ->
  exists indexes,
    query_during calm seen q (fs_indexes st)
    = (indexes, inl (page (query_limit q) (sq_Offset q) (List.filter (wanted q matcher) (map snd (timeline st)))))
    /\ store_ok (with_indexes st indexes).
Proof.
  intros Hok Hm Hl Hseen Hkept. unfold query_during. rewrite Hm.
  destruct (queryIndexes_calm st seen Hok Hl Hseen) as (indexes & -> & Hok' & Hcov). exists indexes.
  split; [|done]. f_equal. fold (query_limit q). cbv zeta.
  assert (Hfiles : Forall (fun path => is_Some (fs_files st !! path)) (messageFiles st)).
  { apply Forall_forall. intros path Hpath. by apply elem_of_messageFiles in Hpath as [? _]. }
  destruct (initial_cursors_spec st q indexes 0 (messageFiles st)) as (Hrem & Hcur & Hnd & _).
  { intros path Hpath. apply elem_of_messageFiles in Hpath as [[f Hf] Hp].
    unfold content_of. rewrite Hf. by apply (Hcov path f). }
  set (pending := initial_cursors q indexes 0 (messageFiles st)) in *.
  destruct (heap_Init_spec cursor_less pending cursor_less_strict_weak) as [HP HH].
  destruct (timeline_spec st) as [Htp Hts].
  set (P := List.filter (fun im => not_after_until q (it_at im.1)) (timeline st)).
  assert (HL : map fst P ≡ₚ remaining pending).
  { rewrite Hrem. unfold P. by rewrite (filter_perm _ _ _ Htp). }
  assert (Hr : Forall (readable_item seen) (timeline st))
    by (rewrite Htp; exact (archive_readable st seen _ Hkept Hfiles 0)).
  assert (HPr : Forall (readable_item seen) P).
  { rewrite Forall_forall in *. intros im Him. apply (Hr im). apply list_elem_of_In in Him.
    apply filter_In in Him as [Him _]. by apply list_elem_of_In. }
  assert (HPs : StronglySorted item_before (map fst P)).
  { apply StronglySorted_map, StronglySorted_filter. exact (proj1 (StronglySorted_map _ _ _) Hts). }
  rewrite (query_loop_consume seen q _ _ _ _ _ _ (map fst P)).
  - cbn [default]. rewrite (consume_page seen q) by done. cbn [length app]. rewrite !Z.sub_0_r.
    unfold P, id. by rewrite (selected_wanted seen).
  - split_and!; [done|by rewrite HP|by rewrite HP].
  - by rewrite HL, HP.
  - done.
  - by apply remaining_fuel.
Qed.

Lemma kept_still st : store_ok st -> kept_in st (still st).
Proof.
  intros (Hf & _) path f offset Hpath. split; [by destruct (Hf _ _ Hpath) as [[? _] _]|].
  exists f, ""%string. by rewrite sapp_nil_r.
Qed.

Lemma Query_page st q matcher :
  store_ok st -> CompileTextFilter (sq_Text q) = inl matcher ->
  exists indexes,
    Query calm q st
    = (with_indexes st indexes,
       inl (page (query_limit q) (sq_Offset q) (List.filter (wanted q matcher) (map snd (timeline st)))))
    /\ store_ok (with_indexes st indexes).
Proof.
  intros Hok Hm. unfold Query.
  destruct (query_during_page st (still st) q matcher Hok Hm) as (indexes & -> & Hok');
    [done|done|by apply kept_still|]. by exists indexes.
Qed.
End Query.
