(* ===== verification/StorageHistory.v ===== *)
(** Histories of a message store: what is appended and asked, with appends also
    while a query opens its files.  Whatever happened, the store is well formed
    and its files hold exactly the messages that were accepted. *)
From Stdlib Require Import Ascii ZArith Lia.
From S2P Require Import Prelude.
From S2P Require Import GoStd.
From S2P Require Import GoLib.
From S2P Require Import GoInstances.
From S2P Require Import Model.
From S2P Require Import Storage.
From S2P Require Import StorageLemmas.
From S2P Require Import StorageMerge.
From S2P Require Import StorageQuery.
Local Open Scope list_scope.

Section History.
Context {GS : GoSort} {GH : GoHeap} {GT : GoText} {GTL : GoTextLaws} {J : GoJson} {JL : GoJsonLaws}.

(** What happens to a store that holds the messages [ms], as they are read back:
    no write is cut short, and no line exceeds what the index scanner takes. *)
Inductive store_event (ms : list Message) (st : FileStore) : list Message -> FileStore -> Prop :=
| event_append env modtime now msg line msg' st' :
    Append env (io_written modtime) now msg st = (st', None) ->
    json_Encode (stamped now msg) = Some line ->
    json_Unmarshal (line +:+ newline) = Some msg' ->
    line_fits (line +:+ newline) = true ->
    store_event ms st (ms ++ [msg']) st'
| event_failed env io now msg st' err :
    Append env io now msg st = (st', Some err) ->
    (forall n modtime, io <> io_write_failed n modtime) ->
    store_event ms st ms st'
| event_query env q : store_event ms st ms (Query env q st).1.

Definition later (ms : list Message) (st : FileStore) (ms' : list Message) (st' : FileStore) : Prop :=
  rtc (fun a b => store_event a.1 a.2 b.1 b.2) (ms, st) (ms', st').

(** What a query finds that starts to list the files in [st] and has opened the
    last one by [st']: the walk finds every file that was there at the start, and
    may find one that was made since; each is opened at some time in between. *)
Record indexing (seen : View) (ms : list Message) (st : FileStore) (ms' : list Message) (st' : FileStore) : Prop := {
  ix_later : later ms st ms' st';
  ix_listed : forall path, is_Some (fs_files st !! path) -> is_Some (seen at_list !! path);
  ix_opened : forall path, is_Some (seen at_list !! path) ->
    exists ms1 st1, later ms st ms1 st1 /\ later ms1 st1 ms' st'
      /\ seen (at_open path) = fs_files st1 /\ is_Some (fs_files st1 !! path)
}.

(** Its records are read later still, each at its own time. *)
Definition reading (seen : View) (ms : list Message) (st : FileStore) : Prop :=
  forall path offset, is_Some (seen at_list !! path) ->
    exists ms1 st1 ms2 st2, later ms st ms1 st1 /\ seen (at_open path) = fs_files st1
      /\ later ms1 st1 ms2 st2 /\ seen (at_read path offset) = fs_files st2.

Inductive history : list Message -> FileStore -> Prop :=
| history_new : history [] NewFileStore
| history_event ms st ms' st' : history ms st -> store_event ms st ms' st' -> history ms' st'
| history_overlap ms st ms' st' env seen q :
    history ms st -> indexing seen ms st ms' st' ->
    history ms' (with_indexes st' (query_during env seen q (fs_indexes st)).1).

(** ** Appending *)

Lemma readable_line line msg :
  IndexByte line (ascii_of_nat 10) = None -> line_fits (line +:+ newline) = true ->
  json_Unmarshal (line +:+ newline) = Some msg -> readable (line +:+ newline).
Proof.
  intros Hl Hf Hm. split; [apply complete_line|]. rewrite lines_keep_line by done.
  repeat constructor; [done|by eexists].
Qed.

Lemma records_append content line msg :
  complete content = true -> IndexByte line (ascii_of_nat 10) = None ->
  json_Unmarshal (line +:+ newline) = Some msg ->
  map snd (records (content +:+ (line +:+ newline))) = map snd (records content) ++ [msg].
Proof.
  intros Hc Hl Hm. rewrite records_app, map_app, lines_keep_line by done. cbn. by rewrite Hm.
Qed.

Lemma pathFor_partition msg : is_partition (pathFor msg) = true.
Proof.
  unfold pathFor, is_partition. destruct (civil _) as [[y m] d].
  rewrite <- !sapp_assoc. unfold sourceFilename. cbv zeta. rewrite <- sapp_assoc.
  apply HasSuffix_app.
Qed.

(** The messages of a store, file by file. *)
Definition messages_in (files : gmap string os_file) : list Message :=
  flat_map (fun kf => map snd (records (of_content kf.2))) (map_to_list files).

Definition partitions_only (st : FileStore) : Prop :=
  forall path, is_Some (fs_files st !! path) -> is_partition path = true.

Lemma stored_files st : partitions_only st -> stored st ≡ₚ messages_in (fs_files st).
Proof.
  intros Hp. unfold stored, messageFiles, list_files. rewrite sort_slice_perm. unfold messages_in.
  rewrite filter_all.
  - apply reflexive_eq. unfold content_of.
    assert (H : forall kf, kf ∈ map_to_list (fs_files st) -> fs_files st !! kf.1 = Some kf.2)
      by (intros [k f]; apply elem_of_map_to_list).
    revert H. induction (map_to_list (fs_files st)) as [|kf l IH]; intros H; cbn; [done|].
    rewrite (H kf) by left. f_equal. apply IH. intros kf' ?. apply H. by right.
  - intros path ([k f] & -> & Hkf)%list_elem_of_fmap. apply elem_of_map_to_list in Hkf.
    apply Hp. by exists f.
Qed.

Lemma messages_in_insert files path f :
  messages_in (<[path := f]> files)
  ≡ₚ map snd (records (of_content f)) ++ messages_in (delete path files).
Proof.
  unfold messages_in. rewrite <- insert_delete_eq.
  rewrite map_to_list_insert by apply lookup_delete_eq. done.
Qed.

Lemma messages_in_delete files path f :
  files !! path = Some f ->
  messages_in files ≡ₚ map snd (records (of_content f)) ++ messages_in (delete path files).
Proof. intros Hf. rewrite <- (insert_id files path f Hf) at 1. apply messages_in_insert. Qed.

Lemma write_file_messages path line modtime st msg :
  (forall f, fs_files st !! path = Some f -> complete (of_content f) = true) ->
  IndexByte line (ascii_of_nat 10) = None -> json_Unmarshal (line +:+ newline) = Some msg ->
  messages_in (fs_files (write_file path (line +:+ newline) modtime st))
  ≡ₚ messages_in (fs_files st) ++ [msg].
Proof.
  intros Hc Hl Hm. unfold write_file. destruct (fs_files st !! path) as [f|] eqn:Hf; cbn [fs_files].
  - rewrite messages_in_insert, (messages_in_delete _ _ _ Hf). cbn [of_content].
    rewrite (records_append _ _ msg) by auto. solve_Permutation.
  - rewrite messages_in_insert, delete_id by done. cbn [of_content].
    pose proof (records_append "" line msg eq_refl Hl Hm) as H. rewrite snil_app in H. rewrite H. cbn.
    solve_Permutation.
Qed.

Lemma write_file_ok path line modtime st msg :
  store_ok st -> IndexByte line (ascii_of_nat 10) = None -> line_fits (line +:+ newline) = true ->
  json_Unmarshal (line +:+ newline) = Some msg ->
  store_ok (write_file path (line +:+ newline) modtime st).
Proof.
  intros (Hf & Hi & Hd) Hl Hfit Hm. pose proof (readable_line _ _ Hl Hfit Hm) as Hline.
  unfold write_file. destruct (fs_files st !! path) as [f|] eqn:Hpath; (split_and!; cbn [fs_files fs_next fs_indexes]).
  - intros p f' [[<- <-]|[Hne Hp]]%lookup_insert_Some; cbn; [|by apply Hf in Hp].
    destruct (Hf _ _ Hpath) as [? ?]. split; [by apply readable_app|done].
  - intros p f' index [[<- <-]|[Hne Hp]]%lookup_insert_Some Hindex; [|by eapply Hi].
    intros Hid. destruct (Hi _ _ _ Hpath Hindex Hid) as (pre & suf & Hc & Hpre & Hcov).
    exists pre, (suf +:+ (line +:+ newline)). cbn. by rewrite Hc, sapp_assoc.
  - intros p index Hindex. destruct (decide (p = path)) as [->|Hne].
    + rewrite lookup_insert_eq. by eexists.
    + rewrite lookup_insert_ne by done. by eapply Hd.
  - intros p f' [[<- <-]|[Hne Hp]]%lookup_insert_Some; cbn; [split; [done|lia]|].
    destruct (Hf _ _ Hp). split; [done|lia].
  - intros p f' index [[<- <-]|[Hne Hp]]%lookup_insert_Some Hindex; [|by eapply Hi].
    destruct (Hd _ _ Hindex) as [? ?]. congruence.
  - intros p index Hindex. destruct (decide (p = path)) as [->|Hne].
    + rewrite lookup_insert_eq. by eexists.
    + rewrite lookup_insert_ne by done. by eapply Hd.
Qed.

(** ** Querying does not change the files *)

Lemma index_files_env env seen indexes files next next' :
  index_files env seen indexes files next = inl next' ->
  index_files calm seen indexes files next = inl next'.
Proof.
  revert next. induction files as [|path files IH]; intros next; cbn; [done|].
  destruct (env (at_file path)); [done|]. destruct (env (at_open path)); [done|].
  destruct (seen (at_open path) !! path) as [f|]; [|done].
  destruct (index_file env path f (indexes !! path)) as [index|err] eqn:E; [|done].
  assert (index_file calm path f (indexes !! path) = inl index) as ->.
  { revert E. unfold index_file.
    assert (Hscan : forall content offset entries r, scanIndex env path content offset entries = inl r ->
              scanIndex calm path content offset entries = inl r).
    { intros content. unfold scanIndex. induction (lines_keep content) as [|line lines IHl];
        intros offset entries r; cbn; [done|]. destruct (line_fits line); [|done]. cbn.
      destruct (env _); [done|]. destruct (json_key line) as [[t h]|]; [|done]. apply IHl. }
    repeat case_match; intros [= <-]; try done; erewrite Hscan in * by eassumption; congruence. }
  apply IH.
Qed.

(** A query keeps the indexes, or replaces them by those of all files. *)
Lemma query_during_indexes env seen q indexes :
  (query_during env seen q indexes).1 = indexes
  \/ (query_during env seen q indexes).1 = (queryIndexes calm seen indexes).1.
Proof.
  unfold query_during. destruct (CompileTextFilter (sq_Text q)); [|by left].
  unfold queryIndexes. destruct (env at_list); [by left|]. cbn.
  destruct (index_files env seen indexes (list_files (seen at_list)) ∅) as [next|err] eqn:E; [|by left].
  apply index_files_env in E. rewrite E. by right.
Qed.

Lemma with_same_indexes st : with_indexes st (fs_indexes st) = st.
Proof. by destruct st. Qed.

Lemma Query_store env q st :
  (Query env q st).1 = with_indexes st (query_during env (still st) q (fs_indexes st)).1.
Proof. unfold Query. by destruct (query_during _ _ _ _). Qed.

(** ** Stores with a history *)

(** What an append can do to the store. *)
Lemma Append_cases env io now msg st st' err :
  Append env io now msg st = (st', err) ->
  (st' = st /\ is_Some err)
  \/ exists line, json_Encode (stamped now msg) = Some line
       /\ ((exists modtime, io = io_written modtime /\ err = None
             /\ st' = write_file (pathFor (stamped now msg)) (line +:+ newline) modtime st)
           \/ exists n modtime, io = io_write_failed n modtime /\ is_Some err
             /\ st' = write_file (pathFor (stamped now msg)) (stake n (line +:+ newline)) modtime st).
Proof.
  unfold Append. destruct (env at_start); [intros [= <- <-]; left; by split|].
  destruct (String.eqb (msg_ID msg) ""); [intros [= <- <-]; left; by split|]. cbv zeta.
  destruct io; try (intros [= <- <-]; left; by split);
    (destruct (json_Encode (stamped now msg)) as [line|] eqn:E; [|intros [= <- <-]; left; by split]);
    intros [= <- <-]; try (left; by split); right; exists line; split; try done.
  - left. by eexists.
  - right. by eexists _, _.
Qed.

(** The store and what it holds. *)
Definition holds (ms : list Message) (st : FileStore) : Prop :=
  store_ok st /\ partitions_only st /\ messages_in (fs_files st) ≡ₚ ms.

(** Files are only ever appended to, by whole lines. *)
Definition grows (st st' : FileStore) : Prop :=
  forall path f, fs_files st !! path = Some f ->
    exists f' suf, fs_files st' !! path = Some f' /\ of_content f' = of_content f +:+ suf
                   /\ complete suf = true /\ of_id f' = of_id f.

#[export] Instance grows_preorder : PreOrder grows.
Proof.
  split.
  - intros st path f Hf. exists f, "". by rewrite sapp_nil_r.
  - intros st1 st2 st3 H12 H23 path f Hf. destruct (H12 _ _ Hf) as (f2 & s2 & Hf2 & E2 & C2 & I2).
    destruct (H23 _ _ Hf2) as (f3 & s3 & Hf3 & E3 & C3 & I3). exists f3, (s2 +:+ s3).
    rewrite E3, E2, sapp_assoc, I3. split_and!; [done|done|by apply complete_app|done].
Qed.

Lemma write_file_grows path data modtime st :
  complete data = true -> grows st (write_file path data modtime st).
Proof.
  intros Hd p f Hf. unfold write_file. destruct (decide (p = path)) as [->|Hne].
  - rewrite Hf. cbn. rewrite lookup_insert_eq. by eexists _, data.
  - exists f, "". rewrite sapp_nil_r. destruct (fs_files st !! path); cbn; by rewrite lookup_insert_ne.
Qed.

Lemma store_event_holds ms st ms' st' :
  store_event ms st ms' st' -> holds ms st -> holds ms' st' /\ grows st st'.
Proof.
  intros Hev (Hok & Hp & Hms).
  destruct Hev as [env modtime now msg line msg' st' Ha He Hu Hfit|env io now msg st' err Ha Hio|env q].
  - apply Append_cases in Ha as [[_ [? ?]]|(line' & Hl' & [(mt & [= <-] & _ & ->)|(n & mt & ? & _)])];
      [done| |done]. assert (line' = line) as -> by congruence.
    pose proof (encode_one_line _ _ He) as Hnl. split; [|by apply write_file_grows, complete_line].
    split_and!; [by eapply write_file_ok| |].
    + intros path. unfold write_file. destruct (fs_files st !! _) eqn:E; cbn;
        (intros [f [[<- _]|[_ Hf]]%lookup_insert_Some]; [apply pathFor_partition|apply Hp; by eexists]).
    + rewrite write_file_messages; [by rewrite Hms| |done|done].
      intros f Hf. destruct Hok as (Hread & _). by destruct (Hread _ _ Hf) as [[? _] _].
  - apply Append_cases in Ha as [[-> _]|(line' & _ & [(mt & _ & ? & _)|(n & mt & -> & _)])]; [done..|].
    by destruct (Hio n mt).
  - rewrite Query_store. split; [|intros path f Hf; exists f, ""; by rewrite sapp_nil_r].
    destruct (query_during_indexes env (still st) q (fs_indexes st)) as [-> | ->]; [by rewrite with_same_indexes|].
    by destruct (queryIndexes_calm st (still st) Hok eq_refl (fun _ _ => eq_refl)) as (next & -> & Hok' & _).
Qed.

Lemma new_holds : holds [] NewFileStore.
Proof.
  split; [split_and!; cbn; intros; simplify_map_eq|]. split; [|done].
  intros path [f Hf]. cbn in Hf. simplify_map_eq.
Qed.

Lemma later_holds ms st ms' st' : later ms st ms' st' -> holds ms st -> holds ms' st' /\ grows st st'.
Proof.
  unfold later. intros Hl. remember (ms, st) as a eqn:Ea. remember (ms', st') as b eqn:Eb. revert ms st Ea.
  induction Hl as [a|a [ms1 st1] b Hev _ IH]; intros ms st ->; [by simplify_eq|]. intros Hh.
  destruct (store_event_holds _ _ _ _ Hev Hh) as [Hh1 Hg1].
  destruct (IH Eb ms1 st1 eq_refl Hh1) as [Hh' Hg]. split; [done|by etrans].
Qed.

(** ** Queries that overlap appends *)

(** Each file as it is when the query opens it, in a store of their own. *)
Definition opened (seen : View) (st st' : FileStore) : FileStore :=
  mkFileStore (map_imap (fun path _ => seen (at_open path) !! path) (seen at_list)) (fs_next st') (fs_indexes st).

Lemma lookup_opened seen st st' path :
  fs_files (opened seen st st') !! path = (seen at_list !! path ≫= fun _ => seen (at_open path) !! path).
Proof. unfold opened. cbn. by rewrite map_lookup_imap. Qed.

Lemma string_less_le a b : string_less a b = false <-> String.le b a.
Proof.
  unfold string_less, String.le, String.leb. rewrite (String.compare_antisym a b).
  by destruct (String.compare b a).
Qed.

(** Files are listed in descending order. *)
Lemma list_files_sorted (files : gmap string os_file) :
  StronglySorted (fun x y => String.le y x) (list_files files).
Proof.
  eapply StronglySorted_impl; [|apply sort_slice_sorted].
  - intros x y. apply string_less_le.
  - intros x y. unfold string_less. rewrite (String.compare_antisym x y). by destruct (String.compare y x).
  - intros x y z. rewrite !string_less_le. intros H1 H2. by etrans.
Qed.

(** Two maps of files with the same paths are listed alike. *)
Lemma list_files_dom (files files' : gmap string os_file) :
  (forall path, is_Some (files !! path) <-> is_Some (files' !! path)) -> list_files files = list_files files'.
Proof.
  intros Hd. eapply StronglySorted_unique; [|apply list_files_sorted|apply list_files_sorted|].
  - intros x y ? ?. by apply (anti_symm String.le).
  - unfold list_files. rewrite !sort_slice_perm. apply filter_perm. apply NoDup_Permutation; try apply NoDup_fst_map_to_list.
    intros path. specialize (Hd path). rewrite !list_elem_of_fmap.
    split; intros ([k f] & -> & H%elem_of_map_to_list); cbn in *.
    + destruct (proj1 Hd) as [f' Hf']; [by eexists|]. exists (k, f'). split; [done|by apply elem_of_map_to_list].
    + destruct (proj2 Hd) as [f' Hf']; [by eexists|]. exists (k, f'). split; [done|by apply elem_of_map_to_list].
Qed.

(** What a store holds is still there when its files have grown. *)
Lemma grows_messages files files' :
  (forall path f, files !! path = Some f -> complete (of_content f) = true /\
     exists f' suf, files' !! path = Some f' /\ of_content f' = of_content f +:+ suf) ->
  exists more, messages_in files' ≡ₚ messages_in files ++ more.
Proof.
  revert files'. induction files as [|path f files Hpath IH] using map_ind; intros files' Hg.
  { exists (messages_in files'). unfold messages_in at 2. by rewrite map_to_list_empty. }
  destruct (Hg path f) as (Hc & f' & suf & Hf' & Hsuf); [apply lookup_insert_eq|].
  destruct (IH (delete path files')) as [more Hmore].
  { intros p g Hp. assert (p <> path) by (intros ->; congruence).
    rewrite lookup_delete_ne by done. apply Hg. by rewrite lookup_insert_ne. }
  exists (map snd (records_of (size_of (of_content f)) (lines_keep suf)) ++ more).
  rewrite (messages_in_delete _ _ _ Hf'), messages_in_insert, (delete_id _ _ Hpath), Hmore, Hsuf, records_app, map_app
    by done. solve_Permutation.
Qed.

(** The indexes of a store stay good for what it grows into. *)
Lemma indexes_kept st st' :
  store_ok st -> grows st st' ->
  (forall path f, fs_files st' !! path = Some f -> readable (of_content f) /\ (of_id f < fs_next st')%nat) ->
  store_ok (with_indexes st' (fs_indexes st)).
Proof.
  intros (_ & Hi & Hd) Hg Hread. split_and!; [exact Hread|cbn..].
  - intros path f' index Hpath Hindex Hid. destruct (Hd _ _ Hindex) as [f Hf].
    destruct (Hg _ _ Hf) as (f2 & suf & Hf2 & Hsuf & _ & Hsame). simplify_eq.
    destruct (Hi _ _ _ Hf Hindex) as (pre & rest & Hc & Hpre & Hcov); [congruence|].
    exists pre, (rest +:+ suf). by rewrite Hsuf, Hc, sapp_assoc.
  - intros path index [f Hf]%Hd. destruct (Hg _ _ Hf) as (f' & _ & Hf' & _). by eexists.
Qed.

(** A file of that store was found in a store on the way. *)
Lemma opened_file seen ms st ms' st' path f :
  indexing seen ms st ms' st' -> fs_files (opened seen st st') !! path = Some f ->
  seen (at_open path) !! path = Some f
  /\ exists ms1 st1, later ms st ms1 st1 /\ later ms1 st1 ms' st' /\ fs_files st1 !! path = Some f.
Proof.
  intros [_ _ Ho]. rewrite lookup_opened. destruct (seen at_list !! path) as [g|] eqn:Hg; [|done]. cbn.
  intros Hf. split; [done|]. destruct (Ho path) as (ms1 & st1 & H1 & H2 & Hs & _); [by eexists|].
  exists ms1, st1. by rewrite <- Hs.
Qed.

Lemma opened_between seen ms st ms' st' :
  holds ms st -> indexing seen ms st ms' st' ->
  grows st (opened seen st st') /\ grows (opened seen st st') st'.
Proof.
  intros Hh Hix. split; intros path f Hf.
  - destruct (ix_listed _ _ _ _ _ Hix path) as [g Hg]; [by eexists|].
    destruct (ix_opened _ _ _ _ _ Hix path) as (ms1 & st1 & H1 & _ & Hs & _); [by eexists|].
    destruct (later_holds _ _ _ _ H1 Hh) as [_ Hg1]. rewrite lookup_opened, Hg, Hs. by apply Hg1.
  - destruct (opened_file _ _ _ _ _ _ _ Hix Hf) as (_ & ms1 & st1 & H1 & H2 & Hf1).
    destruct (later_holds _ _ _ _ H1 Hh) as [Hh1 _]. destruct (later_holds _ _ _ _ H2 Hh1) as [_ Hg].
    by apply Hg.
Qed.

Lemma opened_ok seen ms st ms' st' :
  holds ms st -> indexing seen ms st ms' st' -> store_ok (opened seen st st').
Proof.
  intros Hh Hix. apply (indexes_kept st (opened seen st st')); [apply Hh|by eapply opened_between|].
  intros path f Hf. destruct (opened_file _ _ _ _ _ _ _ Hix Hf) as (_ & ms1 & st1 & H1 & H2 & Hf1).
  destruct (later_holds _ _ _ _ H1 Hh) as [Hh1 _]. destruct (later_holds _ _ _ _ H2 Hh1) as [Hh' Hg].
  destruct Hh1 as ((Hr & _) & _). split; [by apply (Hr path)|].
  destruct (Hg _ _ Hf1) as (f' & _ & Hf' & _ & _ & <-). destruct Hh' as ((Hr' & _) & _). by apply (Hr' path).
Qed.

(** It is what the query lists and opens. *)
Lemma opened_seen seen ms st ms' st' :
  indexing seen ms st ms' st' ->
  list_files (seen at_list) = messageFiles (opened seen st st')
  /\ forall path, is_Some (fs_files (opened seen st st') !! path) ->
       seen (at_open path) !! path = fs_files (opened seen st st') !! path.
Proof.
  intros Hix. split.
  - apply list_files_dom. intros path. rewrite lookup_opened. split.
    + intros H. destruct (ix_opened _ _ _ _ _ Hix path H) as (_ & st1 & _ & _ & -> & H1).
      by destruct H as [g ->].
    + intros [f Hf]. destruct (seen at_list !! path); [by eexists|done].
  - intros path [f Hf]. rewrite Hf. by eapply opened_file.
Qed.

(** It holds what was accepted before, and nothing that was not accepted. *)
Lemma opened_messages seen ms st ms' st' :
  holds ms st -> indexing seen ms st ms' st' ->
  partitions_only (opened seen st st')
  /\ exists early missed, messages_in (fs_files (opened seen st st')) ≡ₚ ms ++ early
       /\ ms' ≡ₚ messages_in (fs_files (opened seen st st')) ++ missed.
Proof.
  intros Hh Hix. destruct (later_holds _ _ _ _ (ix_later _ _ _ _ _ Hix) Hh) as [(Hok' & Hp' & Hms') _].
  destruct (opened_between _ _ _ _ _ Hh Hix) as [Hg1 Hg2]. destruct (opened_ok _ _ _ _ _ Hh Hix) as (Hr & _).
  destruct Hh as ((Hr0 & _) & _ & Hms). split.
  - intros path [f Hf]. destruct (Hg2 _ _ Hf) as (f' & _ & Hf' & _). apply Hp'. by eexists.
  - destruct (grows_messages (fs_files st) (fs_files (opened seen st st'))) as [early He].
    { intros path f Hf. destruct (Hg1 _ _ Hf) as (f' & suf & Hf' & Hs & _).
      split; [by destruct (Hr0 _ _ Hf) as [[? _] _]|by exists f', suf]. }
    destruct (grows_messages (fs_files (opened seen st st')) (fs_files st')) as [missed Hm].
    { intros path f Hf. destruct (Hg2 _ _ Hf) as (f' & suf & Hf' & Hs & _).
      split; [by destruct (Hr _ _ Hf) as [[? _] _]|by exists f', suf]. }
    exists early, missed. by rewrite He, <- Hms', Hm, He, Hms.
Qed.

Lemma overlap_holds env seen q ms st ms' st' :
  holds ms st -> indexing seen ms st ms' st' ->
  holds ms' (with_indexes st' (query_during env seen q (fs_indexes st)).1).
Proof.
  intros Hh Hix. destruct (later_holds _ _ _ _ (ix_later _ _ _ _ _ Hix) Hh) as [(Hok' & Hp' & Hms') Hg].
  split; [|done]. pose proof Hok' as (Hr' & _).
  destruct (query_during_indexes env seen q (fs_indexes st)) as [-> | ->].
  - apply indexes_kept; [apply Hh|done|done].
  - destruct (opened_seen _ _ _ _ _ Hix) as [Hl Ho].
    destruct (queryIndexes_calm (opened seen st st') seen) as (next & Heq & Hok & _);
      [by eapply opened_ok|done|done|].
    change (fs_indexes st) with (fs_indexes (opened seen st st')). rewrite Heq. cbn [fst].
    apply (indexes_kept (with_indexes (opened seen st st') next) st'); [done| |done].
    by apply (opened_between _ _ _ _ _ Hh Hix).
Qed.

Lemma history_ok ms st : history ms st -> holds ms st.
Proof.
  induction 1 as [|ms st ms' st' _ IH Hev|ms st ms' st' env seen q _ IH Hix].
  - apply new_holds.
  - by eapply store_event_holds.
  - by eapply overlap_holds.
Qed.
End History.
