(* ===== verification/StorageProps.v ===== *)
(** Properties of the message store: whatever was appended and queried before, a
    query answers with a page of exactly the messages that were accepted; the
    names of the partitions stay inside the root; a record that is too long
    makes the store unreadable. *)
From Stdlib Require Import Ascii ZArith Lia.
From S2P Require Import Prelude.
From S2P Require Import GoStd.
From S2P Require Import GoLib.
From S2P Require Import GoInstances.
From S2P Require Import Model.
From S2P Require Import Storage.
From S2P Require Import StorageLemmas.
From S2P Require Import StorageMerge.
From S2P Require Import StorageQuery.
From S2P Require Import StorageHistory.
Local Open Scope list_scope.

Section History.
Context {GS : GoSort} {GH : GoHeap} {GT : GoText} {GTL : GoTextLaws} {J : GoJson} {JL : GoJsonLaws}.

(** The accepted messages in the order every query uses. *)
Definition archive_order (st : FileStore) : list Message := map snd (timeline st).

Lemma archive_order_spec (st : FileStore) :
  store_ok st -> partitions_only st ->
  archive_order st ≡ₚ messages_in (fs_files st)
  /\ StronglySorted (fun a b => msg_ReceivedAt b <= msg_ReceivedAt a)%Z (archive_order st).
Proof.
  intros Hok Hp. destruct (timeline_spec st) as [Hperm Hsorted]. unfold archive_order. split.
  - rewrite Hperm, archive_messages. change (stored st ≡ₚ messages_in (fs_files st)). by apply stored_files.
  - apply StronglySorted_map. assert (Hr : Forall (readable_item (still st)) (timeline st)).
    { rewrite Hperm. apply (archive_readable st); [by apply kept_still|]. apply Forall_forall. intros path Hpath.
      by apply elem_of_messageFiles in Hpath as [? _]. }
    apply (proj1 (StronglySorted_map _ _ _)) in Hsorted. clear Hperm. revert Hr.
    induction Hsorted as [|x l _ IH Hx]; [constructor|]. intros [Hxr Hr]%Forall_cons.
    constructor; [by apply IH|]. rewrite Forall_forall in *. intros y Hy. specialize (Hx y Hy).
    destruct (Hr y Hy) as (_ & Hay & _), Hxr as (_ & Hax & _). unfold item_before, it_at in Hx. lia.
Qed.

Lemma store_order (ms : list Message) (st : FileStore) :
  history ms st ->
  archive_order st ≡ₚ ms /\ StronglySorted (fun a b => msg_ReceivedAt b <= msg_ReceivedAt a)%Z (archive_order st).
Proof. intros (Hok & Hp & <-)%history_ok. by apply archive_order_spec. Qed.

(** C7: whatever has been appended to and asked of a store, in whatever order
    and with whatever failures, as long as no write was cut short and no line
    is longer than the index scanner takes, there is one order of the accepted
    messages, latest first, such that every query with a valid filter is
    answered with the requested page of the messages in that order that it asks
    for. *)
Theorem query_answers_page (ms : list Message) (st : FileStore) :
  history ms st ->
  exists all, all ≡ₚ ms /\ StronglySorted (fun a b => msg_ReceivedAt b <= msg_ReceivedAt a)%Z all
    /\ forall q matcher, CompileTextFilter (sq_Text q) = inl matcher ->
         (Query calm q st).2
         = inl (page (query_limit q) (sq_Offset q) (List.filter (wanted q matcher) all)).
Proof.
  intros Hh. exists (archive_order st). destruct (store_order ms st Hh) as [Hperm Hsorted]. split; [done|]. split; [done|].
  intros q matcher Hm. apply history_ok in Hh as (Hok & _).
  by destruct (Query_page st q matcher Hok Hm) as (indexes & -> & _).
Qed.

End History.

(** ** Concrete stores *)

#[local] Existing Instance merge_sort_slice.

Definition stored_at (t : Z) (id host text : string) : Message :=
  tab_message (Date 2026 9 18 12 0 0 + t * Second) id host text.

(** Three messages of two routers, out of order, each followed by a query that
    builds or extends the index. *)
Definition three_messages : list Message :=
  [stored_at 10 "m1" "router-a" "link up"; stored_at 30 "m2" "router-b" "link down";
   stored_at 20 "m3" "router-a" "link Down"].

Definition ask (text : string) (hosts : list string) (limit offset : Z) : StoreQuery :=
  mkStoreQuery text hosts limit offset None None.

Definition append_and_ask (st : FileStore) (m : Message) : FileStore :=
  (Query calm (ask "" [] 0 0) (Append calm (io_written 0) 0 m st).1).1.

Definition three_stored : FileStore := fold_left append_and_ask three_messages NewFileStore.

Lemma append_and_ask_history ms st m :
  history ms st ->
  (Append calm (io_written 0) 0 m st).2 = None -> json_Encode (stamped 0 m) = Some (tab_line m) ->
  json_Unmarshal (tab_line m +:+ newline) = Some m -> line_fits (tab_line m +:+ newline) = true ->
  history (ms ++ [m]) (append_and_ask st m).
Proof.
  intros Hh Ha He Hu Hf. eapply history_event; [|apply event_query]. eapply history_event; [exact Hh|].
  eapply event_append; [|exact He|exact Hu|exact Hf]. rewrite <- Ha. apply surjective_pairing.
Qed.

Lemma three_stored_history : history three_messages three_stored.
Proof.
  change three_messages with ((([] ++ [stored_at 10 "m1" "router-a" "link up"])
    ++ [stored_at 30 "m2" "router-b" "link down"]) ++ [stored_at 20 "m3" "router-a" "link Down"]).
  unfold three_stored, three_messages. cbn [fold_left].
  repeat (apply append_and_ask_history; [|vm_compute; reflexivity..]). apply history_new.
Qed.

(** "down" in either case, the second page of one row; and by host. *)
Example three_stored_answers :
  (sum_map (map msg_ID) id (Query calm (ask "DOWN" [] 1 1) three_stored).2 = inl ["m3"])
  /\ (sum_map (map msg_ID) id (Query calm (ask "" ["router-a"] 10 0) three_stored).2 = inl ["m3"; "m1"]).
Proof. vm_compute. by split. Qed.

Lemma query_answers_page_witness :
  exists all, all ≡ₚ three_messages /\ StronglySorted (fun a b => msg_ReceivedAt b <= msg_ReceivedAt a)%Z all
    /\ forall q matcher, CompileTextFilter (sq_Text q) = inl matcher ->
         (Query calm q three_stored).2
         = inl (page (query_limit q) (sq_Offset q) (List.filter (wanted q matcher) all)).
Proof. apply (query_answers_page three_messages three_stored three_stored_history). Defined.

(** A search for "null" finds every message without structured data: the nil map
    is printed as [null] into the text that is searched. *)
Example null_finds_everything :
  sum_map (map msg_ID) id (Query calm (ask "null" [] 10 0) three_stored).2 = inl ["m2"; "m3"; "m1"].
Proof. vm_compute. reflexivity. Qed.
