(* ===== verification/StorageBlocked.v ===== *)
(** Records that block every query: too long for the scanner, or glued to the half
    of another one. *)
From Stdlib Require Import Ascii ZArith Lia.
From S2P Require Import Prelude.
From S2P Require Import GoStd.
From S2P Require Import GoLib.
From S2P Require Import GoInstances.
From S2P Require Import Model.
From S2P Require Import Storage.
From S2P Require Import StorageLemmas.
From S2P Require Import StorageMerge.
From S2P Require Import StorageQuery.
From S2P Require Import StorageHistory.
From S2P Require Import StorageProps.
Local Open Scope list_scope.

Section History.
Context {GS : GoSort} {GH : GoHeap} {GT : GoText} {GTL : GoTextLaws} {J : GoJson} {JL : GoJsonLaws}.

(** A line the scanner refuses: it does not fit, or it cannot be read. *)
Definition unreadable (line : string) : Prop := line_fits line = false \/ json_key line = None.

(** Some partition holds such a line, behind everything that has been indexed. *)
Definition blocked (st : FileStore) : Prop :=
  exists path f pre line suf,
    fs_files st !! path = Some f /\ is_partition path = true
    /\ of_content f = pre +:+ ((line +:+ newline) +:+ suf) /\ complete pre = true
    /\ IndexByte line (ascii_of_nat 10) = None /\ unreadable (line +:+ newline)
    /\ forall index, fs_indexes st !! path = Some index -> fi_id (fx_info index) = of_id f ->
         exists before behind, pre = before +:+ behind /\ fi_Size (fx_info index) = size_of before.

Lemma scan_blocked env path pre line suf offset entries :
  complete pre = true -> IndexByte line (ascii_of_nat 10) = None ->
  unreadable (line +:+ newline) ->
  exists err, scanIndex env path (pre +:+ ((line +:+ newline) +:+ suf)) offset entries = inr err.
Proof.
  intros Hpre Hl Hf. apply scan_lines_stuck.
  rewrite lines_keep_app, lines_keep_app, (lines_keep_line line) by (done || apply complete_line).
  apply Exists_app. right. apply Exists_app. left. by constructor.
Qed.

Lemma index_file_blocked env path f pre line suf previous :
  of_content f = pre +:+ ((line +:+ newline) +:+ suf) -> complete pre = true ->
  IndexByte line (ascii_of_nat 10) = None -> unreadable (line +:+ newline) ->
  (forall index, previous = Some index -> fi_id (fx_info index) = of_id f ->
     exists before behind, pre = before +:+ behind /\ fi_Size (fx_info index) = size_of before) ->
  exists err, index_file env path f previous = inr err.
Proof.
  intros Hc Hpre Hl Hf Hprev.
  assert (Hscan : forall entries, exists err, scanIndex env path (of_content f) 0 entries = inr err)
    by (intros; rewrite Hc; by apply scan_blocked).
  destruct previous as [index|]; cbn [index_file]; [|destruct (Hscan []) as [err ->]; by eexists].
  destruct (SameFile (fx_info index) (stat f)) eqn:Hsame; unfold unchanged, grown; rewrite Hsame; cbn [andb].
  2: { destruct (Hscan []) as [err Herr]. change (sdrop (Z.to_nat 0) (of_content f)) with (of_content f).
       rewrite Herr. by eexists. }
  apply Nat.eqb_eq in Hsame. destruct (Hprev index eq_refl Hsame) as (before & behind & -> & Hsize).
  change (fi_Size (stat f)) with (size_of (of_content f)). rewrite Hsize, Hc, !size_of_app.
  assert (1 <= size_of newline)%Z by done.
  pose proof (size_of_nonneg behind). pose proof (size_of_nonneg line). pose proof (size_of_nonneg suf).
  rewrite (proj2 (Z.eqb_neq _ _)), (proj2 (Z.ltb_lt _ _)) by lia. cbn [andb].
  replace (Z.to_nat (size_of before)) with (String.length before) by (unfold size_of; lia).
  rewrite sapp_assoc, sdrop_app. apply complete_app_r in Hpre.
  destruct (scan_blocked env path behind line suf (size_of before) (fx_entries index) Hpre Hl Hf) as [err ->].
  by eexists.
Qed.

Lemma index_files_blocked env st files next path f :
  path ∈ files -> fs_files st !! path = Some f ->
  (exists err, index_file env path f (fs_indexes st !! path) = inr err) ->
  exists err, index_files env (still st) (fs_indexes st) files next = inr err.
Proof.
  intros Hin Hf [err Herr]. revert next. induction files as [|p files IH]; intros next.
  { by apply elem_of_nil in Hin. }
  cbn. destruct (env (at_file p)); [by eexists|]. destruct (env (at_open p)); [by eexists|].
  unfold still at 1. destruct (fs_files st !! p) as [fp|] eqn:Hp; [|by eexists].
  destruct (index_file env p fp (fs_indexes st !! p)) as [index|e] eqn:E; [|by eexists].
  apply elem_of_cons in Hin as [->|Hin]; [congruence|]. by apply IH.
Qed.

Lemma blocked_query env q st : blocked st -> exists err, Query env q st = (st, inr err).
Proof.
  intros (path & f & pre & line & suf & Hf & Hp & Hc & Hpre & Hl & Hfit & Hidx).
  assert (H : exists err, query_during env (still st) q (fs_indexes st) = (fs_indexes st, inr err)).
  { unfold query_during. destruct (CompileTextFilter (sq_Text q)); [|by eexists].
    unfold queryIndexes. destruct (env at_list); [by eexists|].
    destruct (index_files_blocked env st (messageFiles st) ∅ path f) as [err Herr]; [|done| |].
    - apply elem_of_messageFiles. by split; [eexists|].
    - by eapply index_file_blocked.
    - change (list_files (still st at_list)) with (messageFiles st). rewrite Herr. by eexists. }
  destruct H as [err H]. exists err. unfold Query. by rewrite H, with_same_indexes.
Qed.

Lemma blocked_append env io now msg st : blocked st -> blocked (Append env io now msg st).1.
Proof.
  intros Hb. destruct (Append env io now msg st) as [st' err] eqn:Ha. cbn.
  assert (H : st' = st \/ exists path data modtime, st' = write_file path data modtime st).
  { apply Append_cases in Ha as [[-> _]|(line & _ & [(mt & _ & _ & ->)|(n & mt & _ & _ & ->)])];
      [by left|right..]; by eexists _, _, _. }
  destruct H as [->|(path' & data & modtime & ->)]; [done|].
  destruct Hb as (path & f & pre & line & suf & Hf & Hp & Hc & Hpre & Hl & Hfit & Hidx).
  destruct (decide (path' = path)) as [->|Hne].
  - exists path, (mkOsFile (of_id f) (of_content f +:+ data) modtime), pre, line, (suf +:+ data).
    unfold write_file. rewrite Hf. cbn. rewrite lookup_insert_eq, Hc, !sapp_assoc. by split_and!.
  - exists path, f, pre, line, suf. unfold write_file.
    destruct (fs_files st !! path'); cbn; rewrite lookup_insert_ne by done; by split_and!.
Qed.

(** What can happen to a store, under any environment and with any write cut
    short. *)
Inductive store_step (st : FileStore) : FileStore -> Prop :=
| step_append env io now msg : store_step st (Append env io now msg st).1
| step_query env q : store_step st (Query env q st).1.

Lemma blocked_steps st st' : rtc store_step st st' -> blocked st -> blocked st'.
Proof.
  induction 1 as [|st1 st2 st3 [env io now msg|env q] _ IH]; intros Hb; [done|..]; apply IH.
  - by apply blocked_append.
  - destruct (blocked_query env q st1 Hb) as [err ->]. done.
Qed.

(** ** Half a record *)

Lemma IndexByte_app a b c :
  IndexByte a c = None -> IndexByte b c = None -> IndexByte (a +:+ b) c = None.
Proof.
  unfold IndexByte. intros Ha Hb. induction a as [|d a IH]; [done|]. rewrite scons_app.
  cbn [Index String.prefix] in *. destruct (ascii_dec c d); [by destruct a|].
  destruct (Index a _); [done|]. by rewrite IH.
Qed.

(** What is at the end of a partition before a message is appended: nothing, or the
    bytes a failed write left of a record. *)
Inductive left_behind (st : FileStore) (path : string) : FileStore -> string -> Prop :=
| nothing_left : left_behind st path st ""
| half_a_record env n modtime now msg line :
    env at_start = None -> msg_ID msg <> "" -> json_Encode (stamped now msg) = Some line ->
    pathFor (stamped now msg) = path -> n <= String.length line ->
    left_behind st path (Append env (io_write_failed n modtime) now msg st).1 (stake n line).

Lemma stake_le n a b : n <= String.length a -> stake n (a +:+ b) = stake n a.
Proof.
  revert n. induction a as [|c a IH]; intros [|n] Hn; cbn in Hn; try done; [lia|].
  rewrite scons_app. cbn. rewrite IH by lia. done.
Qed.

Lemma IndexByte_prefix a b c : IndexByte (a +:+ b) c = None -> IndexByte a c = None.
Proof.
  unfold IndexByte. induction a as [|d a IH]; [done|]. rewrite scons_app. cbn.
  destruct (ascii_dec c d); [by destruct (a +:+ b)|]. destruct (Index (a +:+ b) _); [done|]. by rewrite IH.
Qed.

Lemma stake_split n s : s = stake n s +:+ sdrop n s.
Proof. revert s. induction n as [|n IH]; intros [|c s]; [done..|]. cbn. by rewrite scons_app, <- IH. Qed.

Lemma left_behind_written st path st1 part :
  left_behind st path st1 part ->
  IndexByte part (ascii_of_nat 10) = None
  /\ forall data modtime, exists modtime', write_file path data modtime st1 = write_file path (part +:+ data) modtime' st.
Proof.
  intros [|env n mt now msg line Henv Hid He Hpath Hn].
  - split; [done|]. intros data modtime. exists modtime. by rewrite snil_app.
  - pose proof (encode_one_line _ _ He) as Hnl.
    split. { rewrite (stake_split n line) in Hnl. by eapply IndexByte_prefix. }
    intros data modtime. exists modtime. unfold Append.
    rewrite Henv, (proj2 (String.eqb_neq _ _) Hid), He, Hpath. cbn match zeta. cbn [fst].
    rewrite (stake_le _ _ _ Hn). unfold write_file. destruct (fs_files st !! path) as [f|] eqn:Hf; cbn.
    + rewrite lookup_insert_eq, insert_insert_eq. cbn. by rewrite sapp_assoc.
    + rewrite lookup_insert_eq, insert_insert_eq. done.
Qed.

Lemma written_blocked ms st path line modtime :
  history ms st -> is_partition path = true -> IndexByte line (ascii_of_nat 10) = None ->
  unreadable (line +:+ newline) -> blocked (write_file path (line +:+ newline) modtime st).
Proof.
  intros (Hok & _)%history_ok Hpart Hnl Hbad. unfold write_file. destruct (fs_files st !! path) as [f|] eqn:Hf.
  - exists path, (mkOsFile (of_id f) (of_content f +:+ (line +:+ newline)) modtime), (of_content f), line, "".
    cbn. rewrite lookup_insert_eq, sapp_nil_r. destruct Hok as (Hread & Hidx & _).
    destruct (Hread _ _ Hf) as [[Hc _] _]. split_and!; try done.
    intros index Hindex Hid. destruct (Hidx _ _ _ Hf Hindex Hid) as (pre & suf & -> & _ & Hsize & _).
    by exists pre, suf.
  - exists path, (mkOsFile (fs_next st) (line +:+ newline) modtime), "", line, "".
    cbn. rewrite lookup_insert_eq, sapp_nil_r. split_and!; try done.
    intros index Hindex _. destruct Hok as (_ & _ & Hdom). destruct (Hdom _ _ Hindex) as [f' Hf']. congruence.
Qed.

(** C37: a message is accepted whatever the size of its record and whatever the
    file ends with; but once a record is larger than the index scanner's buffer,
    or continues the half of one that a failed write left so that the line cannot
    be read, no query is ever answered again, whatever is appended and asked
    afterwards. *)
Theorem unreadable_record_blocks_queries (ms : list Message) (st st1 st' st'' : FileStore) (env : Env)
    (modtime now : Time) (msg : Message) (part line : string) :
  history ms st -> left_behind st (pathFor (stamped now msg)) st1 part ->
  Append env (io_written modtime) now msg st1 = (st', None) -> json_Encode (stamped now msg) = Some line ->
  unreadable (part +:+ (line +:+ newline)) -> rtc store_step st' st'' ->
  forall env' q, exists err, Query env' q st'' = (st'', inr err).
Proof.
  intros Hh Hleft Ha He Hbad Hsteps env' q. apply blocked_query.
  apply (blocked_steps st' st'' Hsteps). clear Hsteps.
  apply Append_cases in Ha as [[_ [? ?]]|(line' & Hl' & [(mt & [= <-] & _ & ->)|(n & mt & ? & _)])]; [done| |done].
  assert (line' = line) as -> by congruence. pose proof (encode_one_line _ _ He) as Hnl.
  destruct (left_behind_written _ _ _ _ Hleft) as [Hpart Hw].
  destruct (Hw (line +:+ newline) modtime) as [modtime' ->]. rewrite <- sapp_assoc in *.
  eapply written_blocked; [exact Hh|apply pathFor_partition|by apply IndexByte_app|exact Hbad].
Qed.
End History.

(** ** Concrete records *)

#[local] Existing Instance merge_sort_slice.

(** A message whose record does not fit the scanner. *)
Fixpoint repeated (n : nat) (c : ascii) : string :=
  match n with O => EmptyString | S n' => String c (repeated n' c) end.

Lemma repeated_length n c : String.length (repeated n c) = n.
Proof. induction n as [|n IH]; cbn; congruence. Qed.

Lemma repeated_no_newline n : IndexByte (repeated n "a") (ascii_of_nat 10) = None.
Proof. induction n as [|n IH]; [done|]. unfold IndexByte in *. cbn in *. by rewrite IH. Qed.

Definition long_prefix : string := tab_line (stored_at 0 "big" "router-a" "").

Lemma tab_line_long text :
  IndexByte text (ascii_of_nat 10) = None -> (maxScannerToken <= size_of text)%Z ->
  let m := stored_at 0 "big" "router-a" text in
  json_Encode (stamped 0 m) = Some (tab_line m) /\ line_fits (tab_line m +:+ newline) = false.
Proof.
  intros Hnl Hsize m. change (stamped 0 m) with m.
  assert (Hl : tab_line m = long_prefix +:+ text) by reflexivity. split.
  - cbn [json_Encode tab_codec]. unfold tab_encode. cbv zeta.
    rewrite Hl, IndexByte_app by (done || reflexivity). rewrite <- Hl.
    unfold tab_decode. rewrite TrimSuffix_app. unfold tab_line at 1.
    rewrite cut_at_app by reflexivity. cbn [m stored_at tab_message msg_ReceivedAt msg_ID msg_Hostname msg_Message].
    rewrite !cut_at_app by reflexivity. reflexivity.
  - unfold line_fits. rewrite HasSuffix_app, Hl, !size_of_app. apply Z.leb_gt.
    pose proof (size_of_nonneg long_prefix). assert (size_of newline = 1%Z) as -> by done. lia.
Qed.


Lemma long_record_blocked :
  exists text st', Append calm (io_written 0) 0 (stored_at 0 "big" "router-a" text) NewFileStore = (st', None)
    /\ json_Encode (stamped 0 (stored_at 0 "big" "router-a" text)) = Some (tab_line (stored_at 0 "big" "router-a" text))
    /\ line_fits (tab_line (stored_at 0 "big" "router-a" text) +:+ newline) = false.
Proof.
  destruct (tab_line_long (repeated (Z.to_nat maxScannerToken) "a")) as [He Hf].
  { apply repeated_no_newline. }
  { unfold size_of. rewrite repeated_length, Z2Nat.id; [apply Z.le_refl|discriminate]. }
  revert He Hf. generalize (repeated (Z.to_nat maxScannerToken) "a"). intros text He Hf.
  exists text. eexists. split; [|by split]. unfold Append. cbn [calm]. rewrite He. reflexivity.
Qed.

(** The disk is full after one byte of "old"; "new" is written behind it. *)
Definition archived (id : string) : Message := tab_message (Date (-1) 1 1 12 0 0) id "router-a" "link down".
Definition torn : FileStore := (Append calm (io_write_failed 1 0) 0 (archived "old") NewFileStore).1.
Definition mended : FileStore := (Append calm (io_written 0) 0 (archived "new") torn).1.

Definition torn_line : string := tab_line (archived "old").
Definition new_line : string := tab_line (archived "new").

Lemma unreadable_record_blocks_queries_witness :
  (exists text st', Append calm (io_written 0) 0 (stored_at 0 "big" "router-a" text) NewFileStore = (st', None)
    /\ forall st'', rtc store_step st' st'' -> forall env q, exists err, Query env q st'' = (st'', inr err))
  /\ forall st'', rtc store_step mended st'' -> forall env q, exists err, Query env q st'' = (st'', inr err).
Proof.
  split.
  - destruct long_record_blocked as (text & st' & Ha & He & Hf). exists text, st'. split; [exact Ha|].
    intros st'' Hs. eapply (unreadable_record_blocks_queries [] NewFileStore NewFileStore st' st'' calm 0 0).
    + exact history_new.
    + apply nothing_left.
    + exact Ha.
    + exact He.
    + left. exact Hf.
    + exact Hs.
  - intros st'' Hs.
    eapply (unreadable_record_blocks_queries [] NewFileStore torn mended st'' calm 0 0 (archived "new")
      (stake 1 torn_line) new_line).
    + exact history_new.
    + apply (half_a_record NewFileStore _ calm 1 0 0 (archived "old") torn_line);
        [reflexivity|discriminate|reflexivity|reflexivity|vm_compute; lia].
    + unfold mended. rewrite (surjective_pairing (Append _ _ _ _ _)) at 1. reflexivity.
    + vm_compute. reflexivity.
    + right. vm_compute. reflexivity.
    + exact Hs.
Defined.
