(* ===== verification/StorageOverlap.v ===== *)
(** Queries that overlap appends: what such a query answers, and that it need
    not be what the store held at any one instant. *)
From Stdlib Require Import ZArith Lia.
From S2P Require Import Prelude.
From S2P Require Import GoStd.
From S2P Require Import GoLib.
From S2P Require Import GoInstances.
From S2P Require Import Model.
From S2P Require Import Storage.
From S2P Require Import StorageLemmas.
From S2P Require Import StorageMerge.
From S2P Require Import StorageQuery.
From S2P Require Import StorageHistory.
From S2P Require Import StorageProps.
Local Open Scope list_scope.

Section Overlap.
Context {GS : GoSort} {GH : GoHeap} {GT : GoText} {GTL : GoTextLaws} {J : GoJson} {JL : GoJsonLaws}.

(** The records the query reads are those it has indexed. *)
Lemma opened_kept seen ms st ms' st' :
  holds ms st -> indexing seen ms st ms' st' -> reading seen ms st -> kept_in (opened seen st st') seen.
Proof.
  intros Hh Hix Hrd path f offset Hf.
  destruct (opened_ok _ _ _ _ _ Hh Hix) as (Hr & _). split; [by destruct (Hr _ _ Hf) as [[? _] _]|].
  destruct (opened_file _ _ _ _ _ _ _ Hix Hf) as (Hf1 & _).
  assert (Hl : is_Some (seen at_list !! path)).
  { rewrite lookup_opened in Hf. destruct (seen at_list !! path); [by eexists|done]. }
  destruct (Hrd path offset Hl) as (ms1 & st1 & ms2 & st2 & H1 & Hs1 & H2 & Hs2).
  destruct (later_holds _ _ _ _ H1 Hh) as [Hh1 _]. destruct (later_holds _ _ _ _ H2 Hh1) as [_ Hg].
  rewrite Hs1 in Hf1. destruct (Hg _ _ Hf1) as (f' & suf & Hf' & Hsuf & _).
  exists f', suf. by rewrite Hs2.
Qed.

(** C8: a query that overlaps appends, from other
    requests and the listener, is answered as well: there is one list of
    messages, latest first, that holds every message accepted before the query
    started, none that was not accepted by the time it had opened its last
    file, and each once, such that the answer is the page asked for of the
    matching messages of that list. *)
Theorem overlapping_query_answers_page (seen : View) (ms ms' : list Message) (st st' : FileStore) :
  history ms st -> indexing seen ms st ms' st' -> reading seen ms st ->
  exists all early missed,
    all ≡ₚ ms ++ early /\ ms' ≡ₚ all ++ missed
    /\ StronglySorted (fun a b => msg_ReceivedAt b <= msg_ReceivedAt a)%Z all
    /\ forall q matcher, CompileTextFilter (sq_Text q) = inl matcher ->
         (query_during calm seen q (fs_indexes st)).2
         = inl (page (query_limit q) (sq_Offset q) (List.filter (wanted q matcher) all)).
Proof.
  intros Hh%history_ok Hix Hrd. pose proof (opened_ok _ _ _ _ _ Hh Hix) as Hok.
  destruct (opened_messages _ _ _ _ _ Hh Hix) as (Hp & early & missed & He & Hm).
  destruct (archive_order_spec _ Hok Hp) as [Hall Hsorted].
  exists (archive_order (opened seen st st')), early, missed.
  split_and!; [by rewrite Hall|by rewrite Hall|done|]. intros q matcher Hq. destruct (opened_seen _ _ _ _ _ Hix) as [Hl Ho].
  pose proof (opened_kept _ _ _ _ _ Hh Hix Hrd) as Hkept.
  change (fs_indexes st) with (fs_indexes (opened seen st st')).
  by destruct (query_during_page (opened seen st st') seen q matcher Hok Hq Hl Ho Hkept) as (indexes & -> & _).
Qed.
End Overlap.

(** ** A query between two appends *)

#[local] Existing Instance merge_sort_slice.

(** The query opens the file of router-b, then "m5" is appended to it and "m4" to
    that of router-a, which the query opens next. *)
Definition m4 : Message := stored_at 40 "m4" "router-a" "link flaps".
Definition m5 : Message := stored_at 50 "m5" "router-b" "link flaps".
Definition four_stored : FileStore := (Append calm (io_written 0) 0 m5 three_stored).1.
Definition five_stored : FileStore := (Append calm (io_written 0) 0 m4 four_stored).1.

Definition interleaved : View := fun point =>
  match point with
  | at_open path => if String.eqb path (pathFor m4) then fs_files five_stored else fs_files three_stored
  | at_read _ _ => fs_files five_stored
  | _ => fs_files three_stored
  end.

(** The answer has "m4" but not "m5", which was accepted before it: it is the
    content of the store at no instant. *)
Example interleaved_answer :
  sum_map (map msg_ID) id (query_during calm interleaved (ask "" [] 10 0) (fs_indexes three_stored)).2
  = inl ["m4"; "m2"; "m3"; "m1"]%string.
Proof. vm_compute. reflexivity. Qed.

Lemma append_event ms st m :
  (Append calm (io_written 0) 0 m st).2 = None -> json_Encode (stamped 0 m) = Some (tab_line m) ->
  json_Unmarshal (tab_line m +:+ newline) = Some m -> line_fits (tab_line m +:+ newline) = true ->
  store_event ms st (ms ++ [m]) (Append calm (io_written 0) 0 m st).1.
Proof.
  intros Ha He Hu Hf. eapply event_append; [|exact He|exact Hu|exact Hf].
  rewrite <- Ha. apply surjective_pairing.
Qed.

Lemma m5_later : later three_messages three_stored (three_messages ++ [m5]) four_stored.
Proof. apply rtc_once. apply append_event; vm_compute; reflexivity. Qed.

Lemma m4_later : later (three_messages ++ [m5]) four_stored ((three_messages ++ [m5]) ++ [m4]) five_stored.
Proof. apply rtc_once. apply append_event; vm_compute; reflexivity. Qed.

Lemma interleaved_paths path :
  is_Some (fs_files three_stored !! path) -> is_Some (fs_files five_stored !! path).
Proof.
  intros [f Hf]. destruct (later_holds _ _ _ _ m5_later (history_ok _ _ three_stored_history)) as [Hh Hg].
  destruct (later_holds _ _ _ _ m4_later Hh) as [_ Hg'].
  destruct (Hg _ _ Hf) as (f1 & _ & Hf1 & _). destruct (Hg' _ _ Hf1) as (f2 & _ & Hf2 & _). by eexists.
Qed.

Lemma interleaved_indexing :
  indexing interleaved three_messages three_stored ((three_messages ++ [m5]) ++ [m4]) five_stored.
Proof.
  assert (H : later three_messages three_stored ((three_messages ++ [m5]) ++ [m4]) five_stored)
    by (unfold later; etrans; [apply m5_later|apply m4_later]).
  split; [done|done|]. intros path Hp. unfold interleaved. destruct (String.eqb path (pathFor m4)).
  - exists ((three_messages ++ [m5]) ++ [m4]), five_stored. split_and!; [done|apply rtc_refl|done|].
    by apply interleaved_paths.
  - exists three_messages, three_stored. split_and!; [apply rtc_refl|done..].
Qed.

Lemma interleaved_reading : reading interleaved three_messages three_stored.
Proof.
  assert (H : later three_messages three_stored ((three_messages ++ [m5]) ++ [m4]) five_stored)
    by (unfold later; etrans; [apply m5_later|apply m4_later]).
  intros path offset _. unfold interleaved. destruct (String.eqb path (pathFor m4)).
  - exists ((three_messages ++ [m5]) ++ [m4]), five_stored, ((three_messages ++ [m5]) ++ [m4]), five_stored.
    split_and!; try done; apply rtc_refl.
  - exists three_messages, three_stored, ((three_messages ++ [m5]) ++ [m4]), five_stored.
    split_and!; try done; apply rtc_refl.
Qed.

Lemma overlapping_query_answers_page_witness :
  exists all early missed,
    all ≡ₚ three_messages ++ early /\ (three_messages ++ [m5]) ++ [m4] ≡ₚ all ++ missed
    /\ StronglySorted (fun a b => msg_ReceivedAt b <= msg_ReceivedAt a)%Z all
    /\ forall q matcher, CompileTextFilter (sq_Text q) = inl matcher ->
         (query_during calm interleaved q (fs_indexes three_stored)).2
         = inl (page (query_limit q) (sq_Offset q) (List.filter (wanted q matcher) all)).
Proof.
  apply (overlapping_query_answers_page interleaved three_messages ((three_messages ++ [m5]) ++ [m4])
    three_stored five_stored).
  - exact three_stored_history.
  - exact interleaved_indexing.
  - exact interleaved_reading.
Defined.
