(* ===== verification/StorageGrowth.v ===== *)
(** The order of the archive is kept as it grows: the messages a store holds are
    a sublist, in the same order, of those it holds later. *)
From Stdlib Require Import ZArith Lia.
From S2P Require Import Prelude.
From S2P Require Import GoStd.
From S2P Require Import GoLib.
From S2P Require Import Model.
From S2P Require Import Storage.
From S2P Require Import StorageLemmas.
From S2P Require Import StorageMerge.
From S2P Require Import StorageQuery.
From S2P Require Import StorageHistory.
From S2P Require Import StorageProps.
Local Open Scope list_scope.

(** ** Sublists *)

Lemma sublist_drop_compat {A} (n : nat) (l l' : list A) :
  l `sublist_of` l' -> drop n l `sublist_of` drop n l'.
Proof.
  revert l l'. induction n as [|n IH]; intros l l' H; [by rewrite !drop_0|].
  induction H as [|x l l' H _|x l l' H _]; cbn [drop]; [done|by apply IH|].
  change (S n) with (1 + n). rewrite <- drop_drop. apply IH. etrans; [apply sublist_drop|done].
Qed.

Lemma sublist_filter_compat {A} (f : A -> bool) (l l' : list A) :
  l `sublist_of` l' -> List.filter f l `sublist_of` List.filter f l'.
Proof.
  induction 1 as [|x l l' _ IH|x l l' _ IH]; cbn; [done|..].
  - destruct (f x); [by apply sublist_skip|done].
  - destruct (f x); [by apply sublist_cons|done].
Qed.

(** A sorted list is a sublist of a sorted list that has its elements. *)
Lemma sorted_sublist {A} (R : A -> A -> Prop) (l l' : list A) :
  (forall x, ~ R x x) -> (forall x y z, R x y -> R y z -> R x z) ->
  StronglySorted R l -> StronglySorted R l' -> (forall x, x ∈ l -> x ∈ l') -> l `sublist_of` l'.
Proof.
  intros Hirr Htrans Hl Hl'. revert l Hl. induction Hl' as [|y l' Hl' IH Hy]; intros l Hl Hin.
  { destruct l as [|x l]; [done|]. by destruct (not_elem_of_nil x); apply Hin; left. }
  destruct Hl as [|x l Hl Hx]; [apply sublist_nil_l|].
  rewrite Forall_forall in Hx, Hy. assert (H : x ∈ y :: l') by (apply Hin; by left). apply elem_of_cons in H as [->|H].
  - apply sublist_skip, IH; [done|]. intros z Hz.
    assert (Hz' : z ∈ y :: l') by (apply Hin; by right). apply elem_of_cons in Hz' as [->|]; [|done].
    destruct (Hirr y). by apply Hx.
  - apply sublist_cons, IH; [constructor; [done|by apply Forall_forall]|]. intros z Hz.
    assert (Hz' : z ∈ y :: l') by (by apply Hin). apply elem_of_cons in Hz' as [->|]; [|done].
    apply elem_of_cons in Hz as [->|Hz]; [done|]. destruct (Hirr y). eapply Htrans; [by apply Hy|by apply Hx].
Qed.

Section Growth.
Context {GS : GoSort} {GH : GoHeap} {GT : GoText} {J : GoJson} {JL : GoJsonLaws}.

(** ** The archive's order without the numbers of the files *)

Definition located (im : item * Message) : string * indexEntry * Message := (it_path im.1, it_entry im.1, im.2).

Definition located_before (a b : string * indexEntry * Message) : Prop :=
  (ie_receivedAt b.1.2 < ie_receivedAt a.1.2)%Z
  \/ ie_receivedAt a.1.2 = ie_receivedAt b.1.2
     /\ (string_less b.1.1 a.1.1 = true
         \/ b.1.1 = a.1.1 /\ (ie_offset b.1.2 < ie_offset a.1.2)%Z).

Lemma string_less_irrefl a : string_less a a = false.
Proof. by apply string_less_le. Qed.

Lemma string_less_strict a b : string_less a b = true <-> String.le a b /\ a <> b.
Proof.
  rewrite <- not_false_iff_true, string_less_le. split.
  - intros H. destruct (total String.le a b) as [Hab|]; [|done]. split; [done|]. by intros ->.
  - intros [H1 Hne] H2. apply Hne. by apply (anti_symm String.le).
Qed.

Lemma string_less_trans a b c : string_less a b = true -> string_less b c = true -> string_less a c = true.
Proof.
  rewrite !string_less_strict. intros [H1 N1] [H2 N2]. split; [by etrans|]. intros ->. apply N1.
  by apply (anti_symm String.le).
Qed.

Lemma located_before_irrefl a : ~ located_before a a.
Proof. unfold located_before. rewrite string_less_irrefl. intros [?|[_ [?|[_ ?]]]]; (lia || done). Qed.

Lemma located_before_trans a b c : located_before a b -> located_before b c -> located_before a c.
Proof.
  unfold located_before. intros [Hab|[Eab Hab]] [Hbc|[Ebc Hbc]]; [left; lia..|]. right. split; [lia|].
  destruct Hab as [Hab|[Pab Hab]], Hbc as [Hbc|[Pbc Hbc]].
  - left. by eapply string_less_trans.
  - left. by rewrite Pbc.
  - left. by rewrite <- Pab.
  - right. split; [congruence|lia].
Qed.

(** The number of a file is its place in the list. *)
Lemma archive_place st order files im :
  im ∈ archive st order files -> files !! (it_order im.1 - order)%nat = Some (it_path im.1) /\ order <= it_order im.1.
Proof.
  revert order. induction files as [|path files IH]; intros order; cbn; [by intros ?%elem_of_nil|].
  intros [H|H]%elem_of_app.
  - unfold archive_file in H. apply list_elem_of_fmap in H as (r & -> & _). cbn. by rewrite Nat.sub_diag.
  - destruct (IH _ H) as [Hp Hle]. split; [|lia].
    replace (it_order im.1 - order)%nat with (S (it_order im.1 - S order)) by lia. done.
Qed.

(** Files are listed in descending order. *)
Lemma messageFiles_descending st i j p q :
  messageFiles st !! i = Some p -> messageFiles st !! j = Some q -> (i < j)%nat -> string_less q p = true.
Proof.
  intros Hi Hj Hij. rewrite string_less_strict. split.
  - assert (Hs : StronglySorted (fun x y => String.le y x) (messageFiles st)) by apply list_files_sorted.
    rewrite <- (take_drop j (messageFiles st)) in Hs.
    eapply (StronglySorted_app_mid _ _ _ Hs).
    + apply list_elem_of_lookup. exists i. by rewrite lookup_take_lt.
    + apply list_elem_of_lookup. exists O. by rewrite lookup_drop, Nat.add_0_r.
  - intros ->. pose proof (messageFiles_NoDup st) as Hnd.
    pose proof (NoDup_lookup _ _ _ _ Hnd Hi Hj). lia.
Qed.

Lemma located_sorted st : StronglySorted located_before (map located (timeline st)).
Proof.
  destruct (timeline_spec st) as [Hp Hs]. apply StronglySorted_map.
  apply (proj1 (StronglySorted_map _ _ _)) in Hs.
  assert (Hin : forall im, im ∈ timeline st -> messageFiles st !! it_order im.1 = Some (it_path im.1)).
  { intros im Him. rewrite Hp in Him. destruct (archive_place _ _ _ _ Him) as [H _]. by rewrite Nat.sub_0_r in H. }
  clear Hp. revert Hin. induction Hs as [|x l _ IH Hx]; intros Hin; [constructor|].
  constructor; [apply IH; intros im Him; apply Hin; by right|].
  rewrite Forall_forall in *. intros y Hy. specialize (Hx y Hy).
  pose proof (Hin x ltac:(by left)) as Hpx. pose proof (Hin y ltac:(by right)) as Hpy.
  unfold item_before, it_at in Hx. unfold located_before, located. cbn.
  destruct Hx as [?|[? [Ho|[Ho ?]]]]; [by left|right..]; (split; [done|]).
  - left. by eapply messageFiles_descending.
  - right. split; [|done]. rewrite Ho in Hpx. congruence.
Qed.

(** A record stays where it is. *)
Lemma located_grows st st' x :
  store_ok st -> grows st st' -> x ∈ map located (timeline st) -> x ∈ map located (timeline st').
Proof.
  intros (Hr & _) Hg (im & -> & Him)%list_elem_of_fmap.
  destruct (timeline_spec st) as [Hp _], (timeline_spec st') as [Hp' _]. rewrite Hp in Him.
  destruct (elem_of_archive _ _ _ _ Him) as (path & r & Hpath & Hrec & <- & He & Hm & _).
  apply elem_of_messageFiles in Hpath as [[f Hf] Hpart].
  destruct (Hg _ _ Hf) as (f' & suf & Hf' & Hsuf & _). destruct (Hr _ _ Hf) as [[Hc _] _].
  unfold content_of in Hrec. rewrite Hf in Hrec.
  assert (Hfile : it_path im.1 ∈ messageFiles st') by (apply elem_of_messageFiles; by split; [eexists|]).
  assert (H : forall order files, it_path im.1 ∈ files ->
    exists o, (mkItem (it_path im.1) o r.1, r.2) ∈ archive st' order files).
  { intros order files. revert order. induction files as [|q files IH]; intros order Hq; [by apply elem_of_nil in Hq|].
    cbn. apply elem_of_cons in Hq as [<-|Hq].
    - exists order. apply elem_of_app. left. unfold archive_file, content_of. rewrite Hf', Hsuf.
      apply list_elem_of_fmap. exists r. split; [done|]. rewrite records_app by done. apply elem_of_app. by left.
    - destruct (IH (S order) Hq) as [o Ho]. exists o. apply elem_of_app. by right. }
  destruct (H 0 _ Hfile) as [o Ho]. rewrite <- Hp' in Ho.
  apply list_elem_of_fmap. eexists. split; [|exact Ho]. unfold located. cbn. by rewrite He, Hm.
Qed.

Lemma archive_order_grows st st' :
  store_ok st -> grows st st' -> archive_order st `sublist_of` archive_order st'.
Proof.
  intros Hok Hg. unfold archive_order.
  assert (H : forall s, map snd (timeline s) = snd <$> (located <$> timeline s)).
  { intros s. rewrite <- list_fmap_compose. done. }
  rewrite !H. apply fmap_sublist. eapply sorted_sublist.
  - apply located_before_irrefl.
  - apply located_before_trans.
  - apply located_sorted.
  - apply located_sorted.
  - intros x. by apply located_grows.
Qed.
End Growth.
