(* ===== verification/StorageNames.v ===== *)
(** The names of the partitions: whatever a sender claims to be, its messages go
    to a file inside the day's directory. *)
From Stdlib Require Import Ascii ZArith Lia.
From S2P Require Import Prelude.
From S2P Require Import GoStd.
From S2P Require Import GoLib.
From S2P Require Import Model.
From S2P Require Import Storage.
Local Open Scope string_scope.

Lemma trim_left_set_suffix cut s :
  exists pre, s = pre +:+ trim_left_set cut s /\ all_bytes cut pre = true.
Proof.
  induction s as [|c s (pre & IH & Hpre)]; cbn; [by exists ""|].
  destruct (cut c) eqn:Hc; [|by exists ""].
  exists (String c pre). rewrite scons_app, <- IH. cbn. by rewrite Hc.
Qed.

Lemma trim_left_set_head cut s c r : trim_left_set cut s = String c r -> cut c = false.
Proof.
  induction s as [|d s IH]; cbn; [done|]. destruct (cut d) eqn:Hd; [done|]. by intros [= <- _].
Qed.

(** Nothing of the cut set is left at either end. *)
Lemma Trim_spec cut s :
  (forall P, all_bytes P s = true -> all_bytes P (Trim cut s) = true)
  /\ (forall c r, Trim cut s = String c r -> cut c = false)
  /\ (forall c r, srev (Trim cut s) = String c r -> cut c = false).
Proof.
  unfold Trim. destruct (trim_left_set_suffix cut s) as (pre & Hs & _).
  set (u := trim_left_set cut s) in *.
  destruct (trim_left_set_suffix cut (srev u)) as (suf & Hu & _).
  set (v := trim_left_set cut (srev u)) in *. split_and!.
  - intros P. rewrite Hs, all_bytes_app, andb_true_iff. intros [_ H].
    rewrite <- (all_bytes_srev P u), Hu, all_bytes_app, andb_true_iff in H. destruct H as [_ H]. by rewrite all_bytes_srev.
  - intros c r Hv. apply (f_equal srev) in Hu. rewrite srev_involutive, srev_append, Hv, scons_app in Hu.
    exact (trim_left_set_head cut s c _ Hu).
  - intros c r. rewrite srev_involutive. apply trim_left_set_head.
Qed.

Lemma filename_of_allowed rs : all_bytes allowed_byte (filename_of rs) = true.
Proof.
  induction rs as [|[c|] rs IH]; cbn; [done| |exact IH]. rewrite IH, andb_true_r.
  by destruct (allowed_byte c) eqn:E.
Qed.

Lemma IndexByte_all_bytes P s c : all_bytes P s = true -> P c = false -> IndexByte s c = None.
Proof.
  intros Hs Hc. unfold IndexByte. induction s as [|d s IH]; [done|].
  cbn in Hs. apply andb_true_iff in Hs as [Hd Hs]. cbn [Index String.prefix].
  destruct (ascii_dec c d) as [->|_]; [congruence|]. by rewrite IH.
Qed.

(** The file a message is appended to lies in the directory of
    the day it was received on, under a name of letters, digits, dots, dashes
    and underscores that has no slash, is not empty and neither starts nor, before
    the extension, ends with a dot, dash or underscore: no source or host name
    can point outside the store. *)
Theorem partition_name_safe (msg : Message) :
  let '(y, m, d) := civil (day_of (msg_ReceivedAt msg)) in
  exists name,
    pathFor msg = pad 4 y +:+ "/" +:+ pad 2 m +:+ "/" +:+ pad 2 d +:+ "/" +:+ (name +:+ ndjson)
    /\ all_bytes allowed_byte (name +:+ ndjson) = true /\ IndexByte (name +:+ ndjson) "/" = None
    /\ name <> ""
    /\ (forall c r, name = String c r -> trimmed_byte c = false)
    /\ (forall c r, srev name = String c r -> trimmed_byte c = false).
Proof.
  unfold pathFor. destruct (civil _) as [[y m] d]. unfold sourceFilename. cbv zeta.
  set (cleaned := Trim trimmed_byte _).
  exists (if String.eqb cleaned "" then "unknown" else cleaned). split; [done|].
  destruct (Trim_spec trimmed_byte (filename_of (runes (partition_source msg)))) as (H1 & H2 & H3).
  fold cleaned in H1, H2, H3. specialize (H1 _ (filename_of_allowed _)).
  assert (H : all_bytes allowed_byte ((if String.eqb cleaned "" then "unknown" else cleaned) +:+ ndjson) = true).
  { rewrite all_bytes_app. destruct (String.eqb cleaned ""); [done|]. by rewrite H1. }
  split; [done|]. split; [by apply (IndexByte_all_bytes allowed_byte)|].
  destruct (String.eqb_spec cleaned "") as [_|Hne]; [|done].
  split; [done|]. split; intros c r [= <- <-]; reflexivity.
Qed.

(** Sources as they occur and as an attacker might send them. *)
Definition from_source (source : string) : Message :=
  {| msg_ID := "id"; msg_ReceivedAt := Date 2026 9 18 12 0 0; msg_Timestamp := None; msg_Transport := "";
     msg_Source := source; msg_Priority := None; msg_Facility := None; msg_Severity := None;
     msg_Hostname := "host"; msg_AppName := ""; msg_ProcID := ""; msg_MsgID := ""; msg_Tag := "";
     msg_Message := ""; msg_StructuredData := None; msg_Raw := None |}.

Example partition_paths :
  map (fun source => pathFor (from_source source))
    ["10.0.0.1:514"; "[::1]:514"; "../../etc/passwd"; " "; "..."; "a b"]
  = ["2026/09/18/10.0.0.1.ndjson"; "2026/09/18/1.ndjson"; "2026/09/18/etc_passwd.ndjson";
     "2026/09/18/host.ndjson"; "2026/09/18/unknown.ndjson"; "2026/09/18/a_b.ndjson"].
Proof. vm_compute. reflexivity. Qed.
