(* ===== verification/Reader.v ===== *)
(** The incremental reader of the message files
    ([internal/storage/append_reader.go]): [VisitAfter] visits the complete lines
    behind a cursor per file and returns the cursors behind them; a file that was
    replaced, truncated or removed is told from one that was appended to by its
    size and a fingerprint of what lies before the cursor. *)
From Stdlib Require Import Ascii ZArith.
From S2P Require Import Prelude.
From S2P Require Import GoStd.
From S2P Require Import GoLib.
From S2P Require Import Sha256.
From S2P Require Import Model.
From S2P Require Import Storage.
Local Open Scope string_scope.

Record StoredRecord : Type := mkStoredRecord {
  sr_Message : Message;
  sr_File : string;
  sr_Offset : Z
}.

Inductive reader_error : Type :=
| PartitionChangedError (file : string)
| reader_failed (err : store_error).

Definition PartitionChangedFile (err : reader_error) : option string :=
  match err with PartitionChangedError file => Some file | reader_failed _ => None end.

Definition IsPartitionChanged (err : reader_error) : bool :=
  bool_decide (is_Some (PartitionChangedFile err)).

Definition windowSize : Z := 2048.

(** The hash of the first and, of a longer file, also the last 2048 bytes before
    [size]. *)
Definition fileFingerprint (content : string) (size : Z) : string :=
  let length := if (windowSize <? size)%Z then windowSize else size in
  let first := stake (Z.to_nat length) content in
  let data :=
    if (windowSize <? size)%Z
    then first +:+ stake (Z.to_nat length) (sdrop (Z.to_nat (size - length)) content)
    else first in
  EncodeToString (Sum256 (bytes_of data)).

Section Reader.
Context {GR : GoRange} {GS : GoSort} {J : GoJson}.

Section Visit.
(** The callback, as a fold over a state of its own. *)
Context {V : Type} (visit : V -> StoredRecord -> V + store_error).

(** The loop over the lines of one file, [at_line] for each read, also the one
    that finds the end; a last line without a newline is left
    for the next time. *)
Fixpoint visit_lines (env : Env) (key : string) (lines : list string) (current : Z) (v : V)
    : V * (Z + reader_error) :=
  match env (at_line key current) with
  | Some err => (v, inr (reader_failed err))
  | None =>
    match lines with
    | [] => (v, inl current)
    | line :: rest =>
      if negb (HasSuffix line newline) then (v, inl current)
      else match json_Unmarshal line with
        | None => (v, inr (reader_failed (err_bad_line key)))
        | Some message =>
          let current := (current + size_of line)%Z in
          match visit v (mkStoredRecord message key current) with
          | inr err => (v, inr (reader_failed err))
          | inl v => visit_lines env key rest current v
          end
        end
    end
  end.

Definition visit_file (env : Env) (key content : string) (cursor : Cursor) (v : V)
    : V * (Cursor + reader_error) :=
  if ((cur_Offset cursor <? 0) || (size_of content <? cur_Offset cursor))%Z
  then (v, inr (PartitionChangedError key))
  else match env (at_open key) with
    | Some err => (v, inr (reader_failed err))
    | None =>
      if negb (String.eqb (cur_Fingerprint cursor) "")
         && negb (String.eqb (cur_Fingerprint cursor) (fileFingerprint content (cur_Offset cursor)))
      then (v, inr (PartitionChangedError key))
      else
        match visit_lines env key (lines_keep (sdrop (Z.to_nat (cur_Offset cursor)) content))
                (cur_Offset cursor) v with
        | (v, inr err) => (v, inr err)
        | (v, inl current) =>
          match env (at_close key) with
          | Some err => (v, inr (reader_failed err))
          | None => (v, inl {| cur_Offset := current; cur_Fingerprint := fileFingerprint content current |})
          end
        end
    end.

(** A file is what it holds when its end is read: other goroutines may have
    appended to it, or be about to, since the files were listed. *)
Fixpoint visit_files (env : Env) (seen : View) (files : list string) (next : gmap string Cursor) (v : V)
    : V * (gmap string Cursor + reader_error) :=
  match files with
  | [] => (v, inl next)
  | key :: rest =>
    match env (at_file key), seen (at_file key) !! key with
    | Some err, _ => (v, inr (reader_failed err))
    | None, None => (v, inr (reader_failed (err_io "stat")))
    | None, Some f =>
      match visit_file env key (of_content f) (default zero_Cursor (next !! key)) v with
      | (v, inr err) => (v, inr err)
      | (v, inl cursor) => visit_files env seen rest (<[key := cursor]> next) v
      end
    end
  end.

(** The last loop: a cursor into a file that is gone. *)
Definition vanished (files : list string) (entries : list (string * Cursor)) : option string :=
  fst <$> List.find (fun '(key, cursor) => (0 <? cur_Offset cursor)%Z && negb (existsb (String.eqb key) files))
            entries.

Definition visit_during (env : Env) (p : list nat) (cursors : gmap string Cursor) (seen : View) (v : V)
    : V * (gmap string Cursor + reader_error) :=
  match env at_start, env at_list with
  | Some err, _ | None, Some err => (v, inr (reader_failed err))
  | None, None =>
    let files := sort_slice string_less (list_files (seen at_list)) in
    match visit_files env seen files cursors v with
    | (v, inr err) => (v, inr err)
    | (v, inl next) =>
      match vanished files (range p cursors) with
      | Some file => (v, inr (PartitionChangedError file))
      | None => (v, inl next)
      end
    end
  end.

(** A read on its own. *)
Definition VisitAfter (env : Env) (p : list nat) (cursors : gmap string Cursor) (st : FileStore) (v : V)
    : V * (gmap string Cursor + reader_error) :=
  visit_during env p cursors (still st) v.
End Visit.

(** The callback that keeps every record. *)
Definition collect (records : list StoredRecord) (record : StoredRecord)
    : list StoredRecord + store_error :=
  inl (records ++ [record])%list.
End Reader.
