(* ===== verification/ReaderProps.v ===== *)
(** The incremental reader hands every accepted message to its caller exactly
    once, however appends, queries and complete reads alternate. *)
From Stdlib Require Import Ascii ZArith Lia.
From S2P Require Import Prelude.
From S2P Require Import GoStd.
From S2P Require Import GoLib.
From S2P Require Import GoStrings.
From S2P Require Import GoInstances.
From S2P Require Import Model.
From S2P Require Import Storage.
From S2P Require Import StorageLemmas.
From S2P Require Import EngineLemmas.
From S2P Require Import StorageQuery.
From S2P Require Import StorageHistory.
From S2P Require Import StorageProps.
From S2P Require Import Reader.
Local Open Scope list_scope.

(** ** Bytes *)

Lemma stake_app_le n a b : (n <= String.length a)%nat -> stake n (a +:+ b) = stake n a.
Proof.
  revert n. induction a as [|c a IH]; intros n Hn; cbn in Hn.
  { assert (n = O) as -> by lia. by destruct b. }
  rewrite scons_app. destruct n as [|n]; [done|]. cbn. rewrite IH by lia. done.
Qed.

Lemma sdrop_app_le n a b : (n <= String.length a)%nat -> sdrop n (a +:+ b) = sdrop n a +:+ b.
Proof.
  revert n. induction a as [|c a IH]; intros n Hn; cbn in Hn.
  { assert (n = O) as -> by lia. done. }
  rewrite scons_app. destruct n as [|n]; [by rewrite <- scons_app|]. cbn. apply IH. lia.
Qed.

Lemma length_sdrop n s : String.length (sdrop n s) = (String.length s - n)%nat.
Proof. revert n. induction s as [|c s IH]; intros [|n]; cbn; done || apply IH. Qed.

(** What is appended to a file does not change its fingerprint up to a cursor. *)
Lemma fingerprint_app pre suf : fileFingerprint (pre +:+ suf) (size_of pre) = fileFingerprint pre (size_of pre).
Proof.
  unfold fileFingerprint. set (l := if (windowSize <? size_of pre)%Z then windowSize else size_of pre).
  assert (Hl : (0 <= l <= size_of pre)%Z).
  { unfold l, windowSize. pose proof (size_of_nonneg pre). destruct (Z.ltb_spec 2048 (size_of pre)); lia. }
  unfold size_of in *. rewrite stake_app_le by lia. destruct (windowSize <? _)%Z; [|done].
  rewrite sdrop_app_le by lia. rewrite stake_app_le; [done|]. rewrite length_sdrop. lia.
Qed.

Lemma lines_keep_complete s :
  complete s = true -> Forall (fun line => HasSuffix line newline = true) (lines_keep s).
Proof.
  induction s as [|c s IH]; intros Hs; cbn [lines_keep]; [constructor|].
  specialize (IH (complete_tail _ _ Hs)). destruct (Ascii.eqb c (ascii_of_nat 10)) eqn:Hc.
  - constructor; [|done]. apply Ascii.eqb_eq in Hc as ->. done.
  - destruct (lines_keep s) as [|line lines] eqn:E.
    + destruct s as [|d s]; [cbn in Hs; congruence|]. by apply lines_keep_nonempty in E.
    + apply Forall_cons in IH as [Hl IH]. constructor; [|done].
      unfold HasSuffix in *. cbn [String.length] in *. apply andb_true_iff in Hl as [Hlen Heq].
      apply Nat.leb_le in Hlen. apply andb_true_iff. split; [apply Nat.leb_le; cbn in *; lia|].
      change (String.length newline) with 1%nat in *.
      replace (S (String.length line) - 1)%nat with (S (String.length line - 1)) by lia. done.
Qed.

Section Reading.
Context {GR : GoRange} {GS : GoSort} {GH : GoHeap} {GT : GoText} {J : GoJson} {JL : GoJsonLaws}.

(** ** One file *)

Fixpoint read_records (key : string) (current : Z) (lines : list string) : list StoredRecord :=
  match lines with
  | [] => []
  | line :: rest =>
    match json_Unmarshal line with
    | Some m => [mkStoredRecord m key (current + size_of line)]
    | None => []
    end ++ read_records key (current + size_of line) rest
  end.

Lemma read_records_messages key current offset lines :
  map sr_Message (read_records key current lines) = map snd (records_of offset lines).
Proof.
  revert current offset. induction lines as [|line lines IH]; intros current offset; [done|]. cbn.
  rewrite !map_app, (IH _ (offset + size_of line)%Z). by destruct (json_Unmarshal line).
Qed.

(** A last line that is still being written, or nothing. *)
Definition torn (s : string) : Prop := IndexByte s (ascii_of_nat 10) = None.

Lemma lines_keep_torn s : torn s -> lines_keep s = if String.eqb s "" then [] else [s].
Proof.
  unfold torn, IndexByte. induction s as [|c s IH]; [done|].
  cbn [lines_keep Index String.prefix].
  destruct (ascii_dec (ascii_of_nat 10) c) as [<-|Hne]; [by destruct s|].
  destruct (Index s _) eqn:E; [done|]. intros _.
  rewrite (proj2 (Ascii.eqb_neq _ _)) by congruence. rewrite IH by done. by destruct s.
Qed.

Lemma stake_sdrop n s : s = stake n s +:+ sdrop n s.
Proof. revert n. induction s as [|c s IH]; intros [|n]; cbn; try done. by rewrite scons_app, <- IH. Qed.

Lemma torn_suffix s : torn s -> HasSuffix s newline = false.
Proof.
  intros Ht%Index_none. apply not_true_is_false. unfold HasSuffix. intros [_ H%String.eqb_eq]%andb_true_iff.
  apply Ht. exists (stake (String.length s - String.length newline) s), "".
  rewrite sapp_nil_r. rewrite (stake_sdrop (String.length s - String.length newline) s) at 1. by rewrite H.
Qed.

Lemma visit_lines_calm key lines rest current v :
  Forall good_line lines -> Forall (fun line => HasSuffix line newline = true) lines -> torn rest ->
  visit_lines collect calm key (lines ++ lines_keep rest) current v
  = (v ++ read_records key current lines, inl (current + size_of (concat_lines lines))%Z).
Proof.
  intros Hg. revert current v. induction Hg as [|line lines [_ [m Hm]] _ IH]; intros current v Hs Ht; cbn.
  { rewrite app_nil_r, Z.add_0_r, lines_keep_torn by done. destruct (String.eqb_spec rest ""); cbn; [done|].
    by rewrite torn_suffix. }
  apply Forall_cons in Hs as [Hl Hs]. rewrite Hl, Hm. cbn. rewrite IH by done.
  rewrite <- app_assoc. f_equal. f_equal. change (foldr String.append "" lines) with (concat_lines lines).
  rewrite size_of_app. lia.
Qed.

(** A cursor that was left in a file which has only grown since. *)
Definition cursor_at (cursor : Cursor) (content : string) : Prop :=
  exists pre suf, content = pre +:+ suf /\ complete pre = true /\ cur_Offset cursor = size_of pre
    /\ (cur_Fingerprint cursor = "" \/ cur_Fingerprint cursor = fileFingerprint pre (size_of pre)).

Definition end_cursor (content : string) : Cursor :=
  {| cur_Offset := size_of content; cur_Fingerprint := fileFingerprint content (size_of content) |}.

Lemma zero_cursor_at content : cursor_at zero_Cursor content.
Proof. exists "", content. split_and!; try done. by left. Qed.

Lemma end_cursor_at content suf : complete content = true -> cursor_at (end_cursor content) (content +:+ suf).
Proof. intros Hc. exists content, suf. split_and!; try done. by right. Qed.

Lemma cursor_at_app cursor content suf : cursor_at cursor content -> cursor_at cursor (content +:+ suf).
Proof. intros (a & b & -> & H). exists a, (b +:+ suf). by rewrite sapp_assoc. Qed.

(** The messages before and behind a cursor. *)
Definition read_part (cursor : Cursor) (content : string) : list Message :=
  map snd (records (stake (Z.to_nat (cur_Offset cursor)) content)).

Lemma to_nat_size_of s : Z.to_nat (size_of s) = String.length s.
Proof. unfold size_of. lia. Qed.

Lemma read_part_app cursor content suf :
  cursor_at cursor content -> read_part cursor (content +:+ suf) = read_part cursor content.
Proof.
  intros (a & b & -> & _ & Ho & _). unfold read_part. rewrite Ho, to_nat_size_of.
  by rewrite sapp_assoc, !stake_app.
Qed.

Lemma read_part_end content : read_part (end_cursor content) content = map snd (records content).
Proof.
  unfold read_part. cbn [end_cursor cur_Offset]. rewrite to_nat_size_of.
  by rewrite <- (sapp_nil_r content) at 2; rewrite stake_app.
Qed.

Lemma visit_file_calm key content rest cursor v :
  readable content -> cursor_at cursor content -> torn rest ->
  exists rs, visit_file collect calm key (content +:+ rest) cursor v = (v ++ rs, inl (end_cursor content))
    /\ map snd (records content) = read_part cursor content ++ map sr_Message rs
    /\ (cursor = end_cursor content -> rs = []).
Proof.
  intros Hr (pre & suf & -> & Hpre & Ho & Hfp) Ht. unfold visit_file. rewrite Ho, sapp_assoc.
  pose proof (size_of_nonneg pre). pose proof (size_of_nonneg suf). pose proof (size_of_nonneg rest).
  rewrite (proj2 (Z.ltb_ge _ 0)), (proj2 (Z.ltb_ge (size_of (pre +:+ _)) _)) by (rewrite ?size_of_app; lia).
  cbn. rewrite to_nat_size_of, sdrop_app, fingerprint_app.
  replace (negb _ && negb _) with false by (destruct Hfp as [->| ->]; [done|]; by rewrite String.eqb_refl, andb_false_r).
  pose proof (readable_app_r _ _ Hpre Hr) as Hg. destruct Hr as [Hc _]. apply complete_app_r in Hc as Hsuf.
  rewrite lines_keep_app, visit_lines_calm by (done || by apply lines_keep_complete).
  eexists. rewrite concat_lines_keep, <- size_of_app, <- sapp_assoc, fingerprint_app. split; [done|]. split.
  - rewrite records_app, map_app by done. unfold read_part. rewrite Ho, to_nat_size_of, stake_app.
    f_equal. symmetry. apply read_records_messages.
  - intros ->. cbn in Ho. rewrite size_of_app in Ho.
    destruct suf; [done|]. unfold size_of in Ho. cbn in Ho. lia.
Qed.

(** ** All files *)

(** The messages before the cursors. *)
Definition seen_by (cursors : gmap string Cursor) (st : FileStore) : list Message :=
  flat_map (fun kc => read_part kc.2 (content_of st kc.1)) (map_to_list cursors).

Definition cursors_ok (cursors : gmap string Cursor) (st : FileStore) : Prop :=
  forall key cursor, cursors !! key = Some cursor ->
    exists f, fs_files st !! key = Some f /\ cursor_at cursor (of_content f).

Lemma content_of_Some st key f : fs_files st !! key = Some f -> content_of st key = of_content f.
Proof. unfold content_of. by intros ->. Qed.

Lemma cursors_ok_grows cursors st st' : grows st st' -> cursors_ok cursors st -> cursors_ok cursors st'.
Proof.
  intros Hg Hok key cursor Hc. destruct (Hok _ _ Hc) as (f & Hf & Hat).
  destruct (Hg _ _ Hf) as (f' & suf & Hf' & Hcont & _). exists f'. split; [done|].
  rewrite Hcont. by apply cursor_at_app.
Qed.

Lemma seen_by_grows cursors st st' : grows st st' -> cursors_ok cursors st -> seen_by cursors st' = seen_by cursors st.
Proof.
  intros Hg Hok. unfold seen_by.
  assert (H : forall kc, kc ∈ map_to_list cursors -> read_part kc.2 (content_of st' kc.1)
                       = read_part kc.2 (content_of st kc.1)).
  { intros [key cursor] Hin. apply elem_of_map_to_list in Hin. destruct (Hok _ _ Hin) as (f & Hf & Hat).
    destruct (Hg _ _ Hf) as (f' & suf & Hf' & Hcont & _). cbn.
    rewrite (content_of_Some _ _ _ Hf), (content_of_Some _ _ _ Hf'), Hcont. by apply read_part_app. }
  induction (map_to_list cursors) as [|kc l IH]; [done|]. cbn. rewrite (H kc) by left. f_equal.
  apply IH. intros kc' ?. apply H. by right.
Qed.

Lemma seen_by_insert key cursor cursors st :
  seen_by (<[key := cursor]> cursors) st
  ≡ₚ read_part cursor (content_of st key) ++ seen_by (delete key cursors) st.
Proof.
  unfold seen_by. rewrite <- insert_delete_eq.
  rewrite map_to_list_insert by apply lookup_delete_eq. done.
Qed.

Lemma seen_by_split key cursors st :
  seen_by cursors st
  ≡ₚ read_part (default zero_Cursor (cursors !! key)) (content_of st key)
     ++ seen_by (delete key cursors) st.
Proof.
  destruct (cursors !! key) as [cursor|] eqn:Hc; cbn [default].
  - rewrite <- (insert_id cursors key cursor Hc) at 1. apply seen_by_insert.
  - by rewrite delete_id.
Qed.

Definition all_readable (st : FileStore) : Prop :=
  forall key f, fs_files st !! key = Some f -> readable (of_content f).

(** The files are found as they are in [st], or with a line behind that is still
    being written. *)
Definition reads_files (st : FileStore) (seen : View) : Prop :=
  forall key f, fs_files st !! key = Some f ->
    exists f' rest, seen (at_file key) !! key = Some f' /\ of_content f' = of_content f +:+ rest /\ torn rest.

Lemma visit_files_calm st seen files next v :
  all_readable st -> reads_files st seen -> Forall (fun key => is_Some (fs_files st !! key)) files ->
  cursors_ok next st ->
  exists rs next',
    visit_files collect calm seen files next v = (v ++ rs, inl next')
    /\ cursors_ok next' st /\ seen_by next' st ≡ₚ seen_by next st ++ map sr_Message rs
    /\ (forall key, next' !! key = if decide (key ∈ files)
                                  then (fun f => end_cursor (of_content f)) <$> fs_files st !! key
                                  else next !! key)
    /\ ((forall key f, fs_files st !! key = Some f -> next !! key = Some (end_cursor (of_content f))) ->
        rs = []).
Proof.
  intros Hread Hseen_f Hfiles. revert next v.
  induction Hfiles as [|key files [f Hf] _ IH]; intros next v Hok; cbn [visit_files].
  { exists [], next. rewrite !app_nil_r. by split_and!. }
  change (calm (at_file key)) with (@None store_error). cbv iota.
  destruct (Hseen_f _ _ Hf) as (g & rest & -> & -> & Htorn).
  assert (Hat : cursor_at (default zero_Cursor (next !! key)) (of_content f)).
  { destruct (next !! key) as [cursor|] eqn:Hc; cbn; [|apply zero_cursor_at].
    destruct (Hok _ _ Hc) as (f' & Hf' & ?). congruence. }
  destruct (visit_file_calm key (of_content f) rest _ v (Hread _ _ Hf) Hat Htorn) as (rs & -> & Hrs & Hnone).
  destruct (IH (<[key := end_cursor (of_content f)]> next) (v ++ rs)) as (rs' & next' & -> & Hok' & Hseen & Hnext & Hnone').
  { intros k cursor [[<- <-]|[_ Hk]]%lookup_insert_Some; [|by apply Hok].
    exists f. split; [done|]. rewrite <- (sapp_nil_r (of_content f)) at 2. apply end_cursor_at.
    by destruct (Hread _ _ Hf). }
  exists (rs ++ rs'), next'. rewrite app_assoc. split_and!; [done|done|..].
  - rewrite Hseen, map_app, app_assoc. apply Permutation_app_tail.
    rewrite seen_by_insert, (seen_by_split key next), (content_of_Some _ _ _ Hf), read_part_end, Hrs.
    solve_Permutation.
  - intros k. rewrite Hnext. destruct (decide (k ∈ files)) as [Hin|Hout].
    + by rewrite decide_True by (by right).
    + destruct (decide (k = key)) as [->|Hne].
      * rewrite decide_True by (by left). by rewrite lookup_insert_eq, Hf.
      * rewrite decide_False by (by intros [?|?]%elem_of_cons). by rewrite lookup_insert_ne.
  - intros Hend. rewrite Hnone by (by rewrite (Hend _ _ Hf)). cbn. apply Hnone'.
    intros k f' Hf'. destruct (decide (k = key)) as [->|Hne].
    + rewrite lookup_insert_eq. congruence.
    + rewrite lookup_insert_ne by done. by apply Hend.
Qed.

Definition end_cursors (st : FileStore) : gmap string Cursor :=
  (fun f => end_cursor (of_content f)) <$> fs_files st.

Lemma seen_by_end st : seen_by (end_cursors st) st = messages_in (fs_files st).
Proof.
  unfold seen_by, messages_in, end_cursors. rewrite map_to_list_fmap.
  assert (H : forall kf, kf ∈ map_to_list (fs_files st) -> fs_files st !! kf.1 = Some kf.2)
    by (intros [k f]; apply elem_of_map_to_list).
  induction (map_to_list (fs_files st)) as [|[k f] l IH]; [done|]. cbn.
  rewrite (content_of_Some st k f) by (apply (H (k, f)); left). rewrite read_part_end. f_equal.
  apply IH. intros kf ?. apply H. by right.
Qed.

Lemma visit_during_calm ms st seen cursors p :
  holds ms st -> cursors_ok cursors st -> list_files (seen at_list) = messageFiles st -> reads_files st seen ->
  exists rs, visit_during collect calm p cursors seen [] = (rs, inl (end_cursors st))
    /\ seen_by cursors st ++ map sr_Message rs ≡ₚ ms
    /\ (cursors = end_cursors st -> rs = []).
Proof.
  intros ((Hf & _) & Hp & Hms) Hok Hl Hreads. unfold visit_during. cbv iota beta. rewrite Hl.
  set (files := sort_slice string_less (messageFiles st)).
  assert (Hfiles : forall key, key ∈ files <-> is_Some (fs_files st !! key)).
  { intros key. unfold files. rewrite sort_slice_perm, elem_of_messageFiles.
    split; [by intros [? _]|]. intros Hs. by split; [|apply Hp]. }
  destruct (visit_files_calm st seen files cursors []) as (rs & next & Hv & Hok' & Hseen & Hnext & Hnone).
  { intros key f Hkf. by destruct (Hf _ _ Hkf). }
  { done. }
  { apply Forall_forall. intros key. by apply Hfiles. }
  { done. }
  assert (next = end_cursors st) as ->.
  { apply map_eq. intros key. rewrite Hnext. unfold end_cursors. rewrite lookup_fmap.
    destruct (decide (key ∈ files)) as [Hin|Hout]; [done|]. rewrite Hfiles in Hout.
    apply eq_None_not_Some in Hout.
    assert (cursors !! key = None) as ->; [|by rewrite Hout].
    destruct (cursors !! key) as [cursor|] eqn:Hc; [|done]. destruct (Hok _ _ Hc) as (f & ? & _). congruence. }
  change (calm at_start) with (@None store_error). change (calm at_list) with (@None store_error).
  cbv iota. rewrite Hv. cbn [app].
  assert (vanished files (range p cursors) = None) as ->.
  { unfold vanished. destruct (List.find _ _) as [[key cursor]|] eqn:E; [|done].
    apply find_some in E as [Hin Hb]. apply list_elem_of_In, (elem_of_range p) in Hin.
    destruct (Hok _ _ Hin) as (f & Hkf & _). apply andb_true_iff in Hb as [_ Hb].
    apply negb_true_iff in Hb. rewrite <- not_true_iff_false in Hb. destruct Hb.
    apply existsb_exists. exists key. split; [|apply String.eqb_refl].
    apply list_elem_of_In, Hfiles. by eexists. }
  exists rs. split; [done|]. split.
  - by rewrite <- Hseen, seen_by_end.
  - intros ->. apply Hnone. intros key f Hkf. unfold end_cursors. by rewrite lookup_fmap, Hkf.
Qed.

Lemma VisitAfter_calm ms st cursors p :
  holds ms st -> cursors_ok cursors st ->
  exists rs, VisitAfter collect calm p cursors st [] = (rs, inl (end_cursors st))
    /\ seen_by cursors st ++ map sr_Message rs ≡ₚ ms
    /\ (cursors = end_cursors st -> rs = []).
Proof.
  intros Hh Hok. apply visit_during_calm; [done..|]. intros key f Hf. exists f, "".
  by rewrite sapp_nil_r.
Qed.

(** ** Environments that let a read come to its end *)

Lemma visit_lines_env env key lines current v v' current' :
  visit_lines collect env key lines current v = (v', inl current') ->
  visit_lines collect calm key lines current v = (v', inl current').
Proof.
  revert current v. induction lines as [|line lines IH]; intros current v; cbn; destruct (env _); try done.
  destruct (HasSuffix line newline); cbn; [|done].
  destruct (json_Unmarshal line); [apply IH|done].
Qed.

Lemma visit_files_env env seen files next v v' next' :
  visit_files collect env seen files next v = (v', inl next') ->
  visit_files collect calm seen files next v = (v', inl next').
Proof.
  revert next v. induction files as [|key files IH]; intros next v; cbn; [done|].
  destruct (env (at_file key)); [done|]. destruct (seen (at_file key) !! key) as [f|]; [|done].
  unfold visit_file. destruct ((_ <? 0)%Z || _); [done|]. destruct (env (at_open key)); [done|]. cbn.
  destruct (negb _ && negb _); [done|].
  destruct (visit_lines collect env _ _ _ _) as [v1 [current|err]] eqn:E; [|done].
  apply visit_lines_env in E. rewrite E. destruct (env (at_close key)); [done|]. apply IH.
Qed.

Lemma visit_during_env env p cursors seen v v' next :
  visit_during collect env p cursors seen v = (v', inl next) ->
  visit_during collect calm p cursors seen v = (v', inl next).
Proof.
  unfold visit_during. destruct (env at_start); [done|]. destruct (env at_list); [done|]. cbv iota zeta beta.
  destruct (visit_files collect env seen _ cursors v) as [v1 [next1|err]] eqn:E; [|done].
  apply visit_files_env in E. change (calm at_start) with (@None store_error).
  change (calm at_list) with (@None store_error). cbv iota. by rewrite E.
Qed.

(** ** Following a store *)

(** What a read finds that starts in [st] and has come to the end of the last
    file by [st']: [whole] has each file at some time in between, and the read
    finds it so, or with a line behind that is still being written. *)
Definition reading_between (seen : View) (ms : list Message) (st : FileStore) (ms' : list Message) (st' : FileStore)
    : Prop :=
  exists whole, indexing whole ms st ms' st' /\ seen at_list = whole at_list
    /\ reads_files (opened whole st st') seen.

(** A reader that keeps its cursors: the messages it has been given, its cursors,
    what the store holds, and the store.  Reads that fail leave the cursors. *)
Inductive follow : list Message -> gmap string Cursor -> list Message -> FileStore -> Prop :=
| follow_new : follow [] ∅ [] NewFileStore
| follow_event seen cursors ms st ms' st' :
    follow seen cursors ms st -> store_event ms st ms' st' -> follow seen cursors ms' st'
| follow_overlap seen cursors ms st ms' st' env (found : View) q :
    follow seen cursors ms st -> indexing found ms st ms' st' ->
    follow seen cursors ms' (with_indexes st' (query_during env found q (fs_indexes st)).1)
| follow_read seen cursors ms st ms' st' env p (found : View) rs next :
    follow seen cursors ms st -> reading_between found ms st ms' st' ->
    visit_during collect env p cursors found [] = (rs, inl next) ->
    follow (seen ++ map sr_Message rs) next ms' st'.

Lemma end_cursors_ok st : all_readable st -> cursors_ok (end_cursors st) st.
Proof.
  intros Hr key cursor. unfold end_cursors. rewrite lookup_fmap.
  destruct (fs_files st !! key) as [f|] eqn:Hf; [|done]. intros [= <-]. exists f. split; [done|].
  rewrite <- (sapp_nil_r (of_content f)) at 2. apply end_cursor_at. by destruct (Hr _ _ Hf).
Qed.

(** Such a read gives what the store it has put together holds behind the
    cursors, and leaves cursors at the end of that. *)
Lemma visit_between found whole cursors ms st ms' st' p :
  holds ms st -> cursors_ok cursors st ->
  indexing whole ms st ms' st' -> found at_list = whole at_list -> reads_files (opened whole st st') found ->
  let v := opened whole st st' in
  exists rs, visit_during collect calm p cursors found [] = (rs, inl (end_cursors v))
    /\ seen_by cursors st ++ map sr_Message rs ≡ₚ seen_by (end_cursors v) st'
    /\ cursors_ok (end_cursors v) st'.
Proof.
  intros Hh Hok Hix Hl Hreads v. destruct (opened_between _ _ _ _ _ Hh Hix) as [Hg1 Hg2].
  pose proof (opened_ok _ _ _ _ _ Hh Hix) as Hvok. destruct (opened_messages _ _ _ _ _ Hh Hix) as (Hp & _).
  destruct (opened_seen _ _ _ _ _ Hix) as [Hlist _]. rewrite <- Hl in Hlist.
  assert (Hvh : holds (messages_in (fs_files v)) v) by done.
  assert (Hcv : cursors_ok cursors v) by (by eapply cursors_ok_grows).
  destruct (visit_during_calm _ v found cursors p Hvh Hcv Hlist Hreads) as (rs & Hv & Hall & _).
  assert (Hend : cursors_ok (end_cursors v) v).
  { apply end_cursors_ok. intros key f Hf. destruct Hvok as (Hr & _). by destruct (Hr _ _ Hf). }
  exists rs. split; [done|]. split; [|by eapply cursors_ok_grows].
  by rewrite (seen_by_grows _ v st'), seen_by_end, <- Hall, (seen_by_grows cursors st v).
Qed.

Lemma follow_ok seen cursors ms st :
  follow seen cursors ms st ->
  holds ms st /\ cursors_ok cursors st /\ seen ≡ₚ seen_by cursors st.
Proof.
  induction 1 as [|seen cursors ms st ms' st' _ (Hh & Hok & Hseen) Hev
                 |seen cursors ms st ms' st' env found query _ (Hh & Hok & Hseen) Hix
                 |seen cursors ms st ms' st' env p found rs next _ (Hh & Hok & Hseen) (whole & Hix & Hl & Hreads) Hv].
  - split; [apply new_holds|]. split; [intros key cursor; by rewrite lookup_empty|done].
  - destruct (store_event_holds _ _ _ _ Hev Hh) as [Hh' Hg]. split; [done|].
    split; [by eapply cursors_ok_grows|]. by rewrite (seen_by_grows cursors st st').
  - split; [by eapply overlap_holds|].
    destruct (later_holds _ _ _ _ (ix_later _ _ _ _ _ Hix) Hh) as [_ Hg].
    assert (Hg' : grows st (with_indexes st' (query_during env found query (fs_indexes st)).1)) by exact Hg.
    split; [by eapply cursors_ok_grows|]. by rewrite (seen_by_grows cursors st _ Hg').
  - apply visit_during_env in Hv.
    destruct (visit_between found whole cursors ms st ms' st' p Hh Hok Hix Hl Hreads) as (rs' & Hv' & Hall & Hend).
    rewrite Hv in Hv'. injection Hv' as <- ->.
    split; [by apply (later_holds _ _ _ _ (ix_later _ _ _ _ _ Hix) Hh)|]. split; [done|]. by rewrite <- Hall, Hseen.
Qed.

(** A read between two events. *)
Lemma follow_alone seen cursors ms st env p rs next :
  follow seen cursors ms st -> VisitAfter collect env p cursors st [] = (rs, inl next) ->
  follow (seen ++ map sr_Message rs) next ms st.
Proof.
  intros Hf Hv. apply (follow_read seen cursors ms st ms st env p (still st) rs next Hf); [|exact Hv].
  exists (still st). split_and!.
  - split; [apply rtc_refl|done|]. intros path Hp. exists ms, st. by split_and!; try apply rtc_refl.
  - done.
  - intros key f. rewrite lookup_opened. unfold still. destruct (fs_files st !! key) as [g|]; [|done].
    cbn. intros [= ->]. exists f, "". by rewrite sapp_nil_r.
Qed.

(** C12: a reader that passes the cursors of one read to the next, while
    messages are appended and queried between the reads and during them, has
    after a read of its own been given every accepted message exactly once, as
    long as no append was cut short for good and no line is longer than the
    scanner takes. Then nothing makes a read fail but the environment, not even
    a line that is still being written, and a read right after it gives
    nothing. *)
Theorem every_message_read_once (seen ms : list Message) (cursors : gmap string Cursor) (st : FileStore)
    (p q : list nat) :
  follow seen cursors ms st ->
  (exists rs next,
     VisitAfter collect calm p cursors st [] = (rs, inl next)
     /\ seen ++ map sr_Message rs ≡ₚ ms
     /\ VisitAfter collect calm q next st [] = ([], inl next))
  /\ forall found ms' st', reading_between found ms st ms' st' ->
       exists rs next, visit_during collect calm p cursors found [] = (rs, inl next).
Proof.
  intros Hf. destruct (follow_ok _ _ _ _ Hf) as (Hh & Hok & Hseen). split.
  - destruct (VisitAfter_calm ms st cursors p Hh Hok) as (rs & Hv & Hall & _).
    exists rs, (end_cursors st). split; [done|]. split; [by rewrite Hseen|].
    destruct (follow_ok _ _ _ _ (follow_alone _ _ _ _ _ _ _ _ Hf Hv)) as (_ & Hok' & _).
    destruct (VisitAfter_calm ms st (end_cursors st) q Hh Hok') as (rs' & Hv' & _ & Hnone).
    by rewrite Hv', Hnone.
  - intros found ms' st' (whole & Hix & Hl & Hreads).
    destruct (visit_between found whole cursors ms st ms' st' p Hh Hok Hix Hl Hreads) as (rs & Hv & _).
    by eexists _, _.
Qed.
End Reading.

#[local] Existing Instance merge_sort_slice.
#[local] Existing Instance listed_range.

Lemma history_follow ms st : history ms st -> follow [] ∅ ms st.
Proof.
  induction 1 as [|ms st ms' st' _ IH Hev|ms st ms' st' env seen q _ IH Hix]; [apply follow_new|..].
  - by eapply follow_event.
  - by apply (follow_overlap _ _ ms st).
Qed.

(** A reader that has read the first message before the others came. *)
Definition one_stored : FileStore := append_and_ask NewFileStore (stored_at 10 "m1" "router-a" "link up").

Definition one_read : list StoredRecord * (gmap string Cursor + reader_error) :=
  VisitAfter collect calm [] ∅ one_stored [].

Example reading_continues :
  map (fun r => msg_ID (sr_Message r)) one_read.1 = ["m1"]
  /\ match one_read.2 with
     | inl cursors => map (fun r => msg_ID (sr_Message r)) (VisitAfter collect calm [] cursors three_stored []).1
     | inr _ => []
     end = ["m3"; "m2"].
Proof. vm_compute. by split. Qed.

Lemma every_message_read_once_witness :
  exists rs next,
    VisitAfter collect calm [] ∅ three_stored [] = (rs, inl next)
    /\ [] ++ map sr_Message rs ≡ₚ three_messages
    /\ VisitAfter collect calm [] next three_stored [] = ([], inl next).
Proof.
  apply (every_message_read_once [] three_messages ∅ three_stored [] []), history_follow, three_stored_history.
Defined.
