(* ===== verification/Notify.v ===== *)
(** Notifications ([internal/notification/notification.go]) and how the incident
    worker words and times them ([notificationFor], [fallbackName], [retryDelay]
    of [internal/incidents/worker.go]).  The jitter of the retry delay is computed
    in binary64 arithmetic, [prec] 53 and [emax] 1024 of the IEEE 754
    specification of the Standard Library. *)
From Stdlib Require Import Ascii ZArith Lia SpecFloat.
From S2P Require Import Prelude.
From S2P Require Import GoStd.
From S2P Require Import GoLib.
From S2P Require Import Model.
From S2P Require Import EngineState.
Local Open Scope string_scope.

Record Notification : Type := mkNotification {
  nt_EventID : string;
  nt_Kind : Kind;
  nt_Severity : string;
  nt_Title : string;
  nt_Body : string;
  nt_OccurredAt : Time;
  nt_IncidentID : string;
  nt_Link : string
}.

Record Receipt : Type := mkReceipt { rcp_Adapter : string; rcp_ExternalID : string }.

(** [SendError], and any other error. *)
Inductive send_failure : Type :=
| send_error (status : Z) (permanent : bool) (retryAfter : Duration) (message : string)
| other_failure (message : string).

Definition failure_message (f : send_failure) : string :=
  match f with send_error _ _ _ message | other_failure message => message end.

Definition NewSendError (message : string) (permanent : bool) (retryAfter : Duration) : send_failure :=
  send_error 0 permanent retryAfter message.

Definition ErrNotConfigured : string := "notification adapter is not configured".

(** [DiscardNotifier.Send]. *)
Definition discard_send (message : Notification) : Receipt + send_failure := inl (mkReceipt "none" "").

(** ** Durations *)

Definition min_duration : Duration := (- 2 ^ 63)%Z.
Definition max_duration : Duration := (2 ^ 63 - 1)%Z.

(** [t.Sub(u)] saturates. *)
Definition Sub (t u : Time) : Duration :=
  let d := (t - u)%Z in
  if (max_duration <? d)%Z then max_duration else if (d <? min_duration)%Z then min_duration else d.

(** [d.Round(m)]: to the nearest multiple, halves away from zero, saturating. *)
Definition Round (d m : Duration) : Duration :=
  (if m <=? 0 then d
   else
     let r := Z.rem d m in
     if d <? 0 then
       let r := - r in
       if r + r <? m then d + r
       else let d1 := d - m + r in if min_duration <=? d1 then d1 else min_duration
     else if r + r <? m then d - r
     else let d1 := d + m - r in if d1 <=? max_duration then d1 else max_duration)%Z.

(** The fraction of [v / 10^prec] without trailing zeros, with its dot. *)
Definition fmtFrac (v : Z) (prec : nat) : string :=
  match drop_zeros (srev (pad prec (v mod 10 ^ Z.of_nat prec))) with
  | EmptyString => EmptyString
  | s => "." +:+ srev s
  end.

(** [d.String()]; the micro sign is two bytes. *)
Definition Duration_string (d : Duration) : string :=
  let u := Z.abs d in
  let text :=
    if (u =? 0)%Z then "0s"
    else if (u <? 1000)%Z then Itoa u +:+ "ns"
    else if (u <? 1000000)%Z then Itoa (u / 1000) +:+ fmtFrac u 3 +:+ "µs"
    else if (u <? Second)%Z then Itoa (u / 1000000) +:+ fmtFrac u 6 +:+ "ms"
    else
      let s := (u / Second)%Z in
      let seconds := Itoa (s mod 60) +:+ fmtFrac u 9 +:+ "s" in
      let m := (s / 60)%Z in
      if (0 <? m)%Z then
        let minutes := Itoa (m mod 60) +:+ "m" in
        let h := (m / 60)%Z in
        if (0 <? h)%Z then Itoa h +:+ "h" +:+ minutes +:+ seconds else minutes +:+ seconds
      else seconds in
  if (d <? 0)%Z then "-" +:+ text else text.

Example durations :
  map Duration_string [Minute; 90 * Second; 3723 * Second; 1500000; 0; -1]%Z
  = ["1m0s"; "1m30s"; "1h2m3s"; "1.5ms"; "0s"; "-1ns"].
Proof. vm_compute. reflexivity. Qed.

(** ** Wording *)

Definition fallbackName (iface : string) : string :=
  if String.eqb iface "wwan" then "Starlink"
  else if String.eqb iface "tethering" then "4G tethering"
  else iface.

Definition quote : string := String "034" EmptyString.

(** The body of the two recoveries. *)
Definition recovered_body (job : NotificationJob) (incident : Incident) : string :=
  let duration := Round (Sub (job_CreatedAt job) (inc_StartedAt incident)) Second in
  inc_Hostname incident +:+ " " +:+ inc_Interface incident +:+ " was healthy continuously for "
    +:+ Duration_string (inc_RecoveredAfter incident) +:+ ". Incident duration: "
    +:+ Duration_string duration +:+ ".".

Definition worded (job : NotificationJob) (incident : Incident) (kind : Kind)
    (severity title body : string) : Notification + string :=
  inl (mkNotification (job_ID job) kind severity title body (job_CreatedAt job) (inc_ID incident) "").

Definition notificationFor (job : NotificationJob) (incident : Incident) : Notification + string :=
  let who := inc_Hostname incident +:+ " " +:+ inc_Interface incident in
  let down := Duration_string (inc_DownAfter incident) in
  match job_Kind job with
  | KindFallbackResolved =>
    worded job incident KindFallbackResolved "info"
      ("🟢 " +:+ fallbackName (inc_Interface incident) +:+ " backup recovered") (recovered_body job incident)
  | KindFallbackEscalated =>
    worded job incident KindFallbackEscalated "critical"
      ("🔴 Primary WAN and " +:+ fallbackName (inc_Interface incident) +:+ " backup down")
      (who +:+ " has also been offline for " +:+ down +:+ ". Remaining connectivity is unknown.")
  | KindFallbackOpened =>
    worded job incident KindFallbackOpened "warning"
      ("🟠 " +:+ fallbackName (inc_Interface incident) +:+ " backup down")
      (who +:+ " has been offline for " +:+ down +:+ "; primary WAN remains healthy.")
  | KindIncidentResolved =>
    worded job incident KindIncidentResolved "info" "🟢 Primary WAN recovered" (recovered_body job incident)
  | KindIncidentOpened =>
    worded job incident KindIncidentOpened "critical" "🔴 Primary WAN down"
      (who +:+ " has been offline for " +:+ down +:+ ". Backup connectivity is unknown.")
  | KindTest =>
    inr ("unsupported notification kind " +:+ quote +:+ Kind_string KindTest +:+ quote)
  end.

(** ** Retry delay *)

(** [hash/fnv], 32-bit FNV-1a. *)
Fixpoint fnv32a (hash : Z) (s : string) : Z :=
  match s with
  | EmptyString => hash
  | String c s' => fnv32a ((Z.lxor hash (byte_of c) * 16777619) mod 2 ^ 32)%Z s'
  end.

Definition Sum32 (s : string) : Z := fnv32a 2166136261 s.

Definition float64 (z : Z) : spec_float := binary_normalize 53 1024 z 0 false.
Definition fadd : spec_float -> spec_float -> spec_float := SFadd 53 1024.
Definition fmul : spec_float -> spec_float -> spec_float := SFmul 53 1024.
Definition fdiv : spec_float -> spec_float -> spec_float := SFdiv 53 1024.

(** The conversion of a float to an integer cuts the fraction off; of an infinity
    or NaN the language leaves it open, which does not occur. *)
Definition truncate (x : spec_float) : Z :=
  match x with
  | S754_finite sign m e =>
    let v := match e with
             | Zneg p => Z.shiftr (Zpos m) (Zpos p)
             | _ => Z.shiftl (Zpos m) e
             end in
    if sign then Z.opp v else v
  | _ => 0%Z
  end.

(** [math.Pow(2, x)] for an integral [x]: exact, or out of range. *)
Definition Pow2 (x : Z) : spec_float := SFldexp 53 1024 (float64 1) x.

(** The constant [0.9], rounded. *)
Definition nine_tenths : spec_float := Eval vm_compute in fdiv (float64 9) (float64 10).
Definition ten_thousand : spec_float := Eval vm_compute in float64 10000.

Definition jitter (jobID : string) : spec_float :=
  fadd nine_tenths (fdiv (float64 (Sum32 jobID mod 2001)) ten_thousand).

Definition retry_minutes (attempt : Z) : spec_float :=
  let minutes := Pow2 (attempt - 1) in
  if SFltb (float64 60) minutes then float64 60 else minutes.

Definition retryDelay (jobID : string) (attempt : Z) : Duration :=
  let base := truncate (fmul (retry_minutes attempt) (float64 Minute)) in
  truncate (fmul (float64 base) (jitter jobID)).
