(* ===== verification/NotifyProps.v ===== *)
(** The retry delay of a failed notification doubles from a minute to an hour and
    is spread by at most a tenth. *)
From Stdlib Require Import Ascii ZArith Lia SpecFloat.
From S2P Require Import Prelude.
From S2P Require Import GoStd.
From S2P Require Import Model.
From S2P Require Import EngineState.
From S2P Require Import Notify.
Local Open Scope Z_scope.

(** ** Powers of two *)

Lemma fexp_id ex : -1074 <= ex -> fexp 53 1024 (53 + ex) = ex.
Proof. unfold fexp, emin. lia. Qed.

Definition one_mantissa : positive := Eval vm_compute in (2 ^ 52)%positive.

Lemma binary_round_one ex :
  -1074 <= ex ->
  binary_round 53 1024 false one_mantissa ex
  = if ex <=? 971 then S754_finite false one_mantissa ex else S754_infinity false.
Proof.
  intros H. unfold binary_round. change (Zpos (digits2_pos one_mantissa)) with 53.
  rewrite fexp_id by done. unfold shl_align. rewrite Z.sub_diag. unfold binary_round_aux, shr_fexp.
  change (Zdigits2 (Zpos one_mantissa)) with 53. rewrite fexp_id, Z.sub_diag by done.
  cbn [shr shr_record_of_loc shr_m loc_of_shr_record round_nearest_even].
  change (Zdigits2 (Zpos one_mantissa)) with 53. rewrite fexp_id, Z.sub_diag by done. done.
Qed.

Lemma retry_minutes_large attempt : 7 <= attempt -> retry_minutes attempt = float64 60.
Proof.
  intros H. unfold retry_minutes, Pow2.
  change (SFldexp 53 1024 (float64 1) (attempt - 1))
    with (binary_round 53 1024 false one_mantissa (-52 + (attempt - 1))).
  rewrite binary_round_one by lia. destruct (Z.leb_spec (-52 + (attempt - 1)) 971) as [_|_]; [|done].
  assert (SFltb (float64 60) (S754_finite false one_mantissa (-52 + (attempt - 1))) = true) as ->; [|done].
  unfold SFltb, SFcompare. change (float64 60) with (S754_finite false 8444249301319680 (-47)).
  cbv iota beta. by rewrite (proj2 (Z.compare_lt_iff (-47) _)) by lia.
Qed.

(** ** The spread *)

Definition within (minutes delay : Z) : bool :=
  (minutes * 54000000000 - 1 <=? delay) && (delay <=? minutes * 66000000000).

Definition delays_within (spread : Z) : bool :=
  let j := fadd nine_tenths (fdiv (float64 spread) ten_thousand) in
  forallb (fun minutes => within minutes (truncate (fmul (float64 (minutes * Minute)) j)))
    [1; 2; 4; 8; 16; 32; 60].

Lemma all_delays_within : forallb (fun n => delays_within (Z.of_nat n)) (seq 0 2001) = true.
Proof. vm_compute; reflexivity. Qed.

(** The minutes the code means: doubling with every attempt, an hour at most. *)
Definition backoff_minutes (attempt : Z) : Z := Z.min (2 ^ (attempt - 1)) 60.

Lemma base_minutes attempt :
  1 <= attempt ->
  In (backoff_minutes attempt) [1; 2; 4; 8; 16; 32; 60]
  /\ truncate (fmul (retry_minutes attempt) (float64 Minute)) = backoff_minutes attempt * Minute.
Proof.
  intros H. destruct (decide (7 <= attempt)) as [Hl|Hs].
  - rewrite retry_minutes_large by done. assert (backoff_minutes attempt = 60) as ->.
    { unfold backoff_minutes. assert (2 ^ 6 <= 2 ^ (attempt - 1)) by (apply Z.pow_le_mono_r; lia). lia. }
    split; [simpl; tauto|]. by vm_compute.
  - assert (Hc : attempt = 1 \/ attempt = 2 \/ attempt = 3 \/ attempt = 4 \/ attempt = 5 \/ attempt = 6) by lia.
    destruct Hc as [->|[->|[->|[->|[->| ->]]]]]; (split; [vm_compute; tauto|by vm_compute]).
Qed.

Lemma retry_delay_within (jobID : string) (attempt : Z) :
  1 <= attempt ->
  backoff_minutes attempt * Minute * 9 / 10 - 1 <= retryDelay jobID attempt
  /\ retryDelay jobID attempt <= backoff_minutes attempt * Minute * 11 / 10.
Proof.
  intros H. destruct (base_minutes attempt H) as [Hin Hbase]. unfold retryDelay. cbv zeta. rewrite Hbase.
  unfold jitter. set (h := Sum32 jobID mod 2001).
  assert (Hh : 0 <= h < 2001) by (apply Z.mod_pos_bound; lia).
  pose proof all_delays_within as Hall. rewrite forallb_forall in Hall.
  specialize (Hall (Z.to_nat h)). rewrite Z2Nat.id in Hall by lia.
  assert (Hd : delays_within h = true) by (apply Hall, in_seq; lia). clear Hall Hbase.
  unfold delays_within in Hd. cbv zeta in Hd. rewrite forallb_forall in Hd. specialize (Hd _ Hin).
  unfold within in Hd. apply andb_true_iff in Hd as [H1%Z.leb_le H2%Z.leb_le].
  generalize dependent (truncate (fmul (float64 (backoff_minutes attempt * Minute))
    (fadd nine_tenths (fdiv (float64 h) ten_thousand)))).
  intros delay H1 H2. unfold Minute, Second.
  replace (backoff_minutes attempt * (60 * 1000000000) * 9) with (backoff_minutes attempt * 54000000000 * 10) by lia.
  replace (backoff_minutes attempt * (60 * 1000000000) * 11) with (backoff_minutes attempt * 66000000000 * 10) by lia.
  rewrite !Z.div_mul by done. done.
Qed.

(** At most 66 minutes, whatever the number of failures. *)
Lemma retry_delay_le (jobID : string) (attempt : Z) : 1 <= attempt -> retryDelay jobID attempt <= 66 * Minute.
Proof.
  intros H. destruct (retry_delay_within jobID attempt H) as [_ Hle]. etrans; [exact Hle|].
  assert (backoff_minutes attempt <= 60) by (unfold backoff_minutes; lia).
  unfold Minute, Second. apply Z.div_le_upper_bound; lia.
Qed.

(** C36: the n-th retry of a notification waits between nine and eleven
    tenths of [min(2^(n-1), 60)] minutes, to the nanosecond the rounding leaves
    open, for every job and any number of failures. *)
Theorem retry_delay_bounds (jobID : string) (attempt : Z) :
  1 <= attempt ->
  backoff_minutes attempt * Minute * 9 / 10 - 1 <= retryDelay jobID attempt
  /\ retryDelay jobID attempt <= backoff_minutes attempt * Minute * 11 / 10.
Proof. apply retry_delay_within. Qed.

Lemma retry_delay_bounds_witness :
  54 * Second - 1 <= retryDelay "incident:opened" 1 /\ retryDelay "incident:opened" 1 <= 66 * Second.
Proof. apply (retry_delay_bounds "incident:opened" 1). discriminate. Defined.
