(* ===== verification/Discord.v ===== *)
(** The Discord adapter ([internal/notification/discord.go]): the payload, the
    request, what becomes of the answer, and what of a failure's text is kept.
    The exchange itself is an argument; [net/url], [encoding/json] and the
    conversions between texts, floats and integers outside the range of an
    [int64] are a class. *)
From Stdlib Require Import Ascii ZArith SpecFloat.
From S2P Require Import Prelude.
From S2P Require Import GoStd.
From S2P Require Import GoLib.
From S2P Require Import GoStrings.
From S2P Require Import Notify.
Local Open Scope string_scope.

(** [url.URL], with what its methods answer. *)
Record URL : Type := mkURL {
  url_Scheme : string;
  url_Host : string;
  url_Path : string;
  url_RawQuery : string;
  url_EscapedPath : string;
  url_String : string
}.

(** [url_String_with u key value]: the text of the URL after [Set] on its query;
    [json_id]: the field "id" of a JSON object, empty if it has none; [int64_outside]: what the
    platform makes of a float that is no [int64]. *)
Class GoWeb := {
  url_Parse : string -> option URL;
  url_String_with : URL -> string -> string -> string;
  json_Marshal_strings : list (string * string) -> option string;
  json_id : string -> option string;
  ParseFloat : string -> option spec_float;
  int64_outside : spec_float -> Z
}.

Definition discordContentLimit : nat := 2000.

(** The client is told by its timeout. *)
Record DiscordNotifier : Type := mkDiscordNotifier { dn_webhook : URL; dn_timeout : Duration }.

Record http_request : Type := mkHttpRequest {
  hr_URL : string;
  hr_ContentType : string;
  hr_Body : string
}.

(** An error of [client.Do]: what [errors.Is] says of it, its text, and the text
    of the error inside if it is a [url.Error]. *)
Record transport_error : Type := mkTransportError {
  te_DeadlineExceeded : bool;
  te_Canceled : bool;
  te_text : string;
  te_inner : option string
}.

(** The first 4096 bytes of the body are read. *)
Record http_response : Type := mkHttpResponse {
  hp_StatusCode : Z;
  hp_RetryAfter : string;
  hp_MessageID : string;
  hp_Body : string
}.

Inductive exchange : Type :=
| not_created
| not_sent (err : transport_error)
| answered (response : http_response).

(** ** Text *)

Definition truncateRunes (value : string) (limit : nat) : string :=
  let runes := rune_texts value in
  if (length runes <=? limit)%nat then value
  else concat_texts (take (limit - 1) runes) +:+ "…".

Definition discord_text (message : Notification) : string :=
  let content := TrimSpace (nt_Title message) in
  let body := TrimSpace (nt_Body message) in
  let content :=
    if String.eqb body "" then content
    else (if String.eqb content "" then content else content +:+ newline) +:+ body in
  let link := TrimSpace (nt_Link message) in
  if String.eqb link "" then content else content +:+ newline +:+ link.

Definition discord_content (message : Notification) : string :=
  truncateRunes (discord_text message) discordContentLimit.

(** ** Failures *)

Definition secrets (n : DiscordNotifier) : list string :=
  let webhook := dn_webhook n in
  [url_String webhook; url_EscapedPath webhook; url_Path webhook; url_RawQuery webhook]
  ++ Split "/" (Trim (Ascii.eqb "/") (url_Path webhook)).

Definition redact (cause secret : string) : string :=
  if (8 <=? String.length secret)%nat then ReplaceAll cause secret "[redacted]" else cause.

Definition safeTransportCause (n : DiscordNotifier) (err : transport_error) : string :=
  if te_DeadlineExceeded err then "request timed out"
  else if te_Canceled err then "request canceled"
  else fold_left redact (secrets n) (default (te_text err) (te_inner err)).

Section Discord.
Context {GW : GoWeb}.

(** [time.Duration(x)]. *)
Definition Duration_of_float (x : spec_float) : Duration :=
  match x with
  | S754_zero _ => 0%Z
  | S754_finite _ _ _ =>
    let v := truncate x in
    if ((min_duration <=? v) && (v <=? max_duration))%Z then v else int64_outside x
  | _ => int64_outside x
  end.

(** A NaN is not at most zero. *)
Definition retryAfter (value : string) : Duration :=
  match ParseFloat (TrimSpace value) with
  | None => 0%Z
  | Some seconds =>
    if SFleb seconds (S754_zero false) then 0%Z
    else Duration_of_float (fmul seconds (float64 Second))
  end.

(** ** The adapter *)

Definition newDiscord (webhookURL : string) (timeout : Duration) : DiscordNotifier + string :=
  match url_Parse (TrimSpace webhookURL) with
  | None => inr "Discord webhook URL is invalid"
  | Some parsed =>
    if String.eqb (url_Scheme parsed) "" || String.eqb (url_Host parsed) ""
    then inr "Discord webhook URL is invalid"
    else if negb (String.eqb (url_Scheme parsed) "https") then inr "Discord webhook URL must use HTTPS"
    else inl (mkDiscordNotifier parsed (if (timeout <=? 0)%Z then (5 * Second)%Z else timeout))
  end.

Definition discord_request (n : DiscordNotifier) (payload : string) : http_request :=
  mkHttpRequest (url_String_with (dn_webhook n) "wait" "true") "application/json" payload.

(** What is made of the answer. *)
Definition discord_answer (response : http_response) : Receipt + send_failure :=
  let status := hp_StatusCode response in
  if ((status <? 200) || (300 <=? status))%Z then
    inr (send_error status ((400 <=? status) && (status <? 500) && negb (status =? 429))%Z
           (retryAfter (hp_RetryAfter response)) ("Discord notification returned HTTP " +:+ Itoa status))
  else
    let externalID := hp_MessageID response in
    let externalID :=
      if negb (status =? 204)%Z then default externalID (json_id (hp_Body response)) else externalID in
    inl (mkReceipt "discord" externalID).

(** [Send] of a [DiscordNotifier]; [do] is [client.Do]. *)
Definition discord_Send (do : http_request -> exchange) (n : DiscordNotifier) (message : Notification)
    : Receipt + send_failure :=
  match json_Marshal_strings [("content", discord_content message)] with
  | None => inr (send_error 0 true 0 "encode Discord notification")
  | Some payload =>
    match do (discord_request n payload) with
    | not_created => inr (send_error 0 true 0 "create Discord notification request")
    | not_sent err => inr (send_error 0 false 0 ("send Discord notification: " +:+ safeTransportCause n err))
    | answered response => discord_answer response
    end
  end.
End Discord.
