(* ===== verification/DiscordProps.v ===== *)
(** What a Discord delivery tells and keeps to itself: the webhook's secrets are
    not in the text of a failure, and the content fits Discord's limit. *)
From Stdlib Require Import Ascii ZArith Lia SpecFloat.
From S2P Require Import Prelude.
From S2P Require Import GoStd.
From S2P Require Import GoLib.
From S2P Require Import GoStrings.
From S2P Require Import Model.
From S2P Require Import Notify.
From S2P Require Import Discord.
Local Open Scope string_scope.

(** ** Redaction *)

(** What [redact] takes out and its mark does not put back: at least eight bytes,
    no bracket, and not the word the mark is made of. *)
Definition guarded (secret : string) : bool :=
  (8 <=? String.length secret)%nat && lacks "[" secret && lacks "]" secret
  && negb (String.eqb secret "redacted").

Lemma occurs_length t s : occurs t s -> String.length t <= String.length s.
Proof. intros (a & b & ->). rewrite !slength_app. lia. Qed.

Lemma occurs_same_length t s : occurs t s -> String.length s <= String.length t -> t = s.
Proof.
  intros (a & b & ->). rewrite !slength_app. intros H.
  destruct a; cbn in H; [|lia]. destruct b; cbn in H; [|lia]. by rewrite snil_app, sapp_nil_r.
Qed.

Lemma guarded_nonempty secret : guarded secret = true -> secret <> "".
Proof. by intros H ->. Qed.

Lemma guarded_apart secret : guarded secret = true -> apart secret "[redacted]".
Proof.
  intros Hg. pose proof (guarded_nonempty _ Hg) as Hne. unfold guarded in Hg.
  rewrite !andb_true_iff, negb_true_iff, Nat.leb_le, String.eqb_neq in Hg. destruct Hg as [[[Hl Ho] Hc] Hw].
  intros u v. change ("[redacted]" +:+ v) with (String "[" ("redacted" +:+ String "]" v)).
  intros [H|[H|H]%(occurs_skip _ _ _ _ Hc Hne)]%(occurs_skip _ _ _ _ Ho Hne); [by left| |by right].
  destruct Hw. by apply occurs_same_length.
Qed.

Lemma redact_absent cause secret t :
  guarded t = true -> ~ occurs t cause -> ~ occurs t (redact cause secret).
Proof.
  intros Ht Hc. unfold redact. destruct (_ <=? _)%nat; [|done].
  by apply replace_absent; [apply guarded_apart|].
Qed.

Lemma redact_gone cause secret : guarded secret = true -> ~ occurs secret (redact cause secret).
Proof.
  intros Hg. pose proof Hg as Hg'. unfold guarded in Hg. rewrite !andb_true_iff in Hg. destruct Hg as [[[Hl _] _] _].
  unfold redact, ReplaceAll. rewrite Hl. apply replace_gone; [by apply guarded_apart|by apply guarded_nonempty|lia].
Qed.

Lemma redacted_all l cause secret :
  guarded secret = true -> In secret l -> ~ occurs secret (fold_left redact l cause).
Proof.
  intros Hg. assert (Hkeep : forall l cause, ~ occurs secret cause -> ~ occurs secret (fold_left redact l cause)).
  { clear l cause. intros l. induction l as [|t l IH]; intros cause Hc; cbn; [done|]. by apply IH, redact_absent. }
  revert cause. induction l as [|t l IH]; [by intros cause []|]. intros cause [->|Hin]; cbn.
  - by apply Hkeep, redact_gone.
  - by apply IH.
Qed.

(** ** Theorems *)

(** The texts of a failure that say nothing of the webhook. *)
Definition plain_failure (text : string) : Prop :=
  In text ["encode Discord notification"; "create Discord notification request";
           "send Discord notification: request timed out"; "send Discord notification: request canceled"]
  \/ exists status, text = "Discord notification returned HTTP " +:+ Itoa status.


(** The content sent to Discord is at most 2000 runes long; a text that
    fits is sent as it is, a longer one loses what is behind its first 1999 runes,
    for which an ellipsis stands; no rune is cut in two. *)
Theorem content_fits (message : Notification) :
  let runes := rune_texts (discord_text message) in
  length (rune_texts (discord_content message)) <= discordContentLimit
  /\ if (length runes <=? discordContentLimit)%nat then discord_content message = discord_text message
     else rune_texts (discord_content message) = (take (discordContentLimit - 1) runes ++ ["…"])%list.
Proof.
  cbv zeta. unfold discord_content, truncateRunes. set (text := discord_text message).
  destruct (Nat.leb_spec (length (rune_texts text)) discordContentLimit) as [H|H]; [done|].
  assert (Hr : rune_texts (concat_texts (take (discordContentLimit - 1) (rune_texts text)) +:+ "…")
               = (take (discordContentLimit - 1) (rune_texts text) ++ ["…"])%list).
  { rewrite <- (sapp_nil_r "…") at 1. change ("…" +:+ "") with (concat_texts ["…"]).
    rewrite <- concat_texts_app. apply rune_texts_concat, Forall_app. split; [apply Forall_take, rune_texts_one|].
    apply Forall_singleton. exact (Forall_inv (rune_texts_one "…")). }
  split; [|exact Hr]. rewrite Hr, length_app, length_take. cbn [length]. unfold discordContentLimit in *. lia.
Qed.

(** A refusal is final exactly if trying again cannot help. *)
Lemma discord_retried {GW : GoWeb} (response : http_response) :
  let status := hp_StatusCode response in
  (forall receipt, discord_answer response = inl receipt -> (200 <= status < 300)%Z /\ rcp_Adapter receipt = "discord")
  /\ (forall code permanent after text, discord_answer response = inr (send_error code permanent after text) ->
        code = status /\ (permanent = true <-> (400 <= status < 500)%Z /\ status <> 429%Z)).
Proof.
  cbv zeta. unfold discord_answer. set (status := hp_StatusCode response).
  destruct ((status <? 200)%Z || (300 <=? status)%Z) eqn:E; split; try done.
  - intros code permanent after text [= <- <- _ _]. split; [done|]. rewrite !andb_true_iff, negb_true_iff. lia.
  - intros receipt [= <-]. split; [lia|done].
Qed.

(** ** A webhook *)

(** A web that knows URLs of a scheme, a host and a path. *)
Definition plain_Parse (text : string) : option URL :=
  match Index text "://" with
  | None => None
  | Some i =>
    let rest := sdrop (i + 3) text in
    let j := default (String.length rest) (Index rest "/") in
    let path := sdrop j rest in
    Some (mkURL (stake i text) (stake j rest) path "" path text)
  end.

Definition plain_web : GoWeb :=
  {| url_Parse := plain_Parse;
     url_String_with := fun u key value => url_String u +:+ "?" +:+ key +:+ "=" +:+ value;
     json_Marshal_strings := fun fields => Some (Join (map (fun kv => kv.1 +:+ "=" +:+ kv.2) fields) "&");
     json_id := fun body => if HasPrefix body "id=" then Some (sdrop 3 body) else None;
     ParseFloat := fun text => float64 <$> Atoi text;
     int64_outside := fun _ => min_duration |}.

Definition hook_URL : string := "https://discord.example/api/webhooks/123456789012/s3cret-t0ken".
Definition hook : DiscordNotifier + string := newDiscord (GW := plain_web) hook_URL 0.

Definition refused_by (text : string) : http_request -> exchange :=
  fun _ => not_sent (mkTransportError false false ("Post " +:+ text) (Some text)).

Definition told : Notification :=
  mkNotification "job-1" KindIncidentOpened "critical" "🔴 Primary WAN down" "router-a wan has been offline for 1m0s."
    0 "incident-1" "".

(** The text a failure is recorded with, and other answers. *)
Example redacted_failure :
  match hook with
  | inl n =>
    map (fun do => sum_map rcp_ExternalID (fun err => (failure_message err, err)) (discord_Send (GW := plain_web) do n told))
      [refused_by ("dial " +:+ hook_URL +:+ ": token s3cret-t0ken refused, webhook 123456789012");
       fun _ => answered (mkHttpResponse 429 "3" "" ""); fun _ => answered (mkHttpResponse 404 "" "" "");
       fun _ => answered (mkHttpResponse 200 "" "" "id=42")]
    = [inr ("send Discord notification: dial [redacted]: token [redacted] refused, webhook [redacted]",
            send_error 0 false 0
              "send Discord notification: dial [redacted]: token [redacted] refused, webhook [redacted]");
       inr ("Discord notification returned HTTP 429",
            send_error 429 false (3 * Second) "Discord notification returned HTTP 429");
       inr ("Discord notification returned HTTP 404", send_error 404 true 0 "Discord notification returned HTTP 404");
       inl "42"]
  | inr _ => False
  end.
Proof. vm_compute. reflexivity. Qed.

