(* ===== verification/Worker.v ===== *)
(** The incident worker ([internal/incidents/worker.go]): it follows the message
    files, feeds what it reads to the engine, advances the timers and delivers the
    jobs of the outbox.  What happens outside, the reads, the checkpoints and the
    deliveries, is asked from an [Outside] record, by position in the run. *)
From Stdlib Require Import Ascii ZArith.
From S2P Require Import Prelude.
From S2P Require Import GoStd.
From S2P Require Import GoLib.
From S2P Require Import Model.
From S2P Require Import Classify.
From S2P Require Import EngineState.
From S2P Require Import Engine.
From S2P Require Import Storage.
From S2P Require Import Reader.
From S2P Require Import Notify.
Local Open Scope string_scope.

Inductive worker_error : Type :=
| err_reconcile (err : reader_error)
| err_apply (err : error)
| err_advance (err : error)
| err_mark (err : error).

(** [LastError] holds the text of the error; here the error itself. *)
Record WorkerHealth : Type := mkWorkerHealth {
  wh_Running : bool;
  wh_LastReconciledAt : option Time;
  wh_LastProcessedAt : option Time;
  wh_LastError : option worker_error;
  wh_PendingJobs : nat
}.

Definition zero_health : WorkerHealth := mkWorkerHealth false None None None 0.

(** [wk_wake] tells whether the channel of capacity one is full. *)
Record Worker : Type := mkWorker {
  wk_engine : Snapshot;
  wk_health : WorkerHealth;
  wk_wake : bool
}.

Definition set_engine (s : Snapshot) (w : Worker) : Worker := mkWorker s (wk_health w) (wk_wake w).
Definition set_health (h : WorkerHealth) (w : Worker) : Worker := mkWorker (wk_engine w) h (wk_wake w).
Definition set_wake (b : bool) (w : Worker) : Worker := mkWorker (wk_engine w) (wk_health w) b.

(** The environment of one run of [reconcile] or [tick]. *)
Record Outside : Type := mkOutside {
  out_read : nat -> Env;
  out_save : nat -> option (Snapshot -> option string);
  out_send : nat -> Notification -> Receipt + send_failure
}.

(** Stable insertion: [x] goes before the elements that are not less. *)
Fixpoint insert_stable {A : Type} (less : A -> A -> bool) (x : A) (l : list A) : list A :=
  match l with
  | [] => [x]
  | y :: l' => if less y x then y :: insert_stable less x l' else x :: l
  end.

(** [sort.SliceStable]. *)
Definition SliceStable {A : Type} (less : A -> A -> bool) (l : list A) : list A :=
  foldr (insert_stable less) [] l.

Definition record_less (a b : StoredRecord) : bool :=
  if (msg_ReceivedAt (sr_Message a) =? msg_ReceivedAt (sr_Message b))%Z then
    if String.eqb (sr_File a) (sr_File b) then (sr_Offset a <? sr_Offset b)%Z
    else string_less (sr_File a) (sr_File b)
  else Before (msg_ReceivedAt (sr_Message a)) (msg_ReceivedAt (sr_Message b)).

Section Worker.
Context {GR : GoRange} {GS : GoSort} {J : GoJson}.
(** The engine's configuration, when the worker was made, the public URL and
    whether the notifier is the one that discards. *)
Context (cfg : Config) (startedAt : Time) (publicURL : string) (discards : bool).

Definition NewWorker (s : Snapshot) : Worker := mkWorker s zero_health false.

Definition Wake (w : Worker) : Worker := set_wake true w.
Definition Publish (message : Message) (w : Worker) : Worker := Wake w.

(** The callback of both reads. *)
Definition keep_supported (records : list StoredRecord) (record : StoredRecord)
    : list StoredRecord + store_error :=
  inl match classify (sr_Message record) (cfg_Interface cfg) with
      | Some _ => records ++ [record]
      | None => records
      end%list.

(** Both reads: [None] when nothing was replaced, or the file that was. *)
Definition read_archive (out : Outside) (p : list nat) (cursors : gmap string Cursor) (st : FileStore)
    : option string * list StoredRecord * (gmap string Cursor + reader_error) :=
  match VisitAfter keep_supported (out_read out 0) (0 :: p) cursors st [] with
  | (records, inl next) => (None, records, inl next)
  | (records, inr err) =>
    match PartitionChangedFile err with
    | None => (None, records, inr err)
    | Some file =>
      let '(records, next) := VisitAfter keep_supported (out_read out 1) (1 :: p) ∅ st [] in
      (Some file, records, next)
    end
  end.

(** Whether the record may cause notifications. *)
Definition eligible (changed : option string) (s : Snapshot) (record : StoredRecord) : bool :=
  let message := sr_Message record in
  let eligible := negb (String.eqb (msg_Transport message) "import")
                  && (snap_Bootstrapped s || After (msg_ReceivedAt message) startedAt) in
  match changed with
  | None => eligible
  | Some changedFile =>
    if String.eqb (sr_File record) changedFile
    then eligible && negb (IsZero (snap_LastCheckpointAt s))
         && After (msg_ReceivedAt message) (snap_LastCheckpointAt s)
    else match Cursors s !! sr_File record with
         | None => eligible
         | Some previous => eligible && (cur_Offset previous <? sr_Offset record)%Z
         end
  end.

Definition observation (changed : option string) (s : Snapshot) (record : StoredRecord) : Observation :=
  {| obs_Message := sr_Message record; obs_NotifyEligible := eligible changed s record;
     obs_SourceRef := sr_File record +:+ ":" +:+ Itoa (sr_Offset record) |}.

Definition last_processed (records : list StoredRecord) : option Time :=
  fold_left (fun last record =>
      let processed := msg_ReceivedAt (sr_Message record) in
      match last with
      | Some t => if After processed t then Some processed else last
      | None => Some processed
      end) records None.

(** One job of the loop of [dispatch]: what is sent, and what is recorded. *)
Definition attempt (out : Outside) (i base : nat) (now : Time) (job : NotificationJob) (s : Snapshot)
    : list Notification * (Snapshot * option error) :=
  let save := out_save out (base + i) in
  match Get (job_IncidentID job) s with
  | None => ([], MarkNotificationFailed save (job_ID job) "incident not found" now true s)
  | Some incident =>
    match notificationFor job incident with
    | inr err => ([], MarkNotificationFailed save (job_ID job) err now true s)
    | inl message =>
      let message :=
        if String.eqb publicURL "" then message
        else mkNotification (nt_EventID message) (nt_Kind message) (nt_Severity message) (nt_Title message)
               (nt_Body message) (nt_OccurredAt message) (nt_IncidentID message)
               (publicURL +:+ "/?incident=" +:+ inc_ID incident) in
      ([message],
       match out_send out i message with
       | inl receipt =>
         MarkNotificationSent save (job_ID job) (rcp_Adapter receipt) (rcp_ExternalID receipt) now s
       | inr err =>
         let next := (now + retryDelay (job_ID job) (job_Attempts job + 1))%Z in
         let '(permanent, next) :=
           match err with
           | send_error _ permanent retryAfter _ =>
             (permanent, if (0 <? retryAfter)%Z then (now + retryAfter)%Z else next)
           | other_failure _ => (false, next)
           end in
         MarkNotificationFailed save (job_ID job) (failure_message err) next permanent s
       end)
    end
  end.

Fixpoint dispatch_loop (out : Outside) (i base : nat) (now : Time) (jobs : list NotificationJob) (s : Snapshot)
    : list Notification * (Snapshot * option worker_error) :=
  match jobs with
  | [] => ([], (s, None))
  | job :: rest =>
    match attempt out i base now job s with
    | (sent, (s, Some err)) => (sent, (s, Some (err_mark err)))
    | (sent, (s, None)) =>
      let '(sent', r) := dispatch_loop out (S i) base now rest s in
      ((sent ++ sent')%list, r)
    end
  end.

(** [base] counts the checkpoints written before. *)
Definition dispatch (out : Outside) (base : nat) (p : list nat) (now : Time) (s : Snapshot)
    : list Notification * (Snapshot * option worker_error) :=
  dispatch_loop out 0 base now (DueNotifications p now s) s.

(** The end of both loops: timers, then deliveries. *)
Definition advance_and_dispatch (out : Outside) (base : nat) (p : list nat) (now : Time) (s : Snapshot)
    : list Notification * (Snapshot * option worker_error) :=
  match Tick cfg (out_save out base) (2 :: p) now s with
  | (s, Some err) => ([], (s, Some (err_advance err)))
  | (s, None) => dispatch out (S base) (3 :: p) now s
  end.

Definition tick (out : Outside) (p : list nat) (now : Time) (w : Worker)
    : list Notification * (Worker * option worker_error) :=
  let '(sent, (s, err)) := advance_and_dispatch out 0 p now (wk_engine w) in
  (sent, (set_engine s w, err)).

Definition pending_count (p : list nat) (s : Snapshot) : nat := length (PendingNotifications p s).

Definition reconciled (p : list nat) (now : Time) (processed : option Time) (s : Snapshot) (h : WorkerHealth)
    : WorkerHealth :=
  mkWorkerHealth (wh_Running h) (Some now)
    (match processed with Some _ => processed | None => wh_LastProcessedAt h end) None (pending_count p s).

Definition reconcile (out : Outside) (p : list nat) (now : Time) (st : FileStore) (w : Worker)
    : list Notification * (Worker * option worker_error) :=
  let s := wk_engine w in
  match read_archive out p (Cursors s) st with
  | (_, _, inr err) => ([], (w, Some (err_reconcile err)))
  | (changed, records, inl next) =>
    let records := SliceStable record_less records in
    let observations := map (observation changed s) records in
    let applied :=
      match changed with
      | Some _ => Rebuild cfg (out_save out 0) (4 :: p) observations next now s
      | None => Apply cfg (out_save out 0) (4 :: p) observations next now s
      end in
    match applied with
    | (s, Some err) => ([], (set_engine s w, Some (err_apply err)))
    | (s, None) =>
      match advance_and_dispatch out 1 p now s with
      | (sent, (s, Some err)) => (sent, (set_engine s w, Some err))
      | (sent, (s, None)) =>
        (sent, (set_health (reconciled (5 :: p) now (last_processed records) s (wk_health w)) (set_engine s w), None))
      end
    end
  end.

Definition setRunning (running : bool) (w : Worker) : Worker :=
  let h := wk_health w in
  set_health (mkWorkerHealth running (wh_LastReconciledAt h) (wh_LastProcessedAt h) (wh_LastError h)
                (wh_PendingJobs h)) w.

Definition recordError (p : list nat) (err : worker_error) (w : Worker) : Worker :=
  let h := wk_health w in
  set_health (mkWorkerHealth (wh_Running h) (wh_LastReconciledAt h) (wh_LastProcessedAt h) (Some err)
                (pending_count p (wk_engine w))) w.

Definition recorded (p : list nat) (r : list Notification * (Worker * option worker_error))
    : list Notification * Worker :=
  match r with
  | (sent, (w, Some err)) => (sent, recordError p err w)
  | (sent, (w, None)) => (sent, w)
  end.

(** What can wake the loop of [Run]; a wake-up is taken from the channel. *)
Inductive worker_event : Type :=
| run_started (canceled : bool) (now : Time)
| tick_fired (now : Time)
| reconcile_fired (now : Time)
| wake_taken (now : Time)
| run_ended.

Definition worker_step (out : Outside) (p : list nat) (st : FileStore) (ev : worker_event) (w : Worker)
    : list Notification * Worker :=
  match ev with
  | run_started canceled now =>
    let w := setRunning true w in
    if canceled
    then let '(sent, (w, _)) := reconcile out p now st w in (sent, w)
    else recorded (6 :: p) (reconcile out p now st w)
  | tick_fired now => recorded (6 :: p) (tick out p now w)
  | reconcile_fired now => recorded (6 :: p) (reconcile out p now st w)
  | wake_taken now =>
    if wk_wake w then recorded (6 :: p) (reconcile out p now st (set_wake false w)) else ([], w)
  | run_ended => ([], setRunning false w)
  end.

(** [Health] at the time [now], with whether the worker is stale. *)
Definition Health (p : list nat) (now : Time) (w : Worker) : WorkerHealth * bool :=
  let h := wk_health w in
  (mkWorkerHealth (wh_Running h) (wh_LastReconciledAt h) (wh_LastProcessedAt h) (wh_LastError h)
     (pending_count p (wk_engine w)),
   wh_Running h && match wh_LastReconciledAt h with
                   | None => true
                   | Some t => (Minute <? Sub now t)%Z
                   end).

(** The clock is read twice; the name counts nanoseconds from 1970. *)
Definition test_notification (named occurred : Time) : Notification :=
  mkNotification ("test-" +:+ Itoa (named - Date 1970 1 1 0 0 0)) KindTest "info" "Logthing test notification"
    "Logthing notifications are configured correctly." occurred "" "".

Definition SendTest (out : Outside) (named occurred : Time) : list Notification * (Receipt + send_failure) :=
  if discards then ([], inr (other_failure ErrNotConfigured))
  else let message := test_notification named occurred in ([message], out_send out 0 message).
End Worker.
