(* ===== verification/WorkerLemmas.v ===== *)
(** Lemmas on the worker: what one delivery attempt does to the outbox, how the
    loop of [dispatch] composes the attempts, and that what a round does besides
    only adds jobs. *)
From Stdlib Require Import ZArith Lia.
From S2P Require Import Prelude.
From S2P Require Import GoStd.
From S2P Require Import GoLib.
From S2P Require Import Model.
From S2P Require Import Classify.
From S2P Require Import EngineState.
From S2P Require Import Engine.
From S2P Require Import EngineLemmas.
From S2P Require Import EngineJobs.
From S2P Require Import Storage.
From S2P Require Import Reader.
From S2P Require Import Notify.
From S2P Require Import Worker.

(** ** The outbox under the engine's other operations *)

(** Every job is stored under its own id. *)
Definition keyed (s : Snapshot) : Prop := forall id j, snap_Jobs s !! id = Some j -> job_ID j = id.

Definition only_adds (s s' : Snapshot) : Prop := snap_Jobs s ⊆ snap_Jobs s' /\ (keyed s -> keyed s').

#[export] Instance only_adds_preorder : PreOrder only_adds.
Proof. split; [by intros s|]. intros s1 s2 s3 [? ?] [? ?]. split; [by etrans|auto]. Qed.

Create HintDb only_adds discriminated.

Lemma same_jobs_adds s s' : snap_Jobs s' = snap_Jobs s -> only_adds s s'.
Proof. intros H. unfold only_adds, keyed. by rewrite H. Qed.

Lemma enqueue_adds id iid k a s : only_adds s (enqueue_with_id id iid k a s).
Proof.
  unfold enqueue_with_id. destruct (snap_Jobs s !! id) eqn:Hj; [done|]. unfold only_adds, keyed. snap_simpl.
  split; [by apply insert_subseteq|]. intros Hk id' j. rewrite lookup_insert. case_decide; [by intros [= <-]|apply Hk].
Qed.

Lemma sound_keyed cfg s : outbox_sound cfg s -> keyed s.
Proof. intros Hs id j Hj. by destruct (Hs id j Hj). Qed.

#[export] Hint Resolve enqueue_adds : only_adds.
#[export] Hint Extern 1 (only_adds _ _) => reflexivity : only_adds.

Section Adds.
Context {GR : GoRange} (cfg : Config).

Lemma fold_adds {A} (f : Snapshot -> A -> Snapshot) l s : (forall s a, only_adds s (f s a)) -> only_adds s (fold_left f l s).
Proof. intros H. apply (fold_left_preserves (only_adds s)); [|done]. intros s' a _ Hs. by etrans. Qed.

Lemma notify_activation_adds p i a s : only_adds s (notify_activation cfg p i a s).
Proof.
  unfold notify_activation, enqueueLocked, enqueueFallbackEscalationLocked.
  destruct (is_primary cfg i); [|destruct (primaryDownAtLocked _ _ _ _ _)]; auto with only_adds.
Qed.

Lemma escalate_adds p h pid a s : only_adds s (escalateFallbacksLocked cfg p h pid a s).
Proof. apply fold_adds. intros s' [k i]. destruct (escalates cfg h i); auto with only_adds. apply enqueue_adds. Qed.

Lemma activate_adds q k t s : only_adds s (activate cfg q k t s).
Proof.
  destruct (snap_Incidents s !! trk_IncidentID t) as [i|] eqn:Hi.
  - rewrite (activate_stages cfg q k t i s Hi). cbv zeta.
    set (s1 := put_tracker _ _ _). assert (H1 : only_adds s s1) by by apply same_jobs_adds.
    etrans; [exact H1|]. clearbody s1. clear H1.
    set (s2 := if inc_Notify _ then _ else _).
    assert (H2 : only_adds s1 s2) by (unfold s2; destruct (inc_Notify _); [apply notify_activation_adds|done]).
    etrans; [exact H2|]. clearbody s2. destruct (is_primary _ _); [apply escalate_adds|done].
  - unfold activate. rewrite Hi. by apply same_jobs_adds.
Qed.

Lemma resolve_adds k t s : only_adds s (resolve cfg k t s).
Proof.
  destruct (snap_Incidents s !! trk_IncidentID t) as [i|] eqn:Hi.
  - rewrite (resolve_stages cfg k t i s Hi). cbv zeta. etrans; [|by apply same_jobs_adds].
    destruct (inc_Notify _); [|by apply same_jobs_adds].
    etrans; [|apply enqueue_adds]. by apply same_jobs_adds.
  - unfold resolve. rewrite Hi. by apply same_jobs_adds.
Qed.

Lemma advance_adds p now s : only_adds s (advanceLocked cfg p now s).1.
Proof.
  apply (advance_preserves cfg (only_adds s)); [|done]. intros q k t s' Hs _ _. etrans; [exact Hs|].
  unfold advance_body. destruct (trk_Phase t); [done|done|apply activate_adds|done|apply resolve_adds].
Qed.

Lemma observe_offline_jobs e n t s : snap_Jobs (observe_offline cfg e n t s).2 = snap_Jobs s.
Proof. unfold observe_offline. destruct (trk_Phase t); cbn [snd]; by snap_simpl. Qed.

Lemma observe_online_jobs e t s : snap_Jobs (observe_online e t s).2 = snap_Jobs s.
Proof. unfold observe_online. destruct (trk_Phase t); cbn [snd]; by snap_simpl. Qed.

Lemma observe_adds p m n r s : only_adds s (observeLocked cfg p m n r s).
Proof.
  unfold observeLocked. destruct (classify m _) as [e|]; [|done]. unfold observe_evidence.
  destruct (stale_evidence _ _); [done|]. destruct (ev_observeOnly _); [by apply same_jobs_adds|].
  etrans; [apply (advance_adds p (ev_at (set_sourceRef r e)))|]. destruct (masked_recovery _ _ _); [done|].
  destruct (ev_online _).
  - destruct (observe_online _ _ _) as [t s'] eqn:He. apply same_jobs_adds. snap_simpl.
    apply (f_equal (fun x => snap_Jobs x.2)) in He. cbn [snd] in He. by rewrite <- He, observe_online_jobs.
  - destruct (observe_offline _ _ _ _ _) as [t s'] eqn:He. apply same_jobs_adds. snap_simpl.
    apply (f_equal (fun x => snap_Jobs x.2)) in He. cbn [snd] in He. by rewrite <- He, observe_offline_jobs.
Qed.

Lemma observe_all_adds i p os s : only_adds s (observe_all cfg i p os s).
Proof.
  revert i s. induction os as [|o os IH]; intros i s; [done|]. etrans; [apply observe_adds|apply IH].
Qed.

Lemma Apply_adds sv p os c a s : only_adds s (Apply cfg sv p os c a s).1.
Proof. etrans; [apply observe_all_adds|]. by apply same_jobs_adds. Qed.

Lemma Tick_adds sv p now s : only_adds s (Tick cfg sv p now s).1.
Proof.
  unfold Tick. pose proof (advance_adds p now s) as H. destruct (advanceLocked cfg p now s) as [s' []]; exact H.
Qed.
End Adds.

(** ** One attempt *)

Definition sent_job (receipt : Receipt) (now : Time) (job : NotificationJob) : NotificationJob :=
  set_job_LastError "" (set_job_ExternalID (rcp_ExternalID receipt)
    (set_job_Adapter (rcp_Adapter receipt) (set_job_SentAt (Some now) job))).

Definition failed_job (message : string) (next : Time) (permanent : bool) (job : NotificationJob) : NotificationJob :=
  set_job_Permanent permanent (set_job_NextAt next
    (set_job_LastError message (set_job_Attempts (job_Attempts job + 1)%Z job))).

(** What the notifier asks to wait, or the delay of the retries. *)
Definition wait_for (job : NotificationJob) (err : send_failure) : Duration :=
  match err with
  | send_error _ _ retryAfter _ =>
    if (0 <? retryAfter)%Z then retryAfter else retryDelay (job_ID job) (job_Attempts job + 1)
  | other_failure _ => retryDelay (job_ID job) (job_Attempts job + 1)
  end.

Definition is_permanent (err : send_failure) : bool :=
  match err with send_error _ permanent _ _ => permanent | other_failure _ => false end.

Section Attempts.
Context (publicURL : string).

Definition linked_to (incident : Incident) (m : Notification) : Notification :=
  if String.eqb publicURL "" then m
  else mkNotification (nt_EventID m) (nt_Kind m) (nt_Severity m) (nt_Title m)
         (nt_Body m) (nt_OccurredAt m) (nt_IncidentID m) (publicURL +:+ "/?incident=" +:+ inc_ID incident).

(** The notification of a job, or why it has none. *)
Definition message_of (incidents : gmap string Incident) (job : NotificationJob) : Notification + string :=
  match incidents !! job_IncidentID job with
  | None => inr "incident not found"
  | Some incident =>
    match notificationFor job incident with
    | inl m => inl (linked_to incident m)
    | inr err => inr err
    end
  end.

(** What the [i]-th attempt of a round sends, and what becomes of the job. *)
Definition trial (out : Outside) (now : Time) (incidents : gmap string Incident) (i : nat) (job : NotificationJob)
    : list Notification * (NotificationJob -> NotificationJob) :=
  match message_of incidents job with
  | inr err => ([], failed_job err now true)
  | inl m =>
    ([m], match out_send out i m with
          | inl receipt => sent_job receipt now
          | inr err => failed_job (failure_message err) (now + wait_for job err) (is_permanent err)
          end)
  end.

Definition asked out now incidents i job : list Notification := (trial out now incidents i job).1.
Definition tried out now incidents i job : NotificationJob := (trial out now incidents i job).2 job.

Lemma attempt_trial out i base now job s :
  attempt publicURL out i base now job s
  = ((trial out now (snap_Incidents s) i job).1,
     update_job (out_save out (base + i)) (job_ID job) (trial out now (snap_Incidents s) i job).2 s).
Proof.
  unfold attempt, trial, message_of, linked_to, Get, cloneIncident.
  destruct (snap_Incidents s !! job_IncidentID job) as [incident|]; [|done]. cbn [fmap option_fmap option_map].
  destruct (notificationFor job incident) as [m|err]; [|done]. cbv zeta.
  generalize (if String.eqb publicURL "" then m else
    mkNotification (nt_EventID m) (nt_Kind m) (nt_Severity m) (nt_Title m)
         (nt_Body m) (nt_OccurredAt m) (nt_IncidentID m) (publicURL +:+ "/?incident=" +:+ inc_ID incident)).
  intros m'. cbn [fst snd]. f_equal. destruct (out_send out i m') as [r|[k pm ra ms|ms]]; [done| |done].
  cbn [wait_for is_permanent failure_message]. destruct (0 <? ra)%Z; done.
Qed.

Lemma trial_identity out now incidents i job : keeps_identity (trial out now incidents i job).2.
Proof. unfold trial. destruct (message_of _ _); [destruct (out_send _ _ _)|]; by intros j. Qed.

Lemma tried_ID out now incidents i job : job_ID (tried out now incidents i job) = job_ID job.
Proof. apply trial_identity. Qed.

Lemma worded_event job incident m : notificationFor job incident = inl m -> nt_EventID m = job_ID job.
Proof. unfold notificationFor. destruct (job_Kind job); intros [= <-]; done. Qed.

Lemma asked_event out now incidents i job m : m ∈ asked out now incidents i job -> nt_EventID m = job_ID job.
Proof.
  unfold asked, trial, message_of. destruct (incidents !! _) as [incident|]; [|cbn; set_solver].
  destruct (notificationFor job incident) as [m'|] eqn:Hm; [|cbn; set_solver].
  cbn. intros ->%list_elem_of_singleton. apply worded_event in Hm. unfold linked_to.
  destruct (String.eqb publicURL ""); exact Hm.
Qed.

(** ** The loop *)

(** [s'] is [s] but for the jobs of [jobs] numbered below [n], which were tried. *)
Record tried_upto (out : Outside) (now : Time) (i n : nat) (jobs : list NotificationJob) (s s' : Snapshot) : Prop := {
  tu_rest : s' = set_snap_Jobs (snap_Jobs s') s;
  tu_tried k j : jobs !! k = Some j ->
    snap_Jobs s' !! job_ID j = Some (if k <? n then tried out now (snap_Incidents s) (i + k) j else j);
  tu_others id : (forall j, j ∈ jobs -> job_ID j <> id) -> snap_Jobs s' !! id = snap_Jobs s !! id
}.

Lemma set_jobs_id s : s = set_snap_Jobs (snap_Jobs s) s.
Proof. by destruct s. Qed.

Definition save_refused (sv : option (Snapshot -> option string)) (err : option error) : Prop :=
  exists save what s, sv = Some save /\ save s = Some what /\ err = Some (err_persistence what).

Lemma saveLocked_refused sv s e : saveLocked sv s = Some e -> save_refused sv (Some e).
Proof.
  unfold saveLocked. destruct sv as [save|]; [|done]. unfold cloneSnapshot.
  destruct (save s) as [what|] eqn:Hs; [|done]. intros [= <-]. by exists save, what, s.
Qed.

(** [dispatch] tries the jobs in order; it stops early only when the result of a
    trial cannot be saved, and then that job, already sent, is left as it was. *)
Lemma dispatch_loop_spec out base now jobs i s :
  NoDup (job_ID <$> jobs) ->
  (forall j, j ∈ jobs -> snap_Jobs s !! job_ID j = Some j) ->
  exists n s' err,
    dispatch_loop publicURL out i base now jobs s
    = (mjoin (take (S n) (imap (fun k => asked out now (snap_Incidents s) (i + k)) jobs)), (s', err_mark <$> err))
    /\ tried_upto out now i n jobs s s' /\ n <= length jobs
    /\ (if n <? length jobs then save_refused (out_save out (base + (i + n))) err else err = None).
Proof.
  revert i s. induction jobs as [|job jobs IH]; intros i s Hnd Hs.
  { exists 0, s, None. split; [done|]. split; [|done]. split; [apply set_jobs_id|by intros k j Hk|done]. }
  rewrite fmap_cons in Hnd. apply NoDup_cons in Hnd as [Hnew Hnd].
  assert (Hj : snap_Jobs s !! job_ID job = Some job) by (apply Hs, elem_of_cons; by left).
  cbn [dispatch_loop]. rewrite attempt_trial.
  destruct (update_job_cases (out_save out (base + i)) (job_ID job) (trial out now (snap_Incidents s) i job).2 s)
    as [[Hn _]|(j & Hj' & [(e & He & ->)|[He ->]])]; [congruence| |].
  { exists 0, s, (Some e). cbn [imap take fmap option_fmap option_map]. unfold mjoin, asked. cbn.
    rewrite !Nat.add_0_r, app_nil_r. split; [done|].
    split; [|split; [lia|by eapply saveLocked_refused]].
    split; [apply set_jobs_id|by intros k j' Hk; apply Hs; eapply list_elem_of_lookup_2|done]. }
  assert (j = job) as -> by congruence. clear Hj'. fold (tried out now (snap_Incidents s) i job) in *.
  set (s1 := put_job (job_ID job) (tried out now (snap_Incidents s) i job) s).
  destruct (IH (S i) s1 Hnd) as (n & s' & err & -> & Ht & Hle & Hend).
  { intros j Hin. unfold s1. snap_simpl. rewrite lookup_insert_ne; [by apply Hs, elem_of_cons; right|].
    intros Heq. apply Hnew. rewrite Heq. by apply list_elem_of_fmap_2. }
  exists (S n), s', err. split; [|split; [|split; [cbn; lia|]]].
  - cbn [imap take]. f_equal. unfold mjoin. cbn. rewrite Nat.add_0_r. f_equal. f_equal. f_equal.
    apply imap_ext. intros k x _. cbn. by rewrite Nat.add_succ_r.
  - destruct Ht as [Hrest Htried Hother]. split.
    + rewrite Hrest. by destruct s.
    + intros [|k] j; cbn [lookup list_lookup].
      * intros [= <-]. rewrite Hother.
        { unfold s1. snap_simpl. by rewrite lookup_insert_eq, Nat.add_0_r. }
        intros j Hin Heq. apply Hnew. rewrite <- Heq. by apply list_elem_of_fmap_2.
      * intros Hk. rewrite (Htried k j Hk). change (S k <? S n) with (k <? n). by rewrite Nat.add_succ_r.
    + intros id Hid. rewrite Hother; [|intros j Hin; apply Hid, elem_of_cons; by right].
      unfold s1. snap_simpl. apply lookup_insert_ne. apply Hid, elem_of_cons. by left.
  - cbn [length]. change (S n <? S (length jobs)) with (n <? length jobs). by rewrite Nat.add_succ_r.
Qed.

End Attempts.

(** ** Rounds of the worker *)

Section Rounds.
Context {GR : GoRange} {GS : GoSort} {J : GoJson}.
Context (cfg : Config) (startedAt : Time) (publicURL : string).

(** What a read of the archive gives the engine; none of its files was replaced. *)
Definition read_observations (s : Snapshot) (records : list StoredRecord) : list Observation :=
  map (observation startedAt None s) (SliceStable record_less records).

(** No message file was replaced when this event reads them, and what is read
    satisfies [fresh]; the read may fail. *)
Definition in_place (fresh : list Observation -> Prop) (out : Outside) (p : list nat) (st : FileStore) (s : Snapshot) : Prop :=
  match read_archive cfg out p (Cursors s) st with
  | (None, records, inl _) => fresh (read_observations s records)
  | (Some _, _, inl _) => False
  | (_, _, inr _) => True
  end.

Definition event_time (ev : worker_event) : option Time :=
  match ev with
  | run_started _ now | tick_fired now | reconcile_fired now | wake_taken now => Some now
  | run_ended => None
  end.

(** The events that read the message files. *)
Definition reads (ev : worker_event) : bool :=
  match ev with run_started _ _ | reconcile_fired _ | wake_taken _ => true | tick_fired _ | run_ended => false end.

(** What one event, at the time [at_], sends and makes of the engine's state. *)
Inductive round (fresh : list Observation -> Prop) (out : Outside) (p : list nat) (at_ : option Time) (s : Snapshot)
    : list Notification -> Snapshot -> Prop :=
| round_idle : round fresh out p at_ s [] s
| round_unsaved os next now :
    fresh os -> at_ = Some now -> round fresh out p at_ s [] (Apply cfg (out_save out 0) (4 :: p) os next now s).1
| round_reconciled os next now base :
    fresh os -> at_ = Some now ->
    let d := advance_and_dispatch cfg publicURL out base p now (Apply cfg (out_save out 0) (4 :: p) os next now s).1 in
    round fresh out p at_ s d.1 d.2.1
| round_ticked now base :
    at_ = Some now ->
    let d := advance_and_dispatch cfg publicURL out base p now s in round fresh out p at_ s d.1 d.2.1.

Lemma reconcile_round fresh out p now st w :
  in_place fresh out p st (wk_engine w) ->
  let r := reconcile cfg startedAt publicURL out p now st w in
  round fresh out p (Some now) (wk_engine w) r.1 (wk_engine r.2.1).
Proof.
  unfold in_place, reconcile, read_observations.
  destruct (read_archive cfg out p (Cursors (wk_engine w)) st) as [[[file|] records] [next|err]]; cbn zeta.
  1: done.
  1,3: intros _; apply round_idle.
  intros Hf. set (os := map _ _) in *.
  destruct (Apply cfg (out_save out 0) (4 :: p) os next now (wk_engine w)) as [s1 err] eqn:Ha.
  assert (s1 = (Apply cfg (out_save out 0) (4 :: p) os next now (wk_engine w)).1) as -> by by rewrite Ha.
  destruct err as [err|]; [by apply round_unsaved|].
  pose proof (round_reconciled fresh out p _ (wk_engine w) os next now 1 Hf eq_refl) as Hr. cbn zeta in Hr. revert Hr.
  by destruct (advance_and_dispatch _ _ _ _ _ _ _) as [sent [s2 [err|]]].
Qed.

Lemma recorded_same p r : (recorded p r).1 = r.1 /\ wk_engine (recorded p r).2 = wk_engine r.2.1.
Proof. by destruct r as [sent [w [err|]]]. Qed.

Lemma tick_round fresh out p now w :
  let r := tick cfg publicURL out p now w in round fresh out p (Some now) (wk_engine w) r.1 (wk_engine r.2.1).
Proof.
  unfold tick. pose proof (round_ticked fresh out p _ (wk_engine w) now 0 eq_refl) as Hr. cbn zeta in Hr. revert Hr.
  by destruct (advance_and_dispatch _ _ _ _ _ _ _) as [sent [s err]].
Qed.

Lemma worker_step_round fresh out p st ev w :
  (reads ev = true -> in_place fresh out p st (wk_engine w)) ->
  let r := worker_step cfg startedAt publicURL out p st ev w in
  round fresh out p (event_time ev) (wk_engine w) r.1 (wk_engine r.2).
Proof.
  intros Hp. destruct ev as [canceled now|now|now|now|]; cbn [worker_step]; try specialize (Hp eq_refl).
  - pose proof (reconcile_round fresh out p now st (setRunning true w) Hp) as Hr. cbn zeta in Hr.
    destruct canceled; [|by destruct (recorded_same (6 :: p) (reconcile cfg startedAt publicURL out p now st (setRunning true w))) as [-> ->]].
    revert Hr. by destruct (reconcile _ _ _ _ _ _ _ _) as [sent [w' err]].
  - destruct (recorded_same (6 :: p) (tick cfg publicURL out p now w)) as [-> ->]. apply tick_round.
  - destruct (recorded_same (6 :: p) (reconcile cfg startedAt publicURL out p now st w)) as [-> ->].
    by apply reconcile_round.
  - destruct (wk_wake w); [|apply round_idle].
    destruct (recorded_same (6 :: p) (reconcile cfg startedAt publicURL out p now st (set_wake false w))) as [-> ->].
    by apply (reconcile_round fresh out p now st (set_wake false w)).
  - apply round_idle.
Qed.

(** ** Runs *)

(** An event with the surroundings it happens in. *)
Definition happening : Type := Outside * list nat * FileStore * worker_event.

Fixpoint worker_run (hs : list happening) (w : Worker) : list Notification * Worker :=
  match hs with
  | [] => ([], w)
  | (out, p, st, ev) :: rest =>
    let '(sent, w) := worker_step cfg startedAt publicURL out p st ev w in
    let '(sent', w) := worker_run rest w in
    ((sent ++ sent')%list, w)
  end.

(** [in_place] along a run, [fresh] said of each state. *)
Fixpoint run_in_place (fresh : list nat -> Snapshot -> list Observation -> Prop) (hs : list happening) (w : Worker) : Prop :=
  match hs with
  | [] => True
  | (out, p, st, ev) :: rest =>
    (reads ev = true -> in_place (fresh p (wk_engine w)) out p st (wk_engine w))
    /\ run_in_place fresh rest (worker_step cfg startedAt publicURL out p st ev w).2
  end.

(** What every round preserves holds after a run. *)
Lemma worker_run_ind (P : Snapshot -> Prop) (Q : Notification -> Prop) fresh (R : happening -> Prop) hs w :
  (forall out p st ev s sent s', R (out, p, st, ev) -> P s ->
     round (fresh p s) out p (event_time ev) s sent s' -> P s' /\ Forall Q sent) ->
  P (wk_engine w) -> Forall R hs -> run_in_place fresh hs w ->
  P (wk_engine (worker_run hs w).2) /\ Forall Q (worker_run hs w).1.
Proof.
  intros Hstep. revert w. induction hs as [|[[[out p] st] ev] hs IH]; intros w HP HR; [done|].
  cbn [run_in_place worker_run]. apply Forall_cons in HR as [HR1 HR]. intros [Hin Hrun].
  pose proof (worker_step_round _ out p st ev w Hin) as Hr. cbn zeta in Hr.
  destruct (worker_step cfg startedAt publicURL out p st ev w) as [sent w1] eqn:Hw. cbn [fst snd] in *.
  destruct (Hstep _ _ _ _ _ _ _ HR1 HP Hr) as [HP1 HQ]. destruct (IH w1 HP1 HR Hrun) as [HP2 HQ2].
  destruct (worker_run hs w1) as [sent2 w2]. cbn [fst snd] in *. split; [done|]. by apply Forall_app.
Qed.

End Rounds.
