(* ===== verification/WorkerScenarios.v ===== *)
(** Concrete surroundings of the worker, for the witnesses, and scenarios of
    [internal/incidents/worker_test.go] replayed on the model. *)
From Stdlib Require Import ZArith.
From S2P Require Import Prelude.
From S2P Require Import GoStd.
From S2P Require Import GoLib.
From S2P Require Import Model.
From S2P Require Import Classify.
From S2P Require Import EngineState.
From S2P Require Import Engine.
From S2P Require Import EngineWf.
From S2P Require Import EngineJobs.
From S2P Require Import EngineSafety.
From S2P Require Import Scenarios.
From S2P Require Import GoInstances.
From S2P Require Import Storage.
From S2P Require Import Reader.
From S2P Require Import Notify.
From S2P Require Import Worker.
From S2P Require Import WorkerLemmas.

(** The tab-separated codec; every message read is one of the repeater's. *)
Definition repeater_codec : GoJson :=
  {| json_Encode := json_Encode;
     json_Unmarshal := fun line =>
       (fun m => message_at (msg_Hostname m) "gl-repeater" (msg_Message m) (msg_ReceivedAt m) (msg_ID m))
         <$> json_Unmarshal line;
     json_key := json_key; json_Marshal_map := json_Marshal_map |}.
#[export] Existing Instance repeater_codec | 0.

Definition accepts (i : nat) (m : Notification) : Receipt + send_failure := inl (mkReceipt "test" "1").
Definition refuses (err : send_failure) (i : nat) (m : Notification) : Receipt + send_failure := inr err.

(** Nothing fails but what [send] says. *)
Definition fair (send : nat -> Notification -> Receipt + send_failure) : Outside :=
  mkOutside (fun _ => calm) (fun _ => None) send.
Definition unsaved : Outside := mkOutside (fun _ => calm) (fun _ => Some (fun _ => Some "disk full")) accepts.

Definition stored (ms : list Message) : FileStore :=
  fold_left (fun st m => (Append calm (io_written 0) 0 m st).1) ms NewFileStore.

Definition active_worker : Worker := NewWorker wan_active.
Definition dispatched (out : Outside) (n : Z) (s : Snapshot) := dispatch "" out 0 [] (sec n) s.

Definition shown (s : Snapshot) : list (Z * bool * bool * Z) :=
  map (fun kv => let j := kv.2 in
         (job_Attempts j, bool_decide (job_SentAt j = None), job_Permanent j, ((job_NextAt j - start) / Second)%Z))
    (map_to_list (snap_Jobs s)).

(** TestWorkerRetriesTransientNotificationThenDelivers *)
Example retries_then_delivers :
  let s := (dispatched (fair (refuses (NewSendError "temporary" false (2 * Minute)))) 60 wan_active).2.1 in
  shown s = [(1%Z, true, false, 180%Z)]
  /\ (dispatched (fair accepts) 179 s).1 = []
  /\ shown (dispatched (fair accepts) 180 s).2.1 = [(1%Z, false, false, 180%Z)].
Proof. vm_compute. by split_and!. Qed.

(** TestWorkerStopsRetryingPermanentNotificationFailure *)
Example stops_retrying :
  let s := (dispatched (fair (refuses (NewSendError "bad request" true 0))) 60 wan_active).2.1 in
  PendingNotifications [] s = []
  /\ map (fun j => (job_Permanent j, job_Attempts j, job_LastError j)) (map snd (map_to_list (snap_Jobs s)))
     = [(true, 1%Z, "bad request")].
Proof. vm_compute. by split. Qed.

(** TestWorkerKeepsJobRetryableWhenDeliveryReceiptPersistenceFails *)
Example keeps_unsaved_job :
  dispatched unsaved 60 wan_active
  = ((dispatched (fair accepts) 60 wan_active).1, (wan_active, Some (err_mark (err_persistence "disk full")))).
Proof. vm_compute. reflexivity. Qed.

Definition sent_kinds (r : list Notification * (Worker * option worker_error)) : list Kind := map nt_Kind r.1.
Definition reconciled_at (out : Outside) (startedAt : Time) (n : Z) (ms : list Message) (w : Worker) :=
  reconcile wan_config startedAt "" out [] (sec n) (stored ms) w.

(** TestWorkerReconcilesStoredEvidenceAndDeliversLifecycle *)
Example delivers_lifecycle :
  let r1 := reconciled_at (fair accepts) (sec (-1)) 60 [wan_down] (NewWorker empty_Snapshot) in
  let r2 := reconciled_at (fair accepts) (sec (-1)) 130 [wan_down; wan_up] r1.2.1 in
  sent_kinds r1 = [KindIncidentOpened] /\ sent_kinds r2 = [KindIncidentResolved].
Proof. vm_compute. by split. Qed.

(** TestWorkerDoesNotNotifyForRecordsPresentAtStartup *)
Example silent_at_startup :
  let r := reconciled_at (fair accepts) (sec 3600) 7200 [wan_down] (NewWorker empty_Snapshot) in
  sent_kinds r = [] /\ states (wk_engine r.2.1) = [("wan", StateActive)].
Proof. vm_compute. by split. Qed.

(** TestWorkerRebuildsAfterPartitionReplacement *)
Example rebuilds_after_replacement :
  let r1 := reconciled_at (fair accepts) (sec (-1)) 60 [wan_down] (NewWorker empty_Snapshot) in
  let r2 := reconciled_at (fair accepts) (sec (-1)) 180 [repeater "wan" "online" 120 "replacement"] r1.2.1 in
  states (wk_engine r1.2.1) = [("wan", StateActive)] /\ states (wk_engine r2.2.1) = [].
Proof. vm_compute. by split. Qed.

Lemma wan_active_ok : wf wan_active /\ outbox_sound wan_config wan_active.
Proof.
  assert (Hp : step wan_config empty_Snapshot wan_pending)
    by (apply (step_observe _ _ None [] wan_down true); intros _; vm_compute; reflexivity).
  assert (Ha : step wan_config wan_pending wan_active).
  { unfold wan_active. apply tick_step. }
  pose proof (step_wf _ _ _ wan_config_ok empty_wf Hp) as Hwf.
  split; [by apply (step_wf _ _ _ wan_config_ok Hwf Ha)|].
  apply (step_outbox _ _ _ wan_config_ok Hwf Ha), (step_outbox _ _ _ wan_config_ok empty_wf Hp). by intros id j.
Qed.

Definition opened_id : string := job_id (incidentID "router-a" "wan" start "down-1") KindIncidentOpened.
Definition opened_job (s : Snapshot) : NotificationJob :=
  default (mkJob "" "" KindTest 0 0 0 "" None "" "" false) (snap_Jobs s !! opened_id).

Definition delivered : Snapshot := (dispatched (fair accepts) 60 wan_active).2.1.

(** A refused attempt, a read of the archive, and later a tick. *)
Definition ready : Time := sec 100.
Definition hour_and_more : Duration := (66 * Minute)%Z.
Definition refused_first : list happening :=
  [(fair (refuses (NewSendError "temporary" false (2 * Minute))), [1], NewFileStore, tick_fired (sec 60));
   (fair accepts, [2], stored [wan_up], reconcile_fired (sec 130));
   (fair accepts, [3], NewFileStore, tick_fired (sec 4060))].
