(* ===== verification/WorkerProps.v ===== *)
(** Properties of the incident worker: what a round of deliveries records, that a
    delivered job is never delivered again, that every job is delivered once the
    notifier answers, and that a first start over an old archive notifies nobody. *)
From Stdlib Require Import ZArith Lia.
From S2P Require Import Prelude.
From S2P Require Import GoStd.
From S2P Require Import GoLib.
From S2P Require Import Model.
From S2P Require Import Classify.
From S2P Require Import EngineState.
From S2P Require Import Engine.
From S2P Require Import EngineLemmas.
From S2P Require Import EngineWf.
From S2P Require Import EngineRebuild.
From S2P Require Import EngineLife.
From S2P Require Import EngineJobs.
From S2P Require Import EngineSafety.
From S2P Require Import Storage.
From S2P Require Import Reader.
From S2P Require Import Notify.
From S2P Require Import NotifyProps.
From S2P Require Import Worker.
From S2P Require Import WorkerLemmas.
From S2P Require Import GoInstances.
From S2P Require Import Scenarios.
From S2P Require Import WorkerScenarios.

(** ** The due jobs *)

Section Due.
Context {GR : GoRange} {GS : GoSort}.

Definition is_due (now : Time) (job : NotificationJob) : bool := unsent job && negb (After (job_NextAt job) now).

Lemma due_perm p now s :
  DueNotifications p now s ≡ₚ List.filter (is_due now) (map snd (map_to_list (snap_Jobs s))).
Proof.
  unfold DueNotifications, jobs_by_creation. etrans; [apply sort_slice_perm|]. apply filter_perm.
  by apply Permutation_map, range_perm.
Qed.

Lemma elem_of_due p now s j :
  j ∈ DueNotifications p now s <-> (exists id, snap_Jobs s !! id = Some j) /\ is_due now j = true.
Proof.
  rewrite (due_perm p now s), list_elem_of_In, filter_In, in_map_iff. f_equiv. split.
  - intros ([id j'] & Heq & Hin). cbn in Heq. subst j'. exists id. by apply elem_of_map_to_list, list_elem_of_In.
  - intros [id Hj]. exists (id, j). split; [done|]. by apply list_elem_of_In, elem_of_map_to_list.
Qed.

Lemma due_nodup p now s : keyed s -> NoDup (job_ID <$> DueNotifications p now s).
Proof.
  intros Hk. rewrite (due_perm p now s).
  assert (Hids : forall l : list (string * NotificationJob), (forall x, x ∈ l -> job_ID x.2 = x.1) -> NoDup l.*1 ->
            NoDup (job_ID <$> List.filter (is_due now) (map snd l))).
  { induction l as [|[id j] l IH]; intros Hl Hnd; [constructor|]. cbn in Hnd. apply NoDup_cons in Hnd as [Hn Hnd].
    specialize (IH (fun x Hx => Hl x (proj2 (elem_of_cons _ _ _) (or_intror Hx))) Hnd).
    cbn. destruct (is_due now j); [|done]. cbn. apply NoDup_cons. split; [|done].
    pose proof (Hl (id, j) ltac:(set_solver)) as Hid. cbn in Hid. rewrite Hid. intros Hin. apply Hn.
    apply list_elem_of_fmap in Hin as (j' & Hj' & Hin). apply list_elem_of_In, filter_In in Hin as [Hin _].
    apply in_map_iff in Hin as ([id' j2] & <- & Hin). cbn in Hj'. apply list_elem_of_In in Hin.
    pose proof (Hl _ (proj2 (elem_of_cons _ _ _) (or_intror Hin))) as Hid'. cbn in Hid'.
    apply list_elem_of_fmap. exists (id', j2). cbn. split; [congruence|done]. }
  apply Hids; [|apply NoDup_fst_map_to_list]. intros [id j] Hin. by apply Hk, elem_of_map_to_list.
Qed.

Lemma due_lookup p now s j : keyed s -> j ∈ DueNotifications p now s -> snap_Jobs s !! job_ID j = Some j.
Proof. intros Hk [[id Hj] _]%elem_of_due. by rewrite (Hk _ _ Hj). Qed.

Lemma job_due p now s id j :
  keyed s -> snap_Jobs s !! id = Some j -> is_due now j = true -> exists k, DueNotifications p now s !! k = Some j.
Proof. intros Hk Hj Hd. apply list_elem_of_lookup, elem_of_due. split; [by exists id|done]. Qed.

Lemma dispatch_spec (publicURL : string) (out : Outside) (base : nat) (p : list nat) (now : Time) (s : Snapshot) :
  keyed s ->
  let due := DueNotifications p now s in
  exists n s' err,
    dispatch publicURL out base p now s
    = (mjoin (take (S n) (imap (asked publicURL out now (snap_Incidents s)) due)), (s', err_mark <$> err))
    /\ tried_upto publicURL out now 0 n due s s' /\ n <= length due
    /\ (if n <? length due then save_refused (out_save out (base + n)) err else err = None).
Proof.
  intros Hk due. unfold dispatch.
  destruct (dispatch_loop_spec publicURL out base now due 0 s) as (n & s' & err & H).
  - by apply due_nodup.
  - intros j Hj. by apply (due_lookup p now s).
  - exists n, s', err. exact H.
Qed.

(** C17: a round of deliveries tries the due jobs in their order,
    each once: a job whose notification was accepted is marked sent, one the
    notifier refused is counted, scheduled again and given up exactly if the
    refusal is final, and every other job and the rest of the state stay as they
    were. The round ends early only when the state cannot be saved: the job sent
    last then stays due, so that it is sent again rather than lost. *)
Theorem deliveries_recorded_in_order (publicURL : string) (out : Outside) (base : nat) (p : list nat)
    (now : Time) (s : Snapshot) :
  keyed s ->
  let due := DueNotifications p now s in
  exists n s' err,
    dispatch publicURL out base p now s
    = (mjoin (take (S n) (imap (asked publicURL out now (snap_Incidents s)) due)), (s', err_mark <$> err))
    /\ tried_upto publicURL out now 0 n due s s' /\ n <= length due
    /\ (if n <? length due then save_refused (out_save out (base + n)) err else err = None).
Proof. apply dispatch_spec. Qed.

(** What a round of deliveries leaves alone. *)
Lemma dispatch_keeps publicURL out base p now s :
  keyed s ->
  let d := dispatch publicURL out base p now s in
  keyed d.2.1
  /\ (forall id j, snap_Jobs s !! id = Some j -> is_due now j = false ->
       snap_Jobs d.2.1 !! id = Some j /\ Forall (fun m => nt_EventID m <> id) d.1).
Proof.
  intros Hk d. unfold d. destruct (dispatch_spec publicURL out base p now s Hk) as (n & s' & err & -> & Ht & _ & _).
  cbn [fst snd]. set (due := DueNotifications p now s) in *. destruct Ht as [_ Htried Hother]. split.
  - intros id j Hj. destruct (decide (Exists (fun j' => job_ID j' = id) due)) as [Hex|Hno].
    + apply Exists_exists in Hex as (j' & [k Hjk]%list_elem_of_lookup & <-). rewrite (Htried k j' Hjk) in Hj.
      injection Hj as <-. destruct (k <? n); [apply tried_ID|done].
    + apply Hk. rewrite <- Hother; [done|]. intros j' Hin Heq. apply Hno, Exists_exists. by exists j'.
  - intros id j Hj Hd. assert (Hne : forall j', j' ∈ due -> job_ID j' <> id).
    { intros j' Hin Heq. pose proof (due_lookup p now s j' Hk Hin) as Hj'. rewrite Heq, Hj in Hj'. injection Hj' as <-.
      apply elem_of_due in Hin as [_ Hin]. congruence. }
    split; [by rewrite Hother|]. apply Forall_forall. intros m Hm Heq.
    apply list_elem_of_join in Hm as (ms & Hm & Hin). apply elem_of_take in Hin as (k & Hin & _).
    rewrite list_lookup_imap in Hin. apply fmap_Some in Hin as (j' & Hj' & ->).
    apply asked_event in Hm. apply (Hne j'); [by eapply list_elem_of_lookup_2|congruence].
Qed.

End Due.

(** ** A delivered job *)

Section Runs.
Context {GR : GoRange} {GS : GoSort} {J : GoJson}.
Context (cfg : Config) (startedAt : Time) (publicURL : string).

(** A round is an [Apply], a [Tick] and a [dispatch], the later ones if reached. *)
Lemma round_cases (P : Snapshot -> Prop) (Q : Notification -> Prop) fresh out p at_ s sent s' :
  (forall os next now, fresh os -> P (Apply cfg (out_save out 0) (4 :: p) os next now s).1) ->
  (forall sv q now s, P s -> P (Tick cfg sv q now s).1) ->
  (forall base now s, at_ = Some now -> P s ->
     P (dispatch publicURL out base (3 :: p) now s).2.1 /\ Forall Q (dispatch publicURL out base (3 :: p) now s).1) ->
  P s -> round cfg publicURL fresh out p at_ s sent s' -> P s' /\ Forall Q sent.
Proof.
  intros Ha Ht Hd HP Hr.
  assert (Hend : forall base now s1, at_ = Some now -> P s1 ->
            let d := advance_and_dispatch cfg publicURL out base p now s1 in P d.2.1 /\ Forall Q d.1).
  { intros base now s1 Hat H1. cbn zeta. unfold advance_and_dispatch.
    pose proof (Ht (out_save out base) (2 :: p) now s1 H1) as H2.
    destruct (Tick cfg (out_save out base) (2 :: p) now s1) as [s2 [err|]]; [by split|]. by apply Hd. }
  destruct Hr as [|os next now Hf Hat|os next now base Hf Hat|now base Hat];
    [by split|split; [by apply Ha|done]|apply Hend|apply Hend]; auto.
Qed.

(** C11: over any run of the worker in which no message file is
    replaced, whatever is read, fails or cannot be saved, a job that was sent or
    given up stays exactly as it is, and no notification carries its id again. *)
Theorem delivered_once (hs : list happening) (w : Worker) (id : string) (j : NotificationJob) :
  keyed (wk_engine w) -> snap_Jobs (wk_engine w) !! id = Some j -> unsent j = false ->
  run_in_place cfg startedAt publicURL (fun _ _ _ => True) hs w ->
  let r := worker_run cfg startedAt publicURL hs w in
  snap_Jobs (wk_engine r.2) !! id = Some j /\ Forall (fun m => nt_EventID m <> id) r.1.
Proof.
  intros Hk Hj Hu Hrun r.
  destruct (worker_run_ind cfg startedAt publicURL (fun s => keyed s /\ snap_Jobs s !! id = Some j)
    (fun m => nt_EventID m <> id) (fun _ _ _ => True) (fun _ => True) hs w) as [[_ H1] H2]; try done.
  2: by apply Forall_forall.
  clear - Hu. intros out p st ev s sent s' _ HP Hr.
  assert (Hadd : forall s s', only_adds s s' -> keyed s /\ snap_Jobs s !! id = Some j -> keyed s' /\ snap_Jobs s' !! id = Some j).
  { intros s1 s2 [Hsub Hkey] [Hk Hj]. split; [by apply Hkey|by eapply lookup_weaken]. }
  eapply (round_cases (fun s => keyed s /\ snap_Jobs s !! id = Some j)); [| | |exact HP|exact Hr].
  - intros os next now _. eapply Hadd; [apply Apply_adds|done].
  - intros sv q now s1. apply Hadd, Tick_adds.
  - intros base now s1 _ [Hk Hj]. destruct (dispatch_keeps publicURL out base (3 :: p) now s1 Hk) as [Hk' Hd].
    destruct (Hd id j Hj); [by unfold is_due; rewrite Hu|]. done.
Qed.

(** ** Every job is delivered in the end *)

Definition saves_ok (out : Outside) : Prop := forall n save s, out_save out n = Some save -> save s = None.

(** Saving works, and the notifier either accepts or, before [T], refuses for a
    while; it never asks to wait longer than [R]. *)
Definition recovers_at (T : Time) (R : Duration) (h : happening) : Prop :=
  let '(out, _, _, ev) := h in
  saves_ok out
  /\ forall now, event_time ev = Some now -> forall i m, match out_send out i m with
     | inl _ => True
     | inr err => (now < T)%Z /\ is_permanent err = false
                  /\ match err with send_error _ _ retryAfter _ => (retryAfter <= R)%Z | _ => True end
     end.

(** The read messages raise no digest collision. *)
Definition fresh_read (p : list nat) (s : Snapshot) (os : list Observation) : Prop :=
  batch_fresh (cfg := cfg) 0 (4 :: p) os s.

Definition waiting (until : Time) (j : NotificationJob) : Prop :=
  unsent j = true /\ (0 <= job_Attempts j)%Z /\ (job_NextAt j <= until)%Z.

(** The job is sent or, while [open], waits until [until] at most. *)
Definition on_its_way (open : bool) (until : Time) (id : string) (s : Snapshot) : Prop :=
  wf s /\ outbox_sound cfg s
  /\ exists j, snap_Jobs s !! id = Some j /\ (is_Some (job_SentAt j) \/ open = true /\ waiting until j).

Lemma dispatch_invariants out base p now s :
  wf s -> outbox_sound cfg s ->
  let s' := (dispatch publicURL out base p now s).2.1 in wf s' /\ outbox_sound cfg s'.
Proof.
  intros Hwf Hs s'. unfold s'.
  destruct (dispatch_spec publicURL out base p now s (sound_keyed _ _ Hs)) as (n & s2 & err & -> & Ht & _ & _).
  cbn [fst snd]. set (due := DueNotifications p now s) in *. destruct Ht as [Hrest Htried Hother]. split.
  - apply (wf_core s); [done|by rewrite Hrest..].
  - intros id j Hj. assert (HI : snap_Incidents s2 = snap_Incidents s) by by rewrite Hrest.
    unfold job_sound. rewrite HI.
    destruct (decide (Exists (fun j' => job_ID j' = id) due)) as [Hex|Hno].
    + apply Exists_exists in Hex as (j' & Hin & <-). pose proof (due_lookup _ _ _ _ (sound_keyed _ _ Hs) Hin) as Hj'.
      apply list_elem_of_lookup in Hin as [k Hjk]. rewrite (Htried k j' Hjk) in Hj. injection Hj as <-.
      destruct (k <? n); [|by apply Hs]. unfold tried.
      destruct (trial_identity publicURL out now (snap_Incidents s) k j' j') as (F1 & F2 & F3).
      destruct (Hs _ _ Hj') as (? & Hn & Hi). unfold job_name in *. by rewrite F1, F2, F3.
    + apply Hs. rewrite <- Hother; [done|]. intros j' Hin Heq. apply Hno, Exists_exists. by exists j'.
Qed.

Lemma sound_message s id j :
  outbox_sound cfg s -> snap_Jobs s !! id = Some j -> exists m, message_of publicURL (snap_Incidents s) j = inl m.
Proof.
  intros Hs Hj. destruct (Hs _ _ Hj) as (_ & _ & i & Hi & _ & _ & Hk). unfold message_of. rewrite Hi.
  unfold notificationFor, worded. destruct (job_Kind j); solve [destruct Hk|eexists; reflexivity].
Qed.

Lemma tried_on_its_way out p st ev T R now incidents i j m :
  recovers_at T R (out, p, st, ev) -> event_time ev = Some now -> (66 * Minute <= R)%Z ->
  message_of publicURL incidents j = inl m -> waiting (T + R) j ->
  let j' := tried publicURL out now incidents i j in
  is_Some (job_SentAt j') \/ ((now < T)%Z /\ waiting (T + R) j').
Proof.
  intros [_ Hsend] Hev HR Hm (Hu & Ha & _). unfold tried, trial. rewrite Hm. cbn [snd].
  specialize (Hsend now Hev i m). destruct (out_send out i m) as [r|err]; [left; by eexists|right].
  destruct Hsend as (Hnow & Hp & Hra). split; [done|]. unfold waiting, unsent, failed_job in *. cbn in *. rewrite Hp.
  split; [by destruct (job_SentAt j)|]. split; [lia|]. unfold wait_for.
  pose proof (retry_delay_le (job_ID j) (job_Attempts j + 1) ltac:(lia)) as Hd.
  destruct err as [k pm ra ms|ms]; [destruct (0 <? ra)%Z|]; lia.
Qed.

Lemma dispatch_on_its_way open out p st ev T R base q now id s :
  recovers_at T R (out, p, st, ev) -> event_time ev = Some now -> (66 * Minute <= R)%Z ->
  on_its_way open (T + R) id s ->
  let s' := (dispatch publicURL out base q now s).2.1 in
  on_its_way (open && bool_decide (now < T + R)%Z) (T + R) id s'.
Proof.
  intros Hrec Hev HR (Hwf & Hs & j & Hj & Hw) s'. unfold s'.
  destruct (dispatch_invariants out base q now s Hwf Hs) as [Hwf' Hs']. split; [done|]. split; [done|]. clear Hwf' Hs'.
  pose proof (sound_keyed _ _ Hs) as Hk.
  destruct (is_due now j) eqn:Hd.
  - destruct Hw as [[t Ht]|[-> Hw]]; [unfold is_due, unsent in Hd; by rewrite Ht in Hd|].
    destruct (job_due q now s id j Hk Hj Hd) as [k Hjk]. destruct (sound_message s id j Hs Hj) as [m Hm].
    destruct (dispatch_spec publicURL out base q now s Hk) as (n & s2 & err & -> & [_ Htried _] & Hle & Hend). cbn [fst snd].
    assert (n = length (DueNotifications q now s)) as ->.
    { destruct (Nat.ltb_spec n (length (DueNotifications q now s))); [|lia].
      destruct Hend as (save & what & s0 & Hsv & Hno & _), Hrec as [Hok _]. by rewrite (Hok _ _ _ Hsv) in Hno. }
    pose proof (Htried k j Hjk) as Hj'. rewrite (Hk _ _ Hj) in Hj'.
    assert (Hlt : k <? length (DueNotifications q now s) = true) by (apply Nat.ltb_lt; by eapply lookup_lt_Some).
    rewrite Hlt in Hj'. eexists. split; [exact Hj'|].
    destruct (tried_on_its_way _ _ _ _ T R now (snap_Incidents s) (0 + k) j m Hrec Hev HR Hm Hw) as [?|[Hnow ?]]; [by left|].
    right. rewrite bool_decide_true by (unfold Minute, Second in HR; lia). done.
  - destruct (dispatch_keeps publicURL out base q now s Hk) as [_ Hkeep]. destruct (Hkeep id j Hj Hd) as [Hj' _].
    exists j. split; [done|]. destruct Hw as [?|[-> (Hu & Ha & Hn)]]; [by left|right]. split; [|done].
    unfold is_due in Hd. rewrite Hu in Hd. cbn in Hd. apply negb_false_iff in Hd. unfold After in Hd.
    rewrite bool_decide_true; [done|]. lia.
Qed.

Lemma step_on_its_way open until id s s' :
  config_ok cfg -> step cfg s s' -> only_adds s s' -> on_its_way open until id s -> on_its_way open until id s'.
Proof.
  intros Hcfg Hst [Hsub _] (Hwf & Hs & j & Hj & Hw).
  split; [by eapply step_wf|]. split; [by apply (step_outbox cfg s s' Hcfg Hwf Hst)|].
  exists j. split; [by eapply lookup_weaken|done].
Qed.

Lemma weaken_way open until id s : on_its_way false until id s -> on_its_way open until id s.
Proof. intros (? & ? & j & Hj & [?|[? _]]); [|done]. split; [done|]. split; [done|]. exists j. auto. Qed.

Lemma round_on_its_way open out p st ev T R id s sent s' :
  config_ok cfg -> recovers_at T R (out, p, st, ev) -> (66 * Minute <= R)%Z ->
  on_its_way open (T + R) id s -> round cfg publicURL (fresh_read p s) out p (event_time ev) s sent s' ->
  on_its_way open (T + R) id s'.
Proof.
  intros Hcfg Hrec HR Hway Hr.
  apply (round_cases (on_its_way open (T + R) id) (fun _ => True) (fresh_read p s) out p (event_time ev) s sent s'); [..|done|done].
  - intros os next now Hf. eapply step_on_its_way; [done|by apply step_apply|apply Apply_adds|done].
  - intros sv q now s1. apply step_on_its_way; [done|apply step_tick|apply Tick_adds].
  - intros base now s1 Hev H1. split; [|by apply Forall_forall].
    pose proof (dispatch_on_its_way open out p st ev T R base (3 :: p) now id s1 Hrec Hev HR H1) as H2. cbn zeta in H2.
    destruct open; [|by apply H2]. cbn in H2. destruct (bool_decide _); [done|by apply weaken_way].
Qed.

Lemma late_tick_sends out p st T R now id w :
  config_ok cfg -> recovers_at T R (out, p, st, tick_fired now) -> (66 * Minute <= R)%Z -> (T + R <= now)%Z ->
  on_its_way true (T + R) id (wk_engine w) ->
  on_its_way false (T + R) id (wk_engine (worker_step cfg startedAt publicURL out p st (tick_fired now) w).2).
Proof.
  intros Hcfg Hrec HR Hnow Hway. cbn [worker_step].
  destruct (recorded_same (6 :: p) (Worker.tick cfg publicURL out p now w)) as [_ ->].
  unfold Worker.tick, advance_and_dispatch.
  assert (Htick : on_its_way true (T + R) id (Tick cfg (out_save out 0) (2 :: p) now (wk_engine w)).1)
    by (eapply step_on_its_way; [done|apply step_tick|apply Tick_adds|done]).
  assert (Hok : (Tick cfg (out_save out 0) (2 :: p) now (wk_engine w)).2 = None).
  { unfold Tick. destruct (advanceLocked _ _ _ _) as [s1 []]; [|done]. cbn. unfold saveLocked, cloneSnapshot.
    destruct (out_save out 0) as [save|] eqn:Hsv; [|done]. by rewrite (proj1 Hrec _ _ _ Hsv). }
  destruct (Tick _ _ _ _ _) as [s1 err]. cbn [fst snd] in *. subst err.
  pose proof (dispatch_on_its_way true out p st (tick_fired now) T R 1 (3 :: p) now id s1 Hrec eq_refl HR Htick) as H2.
  cbn zeta in H2. rewrite bool_decide_false in H2 by lia. cbn in H2.
  by destruct (dispatch _ _ _ _ _ _) as [sent [s2 err]].
Qed.

Lemma run_on_its_way open T R id hs w :
  config_ok cfg -> (66 * Minute <= R)%Z -> Forall (recovers_at T R) hs ->
  run_in_place cfg startedAt publicURL fresh_read hs w ->
  on_its_way open (T + R) id (wk_engine w) ->
  on_its_way open (T + R) id (wk_engine (worker_run cfg startedAt publicURL hs w).2).
Proof.
  intros Hcfg HR Hall Hrun Hway.
  apply (worker_run_ind cfg startedAt publicURL (on_its_way open (T + R) id) (fun _ => True) fresh_read (recovers_at T R));
    [|done..].
  intros out p st ev s sent s' Hrec H1 Hr. split; [by eapply round_on_its_way|by apply Forall_forall].
Qed.

(** C4: a notification still to be sent is sent, whatever the worker reads
    meanwhile and however often its reads fail: from the time [T] the notifier
    answers again it takes at most the longest wait [R] (66 minutes, or more if
    the notifier asked for more) and one tick. This is of a worker that is able
    to save its state, whose notifier refuses before [T], if it does, only for
    a time, and that is not made to rebuild its state: no message file it has
    read is replaced by another (a rebuild may drop the job with its incident).
    The messages read raise no digest collision. *)
Theorem jobs_are_delivered (T : Time) (R : Duration) (hs : list happening) (w : Worker) (id : string) (j : NotificationJob) :
  config_ok cfg -> wf (wk_engine w) -> outbox_sound cfg (wk_engine w) ->
  snap_Jobs (wk_engine w) !! id = Some j -> waiting (T + R) j -> (66 * Minute <= R)%Z ->
  Forall (recovers_at T R) hs -> run_in_place cfg startedAt publicURL fresh_read hs w ->
  (exists out p st now, In (out, p, st, tick_fired now) hs /\ (T + R <= now)%Z) ->
  exists j', snap_Jobs (wk_engine (worker_run cfg startedAt publicURL hs w).2) !! id = Some j' /\ is_Some (job_SentAt j').
Proof.
  intros Hcfg Hwf Hs Hj Hw HR Hall Hrun (out & p & st & now & Hin & Hnow).
  assert (Hway : on_its_way true (T + R) id (wk_engine w)) by (split; [done|]; split; [done|]; exists j; auto).
  clear Hwf Hs Hj Hw.
  assert (Hend : on_its_way false (T + R) id (wk_engine (worker_run cfg startedAt publicURL hs w).2)).
  { revert w Hrun Hway Hin. induction Hall as [|[[[out1 p1] st1] ev1] hs Hrec Hall IH]; [done|].
    intros w [Hp Hrun] Hway Hin. cbn [worker_run]. pose proof (worker_step_round _ _ publicURL _ _ _ _ ev1 w Hp) as Hr. cbn zeta in Hr.
    destruct (worker_step cfg startedAt publicURL out1 p1 st1 ev1 w) as [sent w1] eqn:Hw1. cbn [fst snd] in *.
    destruct Hin as [[= -> -> -> ->]|Hin].
    - pose proof (late_tick_sends out p st T R now id w Hcfg Hrec HR Hnow Hway) as H1. rewrite Hw1 in H1.
      pose proof (run_on_its_way false T R id hs w1 Hcfg HR Hall Hrun H1) as H2. by destruct (worker_run _ _ _ hs w1).
    - assert (H1 : on_its_way true (T + R) id (wk_engine w1)) by by eapply round_on_its_way.
      pose proof (IH w1 Hrun H1 Hin) as H2. by destruct (worker_run _ _ _ hs w1). }
  destruct Hend as (_ & _ & j' & Hj' & [?|[? _]]); [by exists j'|done].
Qed.
End Runs.

(** ** Witnesses *)

Lemma wan_active_keyed : keyed wan_active.
Proof. apply (sound_keyed wan_config), wan_active_ok. Qed.

Lemma deliveries_recorded_in_order_witness :
  let out := fair (refuses (NewSendError "temporary" false (2 * Minute))) in
  let due := DueNotifications [] (sec 60) wan_active in
  exists n s' err,
    dispatch "" out 0 [] (sec 60) wan_active
    = (mjoin (take (S n) (imap (asked "" out (sec 60) (snap_Incidents wan_active)) due)), (s', err_mark <$> err))
    /\ tried_upto "" out (sec 60) 0 n due wan_active s' /\ n <= length due
    /\ (if n <? length due then save_refused (out_save out (0 + n)) err else err = None).
Proof. apply (deliveries_recorded_in_order "" _ 0 [] (sec 60) wan_active). apply wan_active_keyed. Defined.

Lemma delivered_keyed : keyed delivered.
Proof. apply dispatch_keeps, wan_active_keyed. Qed.

Lemma delivered_once_witness :
  let r := worker_run wan_config start "" refused_first (NewWorker delivered) in
  unsent (opened_job delivered) = false
  /\ snap_Jobs (wk_engine r.2) !! opened_id = Some (opened_job delivered)
  /\ Forall (fun m => nt_EventID m <> opened_id) r.1.
Proof.
  split; [vm_compute; reflexivity|].
  apply (delivered_once wan_config start "" refused_first (NewWorker delivered) opened_id (opened_job delivered)).
  - exact delivered_keyed.
  - vm_compute. reflexivity.
  - vm_compute. reflexivity.
  - split; [discriminate|]. split; [intros _; vm_compute; exact I|]. split; [discriminate|exact I].
Defined.

Lemma jobs_are_delivered_witness :
  exists j, snap_Jobs (wk_engine (worker_run wan_config start "" refused_first active_worker).2) !! opened_id = Some j
            /\ is_Some (job_SentAt j).
Proof.
  apply (jobs_are_delivered wan_config start "" ready hour_and_more refused_first active_worker opened_id (opened_job wan_active)).
  - exact wan_config_ok.
  - apply wan_active_ok.
  - apply wan_active_ok.
  - vm_compute. reflexivity.
  - split; [vm_compute; reflexivity|]. split; vm_compute; discriminate.
  - discriminate.
  - apply Forall_cons; split; [|apply Forall_cons; split; [|apply Forall_cons; split; [|apply Forall_nil; exact I]]];
      (split; [discriminate|]); intros now [= <-] i m; try exact I.
    split; [vm_compute; reflexivity|]. split; [reflexivity|discriminate].
  - split; [discriminate|]. split; [intros _|split; [discriminate|exact I]].
    vm_compute. repeat split; intros _; reflexivity.
  - exists (fair accepts), [3], NewFileStore, (sec 4060). split; [right; right; left; reflexivity|vm_compute; discriminate].
Defined.
