(* ===== verification/WorkerStart.v ===== *)
(** A worker that starts over an archive it has never read, or reads imported
    messages, opens incidents without notifying anyone. *)
From Stdlib Require Import ZArith Lia.
From S2P Require Import Prelude.
From S2P Require Import GoStd.
From S2P Require Import GoLib.
From S2P Require Import Model.
From S2P Require Import Classify.
From S2P Require Import EngineState.
From S2P Require Import Engine.
From S2P Require Import EngineLemmas.
From S2P Require Import EngineJobs.
From S2P Require Import Storage.
From S2P Require Import Reader.
From S2P Require Import Notify.
From S2P Require Import Worker.
From S2P Require Import WorkerLemmas.
From S2P Require Import GoInstances.
From S2P Require Import Scenarios.
From S2P Require Import WorkerScenarios.

(** Nothing is, or is going to be, notified. *)
Record silent (s : Snapshot) : Prop := {
  sl_jobs : snap_Jobs s = ∅;
  sl_incidents id i : snap_Incidents s !! id = Some i -> inc_Notify i = false;
  sl_trackers k t : snap_Trackers s !! k = Some t -> trk_Notify t = false
}.

Lemma silent_core s s' :
  silent s -> snap_Jobs s' = snap_Jobs s -> snap_Incidents s' = snap_Incidents s ->
  snap_Trackers s' = snap_Trackers s -> silent s'.
Proof. intros [HJ HI HT] EJ EI ET. split; rewrite ?EJ, ?EI, ?ET; done. Qed.

Lemma silent_put_incident id i s : silent s -> inc_Notify i = false -> silent (put_incident id i s).
Proof.
  intros [HJ HI HT] Hn. split; snap_simpl; [done| |done].
  intros id' i'. rewrite lookup_insert. case_decide; [by intros [= <-]|apply HI].
Qed.

Lemma silent_put_tracker k t s : silent s -> trk_Notify t = false -> silent (put_tracker k t s).
Proof.
  intros [HJ HI HT] Hn. split; snap_simpl; [done|done|].
  intros k' t'. rewrite lookup_insert. case_decide; [by intros [= <-]|apply HT].
Qed.

Lemma silent_delete_tracker k s : silent s -> silent (delete_tracker k s).
Proof.
  intros [HJ HI HT]. split; snap_simpl; [done|done|]. intros k' t' [_ Hk]%lookup_delete_Some. by eapply HT.
Qed.

Lemma silent_delete_incident id s : silent s -> silent (delete_incident id s).
Proof.
  intros [HJ HI HT]. split; snap_simpl; [done| |done]. intros k' t' [_ Hk]%lookup_delete_Some. by eapply HI.
Qed.

Lemma silent_update_incident id f s :
  silent s -> (forall i, inc_Notify i = false -> inc_Notify (f i) = false) -> silent (update_incident id f s).
Proof.
  intros Hs Hf. unfold update_incident. destruct (snap_Incidents s !! id) as [i|] eqn:Hi; [|done].
  apply silent_put_incident; [done|]. by eapply Hf, sl_incidents.
Qed.

Lemma silent_get_tracker s k : silent s -> trk_Notify (get_tracker s k) = false.
Proof. intros Hs. unfold get_tracker. destruct (snap_Trackers s !! k) eqn:Hk; [by eapply sl_trackers|done]. Qed.

Create HintDb silent discriminated.
#[export] Hint Resolve silent_put_incident silent_put_tracker silent_delete_tracker silent_delete_incident
  silent_update_incident silent_get_tracker : silent.

Section Silent.
Context {GR : GoRange} {GS : GoSort} {J : GoJson}.
Context (cfg : Config) (startedAt : Time) (publicURL : string).

Lemma silent_escalate p h pid a s : silent s -> escalateFallbacksLocked cfg p h pid a s = s.
Proof.
  intros Hs. unfold escalateFallbacksLocked.
  apply (fold_left_preserves (fun s' => s' = s)); [|done]. intros s' [k i] Hin%elem_of_range ->.
  unfold escalates. rewrite (sl_incidents s Hs k i Hin). by rewrite andb_false_r.
Qed.

Lemma silent_advance_body q k t s :
  silent s -> snap_Trackers s !! k = Some t -> silent (advance_body cfg q k t s).1.
Proof.
  intros Hs Hk. pose proof (sl_trackers s Hs k t Hk) as Hn. unfold advance_body.
  destruct (trk_Phase t); try done; cbn [fst].
  - destruct (snap_Incidents s !! trk_IncidentID t) as [i|] eqn:Hi; [|unfold activate; rewrite Hi; auto with silent].
    rewrite (activate_stages cfg q k t i s Hi). cbn zeta.
    change (inc_Notify (activated_incident t i)) with (trk_Notify t). rewrite Hn.
    assert (H1 : silent (put_tracker k (set_trk_Phase phaseActive t) (put_incident (inc_ID i) (activated_incident t i) s)))
      by auto with silent.
    destruct (is_primary _ _); [by rewrite silent_escalate|done].
  - destruct (snap_Incidents s !! trk_IncidentID t) as [i|] eqn:Hi; [|unfold resolve; rewrite Hi; auto with silent].
    rewrite (resolve_stages cfg k t i s Hi). cbn zeta.
    assert (inc_Notify (resolved_incident t i) = false) as Hi' by by apply (sl_incidents s Hs _ i Hi).
    rewrite Hi'. auto with silent.
Qed.

Lemma silent_advance p now s : silent s -> silent (advanceLocked cfg p now s).1.
Proof. apply advance_preserves. intros q k t s' Hs Hk _. by apply silent_advance_body. Qed.

Lemma silent_observe p m r s : silent s -> silent (observeLocked cfg p m false r s).
Proof.
  intros Hs. unfold observeLocked. destruct (classify m _) as [e|]; [|done]. unfold observe_evidence.
  set (e' := set_sourceRef r e). clearbody e'. set (key := tracker_key _ _). clearbody key.
  destruct (stale_evidence _ _); [done|]. destruct (ev_observeOnly _).
  { apply silent_put_tracker; [done|]. destruct (decide _); cbn; auto with silent. }
  pose proof (silent_advance p (ev_at e') s Hs) as Hs'. set (s' := (advanceLocked cfg p (ev_at e') s).1) in *.
  clearbody s'. destruct (masked_recovery _ _); [done|].
  pose proof (silent_get_tracker s' key Hs') as Ht. destruct (ev_online e').
  - unfold observe_online. cbn [set_trk_LastEvidenceAt trk_Phase].
    destruct (trk_Phase (get_tracker s' key)); auto with silent.
  - unfold observe_offline. cbn [set_trk_LastEvidenceAt trk_Phase].
    destruct (trk_Phase (get_tracker s' key)); apply silent_put_tracker; cbn; rewrite ?Ht; auto with silent.
Qed.

Lemma silent_observe_all i p os s :
  Forall (fun o => obs_NotifyEligible o = false) os -> silent s -> silent (observe_all cfg i p os s).
Proof.
  intros Hos. revert i s. induction Hos as [|o os Ho Hos IH]; intros i s Hs; [done|].
  cbn. rewrite Ho. by apply IH, silent_observe.
Qed.

Lemma silent_rebuild_state p os c a s :
  Forall (fun o => obs_NotifyEligible o = false) os -> silent s -> silent (rebuild_state cfg p os c a s).
Proof.
  intros Hos Hs. unfold rebuild_state. set (s0 := mkSnapshot _ _ _ _ _ _ _).
  assert (H0 : silent s0) by by split. apply (silent_observe_all 0 (0 :: p) os s0 Hos) in H0.
  set (s1 := observe_all _ _ _ _ _) in *. clearbody s1. clear s0.
  set (s2 := restore_notify _ _ _). assert (H2 : silent s2).
  { unfold s2, restore_notify. apply (fold_left_preserves silent); [|done]. intros s' [k i] Hin%elem_of_range Hs'.
    destruct (snap_Incidents s !! k) as [old|] eqn:Hold; [|done]. apply silent_put_incident; [done|]. cbn.
    by rewrite (sl_incidents s1 H0 k i Hin), (sl_incidents s Hs k old Hold). }
  clearbody s2. set (s3 := sync_tracker_notify _ _). assert (H3 : silent s3).
  { unfold s3, sync_tracker_notify. apply (fold_left_preserves silent); [|done]. intros s' [k t] Hin%elem_of_range Hs'.
    destruct (snap_Incidents s' !! trk_IncidentID t) as [i|] eqn:Hi; [|done].
    apply silent_put_tracker; [done|]. by apply (sl_incidents s' Hs' _ i Hi). }
  clearbody s3. set (s4 := carry_jobs _ _ _). assert (H4 : silent s4).
  { unfold s4, carry_jobs. apply (fold_left_preserves silent); [|done]. intros s' [k j] Hin%elem_of_range. by rewrite (sl_jobs s Hs), lookup_empty in Hin. }
  clearbody s4.
  assert (Hall : forall l j s', Forall (fun ki => inc_Notify ki.2 = false) l -> silent s' ->
            silent (rebuild_all_jobs cfg j (4%nat :: p) l s')).
  { intros l j s' Hl. revert j s'. induction Hl as [|[k i] l Hi Hl IH]; intros j s' Hs'; [done|].
    cbn. apply IH. unfold rebuild_jobs. cbn in Hi. destruct (inc_ActivatedAt i); [|done]. by rewrite Hi. }
  apply Hall; [|done]. apply Forall_forall. intros [k i] Hin%elem_of_range. by eapply (sl_incidents s4).
Qed.

(** A message that was there before, or comes from an import. *)
Definition from_the_past (bootstrapped : bool) (m : Message) : Prop :=
  msg_Transport m = "import" \/ (bootstrapped = false /\ (msg_ReceivedAt m <= startedAt)%Z).

Lemma past_not_eligible changed s record :
  from_the_past (snap_Bootstrapped s) (sr_Message record) -> eligible startedAt changed s record = false.
Proof.
  intros H. unfold eligible.
  assert (negb (String.eqb (msg_Transport (sr_Message record)) "import")
          && (snap_Bootstrapped s || After (msg_ReceivedAt (sr_Message record)) startedAt) = false) as ->.
  { destruct H as [->|[-> Hle]]; [done|]. cbn. apply andb_false_intro2. unfold After. lia. }
  destruct changed as [file|]; [|done]. destruct (String.eqb _ _); [done|]. by destruct (Cursors s !! _).
Qed.

Lemma insert_stable_perm {A} (less : A -> A -> bool) x l : insert_stable less x l ≡ₚ x :: l.
Proof.
  induction l as [|y l IH]; [done|]. cbn. destruct (less y x); [|done]. rewrite IH. by constructor.
Qed.

Lemma SliceStable_perm {A} (less : A -> A -> bool) l : SliceStable less l ≡ₚ l.
Proof. induction l as [|x l IH]; [done|]. cbn. fold (SliceStable less l). by rewrite insert_stable_perm, IH. Qed.

Lemma silent_end out base p now s :
  silent s -> let d := advance_and_dispatch cfg publicURL out base p now s in d.1 = [] /\ silent d.2.1.
Proof.
  intros Hs. cbn zeta. unfold advance_and_dispatch.
  assert (Ht : silent (Tick cfg (out_save out base) (2 :: p) now s).1).
  { unfold Tick. pose proof (silent_advance (2 :: p) now s Hs). by destruct (advanceLocked cfg (2 :: p) now s) as [s' []]. }
  destruct (Tick _ _ _ _ _) as [s1 [err|]]; [done|]. cbn [fst] in Ht. unfold dispatch.
  assert (DueNotifications (3 :: p) now s1 = []) as ->; [|done].
  unfold DueNotifications, jobs_by_creation. apply Permutation_nil_r. etrans; [apply sort_slice_perm|].
  assert (range (3 :: p) (snap_Jobs s1) = []) as ->; [|done].
  apply Permutation_nil_r. rewrite (range_perm (3 :: p)), (sl_jobs s1 Ht). by rewrite map_to_list_empty.
Qed.

Lemma empty_silent : silent empty_Snapshot.
Proof. by split. Qed.

(** C29: a worker that has nothing to notify (no job in the outbox, no incident
    or tracker that is to be notified) is left so, and sends nothing, by a
    reconciliation that reads only messages of the past: imported ones, or,
    while the archive has not been read before, ones received before the worker
    started; whatever incidents the messages show and whether or not the state
    is rebuilt for it. *)
Theorem first_start_is_silent (out : Outside) (p : list nat) (now : Time) (st : FileStore) (w : Worker) :
  silent (wk_engine w) ->
  Forall (fun record => from_the_past (snap_Bootstrapped (wk_engine w)) (sr_Message record))
    (read_archive cfg out p (Cursors (wk_engine w)) st).1.2 ->
  let r := reconcile cfg startedAt publicURL out p now st w in
  r.1 = [] /\ silent (wk_engine r.2.1).
Proof.
  intros Hs Hold. cbn zeta. unfold reconcile.
  destruct (read_archive _ _ _ _ _) as [[changed records] [next|err]]; cbn [fst snd] in Hold; [|by destruct changed].
  assert (Hos : Forall (fun o => obs_NotifyEligible o = false)
            (map (observation startedAt changed (wk_engine w)) (SliceStable record_less records))).
  { apply List.Forall_map. rewrite (SliceStable_perm record_less records).
    eapply Forall_impl; [exact Hold|]. intros record. apply past_not_eligible. }
  set (os := map _ _) in *. clearbody os.
  set (applied := match changed with Some _ => _ | None => _ end).
  assert (Ha : silent applied.1).
  { unfold applied. destruct changed; [by apply silent_rebuild_state|].
    eapply silent_core; [by apply (silent_observe_all 0 (4%nat :: p) os (wk_engine w))|done..]. }
  destruct changed; fold applied; clearbody applied; destruct applied as [s1 [err|]]; try done; cbn [fst] in Ha;
    destruct (silent_end out 1 p now s1 Ha) as [H1 H2];
    destruct (advance_and_dispatch _ _ _ _ _ _ s1) as [sent [s2 [err|]]]; done.
Qed.
End Silent.

Lemma first_start_is_silent_witness :
  let r := reconcile wan_config (sec 3600) "" (fair accepts) [] (sec 7200) (stored [wan_down; wan_up]) (NewWorker empty_Snapshot) in
  (states (wk_engine r.2.1) = [("wan", StateResolved)]) /\ r.1 = [] /\ silent (wk_engine r.2.1).
Proof.
  split; [vm_compute; reflexivity|].
  apply (first_start_is_silent wan_config (sec 3600) "" (fair accepts) [] (sec 7200) (stored [wan_down; wan_up])).
  - apply empty_silent.
  - assert (H : forallb (fun record => (msg_ReceivedAt (sr_Message record) <=? sec 3600)%Z)
                  (read_archive wan_config (fair accepts) [] (Cursors empty_Snapshot) (stored [wan_down; wan_up])).1.2 = true)
      by (vm_compute; reflexivity).
    rewrite forallb_forall in H. apply Forall_forall. intros record Hin%list_elem_of_In.
    right. split; [reflexivity|]. apply Z.leb_le, H, Hin.
Defined.
