(* ===== verification/EngineCurrent.v ===== *)
(** Every state the engine reaches is of the version it saves and its incidents
    are of the current rules, so that loading it back upgrades nothing. *)
From Stdlib Require Import ZArith Lia.
From S2P Require Import Prelude.
From S2P Require Import GoStd.
From S2P Require Import Model.
From S2P Require Import Classify.
From S2P Require Import EngineState.
From S2P Require Import Engine.
From S2P Require Import EngineLemmas.
From S2P Require Import EngineWf.
From S2P Require Import EngineJobs.
From S2P Require Import EngineSafety.

Record current (s : Snapshot) : Prop := {
  cu_version : snap_Version s = 1%Z;
  cu_rules id i : snap_Incidents s !! id = Some i -> inc_RuleVersion i = 3%Z
}.

Lemma current_core s s' :
  current s -> snap_Version s' = snap_Version s -> snap_Incidents s' = snap_Incidents s -> current s'.
Proof. intros [HV HI] EV EI. split; rewrite ?EV, ?EI; done. Qed.

Lemma current_put_incident id i s : current s -> inc_RuleVersion i = 3%Z -> current (put_incident id i s).
Proof.
  intros [HV HI] Hi. split; [done|]. intros id' i'. snap_simpl. rewrite lookup_insert.
  case_decide; [by intros [= <-]|apply HI].
Qed.

Lemma current_delete_incident id s : current s -> current (delete_incident id s).
Proof. intros [HV HI]. split; [done|]. intros id' i'. snap_simpl. intros [_ H]%lookup_delete_Some. by eapply HI. Qed.

Lemma current_update_incident id f s :
  current s -> (forall i, inc_RuleVersion (f i) = inc_RuleVersion i) -> current (update_incident id f s).
Proof.
  intros Hs Hf. unfold update_incident. destruct (snap_Incidents s !! id) as [i|] eqn:Hi; [|done].
  apply current_put_incident; [done|]. rewrite Hf. by eapply cu_rules.
Qed.

Lemma current_put_tracker k t s : current s -> current (put_tracker k t s).
Proof. by intros [HV HI]. Qed.

Lemma current_delete_tracker k s : current s -> current (delete_tracker k s).
Proof. by intros [HV HI]. Qed.

Lemma current_put_job id j s : current s -> current (put_job id j s).
Proof. by intros [HV HI]. Qed.

Lemma current_enqueue id iid k a s : current s -> current (enqueue_with_id id iid k a s).
Proof. intros Hs. unfold enqueue_with_id. destruct (snap_Jobs s !! id); [done|]. by apply current_put_job. Qed.

Create HintDb current discriminated.
#[export] Hint Resolve current_put_incident current_delete_incident current_update_incident current_put_tracker
  current_delete_tracker current_put_job current_enqueue : current.

Section Current.
Context {GR : GoRange} (cfg : Config).

Lemma current_notify_activation p i a s : current s -> current (notify_activation cfg p i a s).
Proof.
  unfold notify_activation, enqueueLocked, enqueueFallbackEscalationLocked.
  destruct (is_primary cfg i); [|destruct (primaryDownAtLocked _ _ _ _ _)]; auto with current.
Qed.

Lemma current_escalate p h pid a s : current s -> current (escalateFallbacksLocked cfg p h pid a s).
Proof.
  apply fold_left_preserves. intros s' [k i] _ Hs. destruct (escalates cfg h i); [by apply current_enqueue|done].
Qed.

Lemma current_advance_body q k t s : current s -> current (advance_body cfg q k t s).1.
Proof.
  intros Hs. unfold advance_body.
  destruct (trk_Phase t); try done; cbn [fst]; destruct (snap_Incidents s !! trk_IncidentID t) as [i|] eqn:Hi.
  - rewrite (activate_stages cfg q k t i s Hi). cbn zeta.
    assert (Hi' : inc_RuleVersion (activated_incident t i) = 3%Z) by (change (inc_RuleVersion i = 3%Z); by eapply (cu_rules s Hs)).
    destruct (is_primary _ _); [apply current_escalate|]; destruct (inc_Notify _);
      auto using current_notify_activation with current.
  - unfold activate. rewrite Hi. auto with current.
  - rewrite (resolve_stages cfg k t i s Hi). cbn zeta.
    assert (Hi' : inc_RuleVersion (resolved_incident t i) = 3%Z) by (change (inc_RuleVersion i = 3%Z); by eapply (cu_rules s Hs)).
    apply current_put_tracker. destruct (inc_Notify _); [apply current_enqueue|]; auto with current.
  - unfold resolve. rewrite Hi. auto with current.
Qed.

Lemma current_advance p now s : current s -> current (advanceLocked cfg p now s).1.
Proof. apply advance_preserves. intros q k t s' Hs _ _. by apply current_advance_body. Qed.

Lemma current_observe p m n r s : current s -> current (observeLocked cfg p m n r s).
Proof.
  intros Hs. unfold observeLocked. destruct (classify m _) as [e|]; [|done]. unfold observe_evidence.
  set (e' := set_sourceRef r e). clearbody e'. set (key := tracker_key _ _). clearbody key.
  destruct (stale_evidence _ _); [done|]. destruct (ev_observeOnly _); [by apply current_put_tracker|].
  pose proof (current_advance p (ev_at e') s Hs) as Hs'. set (s' := (advanceLocked cfg p (ev_at e') s).1) in *.
  clearbody s'. destruct (masked_recovery _ _); [done|].
  destruct (ev_online e'); [unfold observe_online|unfold observe_offline]; cbn [set_trk_LastEvidenceAt trk_Phase];
    destruct (trk_Phase (get_tracker s' key)); auto with current.
Qed.

Lemma current_observe_all i p os s : current s -> current (observe_all cfg i p os s).
Proof. revert i s. induction os as [|o os IH]; intros i s Hs; [done|]. by apply IH, current_observe. Qed.

Lemma current_update_job sv id f s : current s -> current (update_job sv id f s).1.
Proof.
  intros Hs. destruct (update_job_cases sv id f s) as [[_ ->]|(j & _ & [(e & _ & ->)|[_ ->]])]; [done..|].
  by apply current_put_job.
Qed.

Lemma current_rebuild p os c a s : current (rebuild_state cfg p os c a s).
Proof.
  unfold rebuild_state. set (s0 := mkSnapshot _ _ _ _ _ _ _).
  assert (H0 : current s0) by by split. apply (current_observe_all 0 (0%nat :: p) os s0) in H0.
  set (s1 := observe_all _ _ _ _ _) in *. clearbody s1. clear s0.
  assert (H2 : current (restore_notify (1%nat :: p) s s1)).
  { apply (fold_left_preserves current); [|done]. intros s' [k i] Hin%elem_of_range Hs'.
    destruct (snap_Incidents s !! k); [|done]. apply current_put_incident; [done|]. apply (cu_rules s1 H0 k i Hin). }
  set (s2 := restore_notify _ _ _) in *. clearbody s2.
  assert (H3 : current (sync_tracker_notify (2%nat :: p) s2)).
  { apply (fold_left_preserves current); [|done]. intros s' [k t] _ Hs'.
    destruct (snap_Incidents s' !! trk_IncidentID t); auto with current. }
  set (s3 := sync_tracker_notify _ _) in *. clearbody s3.
  assert (H4 : current (carry_jobs (3%nat :: p) s s3)).
  { apply (fold_left_preserves current); [|done]. intros s' [k j] _ Hs'.
    destruct (snap_Incidents s' !! job_IncidentID j); auto with current. }
  set (s4 := carry_jobs _ _ _) in *. clearbody s4.
  assert (Hone : forall q i s', current s' -> current (rebuild_jobs cfg q i s')).
  { clear. intros q i s' Hs. unfold rebuild_jobs. destruct (inc_ActivatedAt i) as [a|]; [|done].
    destruct (negb (inc_Notify i)); [done|]. pose proof (current_notify_activation (0%nat :: q) i a s' Hs) as H. cbv zeta.
    assert (H' : forall s, current s -> current (escalate_overlaps cfg (1%nat :: q) i a s)).
    { intros s1. apply (fold_left_preserves current). intros s2 [k pr] _ Hs2.
      destruct (inc_ActivatedAt pr); [|done]. destruct (_ && _); [by apply current_enqueue|done]. }
    destruct (negb (is_primary cfg i)); [apply H'|]; (destruct (inc_State i), (inc_ResolvedAt i); try done; by apply current_enqueue). }
  assert (Hall : forall l j s', current s' -> current (rebuild_all_jobs cfg j (4%nat :: p) l s')).
  { clear - Hone. induction l as [|[k i] l IH]; intros j s' Hs'; [done|]. cbn. by apply IH, Hone. }
  by apply Hall.
Qed.

Lemma any_step_current s s' : current s -> any_step cfg s s' -> current s'.
Proof.
  intros Hs [[sv p m n _|sv p os c a _|sv p now|sv id ad ext a|sv id msg nx pm|sv c]|[sv p os c a _]].
  - by apply current_observe.
  - eapply current_core; [by apply (current_observe_all 0 p os s)|done..].
  - rewrite Tick_state. by apply current_advance.
  - by apply current_update_job.
  - by apply current_update_job.
  - by eapply current_core.
  - apply current_rebuild.
Qed.

Lemma reachable_current s : reachable cfg s -> current s.
Proof.
  intros Hr. enough (H : forall s0, current s0 -> rtc (any_step cfg) s0 s -> current s) by (apply (H empty_Snapshot); [by split|done]).
  clear Hr. intros s0 H0 Hr. induction Hr as [|s1 s2 s3 H12 _ IH]; [done|]. apply IH. by eapply any_step_current.
Qed.

(** [Load] takes such a state as it is. *)
Lemma Load_current p s s0 : current s -> Load p (Some (inl s)) s0 = (s, None).
Proof.
  intros [HV HI]. unfold Load. rewrite HV. cbn [Z.eqb]. change (negb (1 =? 1)%Z) with false. cbn match.
  assert (initializeSnapshot s = s) as -> by (unfold initializeSnapshot; by rewrite HV).
  assert (H : forall l, fold_left (fun st '(key, t) =>
              match upgrade_tracker st t with Some t' => put_tracker key t' st | None => st end) l s = s).
  { intros l. apply (fold_left_preserves (fun s' => s' = s)); [|done]. intros s' [k t] _ ->.
    unfold upgrade_tracker. destruct (snap_Incidents s !! trk_IncidentID t) as [i|] eqn:Hi; [|done].
    by rewrite (HI _ _ Hi). }
  by rewrite H.
Qed.
End Current.
