(* ===== verification/StateFile.v ===== *)
(** The incident state file ([internal/incidents/file_persistence.go]): a
    snapshot is written beside the file and moved over it.  The disk is a map
    from paths to contents; [Faults] says which system calls fail. *)
From Stdlib Require Import Ascii ZArith.
From S2P Require Import Prelude.
From S2P Require Import GoStd.
From S2P Require Import GoLib.
From S2P Require Import Model.
From S2P Require Import EngineState.
Local Open Scope string_scope.

(** [encoding/json] on a snapshot. *)
Class StateJson := {
  state_MarshalIndent : Snapshot -> option string;
  state_Unmarshal : string -> option Snapshot
}.

Notation Disk := (gmap string string).

Inductive state_error : Type :=
| err_state_canceled
| err_state_read (what : string)
| err_state_decode
| err_state_directory (what : string)
| err_state_encode
| err_state_create (what : string)
| err_state_secure (what : string)
| err_state_write (what : string)
| err_state_sync (what : string)
| err_state_close (what : string)
| err_state_replace (what : string).

(** Per system call, in the order of [Save], what it fails with; a write that
    fails has written some bytes; [ft_Name] is the name the temporary file gets;
    [ft_leftover]: the deferred removal of the temporary file fails. *)
Record Faults : Type := mkFaults {
  ft_canceled : bool;
  ft_MkdirAll : option string;
  ft_CreateTemp : option string;
  ft_Name : string;
  ft_Chmod : option string;
  ft_Write : option (nat * string);
  ft_Sync : option string;
  ft_Close : option string;
  ft_Rename : option string;
  ft_Remove : option string;
  ft_Rename_again : option string;
  ft_leftover : bool
}.

Definition no_faults (name : string) : Faults :=
  mkFaults false None None name None None None None None None None false.

(** [os.Rename]: the source replaces the target. *)
Definition Rename (source target : string) (d : Disk) : Disk :=
  match d !! source with
  | Some data => <[target := data]> (delete source d)
  | None => d
  end.

(** The disks on the way and the last one, with the error. *)
Definition replaceFile (ft : Faults) (source target : string) (d : Disk) : list Disk * (Disk * option string) :=
  match ft_Rename ft with
  | None => ([Rename source target d], (Rename source target d, None))
  | Some _ =>
    match ft_Remove ft with
    | Some what => ([], (d, Some what))
    | None =>
      let d := delete target d in
      match ft_Rename_again ft with
      | None => ([d; Rename source target d], (Rename source target d, None))
      | Some what => ([d], (d, Some what))
      end
    end
  end.

(** The deferred removal. *)
Definition cleaned (ft : Faults) (temporaryPath : string) (d : Disk) : Disk :=
  if ft_leftover ft then d else delete temporaryPath d.

(** The disks while [n] bytes of [data] are written, byte by byte. *)
Definition writing (temporaryPath data : string) (n : nat) (d : Disk) : list Disk :=
  map (fun k => <[temporaryPath := stake k data]> d) (seq 0 (S n)).

Section State.
Context {SJ : StateJson}.

(** Every content the disk has during the call, and the result. *)
Definition Save (ft : Faults) (path : string) (state : Snapshot) (d : Disk) : list Disk * (Disk * option state_error) :=
  if ft_canceled ft then ([], (d, Some err_state_canceled))
  else match ft_MkdirAll ft with
  | Some what => ([], (d, Some (err_state_directory what)))
  | None =>
    match state_MarshalIndent state with
    | None => ([], (d, Some err_state_encode))
    | Some data =>
      let data := data +:+ newline in
      match ft_CreateTemp ft with
      | Some what => ([], (d, Some (err_state_create what)))
      | None =>
        let temporaryPath := ft_Name ft in
        let d := <[temporaryPath := ""]> d in
        let failed disks err d :=
          (d :: disks ++ [cleaned ft temporaryPath d], (cleaned ft temporaryPath d, Some err))%list in
        match ft_Chmod ft with
        | Some what => failed [] (err_state_secure what) d
        | None =>
          match ft_Write ft with
          | Some (n, what) =>
            failed (d :: writing temporaryPath data n d) (err_state_write what) (<[temporaryPath := stake n data]> d)
          | None =>
            let disks := (d :: writing temporaryPath data (String.length data) d)%list in
            let d := <[temporaryPath := data]> d in
            match ft_Sync ft with
            | Some what => failed disks (err_state_sync what) d
            | None =>
              match ft_Close ft with
              | Some what => failed disks (err_state_close what) d
              | None =>
                let '(moves, (d', err)) := replaceFile ft temporaryPath path d in
                let last := cleaned ft temporaryPath d' in
                (d :: disks ++ moves ++ [last], (last, err_state_replace <$> err))%list
              end
            end
          end
        end
      end
    end
  end.

(** The zero snapshot, all maps nil. *)
Definition zero_Snapshot : Snapshot := mkSnapshot 0 false 0 ∅ ∅ ∅ ∅.

(** [unread]: what [os.ReadFile] fails with, besides the file missing. *)
Definition Load_file (canceled : bool) (unread : option string) (path : string) (d : Disk) : Snapshot + state_error :=
  if canceled then inr err_state_canceled
  else match unread with
  | Some what => inr (err_state_read what)
  | None =>
    match d !! path with
    | None => inl zero_Snapshot
    | Some data =>
      match state_Unmarshal data with
      | Some state => inl state
      | None => inr err_state_decode
      end
    end
  end.
End State.
