(* ===== verification/StateFileProps.v ===== *)
(** Saving the incident state is atomic, and a restart resumes where the saved
    state left off. *)
From Stdlib Require Import Ascii ZArith Lia.
From S2P Require Import Prelude.
From S2P Require Import GoStd.
From S2P Require Import Model.
From S2P Require Import Classify.
From S2P Require Import EngineState.
From S2P Require Import Engine.
From S2P Require Import EngineLemmas.
From S2P Require Import EngineWf.
From S2P Require Import EngineRebuild.
From S2P Require Import EngineJobs.
From S2P Require Import EngineSafety.
From S2P Require Import EngineCurrent.
From S2P Require Import Scenarios.
From S2P Require Import StateFile.
Local Open Scope string_scope.

(** ** Atomicity *)

Section Save.
Context {SJ : StateJson} (ft : Faults) (path : string).

(** What matters of a disk: everything but the temporary file. *)
Definition settled (d : Disk) : Disk := delete (ft_Name ft) d.

Context (Hname : ft_Name ft <> path).

Lemma settled_insert x d : d !! ft_Name ft = None -> settled (<[ft_Name ft := x]> d) = d.
Proof. intros Hd. unfold settled. by apply delete_insert_id. Qed.

Lemma settled_cleaned d : settled (cleaned ft (ft_Name ft) d) = settled d.
Proof. unfold settled, cleaned. destruct (ft_leftover ft); [done|]. apply delete_delete_eq. Qed.

Lemma settled_writing data n x d :
  d !! ft_Name ft = None -> Forall (fun d' => settled d' = d) (writing (ft_Name ft) data n (<[ft_Name ft := x]> d)).
Proof.
  intros Hd. unfold writing. apply Forall_forall. intros d' (k & -> & _)%list_elem_of_fmap.
  rewrite insert_insert_eq. by apply settled_insert.
Qed.

(** The state file is gone: its move failed, and it was removed before a second try. *)
Definition gone (d d' : Disk) : Prop :=
  is_Some (ft_Rename ft) /\ ft_Remove ft = None /\ settled d' = delete path d.

Lemma Rename_new data d :
  d !! ft_Name ft = Some data -> Rename (ft_Name ft) path d = <[path := data]> (settled d).
Proof. intros Hd. unfold Rename, settled. by rewrite Hd. Qed.

Lemma settled_replace data d :
  d !! ft_Name ft = None ->
  let '(moves, (d', err)) := replaceFile ft (ft_Name ft) path (<[ft_Name ft := data]> d) in
  Forall (fun d' => settled d' = <[path := data]> d \/ gone d d') moves
  /\ match err with
     | None => d' = <[path := data]> d
     | Some _ => settled d' = d \/ gone d d'
     end.
Proof.
  intros Hd. assert (Hset : settled (<[path := data]> d) = <[path := data]> d)
    by (unfold settled; apply delete_id; by rewrite lookup_insert_ne).
  assert (Hdel : settled (delete path (<[ft_Name ft := data]> d)) = delete path d)
    by (unfold settled; rewrite delete_delete, delete_insert_id by done; done).
  unfold replaceFile. destruct (ft_Rename ft) as [what|] eqn:Hr.
  - destruct (ft_Remove ft) eqn:Hm; [split; [constructor|left; by apply settled_insert]|].
    assert (Hgone : gone d (delete path (<[ft_Name ft := data]> d))) by (split; [by rewrite Hr|done]).
    assert (Hnew : Rename (ft_Name ft) path (delete path (<[ft_Name ft := data]> d)) = <[path := data]> d).
    { rewrite (Rename_new data) by by rewrite lookup_delete_ne, lookup_insert_eq. by rewrite Hdel, insert_delete_eq. }
    destruct (ft_Rename_again ft).
    + split; [|by right]. apply Forall_singleton. by right.
    + rewrite Hnew. split; [|done]. apply Forall_cons. split; [by right|]. apply Forall_singleton. by left.
  - rewrite (Rename_new data) by apply lookup_insert_eq. rewrite settled_insert by done.
    split; [|done]. apply Forall_singleton. by left.
Qed.

(** The disk holds the state file of [d] or the complete new one. *)
Definition old_or_new (state : Snapshot) (d d' : Disk) : Prop :=
  settled d' = d
  \/ exists data, state_MarshalIndent state = Some data /\ settled d' = <[path := data +:+ newline]> d.

(** The result of a call that fails after the temporary file was made. *)
Lemma failed_keeps state d disks x :
  d !! ft_Name ft = None -> Forall (fun d' => settled d' = d) disks ->
  let d1 := <[ft_Name ft := x]> d in
  let last := cleaned ft (ft_Name ft) d1 in
  Forall (fun d' => old_or_new state d d' \/ gone d d') (last :: d1 :: disks ++ [last])
  /\ (settled last = d \/ gone d last).
Proof.
  intros Hd Hdisks d1 last. assert (H1 : settled d1 = d) by by apply settled_insert.
  assert (Hl : settled last = d) by (unfold last; by rewrite settled_cleaned). split; [|by left].
  apply (Forall_impl (fun d' => settled d' = d)); [|by left; left].
  do 2 (apply Forall_cons; split; [done|]). apply Forall_app. split; [done|]. by apply Forall_singleton.
Qed.

(** What the disk may hold at any time, and what a failed call leaves. *)
Lemma save_atomic (state : Snapshot) (d : Disk) :
  d !! ft_Name ft = None ->
  let '(disks, (last, err)) := Save ft path state d in
  Forall (fun d' => old_or_new state d d' \/ gone d d') (last :: disks)
  /\ match err with
     | None => exists data, state_MarshalIndent state = Some data /\ last = <[path := data +:+ newline]> d
     | Some _ => settled last = d \/ gone d last
     end.
Proof.
  intros Hd. assert (Hsame : settled d = d) by by apply delete_id.
  assert (Hkeep : old_or_new state d d \/ gone d d) by by left; left.
  unfold Save. destruct (ft_canceled ft); [by auto|]. destruct (ft_MkdirAll ft); [by auto|].
  destruct (state_MarshalIndent state) as [data|] eqn:Hdata; [|by auto].
  destruct (ft_CreateTemp ft); [by auto|]. cbv zeta. set (text := data +:+ newline).
  assert (Hw : forall n x, Forall (fun d' => settled d' = d) (writing (ft_Name ft) text n (<[ft_Name ft := x]> d)))
    by (intros n x; by apply settled_writing).
  pose proof (fun disks x => failed_keeps state d disks x Hd) as Hf. cbv zeta in Hf.
  destruct (ft_Chmod ft); [by apply Hf|].
  destruct (ft_Write ft) as [[n what]|].
  { rewrite insert_insert_eq. apply Hf, Forall_cons. split; [by apply settled_insert|apply Hw]. }
  rewrite insert_insert_eq.
  assert (Hdisks : Forall (fun d' => settled d' = d)
            (<[ft_Name ft := ""]> d :: writing (ft_Name ft) text (String.length text) (<[ft_Name ft := ""]> d)))
    by (apply Forall_cons; split; [by apply settled_insert|apply Hw]).
  destruct (ft_Sync ft); [by apply Hf|]. destruct (ft_Close ft); [by apply Hf|].
  pose proof (settled_replace text d Hd) as Hrep.
  destruct (replaceFile _ _ _ _) as [moves [d' err]]. destruct Hrep as (Hmoves & Hend).
  assert (Hset : settled (<[path := text]> d) = <[path := text]> d)
    by (unfold settled; apply delete_id; by rewrite lookup_insert_ne).
  assert (Hlast : old_or_new state d (cleaned ft (ft_Name ft) d') \/ gone d (cleaned ft (ft_Name ft) d')).
  { unfold gone, old_or_new. rewrite settled_cleaned. destruct err; [|subst d'; left; right; by exists data].
    destruct Hend as [H|H]; [left; by left|by right]. }
  split.
  - apply Forall_cons. split; [exact Hlast|]. apply Forall_cons. split; [left; left; by apply settled_insert|].
    apply Forall_app. split; [eapply Forall_impl; [exact Hdisks|by left; left]|].
    apply Forall_app. split; [|by apply Forall_singleton].
    eapply Forall_impl; [exact Hmoves|]. intros m [Hm|Hm]; [left; right; by exists data|by right].
  - destruct err; cbn [fmap option_fmap option_map].
    + unfold gone. by rewrite settled_cleaned.
    + exists data. split; [done|]. subst d'. unfold cleaned. destruct (ft_leftover ft); [done|exact Hset].
Qed.

(** C26: whatever fails while the state is saved, and wherever the process
    stops, the disk holds the old state file or the complete new one, and every
    other file as it was; if the call succeeds it is the new one with no temporary
    file left, and if it fails it is the old one. The one exception is a move
    that fails and is tried again: in between, and for good if it fails again,
    there is no state file. *)
Theorem save_is_atomic (state : Snapshot) (d : Disk) :
  d !! ft_Name ft = None ->
  let '(disks, (last, err)) := Save ft path state d in
  Forall (fun d' => old_or_new state d d' \/ gone d d') (last :: disks)
  /\ match err with
     | None => exists data, state_MarshalIndent state = Some data /\ last = <[path := data +:+ newline]> d
     | Some _ => settled last = d \/ gone d last
     end.
Proof. apply save_atomic. Qed.

(** The state is read back as it was written. *)
Definition reads_back (state : Snapshot) : Prop :=
  forall data, state_MarshalIndent state = Some data -> state_Unmarshal (data +:+ newline) = Some state.

Lemma load_settled d : Load_file false None path (settled d) = Load_file false None path d.
Proof. unfold Load_file, settled. by rewrite lookup_delete_ne. Qed.

(** C25: a restart resumes where the state file left off: if the first rename
    of a save succeeds, then wherever the process stopped while saving, the
    file is loaded as the state saved now or as it was before, after a save
    that succeeded as the state saved now, and the engine takes a state it had
    reached as it is, upgrading nothing. *)
Theorem restart_resumes {GR : GoRange} (cfg : Config) (p : list nat) (state s0 : Snapshot) (d : Disk) :
  reachable cfg state -> reads_back state -> d !! ft_Name ft = None -> ft_Rename ft = None ->
  let '(disks, (last, err)) := Save ft path state d in
  let loaded := Load_file false None path in
  Forall (fun d' => loaded d' = loaded d \/ loaded d' = inl state) (last :: disks)
  /\ (err = None -> loaded last = inl state)
  /\ Load p (Some (inl state)) s0 = (state, None).
Proof.
  intros Hr Hback Hd Hren. pose proof (save_atomic state d Hd) as Ha.
  assert (Hstays : forall d', ~ gone d d') by (intros d' [[what Hw] _]; by rewrite Hren in Hw).
  destruct (Save ft path state d) as [disks [last err]]. destruct Ha as [Hall Hlast]. cbv zeta.
  assert (Hnew : forall data, state_MarshalIndent state = Some data ->
            Load_file false None path (<[path := data +:+ newline]> d) = inl state).
  { intros data Hdata. unfold Load_file. by rewrite lookup_insert_eq, (Hback data Hdata). }
  split; [|split].
  - eapply Forall_impl; [exact Hall|]. intros d' [[Hs|(data & Hdata & Hs)]|Hg]; [left|right|by destruct (Hstays d')];
      rewrite <- load_settled, Hs; auto.
  - intros ->. destruct Hlast as (data & Hdata & ->). auto.
  - by apply Load_current, (reachable_current cfg).
Qed.
End Save.

(** ** Concrete disks *)

(** A codec for three states: nothing seen, a failure pending, an outage. *)
#[local] Instance three_states : StateJson :=
  {| state_MarshalIndent := fun s =>
       Some (if Nat.eqb (size (snap_Jobs s)) 1 then "active"
             else if Nat.eqb (size (snap_Incidents s)) 1 then "pending" else "empty");
     state_Unmarshal := fun text =>
       if String.eqb text ("active" +:+ newline) then Some wan_active
       else if String.eqb text ("pending" +:+ newline) then Some wan_pending
       else if String.eqb text ("empty" +:+ newline) then Some empty_Snapshot else None |}.

Definition state_path : string := "state/incidents.json".
Definition temporary : string := "state/.incidents-1.tmp".
Definition pending_saved : Disk := {[ state_path := "pending" +:+ newline ]}.
Definition sync_fails : Faults :=
  mkFaults false None None temporary None None (Some "input/output error") None None None None true.
Definition moves_fail : Faults :=
  mkFaults false None None temporary None None None None (Some "busy") None (Some "busy") false.

Lemma save_is_atomic_witness :
  let '(disks, (last, err)) := Save sync_fails state_path wan_active pending_saved in
  Forall (fun d => old_or_new sync_fails state_path wan_active pending_saved d
                   \/ gone sync_fails state_path pending_saved d) (last :: disks)
  /\ match err with
     | None => exists data, state_MarshalIndent wan_active = Some data /\ last = <[state_path := data +:+ newline]> pending_saved
     | Some _ => settled sync_fails last = pending_saved \/ gone sync_fails state_path pending_saved last
     end.
Proof. apply (save_is_atomic sync_fails state_path); [discriminate|vm_compute; reflexivity]. Defined.

Lemma restart_resumes_witness :
  let '(disks, (last, err)) := Save sync_fails state_path wan_active pending_saved in
  let loaded := Load_file false None state_path in
  Forall (fun d' => loaded d' = loaded pending_saved \/ loaded d' = inl wan_active) (last :: disks)
  /\ (err = None -> loaded last = inl wan_active)
  /\ Load [] (Some (inl wan_active)) empty_Snapshot = (wan_active, None).
Proof.
  apply (restart_resumes sync_fails state_path ltac:(discriminate) wan_config).
  - apply wan_active_reachable.
  - intros data Hdata. assert (H : state_MarshalIndent wan_active = Some "active") by (vm_compute; reflexivity).
    rewrite H in Hdata. injection Hdata as <-. reflexivity.
  - vm_compute. reflexivity.
  - reflexivity.
Defined.

(** If the move fails the old file is removed before it is tried again; if that
    fails too the state is gone, and the next start finds none without an error. *)
Example failed_move_loses_state :
  let r := Save moves_fail state_path wan_active pending_saved in
  r.2 = (∅, Some (err_state_replace "busy"))
  /\ Load_file false None state_path pending_saved = inl wan_pending
  /\ Load_file false None state_path r.2.1 = inl zero_Snapshot.
Proof.
  cbv zeta. assert (H : Save moves_fail state_path wan_active pending_saved
                        = ((Save moves_fail state_path wan_active pending_saved).1, (∅, Some (err_state_replace "busy"))))
    by (rewrite (surjective_pairing (Save _ _ _ _)) at 1; f_equal; vm_compute; reflexivity).
  rewrite H. by split_and!.
Qed.
