(* ===== verification/Hub.v ===== *)
(** The live hub ([internal/realtime/hub.go]), the publishing store over the
    message store, the fan-out to hub and incident worker ([multiPublisher] of
    [cmd/server/main.go]) and the loop of [handleMessageStream]
    ([internal/api/router.go]).  Channels live in a heap; a subscription is the
    address of one. *)
From Stdlib Require Import Ascii ZArith.
From S2P Require Import Prelude.
From S2P Require Import GoStd.
From S2P Require Import GoLib.
From S2P Require Import Model.
From S2P Require Import Storage.
From S2P Require Import Worker.
Local Open Scope string_scope.

Definition subscriberBuffer : nat := 64.

(** A buffered channel of messages. *)
Record Channel : Type := mkChannel { ch_buffer : list Message; ch_closed : bool }.

(** The channels made so far and those subscribed. *)
Record Hub : Type := mkHub {
  hub_channels : gmap nat Channel;
  hub_subscribers : gset nat
}.

Definition NewHub : Hub := mkHub ∅ ∅.

Definition Subscribe (h : Hub) : nat * Hub :=
  let ch := fresh (dom (hub_channels h)) in
  (ch, mkHub (<[ch := mkChannel [] false]> (hub_channels h)) ({[ch]} ∪ hub_subscribers h)).

(** The function [Subscribe] returns; [None]: [close] of a closed channel panics. *)
Definition unsubscribe (ch : nat) (h : Hub) : option Hub :=
  match hub_channels h !! ch with
  | Some c =>
    if ch_closed c then None
    else Some (mkHub (<[ch := mkChannel (ch_buffer c) true]> (hub_channels h)) (hub_subscribers h ∖ {[ch]}))
  | None => None
  end.

(** A send that does not wait. *)
Definition try_send (msg : Message) (c : Channel) : Channel :=
  if (length (ch_buffer c) <? subscriberBuffer)%nat then mkChannel (ch_buffer c ++ [msg]) (ch_closed c) else c.

(** [None]: a send on a closed channel panics. *)
Definition Publish (msg : Message) (h : Hub) : option Hub :=
  if decide (set_Exists (fun ch => (ch_closed <$> hub_channels h !! ch) = Some true) (hub_subscribers h)) then None
  else Some (mkHub (map_imap (fun ch c => Some (if decide (ch ∈ hub_subscribers h) then try_send msg c else c))
                      (hub_channels h)) (hub_subscribers h)).

Inductive received : Type := got (msg : Message) | channel_closed | nothing_yet.

(** [<-ch]; [nothing_yet]: it would wait. *)
Definition receive (ch : nat) (h : Hub) : received * Hub :=
  match hub_channels h !! ch with
  | Some (mkChannel (msg :: rest) closed) =>
    (got msg, mkHub (<[ch := mkChannel rest closed]> (hub_channels h)) (hub_subscribers h))
  | Some (mkChannel [] true) => (channel_closed, h)
  | _ => (nothing_yet, h)
  end.

(** ** Publishing *)

(** The store, the hub and the worker, which all callers share. *)
Definition stores : Type := FileStore * Hub * Worker.

(** No lock is held from the append of a message to its publication, nor from the
    hub to the worker: others may act there. *)
Inductive gap : Type := after_append | after_hub.

Definition nobody : gap -> stores -> stores := fun _ s => s.

(** Whom the store publishes to: the hub, then the worker. *)
Definition multiPublisher_Publish (message : Message) (others : gap -> stores -> stores) (s : stores) : option stores :=
  let '(st, h, w) := s in
  match Publish message h with
  | Some h => let '(st, h, w) := others after_hub (st, h, w) in Some (st, h, Worker.Publish message w)
  | None => None
  end.

Section Publishing.
Context {J : GoJson}.

(** [PublishingStore.Append] with what others do meanwhile; [None]: a panic. *)
Definition PublishingStore_Append (env : Env) (io : append_io) (now : Time) (others : gap -> stores -> stores)
    (msg : Message) (s : stores) : option (stores * option store_error) :=
  let '(st, h, w) := s in
  match Append env io now msg st with
  | (st, Some err) => Some ((st, h, w), Some err)
  | (st, None) =>
    match multiPublisher_Publish msg others (others after_append (st, h, w)) with
    | Some s => Some (s, None)
    | None => None
    end
  end.
End Publishing.

(** ** The event stream *)

(** What wakes the loop of a stream. *)
Inductive stream_wake : Type := request_done | message_ready | heartbeat.

Section Stream.
Context {J : GoJson} (json_Marshal : Message -> option string).

(** What is written, or [None] if the message cannot be encoded. *)
Definition writeMessageEvent (msg : Message) : option string :=
  match json_Marshal msg with
  | Some data => Some ("event: message" +:+ newline +:+ "data: " +:+ data +:+ newline +:+ newline)
  | None => None
  end.

Definition greeting : string := ": connected" +:+ newline +:+ newline.
Definition keepalive : string := ": keepalive" +:+ newline +:+ newline.

(** One turn of the loop: what is written and whether the loop goes on; a turn
    that waits for a message writes nothing. *)
Definition stream_turn (matches : Message -> bool) (ch : nat) (wake : stream_wake) (h : Hub) : option string * bool * Hub :=
  match wake with
  | request_done => (None, false, h)
  | heartbeat => (Some keepalive, true, h)
  | message_ready =>
    match receive ch h with
    | (got msg, h) =>
      if matches msg
      then match writeMessageEvent msg with
           | Some event => (Some event, true, h)
           | None => (None, false, h)
           end
      else (None, true, h)
    | (channel_closed, h) => (None, false, h)
    | (nothing_yet, h) => (None, true, h)
    end
  end.
End Stream.
