(* ===== verification/HubProps.v ===== *)
(** What a live subscription sees of the messages the store accepts. *)
From Stdlib Require Import Ascii ZArith Lia.
From S2P Require Import Prelude.
From S2P Require Import GoStd.
From S2P Require Import GoLib.
From S2P Require Import GoInstances.
From S2P Require Import Model.
From S2P Require Import EngineState.
From S2P Require Import Storage.
From S2P Require Import StorageHistory.
From S2P Require Import StorageProps.
From S2P Require Import Worker.
From S2P Require Import Hub.

(** No subscriber's channel is closed: a publish does not panic. *)
Definition hub_ok (h : Hub) : Prop :=
  forall ch, ch ∈ hub_subscribers h -> exists buffer, hub_channels h !! ch = Some (mkChannel buffer false).

Lemma Publish_ok msg h : hub_ok h -> exists h', Publish msg h = Some h' /\ hub_ok h'.
Proof.
  intros Hok. unfold Publish. rewrite decide_False.
  - eexists. split; [done|]. intros ch Hch. cbn in *. destruct (Hok ch Hch) as [buffer Hb].
    rewrite map_lookup_imap, Hb. cbn. rewrite decide_True by done. unfold try_send. cbn.
    case_match; by eexists.
  - intros (ch & Hch & Hc). destruct (Hok ch Hch) as [buffer Hb]. by rewrite Hb in Hc.
Qed.

(** What others do leaves the hub in order. *)
Definition orderly (others : gap -> stores -> stores) : Prop :=
  forall g s, hub_ok s.1.2 -> hub_ok (others g s).1.2.

Lemma nobody_orderly : orderly nobody.
Proof. by intros g s. Qed.

Lemma PublishingStore_Append_ok {J : GoJson} env io now others msg s :
  orderly others -> hub_ok s.1.2 ->
  exists s' err, PublishingStore_Append env io now others msg s = Some (s', err) /\ hub_ok s'.1.2
    /\ err = (Append env io now msg s.1.1).2
    /\ (is_Some err -> s' = ((Append env io now msg s.1.1).1, s.1.2, s.2)).
Proof.
  intros Hothers Hok. destruct s as [[st h] w]. unfold PublishingStore_Append. cbn [fst snd] in *.
  destruct (Append env io now msg st) as [st' [err|]]; [by eexists _, _|]. unfold multiPublisher_Publish.
  pose proof (Hothers after_append (st', h, w) Hok) as H1. destruct (others after_append _) as [[st1 h1] w1].
  destruct (Publish_ok msg h1 H1) as (h2 & -> & H2).
  pose proof (Hothers after_hub (st1, h2, w1) H2) as H3. destruct (others after_hub _) as [[st3 h3] w3].
  eexists _, _. split; [done|]. split; [exact H3|]. split; [done|]. by intros [? ?].
Qed.

Section Live.
Context {J : GoJson}.

(** The stores, and the callers of [PublishingStore_Append] that are in it: where
    each is, and with which message. *)
Record live : Type := mkLive { lv_stores : stores; lv_callers : gmap nat (gap * Message) }.

Definition lv_hub (l : live) : Hub := (lv_stores l).1.2.

Inductive live_event : Type :=
| ev_append (caller : nat) (env : Env) (io : append_io) (now : Time) (msg : Message)
| ev_publish (caller : nat)
| ev_wake (caller : nat)
| ev_subscribe
| ev_unsubscribe (ch : nat)
| ev_receive (ch : nat).

(** What an event shows: messages the store accepted and messages given to the
    hub, with their callers, and messages received, with their channels. *)
Record seen : Type := mkSeen {
  sn_accepted : list (nat * Message);
  sn_published : list (nat * Message);
  sn_taken : list (nat * Message)
}.

Definition unseen : seen := mkSeen [] [] [].

Definition and_then (a b : seen) : seen :=
  mkSeen (sn_accepted a ++ sn_accepted b)%list (sn_published a ++ sn_published b)%list
    (sn_taken a ++ sn_taken b)%list.

(** One event; what cannot happen where the caller is changes nothing.  [None]: a
    panic. *)
Definition live_step (ev : live_event) (l : live) : option (seen * live) :=
  let '(st, h, w) := lv_stores l in
  let callers := lv_callers l in
  match ev with
  | ev_append c env io now msg =>
    match callers !! c, Append env io now msg st with
    | None, (st, None) => Some (mkSeen [(c, msg)] [] [], mkLive (st, h, w) (<[c := (after_append, msg)]> callers))
    | None, (st, Some _) => Some (unseen, mkLive (st, h, w) callers)
    | Some _, _ => Some (unseen, l)
    end
  | ev_publish c =>
    match callers !! c with
    | Some (after_append, msg) =>
      (fun h => (mkSeen [] [(c, msg)] [], mkLive (st, h, w) (<[c := (after_hub, msg)]> callers))) <$> Hub.Publish msg h
    | _ => Some (unseen, l)
    end
  | ev_wake c =>
    match callers !! c with
    | Some (after_hub, msg) => Some (unseen, mkLive (st, h, Worker.Publish msg w) (delete c callers))
    | _ => Some (unseen, l)
    end
  | ev_subscribe => Some (unseen, mkLive (st, (Subscribe h).2, w) callers)
  | ev_unsubscribe ch => (fun h => (unseen, mkLive (st, h, w) callers)) <$> unsubscribe ch h
  | ev_receive ch =>
    match receive ch h with
    | (got msg, h) => Some (mkSeen [] [] [(ch, msg)], mkLive (st, h, w) callers)
    | (_, h) => Some (unseen, mkLive (st, h, w) callers)
    end
  end.

Fixpoint live_run (evs : list live_event) (l : live) : option (seen * live) :=
  match evs with
  | [] => Some (unseen, l)
  | ev :: rest =>
    match live_step ev l with
    | None => None
    | Some (now, l) =>
      match live_run rest l with
      | None => None
      | Some (next, l) => Some (and_then now next, l)
      end
    end
  end.

(** The caller [c] stores [msg], gives it to the hub and wakes the worker, with what
    others do between these events, and is then where it was. *)
Definition in_three_events (c : nat) env io now (others : gap -> stores -> stores) msg (s s' : stores)
    (callers : gmap nat (gap * Message)) : Prop :=
  exists s1 s2 callers1 callers2,
    live_step (ev_append c env io now msg) (mkLive s callers) = Some (mkSeen [(c, msg)] [] [], mkLive s1 callers1)
    /\ live_step (ev_publish c) (mkLive (others after_append s1) callers1)
       = Some (mkSeen [] [(c, msg)] [], mkLive s2 callers2)
    /\ live_step (ev_wake c) (mkLive (others after_hub s2) callers2) = Some (unseen, mkLive s' callers).

(** A call of [PublishingStore_Append] that succeeds is that. *)
Lemma append_as_events c env io now others msg s s' callers :
  callers !! c = None -> PublishingStore_Append env io now others msg s = Some (s', None) ->
  in_three_events c env io now others msg s s' callers.
Proof.
  intros Hc. destruct s as [[st h] w]. unfold PublishingStore_Append.
  destruct (Append env io now msg st) as [st1 [err|]] eqn:Ha; [done|]. unfold multiPublisher_Publish.
  destruct (others after_append (st1, h, w)) as [[st2 h2] w2] eqn:E1.
  destruct (Hub.Publish msg h2) as [h3|] eqn:Hp; [|done].
  destruct (others after_hub (st2, h3, w2)) as [[st4 h4] w4] eqn:E2. intros [= <-].
  exists (st1, h, w), (st2, h3, w2), (<[c := (after_append, msg)]> callers), (<[c := (after_hub, msg)]> callers).
  unfold live_step. split; [|split].
  - cbn. by rewrite Hc, Ha.
  - rewrite E1. cbn. by rewrite lookup_insert_eq, Hp, insert_insert_eq.
  - rewrite E2. cbn. by rewrite lookup_insert_eq, delete_insert_id.
Qed.

Definition from (n : nat) (ms : list (nat * Message)) : list Message :=
  map snd (List.filter (fun x => Nat.eqb x.1 n) ms).

(** What a caller has stored and not yet published. *)
Definition unpublished (c : nat) (l : live) : list Message :=
  match lv_callers l !! c with Some (after_append, msg) => [msg] | _ => [] end.

Definition room (ch : nat) (l : live) : Prop :=
  forall c, hub_channels (lv_hub l) !! ch = Some c -> length (ch_buffer c) < subscriberBuffer.

(** The subscriber never lets its buffer fill up. *)
Fixpoint has_room (ch : nat) (evs : list live_event) (l : live) : Prop :=
  match evs with
  | [] => True
  | ev :: rest =>
    room ch l /\ match live_step ev l with Some (_, l') => has_room ch rest l' | None => True end
  end.

Lemma from_app n a b : from n (a ++ b) = (from n a ++ from n b)%list.
Proof. unfold from. by rewrite List.filter_app, map_app. Qed.

(** ** What a caller stores it publishes, in the same order *)

Lemma step_callers c ev l out l' :
  live_step ev l = Some (out, l') ->
  (from c (sn_published out) ++ unpublished c l' = unpublished c l ++ from c (sn_accepted out))%list.
Proof.
  destruct l as [[[st h] w] callers]. unfold live_step, unpublished. cbn [lv_stores lv_callers].
  assert (Hskip : forall l1, lv_callers l1 = callers ->
    ([] ++ match lv_callers l1 !! c with Some (after_append, msg) => [msg] | _ => [] end
     = match callers !! c with Some (after_append, msg) => [msg] | _ => [] end ++ [])%list)
    by (intros l1 ->; by rewrite app_nil_r).
  destruct ev as [c' env io now msg|c'|c'| |ch|ch].
  - destruct (callers !! c') eqn:Hc'; [intros [= <- <-]; by apply Hskip|].
    destruct (Append env io now msg st) as [st1 [err|]]; intros [= <- <-]; [by apply Hskip|].
    unfold from. cbn. destruct (Nat.eqb_spec c' c) as [->|Hne].
    + by rewrite lookup_insert_eq, Hc'.
    + rewrite lookup_insert_ne by done. by rewrite app_nil_r.
  - destruct (callers !! c') as [[[] msg]|] eqn:Hc'; try (intros [= <- <-]; by apply Hskip).
    destruct (Hub.Publish msg h) as [h1|]; [|done]. intros [= <- <-]. unfold from. cbn.
    destruct (Nat.eqb_spec c' c) as [->|Hne].
    + by rewrite lookup_insert_eq, Hc'.
    + rewrite lookup_insert_ne by done. by rewrite app_nil_r.
  - destruct (callers !! c') as [[[] msg]|] eqn:Hc'; intros [= <- <-]; try by apply Hskip. unfold from. cbn.
    rewrite app_nil_r. destruct (decide (c' = c)) as [->|Hne].
    + by rewrite lookup_delete_eq, Hc'.
    + by rewrite lookup_delete_ne.
  - intros [= <- <-]. by apply Hskip.
  - destruct (unsubscribe ch h); [|done]. intros [= <- <-]. by apply Hskip.
  - destruct (receive ch h) as [[msg| |] h1]; intros [= <- <-]; by apply Hskip.
Qed.

Lemma run_callers c evs l out l' :
  live_run evs l = Some (out, l') ->
  (from c (sn_published out) ++ unpublished c l' = unpublished c l ++ from c (sn_accepted out))%list.
Proof.
  revert l out. induction evs as [|ev evs IH]; intros l out; cbn [live_run]; [intros [= <- <-]; by rewrite app_nil_r|].
  destruct (live_step ev l) as [[o1 l1]|] eqn:Hstep; [|done].
  destruct (live_run evs l1) as [[o2 l2]|] eqn:Hrun; [|done]. intros [= <- <-]. cbn [and_then sn_published sn_accepted].
  rewrite !from_app, <- !app_assoc, (IH _ _ Hrun), !app_assoc. by rewrite (step_callers c _ _ _ _ Hstep).
Qed.

(** ** What is published a subscription is given, in the same order *)

(** The open subscription [ch] holds [buffer]. *)
Definition open_with (ch : nat) (buffer : list Message) (h : Hub) : Prop :=
  hub_channels h !! ch = Some (mkChannel buffer false) /\ ch ∈ hub_subscribers h /\ length buffer <= subscriberBuffer.

Lemma Publish_open ch buffer msg h h' :
  open_with ch buffer h -> Publish msg h = Some h' ->
  if length buffer <? subscriberBuffer then open_with ch (buffer ++ [msg])%list h' else open_with ch buffer h'.
Proof.
  intros (Hc & Hs & Hlen). unfold Publish. destruct (decide _); [done|]. intros [= <-].
  unfold open_with. cbn [hub_channels hub_subscribers]. rewrite map_lookup_imap, Hc. cbn [option_bind mbind].
  rewrite decide_True by done. unfold try_send. cbn [ch_buffer ch_closed].
  destruct (Nat.ltb_spec (length buffer) subscriberBuffer); [|done].
  split; [done|]. split; [done|]. rewrite length_app. cbn. lia.
Qed.

(** What one event adds to a subscription. *)
Definition given (ch : nat) (buffer : list Message) (out : seen) (buffer' : list Message) : Prop :=
  (exists kept, sublist kept (map snd (sn_published out)) /\ buffer ++ kept = from ch (sn_taken out) ++ buffer')%list
  /\ ((sn_published out = [] \/ length buffer < subscriberBuffer) ->
      buffer ++ map snd (sn_published out) = from ch (sn_taken out) ++ buffer')%list.

Lemma given_nothing ch buffer accepted : given ch buffer (mkSeen accepted [] []) buffer.
Proof. split; [exists []; split; [done|]|]; by rewrite app_nil_r. Qed.

Lemma receive_open ch ch' buffer h :
  open_with ch buffer h ->
  match receive ch' h with
  | (got msg, h') => exists buffer', open_with ch buffer' h' /\ given ch buffer (mkSeen [] [] [(ch', msg)]) buffer'
  | (_, h') => h' = h
  end.
Proof.
  intros (Hc & Hs & Hlen). unfold receive. destruct (hub_channels h !! ch') as [[[|msg rest] closed]|] eqn:Hc'; [by destruct closed| |done].
  unfold given, from. cbn. destruct (Nat.eqb_spec ch' ch) as [->|Hn].
  - rewrite Hc' in Hc. injection Hc as <- ->. exists rest. cbn in Hlen. split.
    + split; [cbn; by rewrite lookup_insert_eq|split; [done|lia]].
    + split; [exists []; split; [done|]|]; by rewrite app_nil_r.
  - exists buffer. split; [split; [cbn; by rewrite lookup_insert_ne|done]|].
    split; [exists []; split; [done|]|]; by rewrite app_nil_r.
Qed.

Lemma step_open ch buffer ev l out l' :
  open_with ch buffer (lv_hub l) -> ev <> ev_unsubscribe ch -> live_step ev l = Some (out, l') ->
  exists buffer', open_with ch buffer' (lv_hub l') /\ given ch buffer out buffer'.
Proof.
  destruct l as [[[st h] w] callers]. unfold live_step, lv_hub. cbn [lv_stores lv_callers fst snd]. intros Hopen Hne.
  destruct ev as [c env io now msg|c|c| |ch'|ch'].
  - destruct (callers !! c); [|destruct (Append env io now msg st) as [st1 [err|]]]; intros [= <- <-];
      exists buffer; (split; [done|apply given_nothing]).
  - destruct (callers !! c) as [[[] msg]|]; try (intros [= <- <-]; exists buffer; split; [done|apply given_nothing]).
    destruct (Hub.Publish msg h) as [h'|] eqn:Hp; [|done]. intros [= <- <-]. cbn [lv_stores fst snd].
    pose proof (Publish_open ch buffer msg h h' Hopen Hp) as H. unfold given. cbn.
    destruct (Nat.ltb_spec (length buffer) subscriberBuffer).
    + exists (buffer ++ [msg])%list. split; [done|]. split; [by exists [msg]|done].
    + exists buffer. split; [done|]. split; [|intros [?|?]; [done|lia]]. exists []. split; [apply sublist_nil_l|].
      by rewrite app_nil_r.
  - destruct (callers !! c) as [[[] msg]|]; intros [= <- <-]; exists buffer; (split; [done|apply given_nothing]).
  - intros [= <- <-]. exists buffer. split; [|apply given_nothing].
    destruct Hopen as (Hc & Hs & Hlen). split; [|split; [set_solver|done]]. cbn.
    rewrite lookup_insert_ne; [done|]. intros Heq.
    apply (is_fresh (dom (hub_channels h))). rewrite Heq. by apply elem_of_dom_2 in Hc.
  - assert (ch' <> ch) by congruence. unfold unsubscribe. destruct (hub_channels h !! ch') as [c|]; [|done].
    destruct (ch_closed c); [done|]. intros [= <- <-]. exists buffer. split; [|apply given_nothing].
    destruct Hopen as (Hc & Hs & Hlen). split; [cbn; by rewrite lookup_insert_ne|]. split; [set_solver|done].
  - pose proof (receive_open ch ch' buffer h Hopen) as H.
    destruct (receive ch' h) as [[msg| |] h1]; intros [= <- <-]; cbn [lv_stores fst snd]; [done|subst h1..];
      exists buffer; (split; [done|apply given_nothing]).
Qed.

Lemma run_open ch buffer evs l out l' :
  open_with ch buffer (lv_hub l) -> ev_unsubscribe ch ∉ evs -> live_run evs l = Some (out, l') ->
  exists buffer', open_with ch buffer' (lv_hub l')
    /\ (exists kept, sublist kept (map snd (sn_published out)) /\ buffer ++ kept = from ch (sn_taken out) ++ buffer')%list
    /\ (has_room ch evs l -> buffer ++ map snd (sn_published out) = from ch (sn_taken out) ++ buffer')%list.
Proof.
  revert buffer l out. induction evs as [|ev evs IH]; intros buffer l out Hopen Hno; cbn [live_run has_room].
  { intros [= <- <-]. exists buffer. split; [done|]. cbn. split; [exists []|]; by rewrite ?app_nil_r. }
  apply not_elem_of_cons in Hno as [Hne Hno].
  destruct (live_step ev l) as [[o1 l1]|] eqn:Hstep; [|done].
  destruct (live_run evs l1) as [[o2 l2]|] eqn:Hrun; [|done]. intros [= <- <-]. cbn [and_then sn_published sn_taken].
  destruct (step_open ch buffer ev l o1 l1 Hopen (not_eq_sym Hne) Hstep) as (b1 & Hopen1 & (k1 & Hsub1 & Heq1) & Hall1).
  destruct (IH b1 l1 o2 Hopen1 Hno Hrun) as (b2 & Hopen2 & (k2 & Hsub2 & Heq2) & Hall2).
  exists b2. split; [done|]. rewrite from_app, map_app. split.
  - exists (k1 ++ k2)%list. split; [by apply sublist_app|]. by rewrite app_assoc, Heq1, <- !app_assoc, Heq2.
  - intros [Hroom Hrest]. rewrite app_assoc, Hall1, <- !app_assoc, Hall2; [done..|].
    right. by apply (Hroom (mkChannel buffer false)), Hopen.
Qed.

(** C14: from the moment it subscribes, and until it unsubscribes, a live
    subscription is given published messages only, each at most once and in the
    order they are published, whatever other streams and callers do; none is
    missing as long as the subscriber never lets its 64 places fill up, and only
    then may one be.  What is published are the messages the store accepted: those
    of one caller, the listener or an import, all of them in the order the store
    accepted them, but for one it may be about to publish; those of two callers may
    be published in another order than they were stored: a call of
    [PublishingStore.Append] that succeeds is three events, the append, the
    publication and the wake of the worker, and others may come between them. *)
Theorem live_in_order (evs : list live_event) (st : FileStore) (h : Hub) (w : Worker)
    (callers : gmap nat (gap * Message)) (out : seen) (l' : live) :
  let '(ch, h1) := Subscribe h in
  let l := mkLive (st, h1, w) callers in
  ev_unsubscribe ch ∉ evs ->
  live_run evs l = Some (out, l') ->
  (exists waiting, hub_channels (lv_hub l') !! ch = Some (mkChannel waiting false) /\ length waiting <= subscriberBuffer
    /\ sublist (from ch (sn_taken out) ++ waiting) (map snd (sn_published out))
    /\ (has_room ch evs l -> from ch (sn_taken out) ++ waiting = map snd (sn_published out))%list)
  /\ (forall c, (from c (sn_published out) ++ unpublished c l' = unpublished c l ++ from c (sn_accepted out))%list)
  /\ (forall c env io now others msg s s' callers, callers !! c = None ->
        PublishingStore_Append env io now others msg s = Some (s', None) ->
        in_three_events c env io now others msg s s' callers).
Proof.
  unfold Subscribe. cbn beta iota zeta. set (ch := fresh (dom (hub_channels h))). set (h1 := mkHub _ _). intros Hno Hrun.
  split; [|split; [intros c; by eapply run_callers|intros; by apply append_as_events]].
  assert (Hopen : open_with ch [] h1).
  { split; [apply lookup_insert_eq|]. split; [set_solver|cbn; unfold subscriberBuffer; lia]. }
  destruct (run_open ch [] evs (mkLive (st, h1, w) callers) out l' Hopen Hno Hrun) as (waiting & (Hc & _ & Hlen) & (kept & Hsub & Heq) & Hall).
  cbn [app] in *. subst kept. exists waiting. split; [done|]. split; [done|]. split; [exact Hsub|].
  intros Hroom. by rewrite (Hall Hroom).
Qed.
End Live.

(** The listener (caller 0) stores "m1" and an import (caller 1) "m3" before either
    publishes; the import publishes first.  One append fails, and a second stream
    comes and goes. *)
Definition live_events : list live_event :=
  [ev_append 0 calm (io_written 0) 0 (stored_at 10 "m1" "router-a" "link up"); ev_subscribe; ev_receive 0;
   ev_append 1 calm io_open_failed 0 (stored_at 20 "m2" "router-a" "link down");
   ev_append 1 calm (io_written 0) 0 (stored_at 30 "m3" "router-b" "link up");
   ev_publish 1; ev_receive 0; ev_publish 0; ev_wake 0; ev_wake 1; ev_unsubscribe 1].

Definition live_start : live := mkLive (NewFileStore, (Subscribe NewHub).2, NewWorker empty_Snapshot) ∅.
Definition live_result : seen * live := default (unseen, live_start) (live_run live_events live_start).

Definition ids (ms : list (nat * Message)) : list (nat * string) := map (fun x => (x.1, msg_ID x.2)) ms.

Example live_sees :
  ids (sn_accepted live_result.1) = [(0, "m1"%string); (1, "m3"%string)]
  /\ ids (sn_published live_result.1) = [(1, "m3"%string); (0, "m1"%string)]
  /\ ids (sn_taken live_result.1) = [(0, "m3"%string)]
  /\ wk_wake (lv_stores live_result.2).2 = true.
Proof. vm_compute. by split_and!. Qed.

Lemma live_in_order_witness :
  exists waiting, hub_channels (lv_hub live_result.2) !! 0 = Some (mkChannel waiting false)
    /\ length waiting <= subscriberBuffer
    /\ sublist (from 0 (sn_taken live_result.1) ++ waiting) (map snd (sn_published live_result.1))
    /\ (has_room 0 live_events live_start ->
        from 0 (sn_taken live_result.1) ++ waiting = map snd (sn_published live_result.1))%list.
Proof.
  assert (Hno : ev_unsubscribe 0 ∉ live_events).
  { intros Hin. repeat (apply elem_of_cons in Hin as [Hin|Hin]; [discriminate|]). by apply not_elem_of_nil in Hin. }
  exact (proj1 (live_in_order live_events NewFileStore NewHub (NewWorker empty_Snapshot) ∅ live_result.1 live_result.2
                  Hno eq_refl)).
Defined.
