(* ===== verification/Syslog.v ===== *)
(** The syslog side ([internal/syslog/listener.go], [sender.go]): what a parsed
    syslog packet becomes and that it is stored and published, and the packets of
    test events.  The parsers, the sockets and the process's surroundings (clock,
    host name, process id) are outside. *)
From Stdlib Require Import Ascii ZArith.
From S2P Require Import Prelude.
From S2P Require Import GoStd.
From S2P Require Import GoLib.
From S2P Require Import GoStrings.
From S2P Require Import GoTime.
From S2P Require Import Model.
From S2P Require Import Notify.
From S2P Require Import Storage.
From S2P Require Import Worker.
From S2P Require Import Hub.
Local Open Scope string_scope.

(** ** Parts *)

(** A value of [format.LogParts], by its dynamic type.  [part_int] is any integer
    type, [part_float] a float by its shortest text, [part_stringer] any other
    type with a [String] method by what that gives, [part_other] any type left, by
    what [fmt.Sprint] prints and whether [encoding/json] can encode it. *)
Inductive part : Type :=
| part_nil
| part_string (s : string)
| part_bytes (s : string)
| part_bool (b : bool)
| part_int (z : Z)
| part_float (text : string)
| part_time (t : Time)
| part_map (fields : list (string * part))
| part_string_map (fields : list (string * string))
| part_nested_map (fields : list (string * list (string * string)))
| part_strings (items : list string)
| part_stringer (text : string)
| part_other (encodes : bool) (text : string).

(** A map, its keys in no particular order. *)
Definition LogParts : Type := list (string * part).

Definition part_of (parts : LogParts) (key : string) : option part :=
  snd <$> List.find (fun kv => String.eqb kv.1 key) parts.

(** The conversion of a float to an [int]. *)
Class GoFloat := { int_of_float : string -> Z }.

Definition any_strings (fields : list (string * string)) : list (string * any) :=
  map (fun kv => (kv.1, any_string kv.2)) fields.

Fixpoint jsonSafeValue (value : part) : any :=
  match value with
  | part_nil => any_nil
  | part_string s | part_bytes s => any_string s
  | part_bool b => any_bool b
  | part_int z => any_int z
  | part_float text => any_float text
  | part_time t => any_time t
  | part_map fields => any_map (map (fun kv => (kv.1, jsonSafeValue kv.2)) fields)
  | part_string_map fields => any_map (any_strings fields)
  | part_nested_map fields => any_map (map (fun kv => (kv.1, any_map (any_strings kv.2))) fields)
  | part_strings items => any_slice (map any_string items)
  | part_stringer text => any_string text
  | part_other encodes text => if encodes then any_other text else any_string text
  end.

Section Parts.
Context {GS : GoSort} {GF : GoFloat}.

(** [fmt.Sprint]. *)
Fixpoint Sprint_part (value : part) : string :=
  match value with
  | part_nil => "<nil>"
  | part_string s => s
  | part_bytes s => "[" +:+ Join (map (fun c => Itoa (byte_of c)) (String.list_ascii_of_string s)) " " +:+ "]"
  | part_bool b => if b then "true" else "false"
  | part_int z => Itoa z
  | part_time t => Time_String t
  | part_map fields => sprint_map (map (fun kv => (kv.1, Sprint_part kv.2)) fields)
  | part_string_map fields => sprint_map fields
  | part_nested_map fields => sprint_map (map (fun kv => (kv.1, sprint_map kv.2)) fields)
  | part_strings items => "[" +:+ Join items " " +:+ "]"
  | part_float text | part_stringer text | part_other _ text => text
  end.

Definition stringify (value : part) : string :=
  match value with
  | part_nil => ""
  | part_string s | part_bytes s => s
  | _ => Sprint_part value
  end.

Fixpoint firstString (parts : LogParts) (keys : list string) : string :=
  match keys with
  | [] => ""
  | key :: rest =>
    match part_of parts key with
    | Some value => stringify value
    | None => firstString parts rest
    end
  end.

(** An integer of another width is converted to a 64-bit [int]. *)
Definition getInt (parts : LogParts) (key : string) : option Z :=
  match part_of parts key with
  | Some (part_int z) => Some (int_wrap z)
  | Some (part_float text) => Some (int_of_float text)
  | Some (part_string s) => Atoi (TrimSpace s)
  | _ => None
  end.

Definition getTime (parts : LogParts) (key : string) : option Time :=
  match part_of parts key with
  | Some (part_time t) => Some t
  | Some (part_string s) => ParseRFC3339 s
  | _ => None
  end.

Definition getMap (parts : LogParts) (key : string) : option (list (string * any)) :=
  match part_of parts key with
  | Some value => match jsonSafeValue value with any_map fields => Some fields | _ => None end
  | None => None
  end.

(** [id] is what [newID] gives, [now] the clock. *)
Definition messageFromParts (parts : LogParts) (transport id : string) (now : Time) : Message :=
  {| msg_ID := id; msg_ReceivedAt := now; msg_Timestamp := getTime parts "timestamp";
     msg_Transport := transport; msg_Source := firstString parts ["client"; "source"];
     msg_Priority := getInt parts "priority"; msg_Facility := getInt parts "facility";
     msg_Severity := getInt parts "severity"; msg_Hostname := firstString parts ["hostname"; "host"];
     msg_AppName := firstString parts ["app_name"; "appname"]; msg_ProcID := firstString parts ["proc_id"; "procid"];
     msg_MsgID := firstString parts ["msg_id"; "msgid"]; msg_Tag := firstString parts ["tag"];
     msg_Message := firstString parts ["message"; "content"; "msg"];
     msg_StructuredData := getMap parts "structured_data";
     msg_Raw := Some (map (fun kv => (kv.1, jsonSafeValue kv.2)) parts) |}.
End Parts.

(** ** The listener *)

Record ListenerConfig : Type := mkListenerConfig { lc_UDPAddr : string; lc_TCPAddr : string; lc_Format : string }.

Inductive syslog_format : Type := RFC3164 | RFC6587 | RFC5424 | Automatic.

Record Listener : Type := mkListener { ln_cfg : ListenerConfig; ln_transport : string }.

Definition transportName (cfg : ListenerConfig) : string :=
  let udp := negb (String.eqb (lc_UDPAddr cfg) "") in
  let tcp := negb (String.eqb (lc_TCPAddr cfg) "") in
  if udp && tcp then "udp/tcp" else if udp then "udp" else if tcp then "tcp" else "".

Definition NewListener (cfg : ListenerConfig) : Listener + string :=
  if String.eqb (lc_UDPAddr cfg) "" && String.eqb (lc_TCPAddr cfg) ""
  then inr "at least one syslog listen address is required"
  else inl (mkListener cfg (transportName cfg)).

Section Listen.
Context {GS : GoSort} {GF : GoFloat} {GT : GoText} {J : GoJson}.

Definition setFormat (format : string) : syslog_format :=
  let format := ToLower (TrimSpace format) in
  if String.eqb format "rfc3164" then RFC3164
  else if String.eqb format "rfc6587" then RFC6587
  else if String.eqb format "rfc5424" then RFC5424
  else Automatic.

(** A turn of [consume] that takes a packet from the channel; an error is logged
    only.  [received] and [appended] are the two readings of the clock; [None]: a
    panic. *)
Definition consume_parts (l : Listener) (parts : LogParts) (id : string) (received appended : Time) (env : Env)
    (io : append_io) (others : gap -> stores -> stores) (s : stores) : option stores :=
  let msg := messageFromParts parts (ln_transport l) id received in
  match PublishingStore_Append env io appended others msg s with
  | Some (s, _) => Some s
  | None => None
  end.
End Listen.

(** ** Test events *)

Definition DefaultTestMessage : string := "logthing test event".
Definition defaultFacility : Z := 1.
Definition defaultSeverity : Z := 5.

Record Event : Type := mkEvent {
  se_Timestamp : Time;
  se_Hostname : string;
  se_AppName : string;
  se_ProcID : string;
  se_MsgID : string;
  se_Facility : Z;
  se_Severity : Z;
  se_Message : string
}.

(** The clock, the host name ([None]: unknown) and the process id. *)
Record Process : Type := mkProcess { pr_now : Time; pr_hostname : option string; pr_pid : Z }.

Definition localHostname (pr : Process) : string :=
  match pr_hostname pr with
  | Some hostname => if String.eqb (TrimSpace hostname) "" then "logthing" else hostname
  | None => "logthing"
  end.

Definition token (value : string) : string :=
  let value := TrimSpace value in
  if String.eqb value "" then "-" else ReplaceAll value " " "_".

Definition or_else (value fallback : string) : string := if String.eqb value "" then fallback else value.

(** The fields that are missing filled in. *)
Definition completed (pr : Process) (event : Event) : Event :=
  mkEvent (if IsZero (se_Timestamp event) then pr_now pr else se_Timestamp event)
    (or_else (se_Hostname event) (localHostname pr)) (or_else (se_AppName event) "logthing")
    (or_else (se_ProcID event) (Itoa (pr_pid pr))) (or_else (se_MsgID event) "test")
    (if (se_Facility event <? 0)%Z then defaultFacility else se_Facility event)
    (if (se_Severity event <? 0)%Z then defaultSeverity else se_Severity event)
    (or_else (se_Message event) DefaultTestMessage).

Definition priority_of (event : Event) : Z := int_wrap (se_Facility event * 8 + se_Severity event).

Definition FormatRFC5424 (pr : Process) (event : Event) : string :=
  let event := completed pr event in
  "<" +:+ Itoa (priority_of event) +:+ ">1 " +:+ FormatRFC3339 (se_Timestamp event)
    +:+ " " +:+ token (se_Hostname event) +:+ " " +:+ token (se_AppName event) +:+ " " +:+ token (se_ProcID event)
    +:+ " " +:+ token (se_MsgID event) +:+ " - " +:+ se_Message event +:+ newline.

Definition NewTestEvent (pr : Process) (message : string) : Event :=
  mkEvent (pr_now pr) (localHostname pr) "logthing" (Itoa (pr_pid pr)) "test" defaultFacility defaultSeverity message.

(** ** The sender *)

Record Sender : Type := mkSender { sn_network : string; sn_address : string; sn_timeout : Duration }.

Record SendResult : Type := mkSendResult { sd_Network : string; sd_Address : string; sd_Payload : string }.

Definition NewSender {GT : GoText} (network address : string) (timeout : Duration) : Sender + string :=
  let network := ToLower (TrimSpace network) in
  let network := if String.eqb network "" then "udp" else network in
  if negb (String.eqb network "udp") && negb (String.eqb network "tcp")
  then inr ("unsupported syslog network " +:+ quote +:+ network +:+ quote)
  else
    let address := TrimSpace address in
    if String.eqb address "" then inr "syslog destination address is required"
    else inl (mkSender network address (if (timeout <=? 0)%Z then (5 * Second)%Z else timeout)).

(** What becomes of the connection. *)
Inductive delivery : Type :=
| connect_failed (what : string)
| deadline_failed (what : string)
| write_failed (what : string)
| delivered.

(** The bytes written are the payload's. *)
Definition Sender_Send (s : Sender) (pr : Process) (outcome : delivery) (event : Event) : SendResult + string :=
  let payload := FormatRFC5424 pr event in
  match outcome with
  | connect_failed what => inr ("connect to syslog destination: " +:+ what)
  | deadline_failed what => inr ("set connection deadline: " +:+ what)
  | write_failed what => inr ("write syslog message: " +:+ what)
  | delivered =>
    inl (mkSendResult (sn_network s) (sn_address s)
           (srev (trim_left_set (Ascii.eqb (ascii_of_nat 10)) (srev payload))))
  end.

(** [net.JoinHostPort]. *)
Definition JoinHostPort (host port : string) : string :=
  if bool_decide (is_Some (IndexByte host ":")) || bool_decide (is_Some (IndexByte host "%"))
  then "[" +:+ host +:+ "]:" +:+ port
  else host +:+ ":" +:+ port.

Definition loopbackTarget (listenAddr : string) : string :=
  let listenAddr := TrimSpace listenAddr in
  if String.eqb listenAddr "" then ""
  else match SplitHostPort listenAddr with
  | None => listenAddr
  | Some (host, port) =>
    let host :=
      if String.eqb host "" || String.eqb host "0.0.0.0" || String.eqb host "::" || String.eqb host "[::]"
      then "127.0.0.1" else host in
    JoinHostPort host port
  end.

Definition DefaultTestEventDestination (udpAddr tcpAddr : string) : string * string :=
  let target := loopbackTarget udpAddr in
  if negb (String.eqb target "") then ("udp", target)
  else
    let target := loopbackTarget tcpAddr in
    if negb (String.eqb target "") then ("tcp", target) else ("udp", "").

Example destinations :
  map (fun a => DefaultTestEventDestination a.1 a.2)
    [(":5514", ":5514"); (" [::]:514 ", ""); ("", "[fe80::1]:514"); ("", ""); ("somewhere", "")]
  = [("udp", "127.0.0.1:5514"); ("udp", "127.0.0.1:514"); ("tcp", "[fe80::1]:514"); ("udp", ""); ("udp", "somewhere")].
Proof. vm_compute. reflexivity. Qed.
