(* ===== verification/SyslogProps.v ===== *)
(** Test events can be read back from their packets, and every packet received is
    stored or its loss is the store's. *)
From Stdlib Require Import Ascii ZArith Lia.
From S2P Require Import Prelude.
From S2P Require Import GoStd.
From S2P Require Import GoLib.
From S2P Require Import GoStrings.
From S2P Require Import GoTime.
From S2P Require Import GoInstances.
From S2P Require Import Model.
From S2P Require Import Storage.
From S2P Require Import Worker.
From S2P Require Import Hub.
From S2P Require Import HubProps.
From S2P Require Import Syslog.
Local Open Scope string_scope.

(** ** Reading a packet *)

(** What the header grammar of RFC 5424 makes of a packet without structured data. *)
Record Packet : Type := mkPacket {
  pk_facility : Z;
  pk_severity : Z;
  pk_timestamp : Time;
  pk_hostname : string;
  pk_appname : string;
  pk_procid : string;
  pk_msgid : string;
  pk_msg : string
}.

(** The text before a byte and what follows it. *)
Definition cut_at (c : ascii) (s : string) : option (string * string) :=
  match IndexByte s c with
  | Some i => Some (stake i s, sdrop (S i) s)
  | None => None
  end.

(** A field of the header: printable ASCII without a space, not empty, and no
    longer than the grammar allows. *)
Definition printable (c : ascii) : bool := ((33 <=? byte_of c) && (byte_of c <=? 126))%Z.
Definition header_field (max : nat) (s : string) : bool :=
  negb (String.eqb s "") && (String.length s <=? max)%nat && all_bytes printable s.

Definition read_field (max : nat) (s : string) : option (string * string) :=
  '(word, s) ← cut_at " " s;
  if header_field max word then Some (word, s) else None.

(** A priority of at most 191, in decimal without leading zeros. *)
Definition read_priority (s : string) : option Z :=
  n ← Atoi s;
  if ((0 <=? n) && (n <=? 191))%Z && String.eqb s (Itoa n) then Some n else None.

(** A time in UTC to the second. *)
Definition read_timestamp (s : string) : option Time :=
  t ← ParseRFC3339 s;
  if String.eqb s (FormatRFC3339 t) then Some t else None.

(** The first packet of a stream, which ends with the first line break, and what
    follows it. *)
Definition read_packet (stream : string) : option (Packet * string) :=
  '(line, rest) ← cut_at (ascii_of_nat 10) stream;
  if negb (HasPrefix line "<") then None else
  '(pri, s) ← cut_at ">" (sdrop 1 line);
  n ← read_priority pri;
  '(version, s) ← cut_at " " s;
  if negb (String.eqb version "1") then None else
  '(timestamp, s) ← cut_at " " s;
  t ← read_timestamp timestamp;
  '(hostname, s) ← read_field 255 s;
  '(appname, s) ← read_field 48 s;
  '(procid, s) ← read_field 128 s;
  '(msgid, s) ← read_field 32 s;
  '(data, s) ← cut_at " " s;
  if negb (String.eqb data "-") then None
  else Some (mkPacket (n / 8) (n mod 8) t hostname appname procid msgid s, rest).

(** ** Words *)

Lemma cut_at_word c a b : lacks c a = true -> cut_at c (a +:+ String c b) = Some (a, b).
Proof.
  intros Ha. unfold cut_at, IndexByte.
  assert (H : Index (a +:+ String c b) (String c "") = Some (String.length a)).
  { induction a as [|d a IH].
    - rewrite snil_app. cbn. destruct (ascii_dec c c); [|done]. by destruct b.
    - cbn in Ha. apply andb_true_iff in Ha as [Hd Ha]. rewrite scons_app. cbn [Index String.prefix].
      destruct (ascii_dec c d) as [->|]; [by rewrite Ascii.eqb_refl in Hd|]. by rewrite (IH Ha). }
  rewrite H. f_equal. f_equal; [apply stake_app|].
  rewrite <- (snil_app b) at 2. clear. induction a as [|d a IH]; [by rewrite !snil_app|]. rewrite scons_app. exact IH.
Qed.

Lemma lacks_occurs c s : ~ occurs (String c "") s -> lacks c s = true.
Proof.
  induction s as [|d s IH]; intros H; [done|]. cbn. apply andb_true_iff. split.
  - apply negb_true_iff, Ascii.eqb_neq. intros ->. apply H. exists "", s. by rewrite snil_app, scons_app, snil_app.
  - apply IH. intros (a & b & ->). apply H. exists (String d a), b. by rewrite scons_app.
Qed.

(** The spaces of a text as underscores. *)
Fixpoint underscored (s : string) : string :=
  match s with
  | EmptyString => EmptyString
  | String c s => String (if Ascii.eqb c " " then "_"%char else c) (underscored s)
  end.

Lemma replace_step fuel c s :
  replace_loop (S fuel) (String c s) " " "_"
  = if Ascii.eqb c " " then String "_" (replace_loop fuel s " " "_")
    else String c (replace_loop (S fuel) s " " "_").
Proof.
  cbn [replace_loop Index String.prefix]. destruct (Ascii.eqb_spec c " ") as [->|Hne].
  - destruct (ascii_dec " " " "); [|done].
    assert (String.prefix "" s = true) as -> by by destruct s. cbn [stake sdrop Nat.add String.length].
    by rewrite ?snil_app, ?scons_app, ?snil_app.
  - destruct (ascii_dec " " c) as [E|_]; [by destruct Hne|].
    destruct (Index s " ") as [i|]; cbn [fmap option_fmap option_map]; [|done].
    cbn [stake sdrop Nat.add String.length]. by rewrite scons_app.
Qed.

Lemma ReplaceAll_spaces s : ReplaceAll s " " "_" = underscored s.
Proof.
  unfold ReplaceAll. assert (H : forall fuel, (String.length s < fuel)%nat -> replace_loop fuel s " " "_" = underscored s).
  { induction s as [|c s IH]; intros [|fuel] Hf; cbn [String.length] in Hf; try lia; [done|].
    rewrite replace_step. cbn [underscored]. destruct (Ascii.eqb c " "); f_equal; apply IH; cbn; lia. }
  apply H. lia.
Qed.

(** A field of an event as one word. *)
Definition single_word (v : string) : string :=
  if String.eqb (TrimSpace v) "" then "-" else underscored (TrimSpace v).

Lemma token_word v : token v = single_word v.
Proof. unfold token, single_word. by rewrite ReplaceAll_spaces. Qed.

Lemma all_bytes_impl (P Q : ascii -> bool) s :
  (forall c, P c = true -> Q c = true) -> all_bytes P s = true -> all_bytes Q s = true.
Proof.
  intros H. induction s as [|c s IH]; cbn; [done|]. rewrite !andb_true_iff. intros [Hc Hs]. by split; [apply H|apply IH].
Qed.

Lemma numeric_lacks c s : numeric c = false -> all_bytes numeric s = true -> lacks c s = true.
Proof.
  intros Hc. apply all_bytes_impl. intros d Hd. apply negb_true_iff, Ascii.eqb_neq. intros ->. congruence.
Qed.

Lemma numeric_pad w z : all_bytes numeric (pad w z) = true.
Proof.
  unfold pad. rewrite all_bytes_app, numeric_Itoa, andb_true_r.
  generalize (w - String.length (Itoa z))%nat. intros n. by induction n.
Qed.

Lemma timestamp_lacks c t :
  numeric c = false -> lacks c "-" = true -> lacks c "T" = true -> lacks c ":" = true -> lacks c "Z" = true ->
  lacks c (FormatRFC3339 t) = true.
Proof.
  intros Hc H1 H2 H3 H4. unfold FormatRFC3339, date_text, clock_text. destruct (civil (day_of t)) as [[y m] d].
  unfold lacks in *. rewrite !all_bytes_app. fold (lacks c) in *.
  by rewrite !(numeric_lacks c (pad _ _) Hc (numeric_pad _ _)), H1, H2, H3, H4.
Qed.

Lemma read_timestamp_format t : four_digits t -> read_timestamp (FormatRFC3339 t) = Some (t / Second * Second)%Z.
Proof.
  intros H. unfold read_timestamp. rewrite parse_format by done. cbn [mbind option_bind].
  assert (E : FormatRFC3339 (t / Second * Second) = FormatRFC3339 t); [|by rewrite E, String.eqb_refl].
  unfold FormatRFC3339, date_text, clock_text, day_of, nanos_of_day.
  assert ((t / Second * Second / (86400 * Second) = t / (86400 * Second))%Z) as -> by (unfold Second; clear; euclid).
  assert (((t / Second * Second) mod (86400 * Second) / Second = t mod (86400 * Second) / Second)%Z) as ->
    by (unfold Second; clear; euclid).
  done.
Qed.

(** ** Fields *)

(** A text a field of [max] bytes can carry: printable ASCII and spaces. *)
Definition fits (max : nat) (v : string) : Prop :=
  (1 <= String.length v <= max)%nat /\ all_bytes (fun c => (32 <=? byte_of c) && (byte_of c <=? 126))%Z v = true.

Lemma trim_front_part s2 s3 P s :
  all_bytes P s = true ->
  all_bytes P (trim_front s2 s3 s) = true /\ (String.length (trim_front s2 s3 s) <= String.length s)%nat.
Proof.
  destruct (trim_front_spec s2 s3 s) as (_ & pre & E). revert E. generalize (trim_front s2 s3 s). intros u ->.
  rewrite all_bytes_app, andb_true_iff, slength_app. intros [_ H]. split; [done|lia].
Qed.

Lemma slength_srev s : String.length (srev s) = String.length s.
Proof.
  induction s as [|c s IH]; [done|]. change (String c s) with (String c "" +:+ s).
  rewrite srev_append, !slength_app, IH. cbn. lia.
Qed.

Lemma TrimSpace_part P s :
  all_bytes P s = true -> all_bytes P (TrimSpace s) = true /\ (String.length (TrimSpace s) <= String.length s)%nat.
Proof.
  intros H. unfold TrimSpace, TrimRightSpace, TrimLeftSpace.
  destruct (trim_front_part space2 space3 P s H) as [H1 L1]. rewrite <- all_bytes_srev in H1.
  destruct (trim_front_part (fun b a => space2 a b) (fun c b a => space3 a b c) P _ H1) as [H2 L2].
  rewrite all_bytes_srev. rewrite slength_srev in L2. rewrite slength_srev. split; [done|lia].
Qed.

Lemma underscored_printable s :
  all_bytes (fun c => (32 <=? byte_of c) && (byte_of c <=? 126))%Z s = true ->
  all_bytes printable (underscored s) = true /\ String.length (underscored s) = String.length s.
Proof.
  induction s as [|c s IH]; [done|]. cbn [all_bytes underscored String.length]. rewrite andb_true_iff. intros [Hc Hs].
  destruct (IH Hs) as [H1 ->]. split; [|done]. cbn [all_bytes]. rewrite H1, andb_true_r.
  destruct (Ascii.eqb_spec c " ") as [|Hne]; [done|]. unfold printable.
  assert (byte_of c <> 32%Z); [|lia]. intros E. apply Hne. unfold byte_of in E.
  rewrite <- (ascii_N_embedding c). assert (N_of_ascii c = 32%N) as -> by lia. done.
Qed.

Lemma fits_word max v : fits max v -> header_field max (single_word v) = true.
Proof.
  intros [Hlen Hb]. unfold header_field, single_word. destruct (String.eqb_spec (TrimSpace v) "") as [E|Hne].
  - destruct max; [lia|done].
  - destruct (TrimSpace_part _ v Hb) as [Ht Hl]. destruct (underscored_printable _ Ht) as [Hp Hu].
    rewrite Hp, andb_true_r, andb_true_iff, Nat.leb_le, Hu. split; [|lia].
    apply negb_true_iff, String.eqb_neq. intros E. apply Hne. rewrite E in Hu. by destruct (TrimSpace v).
Qed.

Lemma header_field_lacks max v c : printable c = false -> header_field max v = true -> lacks c v = true.
Proof.
  intros Hc [_ H]%andb_true_iff. revert H. apply all_bytes_impl. intros d Hd.
  apply negb_true_iff, Ascii.eqb_neq. intros ->. congruence.
Qed.

Lemma read_field_word max v s : header_field max v = true -> read_field max (v +:+ String " " s) = Some (v, s).
Proof.
  intros H. unfold read_field. rewrite cut_at_word by (by eapply header_field_lacks). cbn [mbind option_bind]. by rewrite H.
Qed.

(** The packet as words behind each other, and its end. *)
Definition packet_line (e : Event) : string :=
  String "<" (Itoa (priority_of e) +:+ String ">" ("1" +:+ String " " (FormatRFC3339 (se_Timestamp e)
    +:+ String " " (token (se_Hostname e) +:+ String " " (token (se_AppName e)
    +:+ String " " (token (se_ProcID e) +:+ String " " (token (se_MsgID e)
    +:+ String " " ("-" +:+ String " " (se_Message e))))))))).

Lemma packet_words pr event : FormatRFC5424 pr event = packet_line (completed pr event) +:+ newline.
Proof.
  unfold FormatRFC5424, packet_line. cbv zeta.
  repeat (rewrite ?scons_app; rewrite ?snil_app; rewrite ?sapp_assoc). done.
Qed.

(** What the header and the message of a packet can carry. *)
Record carried (e : Event) : Prop := {
  ca_facility : (0 <= se_Facility e <= 23)%Z;
  ca_severity : (0 <= se_Severity e <= 7)%Z;
  ca_time : four_digits (se_Timestamp e);
  ca_hostname : fits 255 (se_Hostname e);
  ca_appname : fits 48 (se_AppName e);
  ca_procid : fits 128 (se_ProcID e);
  ca_msgid : fits 32 (se_MsgID e);
  ca_message : lacks (ascii_of_nat 10) (se_Message e) = true
}.

(** The same, decided. *)
Definition fits_computed (max : nat) (v : string) : bool :=
  (1 <=? String.length v)%nat && (String.length v <=? max)%nat
  && all_bytes (fun c => (32 <=? byte_of c) && (byte_of c <=? 126))%Z v.

Lemma carried_computed e :
  ((0 <=? se_Facility e) && (se_Facility e <=? 23) && (0 <=? se_Severity e) && (se_Severity e <=? 7)
   && (0 <=? (civil (day_of (se_Timestamp e))).1.1) && ((civil (day_of (se_Timestamp e))).1.1 <? 10000))%Z
  && fits_computed 255 (se_Hostname e) && fits_computed 48 (se_AppName e) && fits_computed 128 (se_ProcID e)
  && fits_computed 32 (se_MsgID e) && lacks (ascii_of_nat 10) (se_Message e) = true ->
  carried e.
Proof.
  unfold fits_computed. rewrite !andb_true_iff, !Z.leb_le, !Z.ltb_lt, !Nat.leb_le. intros H.
  split; try done; unfold four_digits, fits; tauto.
Qed.

Lemma priority_small e : carried e -> priority_of e = (se_Facility e * 8 + se_Severity e)%Z.
Proof. intros [Hf Hs _ _ _ _ _ _]. unfold priority_of. apply int_wrap_small. unfold max_int. lia. Qed.

Lemma line_unbroken e : carried e -> lacks (ascii_of_nat 10) (packet_line e) = true.
Proof.
  intros [_ _ _ Hh Ha Hp Hm Hmsg]. unfold packet_line. rewrite !token_word.
  assert (Hw : forall max v, fits max v -> lacks (ascii_of_nat 10) (single_word v) = true)
    by (intros max v Hv; by eapply header_field_lacks, fits_word).
  pose proof (numeric_lacks (ascii_of_nat 10) _ eq_refl (numeric_Itoa (priority_of e))) as Hn.
  assert (Ht : lacks (ascii_of_nat 10) (FormatRFC3339 (se_Timestamp e)) = true) by by apply timestamp_lacks.
  apply Hw in Hh, Ha, Hp, Hm. unfold lacks in *. cbn [all_bytes].
  repeat (rewrite all_bytes_app; cbn [all_bytes]). by rewrite Hn, Ht, Hh, Ha, Hp, Hm, Hmsg.
Qed.

Lemma read_priority_Itoa n : (0 <= n <= 191)%Z -> read_priority (Itoa n) = Some n.
Proof.
  intros H. unfold read_priority. rewrite Atoi_Itoa by (unfold max_int; lia). cbn [mbind option_bind].
  rewrite String.eqb_refl, andb_true_r. by rewrite (proj2 (Z.leb_le 0 n)), (proj2 (Z.leb_le n 191)) by lia.
Qed.

Ltac read_word H := rewrite (read_field_word _ _ _ (fits_word _ _ H)); cbn [mbind option_bind].

Lemma packet_reads_back (pr : Process) (event : Event) (rest : string) :
  let e := completed pr event in
  carried e ->
  read_packet (FormatRFC5424 pr event +:+ rest)
  = Some (mkPacket (se_Facility e) (se_Severity e) (se_Timestamp e / Second * Second) (single_word (se_Hostname e))
            (single_word (se_AppName e)) (single_word (se_ProcID e)) (single_word (se_MsgID e)) (se_Message e), rest).
Proof.
  cbv zeta. rewrite packet_words. generalize (completed pr event). intros e He.
  pose proof (priority_small e He) as Hp. pose proof (line_unbroken e He) as Hl.
  destruct He as [Hf Hs Ht Hh Ha Hpr Hm _].
  unfold read_packet. rewrite sapp_assoc. change (newline +:+ rest) with (String (ascii_of_nat 10) rest).
  rewrite (cut_at_word _ _ _ Hl). cbn [mbind option_bind]. unfold packet_line. rewrite !token_word.
  assert (Hlt : forall s, HasPrefix (String "<" s) "<" = true) by by intros []. rewrite Hlt. cbn [negb sdrop].
  rewrite (cut_at_word ">" _ _ (numeric_lacks ">" _ eq_refl (numeric_Itoa _))). cbn [mbind option_bind].
  rewrite read_priority_Itoa by lia. cbn [mbind option_bind].
  rewrite (cut_at_word " " "1" _ eq_refl). cbn [mbind option_bind String.eqb Ascii.eqb Bool.eqb negb].
  rewrite cut_at_word by by apply timestamp_lacks. cbn [mbind option_bind].
  rewrite read_timestamp_format by done. cbn [mbind option_bind].
  read_word Hh. read_word Ha. read_word Hpr. read_word Hm.
  rewrite (cut_at_word " " "-" _ eq_refl). cbn [mbind option_bind String.eqb Ascii.eqb Bool.eqb negb].
  rewrite Hp. do 3 f_equal; [f_equal|f_equal]; clear - Hf Hs; euclid.
Qed.

(** ** Theorems *)


(** Nothing a packet holds stops the listener: it is stored and published, or the
    store refuses it and nobody is told. *)
Lemma consume_goes_on {GS : GoSort} {GF : GoFloat} {J : GoJson} (l : Listener) (parts : LogParts) (id : string)
    (received appended : Time) (env : Env) (io : append_io) (others : gap -> stores -> stores) (s : stores) :
  orderly others -> hub_ok s.1.2 ->
  let msg := messageFromParts parts (ln_transport l) id received in
  exists s', consume_parts l parts id received appended env io others s = Some s' /\ hub_ok s'.1.2
    /\ (is_Some (Append env io appended msg s.1.1).2 -> s' = ((Append env io appended msg s.1.1).1, s.1.2, s.2)).
Proof.
  intros Hothers Hok msg. unfold consume_parts. fold msg.
  destruct (PublishingStore_Append_ok env io appended others msg s Hothers Hok) as (s' & err & -> & Hok' & -> & Hs).
  by exists s'.
Qed.

(** ** Examples *)

Definition process : Process := mkProcess (Date 2026 9 18 12 0 0) (Some "my host") 4242.

Example test_packet :
  FormatRFC5424 process (NewTestEvent process "")
  = "<13>1 2026-09-18T12:00:00Z my_host logthing 4242 test - logthing test event" +:+ newline.
Proof. vm_compute. reflexivity. Qed.

(** A line break in the message ends the packet on a stream; what is behind it is
    read as a packet of its own. *)
Example message_forges_packet :
  ScanLines (FormatRFC5424 process (NewTestEvent process ("hello" +:+ newline +:+ "<11>1 - router-a kernel - - - link down")))
  = ["<13>1 2026-09-18T12:00:00Z my_host logthing 4242 test - hello"; "<11>1 - router-a kernel - - - link down"].
Proof. vm_compute. reflexivity. Qed.

