(* ===== verification/Listening.v ===== *)
(** The life of the syslog listener ([Start], [consume] and [Shutdown] of
    [internal/syslog/listener.go]): the packets between the server of the syslog
    package, which queues what it has parsed, and the store. *)
From Stdlib Require Import Ascii ZArith Lia.
From S2P Require Import Prelude.
From S2P Require Import GoStd.
From S2P Require Import GoLib.
From S2P Require Import GoInstances.
From S2P Require Import Model.
From S2P Require Import Storage.
From S2P Require Import EngineState.
From S2P Require Import Worker.
From S2P Require Import Hub.
From S2P Require Import HubProps.
From S2P Require Import Syslog.
From S2P Require Import SyslogProps.
Local Open Scope string_scope.

(** The room in the channel between the server and the consumer. *)
Definition channel_capacity : nat := 1024.

(** What becomes of opening the sockets and starting the server. *)
Record listen_io : Type := mkListenIo { li_udp : option string; li_tcp : option string; li_boot : option string }.

(** The channel, [None] before [Start]; [l.server]; whether [done] is closed,
    whether the goroutine of [consume] runs, how many calls of [Shutdown] wait
    for it and whether one has returned; the stores, which others use as well.
    [ls_received] and [ls_taken] record what went into the channel and what was
    taken out. *)
Record Listening : Type := mkListening {
  ls_channel : option (list LogParts);
  ls_server : bool;
  ls_done : bool;
  ls_consuming : bool;
  ls_waiting : nat;
  ls_down : bool;
  ls_stores : stores;
  ls_received : list LogParts;
  ls_taken : list LogParts
}.

Definition not_started (stores : stores) : Listening :=
  mkListening None false false false 0 false stores [] [].

Definition Start_error (cfg : ListenerConfig) (io : listen_io) : option string :=
  match (if String.eqb (lc_UDPAddr cfg) "" then None else li_udp io) with
  | Some what => Some ("listen syslog udp " +:+ lc_UDPAddr cfg +:+ ": " +:+ what)
  | None =>
    match (if String.eqb (lc_TCPAddr cfg) "" then None else li_tcp io) with
    | Some what => Some ("listen syslog tcp " +:+ lc_TCPAddr cfg +:+ ": " +:+ what)
    | None => match li_boot io with Some what => Some ("boot syslog listener: " +:+ what) | None => None end
    end
  end.

(** [Start], which is called once and before [Shutdown]. *)
Definition Start (l : Listener) (io : listen_io) (s : Listening) : Listening * option string :=
  match Start_error (ln_cfg l) io with
  | Some err =>
    (mkListening (Some []) (ls_server s) (ls_done s) (ls_consuming s) (ls_waiting s) (ls_down s) (ls_stores s)
       (ls_received s) (ls_taken s), Some err)
  | None =>
    (mkListening (Some []) true (ls_done s) true (ls_waiting s) (ls_down s) (ls_stores s)
       (ls_received s) (ls_taken s), None)
  end.

(** A call of [Shutdown] up to the point where it waits for the consumer. *)
Definition Shutdown (s : Listening) : Listening :=
  mkListening (ls_channel s) (ls_server s) true (ls_consuming s) (S (ls_waiting s)) (ls_down s) (ls_stores s)
    (ls_received s) (ls_taken s).

Section Listen.
Context {GS : GoSort} {GF : GoFloat} {J : GoJson} (l : Listener).

Inductive listening_step (s : Listening) : Listening -> Prop :=
| listen_start io :
    ls_channel s = None -> ls_done s = false -> listening_step s (Start l io s).1
| listen_received parts queue :
    ls_server s = true -> ls_channel s = Some queue -> length queue < channel_capacity ->
    listening_step s (mkListening (Some (queue ++ [parts])%list) (ls_server s) (ls_done s) (ls_consuming s)
                        (ls_waiting s) (ls_down s) (ls_stores s) (ls_received s ++ [parts])%list (ls_taken s))
| listen_consume parts queue id received appended env io others stores :
    ls_consuming s = true -> ls_channel s = Some (parts :: queue) -> orderly others ->
    consume_parts l parts id received appended env io others (ls_stores s) = Some stores ->
    listening_step s (mkListening (Some queue) (ls_server s) (ls_done s) (ls_consuming s)
                        (ls_waiting s) (ls_down s) stores (ls_received s) (ls_taken s ++ [parts])%list)
| listen_consumer_ends :
    ls_consuming s = true -> ls_done s = true ->
    listening_step s (mkListening (ls_channel s) (ls_server s) (ls_done s) false (ls_waiting s) (ls_down s)
                        (ls_stores s) (ls_received s) (ls_taken s))
| listen_shutdown : listening_step s (Shutdown s)
| listen_shutdown_returns waiting :
    ls_waiting s = S waiting -> ls_consuming s = false ->
    listening_step s (mkListening (ls_channel s) (ls_server s) (ls_done s) (ls_consuming s) waiting true
                        (ls_stores s) (ls_received s) (ls_taken s))
| listen_others stores :
    hub_ok stores.1.2 ->
    listening_step s (mkListening (ls_channel s) (ls_server s) (ls_done s) (ls_consuming s) (ls_waiting s)
                        (ls_down s) stores (ls_received s) (ls_taken s)).

Definition listening_reachable (s : Listening) : Prop :=
  exists stores, hub_ok stores.1.2 /\ rtc listening_step (not_started stores) s.

(** ** The invariant *)

Record in_order (s : Listening) : Prop := {
  io_hub : hub_ok (ls_stores s).1.2;
  io_fifo : ls_received s = (ls_taken s ++ default [] (ls_channel s))%list;
  io_room : length (default [] (ls_channel s)) <= channel_capacity;
  io_running : ls_server s = true -> ls_done s = false -> ls_consuming s = true;
  io_channel : ls_consuming s = true -> is_Some (ls_channel s);
  io_down : ls_down s = true \/ ls_waiting s <> 0 -> ls_done s = true;
  io_rest : ls_down s = true -> ls_consuming s = false
}.

Lemma in_order_step s s' : in_order s -> listening_step s s' -> in_order s'.
Proof.
  intros [Hh Hf Hr Hrun Hch Hd Hrest] Hs.
  destruct Hs as [io Hc Hnd|parts queue Hsv Hc Hl|parts queue id rc ap env io others stores Hcon Hc Hoth Hcp|Hcon Hdone| |waiting Hw Hcon|stores Hh'].
  - rewrite Hc in Hf, Hch. unfold Start. destruct (Start_error _ io); split; cbn; try done; try lia.
    intros Hdn. by rewrite Hd in Hnd by (by left).
  - rewrite Hc in Hf, Hr. split; cbn; try done.
    + by rewrite Hf, app_assoc.
    + rewrite length_app. cbn. lia.
  - rewrite Hc in Hf, Hr. cbn in Hf, Hr. split; cbn; try done; [|by rewrite Hf, <- app_assoc|lia].
    destruct (consume_goes_on l parts id rc ap env io others (ls_stores s) Hoth Hh) as (stores' & Hcp' & Hok & _).
    rewrite Hcp in Hcp'. by injection Hcp' as ->.
  - split; cbn; try done; by rewrite Hdone.
  - by split.
  - split; cbn; try done. intros _. apply Hd. right. by rewrite Hw.
  - by split.
Qed.

Lemma reachable_in_order s : listening_reachable s -> in_order s.
Proof.
  intros (stores & Hh & Hs).
  assert (H0 : in_order (not_started stores)) by (split; cbn; try done; [lia|by intros [|]]).
  remember (not_started stores) as s0. clear Heqs0. induction Hs as [|s1 s2 s3 Hs _ IH]; [done|].
  apply IH. by eapply in_order_step.
Qed.

Lemma at_rest_stays s s' :
  ls_consuming s = false -> ls_done s = true -> rtc listening_step s s' -> ls_taken s' = ls_taken s.
Proof.
  intros Hc Hd Hs. revert Hc Hd. induction Hs as [|s1 s2 s3 Hs _ IH]; intros Hc Hd; [done|].
  destruct Hs; try congruence; by rewrite IH.
Qed.

(** C23: the packets the server has queued are taken out and
    handed to the store once each, in order, whatever others do to the store; as
    long as nobody calls [Shutdown] the consumer takes one after the other,
    whatever becomes of them in the store, and none is lost; a call of [Shutdown]
    can always return, and once one has the consumer is at rest for good. *)
Theorem packets_taken_in_order (s : Listening) :
  listening_reachable s ->
  ls_received s = (ls_taken s ++ default [] (ls_channel s))%list
  /\ length (default [] (ls_channel s)) <= channel_capacity
  /\ (ls_server s = true -> ls_done s = false -> forall parts queue id received appended env io others,
       ls_channel s = Some (parts :: queue) -> orderly others ->
       exists s', listening_step s s' /\ ls_channel s' = Some queue /\ ls_taken s' = (ls_taken s ++ [parts])%list
         /\ Some (ls_stores s')
            = consume_parts l parts id received appended env io others (ls_stores s))
  /\ (ls_waiting s <> 0 -> exists s', rtc listening_step s s' /\ ls_waiting s' < ls_waiting s /\ ls_taken s' = ls_taken s)
  /\ (ls_down s = true -> forall s', rtc listening_step s s' -> ls_taken s' = ls_taken s).
Proof.
  intros Hs%reachable_in_order. destruct Hs as [Hh Hf Hr Hrun Hch Hd Hrest]. split_and!; [done|done|..].
  - intros Hsv Hdn parts queue id received appended env io others Hc Hoth.
    destruct (consume_goes_on l parts id received appended env io others (ls_stores s) Hoth Hh) as (stores & Hcp & _).
    eexists. split; [by eapply listen_consume; [apply Hrun|..]|]. by rewrite Hcp.
  - intros Hw. destruct (ls_waiting s) as [|waiting] eqn:Ew; [done|].
    assert (Hdone : ls_done s = true) by (apply Hd; by right).
    destruct (ls_consuming s) eqn:Ec.
    + eexists. split; [|split].
      * eapply rtc_l; [by apply listen_consumer_ends|]. eapply rtc_once. by eapply listen_shutdown_returns.
      * cbn. lia.
      * done.
    + eexists. split; [eapply rtc_once; by eapply listen_shutdown_returns|]. split; [cbn; lia|done].
  - intros Hdown. intros s'. apply at_rest_stays; [by apply Hrest|apply Hd; by left].
Qed.
End Listen.

(** ** A concrete listener *)

#[local] Existing Instance merge_sort_slice.
#[local] Instance no_floats : GoFloat := {| int_of_float := fun _ => 0%Z |}.

Definition listener : Listener := mkListener (mkListenerConfig ":5514" "" "automatic") "udp".
Definition link_up : LogParts := [("client", part_string "10.0.0.1:514"); ("content", part_string "link up")].
Definition quiet_stores : stores := (NewFileStore, NewHub, NewWorker empty_Snapshot).

Definition sockets : listen_io := mkListenIo None None None.
Definition started : Listening := (Start listener sockets (not_started quiet_stores)).1.
Definition queued : Listening :=
  mkListening (Some [link_up]) true false true 0 false quiet_stores [link_up] [].

(** [Shutdown] with a packet in the channel: the consumer may end without it. *)
Definition closing : Listening := Shutdown queued.

Lemma closing_reachable : listening_reachable listener closing.
Proof.
  exists quiet_stores. split; [intros ch Hch; set_solver|].
  eapply rtc_l; [by apply (listen_start listener (not_started quiet_stores) sockets)|].
  eapply rtc_l; [by apply (listen_received listener started link_up [] eq_refl eq_refl); unfold channel_capacity; cbn; lia|].
  apply rtc_once. apply (listen_shutdown listener queued).
Qed.

Lemma packets_taken_in_order_witness :
  listening_reachable listener closing
  /\ exists s', rtc (listening_step listener) closing s' /\ ls_waiting s' < 1 /\ ls_taken s' = [].
Proof.
  split; [exact closing_reachable|].
  destruct (packets_taken_in_order listener closing closing_reachable) as (_ & _ & _ & H & _).
  apply H. discriminate.
Defined.
