(* ===== verification/Api.v ===== *)
(** The HTTP API ([internal/api/router.go], [auth.go]): credentials, routing, the
    handlers of messages, incidents, health and test calls, and the admission of
    an event stream.  A handler answers with a [Response]; its body is the value
    that [writeJSON] encodes.  A request holds what [net/http] and [net/url] give
    the handlers: the cleaned path, the query values in order, the credentials of
    its Authorization header. *)
From Stdlib Require Import Ascii ZArith.
From S2P Require Import Prelude.
From S2P Require Import GoStd.
From S2P Require Import GoLib.
From S2P Require Import GoTime.
From S2P Require Import Model.
From S2P Require Import Classify.
From S2P Require Import EngineState.
From S2P Require Import Engine.
From S2P Require Import Storage.
From S2P Require Import Notify.
From S2P Require Import Worker.
Local Open Scope string_scope.

Definition Values : Type := list (string * string).

Record Request : Type := mkRequest {
  req_Method : string;
  req_Path : string;
  req_Query : Values;
  req_BasicAuth : option (string * string);
  req_Body : string;
  req_canceled : bool
}.

(** [values.Get(key)] and [values[key]]. *)
Definition values_of (key : string) (values : Values) : list string :=
  map snd (List.filter (fun kv => String.eqb kv.1 key) values).
Definition values_Get (key : string) (values : Values) : string := default "" (hd_error (values_of key values)).

Record messagesMeta : Type := mkMeta { mm_Count : Z; mm_Limit : Z; mm_Offset : Z; mm_HasMore : bool }.

Record incidentResponse : Type := mkIncidentResponse {
  ir_Incident : Incident;
  ir_Deliveries : list NotificationJob
}.

Inductive body : Type :=
| errorResponse (err : string)
| messagesResponse (data : list Message) (meta : messagesMeta)
| incidentsResponse (data : list incidentResponse) (meta : messagesMeta)
| incident_body (i : incidentResponse)
| health_body (h : WorkerHealth) (stale : bool)
| sent_body (receipt : Receipt)
| healthcheckResponse (status build : string)
| importMessagesResponse (status : string) (imported skipped : Z)
| testEventResponse (network address payload message : string)
| openapi_body
| file_body (name content : string)
| stream_body
| redirect_body (location : string)
| no_body.

(** [rs_Headers]: the headers the code sets besides the content type. *)
Record Response : Type := mkResponse {
  rs_Status : Z;
  rs_Headers : list (string * string);
  rs_Body : body
}.

Definition writeJSON (status : Z) (value : body) : Response := mkResponse status [] value.
Definition refuse (status : Z) (err : string) : Response := writeJSON status (errorResponse err).

(** ** Credentials *)

Record Credentials : Type := mkCredentials { cr_Username : string; cr_Password : string }.

(** [basicAuth] holds both as bytes. *)
Definition newBasicAuth (c : Credentials) : Credentials + string :=
  if String.eqb (cr_Username c) "" then inr "username is required"
  else if String.eqb (cr_Password c) "" then inr "password is required"
  else inl c.

Definition auth_matches (a : Credentials) (username password : string) : bool :=
  let usernameOK := String.eqb username (cr_Username a) in
  let passwordOK := String.eqb password (cr_Password a) in
  usernameOK && passwordOK.

Definition unauthorized : Response :=
  mkResponse 401 [("WWW-Authenticate", "Basic realm=" +:+ quote +:+ "logthing" +:+ quote +:+ ", charset="
                                       +:+ quote +:+ "UTF-8" +:+ quote)]
    (errorResponse "authentication required").

(** ** Query values *)

Definition defaultMessageLimit : Z := 200.
Definition maxMessageLimit : Z := 2000.

(** [None]: not an integer of the range. *)
Definition in_range (value : string) (lo hi : Z) : option Z :=
  match Atoi value with
  | Some n => if ((lo <=? n) && (n <=? hi))%Z then Some n else None
  | None => None
  end.

Definition parsePagination (values : Values) (defaultLimit maxLimit : Z) : (Z * Z) + string :=
  let value := values_Get "limit" values in
  match (if String.eqb value "" then Some defaultLimit else in_range value 1 maxLimit) with
  | None => inr ("limit must be between 1 and " +:+ Itoa maxLimit)
  | Some limit =>
    let value := values_Get "offset" values in
    match (if String.eqb value "" then Some 0%Z else in_range value 0 max_int) with
    | None => inr "offset must be zero or greater"
    | Some offset => inl (limit, offset)
    end
  end.

(** The loop of [cleanQueryValues], with the map of the values seen. *)
Fixpoint clean_values (seen : gset string) (values : list string) : list string :=
  match values with
  | [] => []
  | value :: rest =>
    let value := TrimSpace value in
    if String.eqb value "" then clean_values seen rest
    else if decide (value ∈ seen) then clean_values seen rest
    else value :: clean_values ({[value]} ∪ seen) rest
  end.

Definition cleanQueryValues (values : list string) : list string := clean_values ∅ values.

(** [inr tt]: the value is not a time. *)
Definition parseOptionalTime (value : string) : option Time + unit :=
  let value := TrimSpace value in
  if String.eqb value "" then inl None
  else match ParseRFC3339 value with
       | Some t => inl (Some t)
       | None => inr tt
       end.

(** The errors of [parseMessagesQuery]. *)
Inductive query_error : Type :=
| invalid_limit (raw : string)
| limit_out_of_range
| invalid_offset (raw : string)
| negative_offset
| invalid_since
| invalid_until.

Definition parse_limit (raw : string) : Z + query_error :=
  let rawLimit := TrimSpace raw in
  if String.eqb rawLimit "" then inl defaultMessageLimit
  else match Atoi rawLimit with
       | None => inr (invalid_limit rawLimit)
       | Some parsed =>
         if ((parsed <=? 0) || (maxMessageLimit <? parsed))%Z then inr limit_out_of_range else inl parsed
       end.

Definition parse_offset (raw : string) : Z + query_error :=
  let rawOffset := TrimSpace raw in
  if String.eqb rawOffset "" then inl 0%Z
  else match Atoi rawOffset with
       | None => inr (invalid_offset rawOffset)
       | Some parsed => if (parsed <? 0)%Z then inr negative_offset else inl parsed
       end.

Definition parseMessagesQuery (values : Values) : StoreQuery + query_error :=
  match parse_limit (values_Get "limit" values) with
  | inr err => inr err
  | inl limit =>
    match parse_offset (values_Get "offset" values) with
    | inr err => inr err
    | inl offset =>
      match parseOptionalTime (values_Get "since" values) with
      | inr _ => inr invalid_since
      | inl since =>
        match parseOptionalTime (values_Get "until" values) with
        | inr _ => inr invalid_until
        | inl until =>
          inl (mkStoreQuery (values_Get "q" values) (cleanQueryValues (values_of "host" values)) limit offset since until)
        end
      end
    end
  end.

(** [%w] of the parser's error is left out of the last two. *)
Definition query_error_text (err : query_error) : string :=
  match err with
  | invalid_limit raw => "invalid limit " +:+ quote +:+ raw +:+ quote
  | limit_out_of_range => "limit must be between 1 and " +:+ Itoa maxMessageLimit
  | invalid_offset raw => "invalid offset " +:+ quote +:+ raw +:+ quote
  | negative_offset => "offset must be greater than or equal to 0"
  | invalid_since => "invalid since"
  | invalid_until => "invalid until"
  end.
