(* ===== verification/Import.v ===== *)
(** The NDJSON import ([internal/api/import.go]): lines of the body become
    messages and are appended to the publishing store one by one. *)
From Stdlib Require Import Ascii ZArith.
From S2P Require Import Prelude.
From S2P Require Import GoStd.
From S2P Require Import GoLib.
From S2P Require Import GoTime.
From S2P Require Import Model.
From S2P Require Import Storage.
From S2P Require Import Worker.
From S2P Require Import Hub.
Local Open Scope string_scope.

(** [bufio.ErrTooLong] bounds a line with its newline. *)
Definition maxImportLine : Z := (4 * 1024 * 1024)%Z.

Definition import_line_fits (line : string) : bool :=
  if HasSuffix line newline then (size_of line <=? maxImportLine)%Z
  else (size_of line <? maxImportLine)%Z.

(** [json.Decoder] with [UseNumber] on one line: the object, and whether only
    white space follows it. *)
Class GoJsonObject := {
  json_Decode_object : string -> option (list (string * any) * bool)
}.

(** ** Values *)

(** [fmt.Sprint] of a decoded value; the keys of a map are printed in order. *)
Fixpoint Sprint {GS : GoSort} (value : any) : string :=
  match value with
  | any_nil => "<nil>"
  | any_string s => s
  | any_bool b => if b then "true" else "false"
  | any_int z => Itoa z
  | any_float text | any_number text | any_other text => text
  | any_time t => Time_String t
  | any_slice items => "[" +:+ Join (map Sprint items) " " +:+ "]"
  | any_map fields => sprint_map (map (fun kv => (kv.1, Sprint kv.2)) fields)
  end.

(** [raw[key]]: the last value of the key in the line. *)
Definition field (raw : list (string * any)) (key : string) : option any :=
  snd <$> List.find (fun kv => String.eqb kv.1 key) (rev raw).

Definition importString {GS : GoSort} (raw : list (string * any)) (key : string) : string :=
  match field raw key with
  | None | Some any_nil => ""
  | Some (any_string typed) => typed
  | Some (any_number typed) => typed
  | Some (any_bool typed) => if typed then "true" else "false"
  | Some typed => Sprint typed
  end.

Definition severityNames : list (string * Z) :=
  [("emerg", 0); ("emergency", 0); ("alert", 1); ("crit", 2); ("critical", 2); ("err", 3); ("error", 3);
   ("warning", 4); ("warn", 4); ("notice", 5); ("info", 6); ("informational", 6); ("debug", 7)]%Z.

Definition facilityNames : list (string * Z) :=
  [("kern", 0); ("kernel", 0); ("user", 1); ("mail", 2); ("daemon", 3); ("auth", 4); ("security", 4);
   ("syslog", 5); ("lpr", 6); ("news", 7); ("uucp", 8); ("cron", 9); ("authpriv", 10); ("ftp", 11);
   ("ntp", 12); ("audit", 13); ("alert", 14); ("clock", 15); ("local0", 16); ("local1", 17); ("local2", 18);
   ("local3", 19); ("local4", 20); ("local5", 21); ("local6", 22); ("local7", 23)]%Z.

Definition named (names : list (string * Z)) (value : string) : option Z :=
  snd <$> List.find (fun kv => String.eqb kv.1 value) names.

Inductive code_error : Type :=
| not_recognized (value : string)
| outside (parsed minValue maxValue : Z).

Section ImportLines.
Context {GS : GoSort} {GT : GoText} {J : GoJson} {JO : GoJsonObject}.

(** [inl None]: no code given. *)
Definition parseSyslogCode (value : string) (names : list (string * Z)) (minValue maxValue : Z)
    : option Z + code_error :=
  let value := ToLower (TrimSpace value) in
  if String.eqb value "" then inl None
  else match named names value with
  | Some parsed => inl (Some parsed)
  | None =>
    match Atoi value with
    | None => inr (not_recognized value)
    | Some parsed =>
      if ((parsed <? minValue) || (maxValue <? parsed))%Z then inr (outside parsed minValue maxValue)
      else inl (Some parsed)
    end
  end.

Definition parseSeverity (value : string) := parseSyslogCode value severityNames 0 7.
Definition parseFacility (value : string) := parseSyslogCode value facilityNames 0 23.

(** ** One line *)

Inductive line_error : Type :=
| invalid_JSON
| trailing_JSON
| timestamp_required
| invalid_timestamp
| invalid_facility (err : code_error)
| invalid_severity (err : code_error).

(** [importID] is what [newImportID] gives. *)
Definition parseImportedMessage (line : string) (importID : string) : Message + line_error :=
  match json_Decode_object line with
  | None => inr invalid_JSON
  | Some (_, false) => inr trailing_JSON
  | Some (raw, true) =>
    let timestampText := TrimSpace (importString raw "timestamp") in
    if String.eqb timestampText "" then inr timestamp_required
    else match ParseRFC3339 timestampText with
    | None => inr invalid_timestamp
    | Some timestamp =>
      match parseFacility (importString raw "facility") with
      | inr err => inr (invalid_facility err)
      | inl facility =>
        match parseSeverity (importString raw "severity") with
        | inr err => inr (invalid_severity err)
        | inl severity =>
          let priority :=
            match facility, severity with
            | Some f, Some s => Some (f * 8 + s)%Z
            | _, _ => None
            end in
          let host := TrimSpace (importString raw "host") in
          let host := if String.eqb host "" then "unknown" else host in
          let program := TrimSpace (importString raw "program") in
          inl {| msg_ID := importID; msg_ReceivedAt := timestamp; msg_Timestamp := Some timestamp;
                 msg_Transport := "import"; msg_Source := ""; msg_Priority := priority;
                 msg_Facility := facility; msg_Severity := severity; msg_Hostname := host;
                 msg_AppName := program; msg_ProcID := TrimSpace (importString raw "pid"); msg_MsgID := "";
                 msg_Tag := program; msg_Message := importString raw "message";
                 msg_StructuredData := None; msg_Raw := Some raw |}
        end
      end
    end
  end.

(** ** The body *)

Inductive import_error : Type :=
| import_canceled
| import_line (lineNumber : Z) (err : line_error)
| import_append (lineNumber : Z) (err : store_error)
| import_read.

(** The texts of [invalidImportLine], without the [%v] of a parser's error. *)
Definition line_error_text (err : line_error) : string :=
  match err with
  | invalid_JSON => "invalid JSON"
  | trailing_JSON => "invalid trailing JSON"
  | timestamp_required => "timestamp is required"
  | invalid_timestamp => "invalid timestamp"
  | invalid_facility _ => "invalid facility"
  | invalid_severity _ => "invalid severity"
  end.

Definition import_error_text (err : import_error) : string :=
  match err with
  | import_line lineNumber err => "line " +:+ Itoa lineNumber +:+ ": " +:+ line_error_text err
  | _ => ""
  end.

(** [isImportValidationError]. *)
Definition isImportValidationError (err : import_error) : bool :=
  match err with import_line _ _ => true | _ => false end.

(** What the world does at each line of an import; [im_others] is what the listener
    and other requests have done since the line before, when the line is stored,
    [im_meanwhile] what they do before its message is published. *)
Record Surroundings : Type := mkSurroundings {
  im_canceled : Z -> bool;
  im_ID : Z -> string;
  im_env : Z -> Env;
  im_io : Z -> append_io;
  im_now : Z -> Time;
  im_others : Z -> stores -> stores;
  im_meanwhile : Z -> gap -> stores -> stores;
  im_cut : bool
}.

Record importResult : Type := mkImportResult { imported : Z; skipped : Z }.

(** The loop over the lines, [n] of them read before; [None]: a panic.
    [im_cut]: reading the body failed after these lines. *)
Fixpoint import_lines (sur : Surroundings) (n : Z) (lines : list string) (result : importResult) (s : stores)
    : option (stores * importResult * option import_error) :=
  match lines with
  | [] => Some (s, result, if im_cut sur then Some import_read else None)
  | line :: rest =>
    if negb (import_line_fits line) then Some (s, result, Some import_read)
    else if im_canceled sur (n + 1) then Some (s, result, Some import_canceled)
    else
      let n := (n + 1)%Z in
      let text := TrimSpace (drop_cr (TrimSuffix line newline)) in
      if String.eqb text ""
      then import_lines sur n rest (mkImportResult (imported result) (skipped result + 1)) s
      else match parseImportedMessage text (im_ID sur n) with
      | inr err => Some (s, result, Some (import_line n err))
      | inl msg =>
        match PublishingStore_Append (im_env sur n) (im_io sur n) (im_now sur n) (im_meanwhile sur n) msg
                (im_others sur n s) with
        | None => None
        | Some (s, Some err) => Some (s, result, Some (import_append n err))
        | Some (s, None) => import_lines sur n rest (mkImportResult (imported result + 1) (skipped result)) s
        end
      end
  end.

Definition importMessages (sur : Surroundings) (body : string) (s : stores)
    : option (stores * importResult * option import_error) :=
  import_lines sur 0 (lines_keep body) (mkImportResult 0 0) s.
End ImportLines.
