(* ===== verification/Router.v ===== *)
(** The handlers and the routes of the HTTP API ([internal/api/router.go]).  What
    a handler changes is threaded through: the message store, the hub, the worker
    with the incident engine; what it asks of the outside comes in [Calls]. *)
From Stdlib Require Import Ascii ZArith.
From S2P Require Import Prelude.
From S2P Require Import GoStd.
From S2P Require Import GoLib.
From S2P Require Import Model.
From S2P Require Import Classify.
From S2P Require Import EngineState.
From S2P Require Import Engine.
From S2P Require Import Storage.
From S2P Require Import Notify.
From S2P Require Import Worker.
From S2P Require Import Hub.
From S2P Require Import Api.
From S2P Require Import Import.
Local Open Scope string_scope.

Record TestEventResult : Type := mkTestEventResult { te_Network : string; te_Address : string; te_Payload : string }.

(** The router's configuration; [false] stands for a service that is nil. *)
Record server : Type := mkServer {
  srv_auth : Credentials;
  srv_buildID : string;
  srv_incidents : bool;
  srv_incidentWorker : bool;
  srv_events : bool;
  srv_testEvent : bool;
  srv_frontend : gmap string string;
  srv_swaggerUI : gmap string string
}.

(** What happens outside during a request. *)
Record Calls : Type := mkCalls {
  cl_env : Env;
  cl_import : Surroundings;
  cl_worker : Outside;
  cl_discards : bool;
  cl_now : Time;
  cl_named : Time;
  cl_flusher : bool;
  cl_decode_test : option string;
  cl_test_event : string -> TestEventResult + string
}.

Section Handlers.
Context {GR : GoRange} {GS : GoSort} {GH : GoHeap} {GT : GoText} {J : GoJson} {JO : GoJsonObject}.
Context (srv : server) (calls : Calls) (p : list nat).

(** ** Messages *)

Definition query_failure (r : Request) (err : store_error) : Response :=
  match err with
  | err_canceled => writeJSON 200 no_body
  | _ =>
    if req_canceled r then writeJSON 200 no_body
    else match err with
    | err_invalid_filter what => refuse 400 ("invalid regex filter: " +:+ what)
    | _ => refuse 500 "query messages"
    end
  end.

Definition handleMessages (r : Request) (st : FileStore) : FileStore * Response :=
  match parseMessagesQuery (req_Query r) with
  | inr err => (st, refuse 400 (query_error_text err))
  | inl query =>
    let storeQuery := mkStoreQuery (sq_Text query) (sq_Hosts query) (sq_Limit query + 1) (sq_Offset query)
                        (sq_Since query) (sq_Until query) in
    match Storage.Query (cl_env calls) storeQuery st with
    | (st, inr err) => (st, query_failure r err)
    | (st, inl messages) =>
      let hasMore := (sq_Limit query <? Z.of_nat (length messages))%Z in
      let messages := if hasMore then take (Z.to_nat (sq_Limit query)) messages else messages in
      (st, writeJSON 200 (messagesResponse messages
             (mkMeta (Z.of_nat (length messages)) (sq_Limit query) (sq_Offset query) hasMore)))
    end
  end.

(** [None]: a panic. *)
Definition handleImportMessages (r : Request) (s : stores) : option (stores * Response) :=
  match importMessages (cl_import calls) (req_Body r) s with
  | None => None
  | Some (s, result, None) =>
    Some (s, writeJSON 200 (importMessagesResponse "imported" (imported result) (skipped result)))
  | Some (s, _, Some err) =>
    Some (s, if isImportValidationError err then refuse 400 (import_error_text err) else refuse 500 "import messages")
  end.

(** Up to the loop of the stream, see [stream_turn]. *)
Definition handleMessageStream (r : Request) (h : Hub) : Hub * Response :=
  match CompileTextFilter (values_Get "q" (req_Query r)) with
  | inr (err_invalid_filter what) => (h, refuse 400 ("invalid regex filter: " +:+ what))
  | inr _ => (h, refuse 400 "invalid regex filter")
  | inl _ =>
    if negb (srv_events srv) then (h, refuse 503 "message stream is not configured")
    else if negb (cl_flusher calls) then (h, refuse 500 "message stream is not supported")
    else ((Subscribe h).2,
          mkResponse 200 [("Content-Type", "text/event-stream"); ("Cache-Control", "no-cache");
                          ("Connection", "keep-alive"); ("X-Accel-Buffering", "no")] stream_body)
  end.

(** ** Incidents *)

Definition listed (state : string) (incident : Incident) : bool :=
  let active := bool_decide (inc_State incident = StateActive) || bool_decide (inc_State incident = StatePendingRecovery) in
  if String.eqb state "pending_failure" && negb (bool_decide (inc_State incident = StatePendingFailure)) then false
  else if String.eqb state "active" && negb active then false
  else if String.eqb state "resolved" && negb (bool_decide (inc_State incident = StateResolved)) then false
  else true.

Definition known_state (state : string) : bool :=
  String.eqb state "" || String.eqb state "pending_failure" || String.eqb state "active" || String.eqb state "resolved".

(** The incidents with their deliveries, each read at its own position. *)
Fixpoint with_deliveries (i : nat) (incidents : list Incident) (s : Snapshot) : list incidentResponse :=
  match incidents with
  | [] => []
  | incident :: rest =>
    mkIncidentResponse incident (NotificationsFor (i :: 1 :: p) (inc_ID incident) s) :: with_deliveries (S i) rest s
  end.

(** [None]: a slice expression panics. *)
Definition handleIncidents (r : Request) (s : Snapshot) : option Response :=
  if negb (srv_incidents srv) then Some (refuse 503 "incident processing unavailable")
  else match parsePagination (req_Query r) 100 1000 with
  | inr err => Some (refuse 400 err)
  | inl (limit, offset) =>
    let state := TrimSpace (values_Get "state" (req_Query r)) in
    if negb (known_state state) then Some (refuse 400 "state must be pending_failure, active, or resolved")
    else match List_ (0 :: p) {| qry_State := None; qry_Limit := 0; qry_Offset := 0 |} s with
    | None => None
    | Some all =>
      let filtered := List.filter (listed state) all in
      let len := Z.of_nat (length filtered) in
      let start := if (len <? offset)%Z then len else offset in
      let end_ := if (len <? start + limit)%Z then len else (start + limit)%Z in
      match slice start end_ filtered with
      | None => None
      | Some page =>
        Some (writeJSON 200 (incidentsResponse (with_deliveries 0 page s)
                (mkMeta (end_ - start) limit offset (end_ <? len)%Z)))
      end
    end
  end.

Definition handleIncident (r : Request) (s : Snapshot) : Response :=
  if negb (srv_incidents srv) then refuse 503 "incident processing unavailable"
  else
    let id := TrimPrefix (req_Path r) "/api/v1/incidents/" in
    if String.eqb id "" || Contains id "/" then refuse 404 "incident not found"
    else match Get id s with
    | None => refuse 404 "incident not found"
    | Some incident => writeJSON 200 (incident_body (mkIncidentResponse incident (NotificationsFor p (inc_ID incident) s)))
    end.

Definition handleIncidentHealth (w : Worker) : Response :=
  if negb (srv_incidentWorker srv) then refuse 503 "incident processing unavailable"
  else let '(h, stale) := Health p (cl_now calls) w in writeJSON 200 (health_body h stale).

(** The notifications sent, and the answer. *)
Definition handleTestNotification : list Notification * Response :=
  if negb (srv_incidentWorker srv) then ([], refuse 503 "notification delivery unavailable")
  else
    let '(sent, result) := SendTest (cl_discards calls) (cl_worker calls) (cl_named calls) (cl_now calls) in
    (sent,
     match result with
     | inl receipt => writeJSON 200 (sent_body receipt)
     | inr (send_error _ _ _ message) => refuse 502 message
     | inr (other_failure message) =>
       if String.eqb message ErrNotConfigured then refuse 503 message else refuse 502 "send test notification"
     end).

(** ** The rest *)

Definition handleHealthcheck : Response := writeJSON 200 (healthcheckResponse "ok" (srv_buildID srv)).

(** [cl_decode_test]: the message of a body that is JSON, or [None]. *)
Definition handleTestEvent (r : Request) : Response :=
  if negb (srv_testEvent srv) then refuse 503 "test event sender is not configured"
  else
    let message := if String.eqb (req_Body r) "" then Some "" else cl_decode_test calls in
    match message with
    | None => refuse 400 "invalid test event request"
    | Some message =>
      let message := TrimSpace message in
      match cl_test_event calls message with
      | inr err => refuse 502 err
      | inl result => writeJSON 202 (testEventResponse (te_Network result) (te_Address result) (te_Payload result) message)
      end
    end.

Definition handleOpenAPI : Response :=
  mkResponse 200 [("Content-Type", "application/json"); ("Cache-Control", "no-store")] openapi_body.

(** A file system is a map from names; a name that is no file is not served. *)
Definition serveStaticFile (files : gmap string string) (name : string) (noStoreIndex : bool) : option Response :=
  match files !! name with
  | None => None
  | Some content =>
    Some (mkResponse 200 (if noStoreIndex && String.eqb name "index.html" then [("Cache-Control", "no-store")] else [])
            (file_body name content))
  end.

Definition not_get (r : Request) : bool :=
  negb (String.eqb (req_Method r) "GET") && negb (String.eqb (req_Method r) "HEAD").

Definition refuse_method (allow : string) : Response :=
  mkResponse 405 [("Allow", allow)] (errorResponse "method not allowed").

Definition NotFound : Response := writeJSON 404 no_body.

Definition handleSwaggerUIRedirect (r : Request) : Response :=
  if not_get r then refuse_method "GET, HEAD" else writeJSON 301 (redirect_body "/swagger-ui/").

(** [path.Clean] of what is left of a path the router has cleaned: a final slash goes. *)
Definition asset_name (path : string) : string :=
  let name := TrimSuffix path "/" in if String.eqb name "" then "index.html" else name.

Definition handleSwaggerUI (r : Request) : Response :=
  if not_get r then refuse_method "GET, HEAD"
  else default NotFound
         (serveStaticFile (srv_swaggerUI srv) (asset_name (TrimPrefix (req_Path r) "/swagger-ui/")) false).

Definition handleFrontend (r : Request) : Response :=
  if not_get r then refuse_method "GET, HEAD"
  else match serveStaticFile (srv_frontend srv) (asset_name (TrimPrefix (req_Path r) "/")) true with
       | Some response => response
       | None => default (writeJSON 200 no_body) (serveStaticFile (srv_frontend srv) "index.html" true)
       end.

(** ** Routes *)

Inductive api_route : Type :=
| messages_route | import_route | stream_route | test_event_route | incidents_route | incident_health_route
| incident_route | test_notification_route | unknown_route.

Inductive route : Type :=
| healthcheck_route | openapi_route | swagger_redirect_route | swagger_route | api_redirect_route
| api (inner : api_route) | frontend_route.

(** [apiMux]: the longest pattern that fits; one that ends in a slash fits what is below it. *)
Definition api_route_of (path : string) : api_route :=
  if String.eqb path "/api/v1/messages" then messages_route
  else if String.eqb path "/api/v1/messages/import" then import_route
  else if String.eqb path "/api/v1/messages/stream" then stream_route
  else if String.eqb path "/api/v1/test-event" then test_event_route
  else if String.eqb path "/api/v1/incidents" then incidents_route
  else if String.eqb path "/api/v1/incidents/health" then incident_health_route
  else if HasPrefix path "/api/v1/incidents/" then incident_route
  else if String.eqb path "/api/v1/notifications/test" then test_notification_route
  else unknown_route.

Definition route_of (path : string) : route :=
  if String.eqb path "/healthcheck" then healthcheck_route
  else if String.eqb path "/swagger.json" then openapi_route
  else if String.eqb path "/swagger-ui" then swagger_redirect_route
  else if HasPrefix path "/swagger-ui/" then swagger_route
  else if HasPrefix path "/api/v1/" then api (api_route_of path)
  else if String.eqb path "/api/v1" then api_redirect_route
  else frontend_route.

(** What a request can change, with the notifications it sends. *)
Record outcome : Type := mkOutcome { oc_stores : stores; oc_sent : list Notification; oc_Response : Response }.

Definition unchanged (s : stores) (response : Response) : option outcome := Some (mkOutcome s [] response).

Definition withMethod (method : string) (r : Request) (s : stores) (next : option outcome) : option outcome :=
  if String.eqb (req_Method r) method then next else unchanged s (refuse_method method).

Definition serve_api (inner : api_route) (r : Request) (s : stores) : option outcome :=
  let '(st, h, w) := s in
  match inner with
  | messages_route =>
    withMethod "GET" r s (let '(st, response) := handleMessages r st in unchanged (st, h, w) response)
  | import_route =>
    withMethod "POST" r s (option_map (fun '(s, response) => mkOutcome s [] response) (handleImportMessages r s))
  | stream_route =>
    withMethod "GET" r s (let '(h, response) := handleMessageStream r h in unchanged (st, h, w) response)
  | test_event_route => withMethod "POST" r s (unchanged s (handleTestEvent r))
  | incidents_route =>
    withMethod "GET" r s (match handleIncidents r (wk_engine w) with
                          | Some response => unchanged s response
                          | None => None
                          end)
  | incident_health_route => withMethod "GET" r s (unchanged s (handleIncidentHealth w))
  | incident_route => withMethod "GET" r s (unchanged s (handleIncident r (wk_engine w)))
  | test_notification_route =>
    withMethod "POST" r s (let '(sent, response) := handleTestNotification in Some (mkOutcome s sent response))
  | unknown_route => unchanged s NotFound
  end.

(** [basicAuth.require]. *)
Definition require (r : Request) (s : stores) (next : option outcome) : option outcome :=
  match req_BasicAuth r with
  | Some (username, password) =>
    if auth_matches (srv_auth srv) username password then next else unchanged s unauthorized
  | None => unchanged s unauthorized
  end.

(** The handler [NewRouter] makes; [None]: a panic. *)
Definition serve (r : Request) (s : stores) : option outcome :=
  match route_of (req_Path r) with
  | healthcheck_route => withMethod "GET" r s (unchanged s handleHealthcheck)
  | openapi_route => require r s (withMethod "GET" r s (unchanged s handleOpenAPI))
  | swagger_redirect_route => require r s (unchanged s (handleSwaggerUIRedirect r))
  | swagger_route => require r s (unchanged s (handleSwaggerUI r))
  | api_redirect_route => unchanged s (writeJSON 301 (redirect_body "/api/v1/"))
  | api inner => require r s (serve_api inner r s)
  | frontend_route => require r s (unchanged s (handleFrontend r))
  end.
End Handlers.
