(* ===== verification/Configuration.v ===== *)
(** The configuration ([internal/config/config.go]) and what [run] of
    [cmd/server/main.go] builds from it before it serves: [FromEnv] as a function
    of the environment variables, and the wiring of the components. *)
From Stdlib Require Import Ascii ZArith SpecFloat.
From S2P Require Import Prelude.
From S2P Require Import GoStd.
From S2P Require Import GoLib.
From S2P Require Import Notify.
From S2P Require Import Discord.
From S2P Require Import Syslog.
From S2P Require Import Api.
From S2P Require Import Model.
From S2P Require Import Classify.
From S2P Require Import EngineState.
From S2P Require Import Engine.
From S2P Require Import Storage.
From S2P Require Import StateFile.
From S2P Require Import Worker.
From S2P Require Import Hub.
From S2P Require Import Router.
Local Open Scope string_scope.

(** ** Durations *)

Definition max_uint63 : Z := (2 ^ 63)%Z.

(** [leadingInt]: the digits a text starts with, [None] if they are too many. *)
Fixpoint leadingInt (x : Z) (s : string) : option (Z * string) :=
  match s with
  | EmptyString => Some (x, s)
  | String c rest =>
    match digit_value c with
    | None => Some (x, s)
    | Some d =>
      if (max_uint63 / 10 <? x)%Z then None
      else if (max_uint63 <? x * 10 + d)%Z then None
      else leadingInt (x * 10 + d) rest
    end
  end.

(** [leadingFraction]: the digits, cut when they are too many, and their scale. *)
Fixpoint leadingFraction (x scale : Z) (overflow : bool) (s : string) : Z * Z * string :=
  match s with
  | EmptyString => (x, scale, s)
  | String c rest =>
    match digit_value c with
    | None => (x, scale, s)
    | Some d =>
      if overflow || ((max_uint63 - 1) / 10 <? x)%Z || (max_uint63 <? x * 10 + d)%Z
      then leadingFraction x scale true rest
      else leadingFraction (x * 10 + d) (scale * 10) false rest
    end
  end.

(** The unit: what comes before a dot or a digit. *)
Fixpoint unit_length (s : string) : nat :=
  match s with
  | String c rest =>
    if Ascii.eqb c "." || bool_decide (is_Some (digit_value c)) then O else S (unit_length rest)
  | EmptyString => O
  end.

(** Both micro signs of Unicode. *)
Definition unitMap : list (string * Z) :=
  [("ns", 1); ("us", 1000); ("µs", 1000); ("μs", 1000); ("ms", 1000000); ("s", Second); ("m", Minute);
   ("h", 60 * Minute)]%Z.

Definition unit_of (u : string) : option Z := snd <$> List.find (fun kv => String.eqb kv.1 u) unitMap.

(** The part of a duration that a fraction gives, computed in floats. *)
Definition fraction_of_unit (f scale unit : Z) : Z :=
  truncate (fmul (float64 f) (fdiv (float64 unit) (float64 scale))).

(** One number with its unit: its length in nanoseconds and what follows. *)
Definition duration_term (s : string) : option (Z * string) :=
  match leadingInt 0 s with
  | None => None
  | Some (v, s1) =>
    let pre := negb (String.length s1 =? String.length s)%nat in
    let '(f, scale, s2, post) :=
      match s1 with
      | String c rest =>
        if Ascii.eqb c "."
        then let '(f, scale, s2) := leadingFraction 0 1 false rest in
             (f, scale, s2, negb (String.length s2 =? String.length rest)%nat)
        else (0%Z, 1%Z, s1, false)
      | EmptyString => (0%Z, 1%Z, s1, false)
      end in
    if negb pre && negb post then None
    else
      let i := unit_length s2 in
      match unit_of (stake i s2) with
      | None => None
      | Some unit =>
        if (max_uint63 / unit <? v)%Z then None
        else
          let v := (v * unit)%Z in
          let v := if (0 <? f)%Z then (v + fraction_of_unit f scale unit)%Z else v in
          if (max_uint63 <? v)%Z then None else Some (v, sdrop i s2)
      end
  end.

(** A term takes at least one byte, so the length of the text bounds the rounds. *)
Fixpoint duration_terms (fuel : nat) (d : Z) (s : string) : option Z :=
  if String.eqb s "" then Some d
  else match fuel with
  | O => None
  | S fuel =>
    match duration_term s with
    | None => None
    | Some (v, rest) =>
      let d := (d + v)%Z in
      if (max_uint63 <? d)%Z then None else duration_terms fuel d rest
    end
  end.

(** [time.ParseDuration]; [None] is the error. *)
Definition ParseDuration (s : string) : option Duration :=
  let '(neg, s) :=
    match s with
    | String c rest =>
      if Ascii.eqb c "-" then (true, rest) else if Ascii.eqb c "+" then (false, rest) else (false, s)
    | EmptyString => (false, s)
    end in
  if String.eqb s "0" then Some 0%Z
  else if String.eqb s "" then None
  else match duration_terms (String.length s) 0 s with
  | None => None
  | Some d => if neg then Some (- d)%Z else if (max_duration <? d)%Z then None else Some d
  end.

Example parsed_durations :
  map ParseDuration ["1m"; "1m30s"; "1.5h"; "300ms"; "-2h45m"; "0"; "0s"; "1"; "m"; "1x"; ".5s"; "9223372036854775808ns"; ""; "2562048h"]
  = [Some Minute; Some (90 * Second); Some (90 * Minute); Some 300000000; Some (- 165 * Minute); Some 0; Some 0; None;
     None; None; Some 500000000; None; None; None]%Z.
Proof. vm_compute. reflexivity. Qed.

(** ** The environment *)

(** [os.LookupEnv]. *)
Definition Environ : Type := string -> option string.

(** [os.Getenv]. *)
Definition Getenv (env : Environ) (name : string) : string := default "" (env name).

Definition envDefault (env : Environ) (name fallback : string) : string :=
  match env name with Some value => TrimSpace value | None => fallback end.

Definition durationDefault (env : Environ) (name : string) (fallback : Duration) : Duration + string :=
  let value := TrimSpace (Getenv env name) in
  if String.eqb value "" then inl fallback
  else match ParseDuration value with
  | Some duration =>
    if (duration <=? 0)%Z then inr (name +:+ " must be a positive duration") else inl duration
  | None => inr (name +:+ " must be a positive duration")
  end.

Record Configured : Type := mkConfigured {
  cf_HTTPAddr : string;
  cf_SyslogUDPAddr : string;
  cf_SyslogTCPAddr : string;
  cf_SyslogFormat : string;
  cf_TestEventNetwork : string;
  cf_TestEventTarget : string;
  cf_DataDir : string;
  cf_Username : string;
  cf_Password : string;
  cf_StateDir : string;
  cf_WANInterface : string;
  cf_WANDownAfter : Duration;
  cf_WANRecoveredAfter : Duration;
  cf_Notifier : string;
  cf_DiscordWebhookURL : string;
  cf_PublicURL : string
}.

Definition NotifierNone : string := "none".
Definition NotifierDiscord : string := "discord".

(** [path/filepath]. *)
Class GoPath := {
  path_Dir : string -> string;
  path_Join : string -> string -> string
}.

Section FromEnv.
Context {GT : GoText} {GP : GoPath}.

(** The checks at the end. *)
Definition check_config (cfg : Configured) : Configured + string :=
  if String.eqb (cf_Username cfg) "" then inr "LOGTHING_USERNAME is required"
  else if String.eqb (cf_Password cfg) "" then inr "LOGTHING_PASSWORD is required"
  else if String.eqb (cf_SyslogUDPAddr cfg) "" && String.eqb (cf_SyslogTCPAddr cfg) ""
  then inr "at least one of LOGTHING_SYSLOG_UDP_ADDR or LOGTHING_SYSLOG_TCP_ADDR must be set"
  else if String.eqb (cf_StateDir cfg) "" then inr "LOGTHING_STATE_DIR is required"
  else if String.eqb (cf_Notifier cfg) NotifierNone then inl cfg
  else if String.eqb (cf_Notifier cfg) NotifierDiscord then
    if String.eqb (cf_DiscordWebhookURL cfg) ""
    then inr "LOGTHING_DISCORD_WEBHOOK_URL is required when LOGTHING_NOTIFIER=discord"
    else inl cfg
  else inr ("unsupported LOGTHING_NOTIFIER " +:+ quote +:+ cf_Notifier cfg +:+ quote).

Definition FromEnv (env : Environ) : Configured + string :=
  let syslogUDPAddr := envDefault env "LOGTHING_SYSLOG_UDP_ADDR" ":5514" in
  let syslogTCPAddr := envDefault env "LOGTHING_SYSLOG_TCP_ADDR" ":5514" in
  let '(defaultTestNetwork, defaultTestTarget) := DefaultTestEventDestination syslogUDPAddr syslogTCPAddr in
  let dataDir := envDefault env "LOGTHING_DATA_DIR" "data/messages" in
  let stateDir := envDefault env "LOGTHING_STATE_DIR" (path_Join (path_Dir dataDir) "state") in
  match durationDefault env "LOGTHING_WAN_DOWN_AFTER" Minute with
  | inr err => inr err
  | inl downAfter =>
    match durationDefault env "LOGTHING_WAN_RECOVERED_AFTER" Minute with
    | inr err => inr err
    | inl recoveredAfter =>
      check_config
        {| cf_HTTPAddr := envDefault env "LOGTHING_HTTP_ADDR" ":8080";
           cf_SyslogUDPAddr := syslogUDPAddr;
           cf_SyslogTCPAddr := syslogTCPAddr;
           cf_SyslogFormat := envDefault env "LOGTHING_SYSLOG_FORMAT" "automatic";
           cf_TestEventNetwork := envDefault env "LOGTHING_TEST_EVENT_NETWORK" defaultTestNetwork;
           cf_TestEventTarget := envDefault env "LOGTHING_TEST_EVENT_TARGET" defaultTestTarget;
           cf_DataDir := dataDir;
           cf_Username := TrimSpace (Getenv env "LOGTHING_USERNAME");
           cf_Password := Getenv env "LOGTHING_PASSWORD";
           cf_StateDir := stateDir;
           cf_WANInterface := envDefault env "LOGTHING_WAN_INTERFACE" "wan";
           cf_WANDownAfter := downAfter;
           cf_WANRecoveredAfter := recoveredAfter;
           cf_Notifier := ToLower (envDefault env "LOGTHING_NOTIFIER" NotifierNone);
           cf_DiscordWebhookURL := TrimSpace (Getenv env "LOGTHING_DISCORD_WEBHOOK_URL");
           cf_PublicURL :=
             srev (trim_left_set (Ascii.eqb "/") (srev (TrimSpace (Getenv env "LOGTHING_PUBLIC_URL")))) |}
    end
  end.
End FromEnv.

(** ** Wiring *)

(** The adapters [newNotifier] chooses from. *)
Inductive notifier : Type :=
| DiscardNotifier
| Discord (n : DiscordNotifier).

(** [NewRouter]; stores and file systems are never nil here. *)
Definition NewRouter (spec buildID : string) (frontend swaggerUI : gmap string string) (c : Credentials)
    (incidents incidentWorker events testEvent : bool) : server + string :=
  if String.eqb spec "" then inr "openapi spec is required"
  else match newBasicAuth c with
  | inr err => inr err
  | inl auth => inl (mkServer auth buildID incidents incidentWorker events testEvent frontend swaggerUI)
  end.

(** What the program finds when it starts: environment, message files, disk with
    the state file, clock, embedded assets, build id; and what fails: making the
    data directory, reading the state file, listening. *)
Record Machine : Type := mkMachine {
  mc_env : Environ;
  mc_mkdir : option string;
  mc_store : FileStore;
  mc_disk : Disk;
  mc_unread : option string;
  mc_now : Time;
  mc_frontend : gmap string string;
  mc_swaggerUI : gmap string string;
  mc_spec : string;
  mc_buildID : string;
  mc_listen : option string
}.

(** What [run] has built when it begins to serve. *)
Record System : Type := mkSystem {
  sy_server : server;
  sy_cfg : Config;
  sy_notifier : notifier;
  sy_publicURL : string;
  sy_startedAt : Time;
  sy_listener : Listener;
  sy_stores : FileStore * Hub * Worker
}.

Inductive start_error : Type :=
| not_configured (what : string)
| no_storage (what : string)
| no_engine (err : error)
| no_state (err : state_error)
| no_notifier (what : string)
| no_router (what : string)
| no_listener (what : string).

Section Start.
Context {GR : GoRange} {GT : GoText} {GP : GoPath} {GW : GoWeb} {SJ : StateJson}.

Definition newNotifier (cfg : Configured) : notifier + string :=
  if String.eqb (cf_Notifier cfg) NotifierDiscord
  then match newDiscord (cf_DiscordWebhookURL cfg) (5 * Second)%Z with
       | inl n => inl (Discord n)
       | inr err => inr err
       end
  else inl DiscardNotifier.

Definition notifier_Send (do : DiscordNotifier -> http_request -> exchange) (n : notifier) (message : Notification)
    : Receipt + send_failure :=
  match n with
  | DiscardNotifier => discard_send message
  | Discord n => discord_Send (do n) n message
  end.

(** [newTestEventSender], and a call of what it returns. *)
Definition newTestEventSender (cfg : Configured) (pr : Process) (outcome : delivery) (message : string)
    : TestEventResult + string :=
  match NewSender (cf_TestEventNetwork cfg) (cf_TestEventTarget cfg) (5 * Second)%Z with
  | inr err => inr err
  | inl sender =>
    match Sender_Send sender pr outcome (NewTestEvent pr message) with
    | inr err => inr err
    | inl result => inl (mkTestEventResult (sd_Network result) (sd_Address result) (sd_Payload result))
    end
  end.

Definition engine_config (cfg : Configured) : Config :=
  mkConfig (cf_WANInterface cfg) (cf_WANDownAfter cfg) (cf_WANRecoveredAfter cfg).

Definition listener_config (cfg : Configured) : ListenerConfig :=
  mkListenerConfig (cf_SyslogUDPAddr cfg) (cf_SyslogTCPAddr cfg) (cf_SyslogFormat cfg).

Definition state_path (cfg : Configured) : string := path_Join (cf_StateDir cfg) "incidents.json".

(** [NewFileStore] on the files that are there. *)
Definition open_store (mc : Machine) (root : string) : FileStore + string :=
  if String.eqb (TrimSpace root) "" then inr "storage root is required"
  else match mc_mkdir mc with
  | Some what => inr ("create storage root: " +:+ what)
  | None => inl (mkFileStore (fs_files (mc_store mc)) (fs_next (mc_store mc)) ∅)
  end.

(** The engine with the state file loaded. *)
Definition start_engine (p : list nat) (mc : Machine) (cfg : Configured) : (Snapshot * Config) + start_error :=
  match New (engine_config cfg) with
  | inr err => inr (no_engine err)
  | inl (s, c) =>
    match Load_file false (mc_unread mc) (state_path cfg) (mc_disk mc) with
    | inr err => inr (no_state err)
    | inl state =>
      match Load p (Some (inl state)) s with
      | (_, Some err) => inr (no_engine err)
      | (s, None) => inl (s, c)
      end
    end
  end.

(** [run] until it serves. *)
Definition start (p : list nat) (mc : Machine) : System + start_error :=
  match FromEnv (mc_env mc) with
  | inr what => inr (not_configured what)
  | inl cfg =>
    match open_store mc (cf_DataDir cfg) with
    | inr what => inr (no_storage what)
    | inl store =>
      match start_engine p mc cfg with
      | inr err => inr err
      | inl (s, c) =>
        match newNotifier cfg with
        | inr what => inr (no_notifier what)
        | inl n =>
          match NewRouter (mc_spec mc) (mc_buildID mc) (mc_frontend mc) (mc_swaggerUI mc)
                  (mkCredentials (cf_Username cfg) (cf_Password cfg)) true true true true with
          | inr what => inr (no_router what)
          | inl srv =>
            match NewListener (listener_config cfg) with
            | inr what => inr (no_listener what)
            | inl l =>
              match mc_listen mc with
              | Some what => inr (no_listener what)
              | None =>
                inl (mkSystem srv c n (cf_PublicURL cfg) (mc_now mc) l (store, NewHub, NewWorker s))
              end
            end
          end
        end
      end
    end
  end.
End Start.
