(* ===== verification/ConfigurationProps.v ===== *)
(** A configuration that is accepted starts a system that meets what the other
    theorems ask of it. *)
From Stdlib Require Import Ascii ZArith Lia.
From S2P Require Import Prelude.
From S2P Require Import GoStd.
From S2P Require Import GoLib.
From S2P Require Import GoInstances.
From S2P Require Import Model.
From S2P Require Import Classify.
From S2P Require Import EngineState.
From S2P Require Import Engine.
From S2P Require Import EngineWf.
From S2P Require Import EngineSafety.
From S2P Require Import EngineCurrent.
From S2P Require Import Storage.
From S2P Require Import Notify.
From S2P Require Import Discord.
From S2P Require Import DiscordProps.
From S2P Require Import Worker.
From S2P Require Import Hub.
From S2P Require Import Syslog.
From S2P Require Import StateFile.
From S2P Require Import Api.
From S2P Require Import Router.
From S2P Require Import Configuration.
Local Open Scope string_scope.

Section Start.
Context {GR : GoRange} {GT : GoText} {GP : GoPath} {GW : GoWeb} {SJ : StateJson}.

(** What [FromEnv] guarantees. *)
Record accepted (cfg : Configured) : Prop := {
  acc_down : (0 < cf_WANDownAfter cfg)%Z;
  acc_recovered : (0 < cf_WANRecoveredAfter cfg)%Z;
  acc_username : cf_Username cfg <> "";
  acc_password : cf_Password cfg <> "";
  acc_address : cf_SyslogUDPAddr cfg <> "" \/ cf_SyslogTCPAddr cfg <> "";
  acc_state : cf_StateDir cfg <> "";
  acc_notifier : cf_Notifier cfg = NotifierNone
                 \/ cf_Notifier cfg = NotifierDiscord /\ cf_DiscordWebhookURL cfg <> ""
}.

Lemma durationDefault_positive env name fallback d :
  (0 < fallback)%Z -> durationDefault env name fallback = inl d -> (0 < d)%Z.
Proof.
  intros Hf. unfold durationDefault. destruct (String.eqb _ ""); [by intros [= <-]|].
  destruct (ParseDuration _) as [x|]; [|done]. destruct (Z.leb_spec x 0); [done|]. by intros [= <-].
Qed.

Lemma check_config_accepted cfg cfg' :
  (0 < cf_WANDownAfter cfg)%Z -> (0 < cf_WANRecoveredAfter cfg)%Z -> check_config cfg = inl cfg' ->
  cfg' = cfg /\ accepted cfg.
Proof.
  intros Hd Hr. unfold check_config.
  destruct (String.eqb_spec (cf_Username cfg) ""); [done|]. destruct (String.eqb_spec (cf_Password cfg) ""); [done|].
  destruct (_ && _) eqn:Ha; [done|]. destruct (String.eqb_spec (cf_StateDir cfg) ""); [done|].
  rewrite andb_false_iff, !String.eqb_neq in Ha.
  destruct (String.eqb_spec (cf_Notifier cfg) NotifierNone); [intros [= <-]; split; [done|]; constructor; auto|].
  destruct (String.eqb_spec (cf_Notifier cfg) NotifierDiscord); [|done].
  destruct (String.eqb_spec (cf_DiscordWebhookURL cfg) ""); [done|]. intros [= <-]. split; [done|]. constructor; auto.
Qed.

Lemma FromEnv_accepted env cfg : FromEnv env = inl cfg -> accepted cfg.
Proof.
  unfold FromEnv. destruct (DefaultTestEventDestination _ _).
  destruct (durationDefault env "LOGTHING_WAN_DOWN_AFTER" _) eqn:Hd; [|done].
  destruct (durationDefault env "LOGTHING_WAN_RECOVERED_AFTER" _) eqn:Hr; [|done].
  intros H. apply check_config_accepted in H as [-> H]; [done|..];
    by eapply durationDefault_positive; [|eassumption].
Qed.

(** The system that [cfg] describes: the engine's timers are positive and it
    watches an interface; the API asks for the configured credentials; the
    listener has an address; notifications go where they should, to a webhook
    over TLS or nowhere; nothing is subscribed, and the engine is where the state
    file says it was, or new. *)
Record ready (mc : Machine) (cfg : Configured) (sys : System) : Prop := {
  rd_timers : config_ok (sy_cfg sys);
  rd_interface : cfg_Interface (sy_cfg sys) <> "";
  rd_credentials : srv_auth (sy_server sys) = mkCredentials (cf_Username cfg) (cf_Password cfg)
                   /\ cf_Username cfg <> "" /\ cf_Password cfg <> "";
  rd_listener : ln_transport (sy_listener sys) <> "";
  rd_notifier : match sy_notifier sys with
                | DiscardNotifier => cf_Notifier cfg = NotifierNone
                | Discord n => cf_Notifier cfg = NotifierDiscord /\ url_Scheme (dn_webhook n) = "https"
                end;
  rd_quiet : (sy_stores sys).1.2 = NewHub /\ (sy_stores sys).2 = NewWorker (wk_engine (sy_stores sys).2);
  rd_files : fs_files (sy_stores sys).1.1 = fs_files (mc_store mc);
  rd_first : mc_disk mc !! state_path cfg = None -> wk_engine (sy_stores sys).2 = empty_Snapshot;
  rd_resumed : forall state, Load_file false None (state_path cfg) (mc_disk mc) = inl state ->
               current state -> wk_engine (sy_stores sys).2 = state
}.

(** Who is to blame when the system does not start. *)
Definition blamed (mc : Machine) (cfg : Configured) (err : start_error) : Prop :=
  match err with
  | not_configured _ => False
  | no_storage _ => TrimSpace (cf_DataDir cfg) = "" \/ is_Some (mc_mkdir mc)
  | no_engine err =>
    exists v state, err = err_unsupported_version v /\ v <> 0%Z /\ v <> 1%Z /\ snap_Version state = v
      /\ Load_file false (mc_unread mc) (state_path cfg) (mc_disk mc) = inl state
  | no_state err => Load_file false (mc_unread mc) (state_path cfg) (mc_disk mc) = inr err
  | no_notifier what => newDiscord (cf_DiscordWebhookURL cfg) (5 * Second)%Z = inr what
  | no_router _ => mc_spec mc = ""
  | no_listener what => mc_listen mc = Some what
  end.

Lemma New_ready cfg :
  accepted cfg ->
  exists c, New (engine_config cfg) = inl (empty_Snapshot, c) /\ config_ok c /\ cfg_Interface c <> "".
Proof.
  intros [Hd Hr _ _ _ _ _]. unfold New, engine_config. cbn [cfg_Interface cfg_DownAfter cfg_RecoveredAfter].
  destruct (String.eqb_spec (cf_WANInterface cfg) ""); cbn [cfg_DownAfter cfg_RecoveredAfter];
    rewrite !(proj2 (Z.leb_gt _ _)) by lia; by eexists.
Qed.

(** The engine a start leads to. *)
Lemma start_engine_spec p mc cfg :
  accepted cfg ->
  match start_engine p mc cfg with
  | inl (s, c) =>
    config_ok c /\ cfg_Interface c <> ""
    /\ (mc_disk mc !! state_path cfg = None -> s = empty_Snapshot)
    /\ (forall state, Load_file false None (state_path cfg) (mc_disk mc) = inl state -> current state -> s = state)
  | inr err => blamed mc cfg err
  end.
Proof.
  intros Ha. unfold start_engine. destruct (New_ready cfg Ha) as (c & -> & Hc & Hi).
  destruct (Load_file _ (mc_unread mc) _ _) as [state|err] eqn:Hl; [|done].
  assert (Hu : Load_file false None (state_path cfg) (mc_disk mc) = inl state)
    by (unfold Load_file in *; by destruct (mc_unread mc)).
  assert (Hfirst : mc_disk mc !! state_path cfg = None -> state = zero_Snapshot).
  { intros Hn. unfold Load_file in Hu. rewrite Hn in Hu. by injection Hu. }
  assert (Hsame : forall s, current s -> (Load p (Some (inl s)) empty_Snapshot) = (s, None))
    by (intros s Hs; by apply Load_current).
  destruct (Load p (Some (inl state)) empty_Snapshot) as [s [err|]] eqn:E.
  - unfold Load in E. destruct (Z.eqb_spec (snap_Version state) 0); [done|].
    destruct (Z.eqb_spec (snap_Version state) 1); cbn [negb] in E; [done|]. injection E as <- <-.
    by exists (snap_Version state), state.
  - split; [done|]. split; [done|]. split.
    + intros Hn. rewrite (Hfirst Hn) in E. by injection E as <-.
    + intros state' Hs Hcur. rewrite Hu in Hs. injection Hs as <-. rewrite (Hsame state Hcur) in E. by injection E.
Qed.

Lemma newDiscord_https url timeout n : newDiscord url timeout = inl n -> url_Scheme (dn_webhook n) = "https".
Proof.
  unfold newDiscord. destruct (url_Parse _) as [u|]; [|done]. destruct (_ || _); [done|].
  destruct (String.eqb_spec (url_Scheme u) "https"); [|done]. by intros [= <-].
Qed.

Lemma newNotifier_spec cfg :
  accepted cfg ->
  match newNotifier cfg with
  | inl DiscardNotifier => cf_Notifier cfg = NotifierNone
  | inl (Discord n) => cf_Notifier cfg = NotifierDiscord /\ url_Scheme (dn_webhook n) = "https"
  | inr what => newDiscord (cf_DiscordWebhookURL cfg) (5 * Second)%Z = inr what
  end.
Proof.
  intros Ha. unfold newNotifier. destruct (String.eqb_spec (cf_Notifier cfg) NotifierDiscord) as [Hn|Hn].
  - destruct (newDiscord _ _) as [n|] eqn:E; [|done]. split; [done|]. by eapply newDiscord_https.
  - by destruct (acc_notifier _ Ha) as [|[? _]].
Qed.

End Start.

(** ** An environment *)

(** Of paths without dots or doubled slashes. *)
#[local] Instance slashes : GoPath :=
  {| path_Dir := fun path => match LastIndexByte path "/" with Some i => stake i path | None => "." end;
     path_Join := fun a b => a +:+ "/" +:+ b |}.

Definition environ (vars : list (string * string)) : Environ :=
  fun name => snd <$> List.find (fun kv => String.eqb kv.1 name) vars.

Definition defaults : list (string * string) :=
  [("LOGTHING_USERNAME", " admin "); ("LOGTHING_PASSWORD", "secret"); ("LOGTHING_DATA_DIR", "custom/messages")].

(** The Go tests: the defaults, a webhook that is missing, a duration that is not
    positive; and other settings. *)
Example configurations :
  map (fun vars => sum_map (fun cfg => (cf_StateDir cfg, cf_WANInterface cfg, cf_WANDownAfter cfg, cf_WANRecoveredAfter cfg,
                                        cf_TestEventTarget cfg, cf_Notifier cfg)) id (FromEnv (environ vars)))
    [defaults; ("LOGTHING_NOTIFIER", "Discord") :: defaults; ("LOGTHING_WAN_RECOVERED_AFTER", "0s") :: defaults;
     [("LOGTHING_USERNAME", "admin")];
     ("LOGTHING_SYSLOG_UDP_ADDR", " ") :: ("LOGTHING_SYSLOG_TCP_ADDR", "") :: defaults;
     ("LOGTHING_WAN_DOWN_AFTER", "1.5m") :: ("LOGTHING_SYSLOG_UDP_ADDR", "[::1]:514") :: defaults]
  = [inl ("custom/state", "wan", Minute, Minute, "127.0.0.1:5514", "none");
     inr "LOGTHING_DISCORD_WEBHOOK_URL is required when LOGTHING_NOTIFIER=discord";
     inr "LOGTHING_WAN_RECOVERED_AFTER must be a positive duration"; inr "LOGTHING_PASSWORD is required";
     inr "at least one of LOGTHING_SYSLOG_UDP_ADDR or LOGTHING_SYSLOG_TCP_ADDR must be set";
     inl ("custom/state", "wan", (90 * Second)%Z, Minute, "[::1]:514", "none")].
Proof. vm_compute. reflexivity. Qed.

(** No state has been saved yet. *)
#[local] Instance no_states : StateJson :=
  {| state_MarshalIndent := fun _ => None; state_Unmarshal := fun _ => None |}.

Definition machine (vars : list (string * string)) (disk : Disk) : Machine :=
  mkMachine (environ vars) None NewFileStore disk None (Date 2026 9 18 12 0 0) ∅ ∅ "{}" "build-1" None.

Definition hooked : list (string * string) :=
  ("LOGTHING_NOTIFIER", "discord") :: ("LOGTHING_DISCORD_WEBHOOK_URL", hook_URL) :: defaults.

(** Started, and refused by a webhook without TLS or a state file that cannot be
    read. *)
Example starts :
  map (fun mc => sum_map (fun sys => (cr_Username (srv_auth (sy_server sys)), ln_transport (sy_listener sys),
                                      match sy_notifier sys with Discord n => url_Host (dn_webhook n) | DiscardNotifier => "" end))
                         id (start (GR := listed_range) (GW := plain_web) [] mc))
    [machine defaults ∅; machine hooked ∅;
     machine (("LOGTHING_NOTIFIER", "discord") :: ("LOGTHING_DISCORD_WEBHOOK_URL", "http://a/b") :: defaults) ∅;
     machine defaults {["custom/state/incidents.json" := "{"]}]
  = [inl ("admin", "udp/tcp", ""); inl ("admin", "udp/tcp", "discord.example");
     inr (no_notifier "Discord webhook URL must use HTTPS"); inr (no_state err_state_decode)].
Proof. vm_compute. reflexivity. Qed.
