(* ===== verification/Programs.v ===== *)
(** The two programs: what [run] of [cmd/server/main.go] does once it serves,
    until it returns, and [cmd/syslogsend/main.go], which sends one message from
    the command line. *)
From Stdlib Require Import Ascii ZArith.
From S2P Require Import Prelude.
From S2P Require Import GoStd.
From S2P Require Import GoLib.
From S2P Require Import Syslog.
From S2P Require Import Listening.
From S2P Require Import Configuration.
Local Open Scope string_scope.

(** * The server *)

(** [ListenAndServe] in its goroutine: it listens, or it has returned and
    [serverErr] was sent its error and closed; [ErrServerClosed] is not sent. *)
Inductive http_state : Type :=
| listening
| stopped (err : option string).

(** The consumer of the syslog listener: storing a packet, or at its [select];
    [queued] packets are in the channel. *)
Inductive consumer : Type :=
| storing (queued : nat)
| selecting (queued : nat).

Definition queued_of (c : consumer) : nat := match c with storing n | selecting n => n end.

(** Where [run] is: in the [select]; in [Shutdown], with its deadline and when it
    looks next whether the connections are idle; at the last receive; in the
    deferred [listener.Shutdown()], with what it is to return, waiting for the
    consumer; done. *)
Inductive run_phase : Type :=
| serving
| shutting_down (deadline poll : Time)
| collecting
| leaving (err : option string) (c : consumer)
| returned (err : option string).

Record Run : Type := mkRun {
  rn_phase : run_phase;
  rn_signalled : bool;
  rn_http : http_state;
  rn_busy : nat;
  rn_now : Time
}.

(** The context is done when a signal came; [rn_busy] is the number of connections
    that are not idle, which an event stream is as long as it is open. *)
Definition begin_serving (now : Time) : Run := mkRun serving false listening 0 now.

Definition set_phase (phase : run_phase) (r : Run) : Run :=
  mkRun phase (rn_signalled r) (rn_http r) (rn_busy r) (rn_now r).

Definition shutdown_timeout : Duration := (10 * Second)%Z.
Definition deadline_exceeded : string := "context deadline exceeded".

(** The pauses between two looks of [Shutdown]: from a millisecond to half a
    second and a tenth. *)
Definition Millisecond : Duration := 1000000%Z.
Definition poll_pause (pause : Duration) : Prop := (Millisecond <= pause <= 550 * Millisecond)%Z.

(** Time passes only while nothing can be done, and while a packet is stored. *)
Definition may_wait (r : Run) (until : Time) : Prop :=
  match rn_phase r with
  | serving => rn_signalled r = false /\ rn_http r = listening
  | shutting_down deadline poll => (until <= deadline)%Z /\ (until <= poll)%Z
  | collecting | leaving _ _ | returned _ => False
  end.

(** [slowest] is the longest the store takes for one packet.  When [run] leaves,
    [done] is closed and the syslog server is killed, after which it queues no
    more: the consumer stores what it has in hand, takes any of what is queued or
    ends, and [run] returns when it has ended. *)
Section Run.
Context (slowest : Duration).

Inductive run_step (r : Run) : Run -> Prop :=
| run_signal :
    rn_signalled r = false -> (forall err, rn_phase r <> returned err) ->
    run_step r (mkRun (rn_phase r) true (rn_http r) (rn_busy r) (rn_now r))
| run_request :
    rn_phase r = serving -> rn_http r = listening ->
    run_step r (mkRun (rn_phase r) (rn_signalled r) (rn_http r) (S (rn_busy r)) (rn_now r))
| run_answered busy :
    rn_busy r = S busy -> (forall err, rn_phase r <> returned err) ->
    run_step r (mkRun (rn_phase r) (rn_signalled r) (rn_http r) busy (rn_now r))
| run_http_fails what :
    rn_http r = listening -> (forall err, rn_phase r <> returned err) ->
    run_step r (mkRun (rn_phase r) (rn_signalled r) (stopped (Some what)) (rn_busy r) (rn_now r))
| run_http_closed :
    rn_http r = listening -> rn_phase r <> serving -> (forall err, rn_phase r <> returned err) ->
    run_step r (mkRun (rn_phase r) (rn_signalled r) (stopped None) (rn_busy r) (rn_now r))
| run_waits later :
    (rn_now r < later)%Z -> may_wait r later ->
    run_step r (mkRun (rn_phase r) (rn_signalled r) (rn_http r) (rn_busy r) later)
| run_select_done :
    rn_phase r = serving -> rn_signalled r = true ->
    run_step r (set_phase (shutting_down (rn_now r + shutdown_timeout) (rn_now r)) r)
| run_select_error err c :
    rn_phase r = serving -> rn_http r = stopped err -> queued_of c <= channel_capacity ->
    run_step r (set_phase (leaving err c) r)
| run_poll_idle deadline poll :
    rn_phase r = shutting_down deadline poll -> (poll <= rn_now r)%Z -> rn_busy r = O ->
    run_step r (set_phase collecting r)
| run_poll_busy deadline poll pause :
    rn_phase r = shutting_down deadline poll -> (poll <= rn_now r)%Z -> rn_busy r <> O -> poll_pause pause ->
    run_step r (set_phase (shutting_down deadline (rn_now r + pause)) r)
| run_expired deadline poll c :
    rn_phase r = shutting_down deadline poll -> (deadline <= rn_now r)%Z -> queued_of c <= channel_capacity ->
    run_step r (set_phase (leaving (Some deadline_exceeded) c) r)
| run_collect err c :
    rn_phase r = collecting -> rn_http r = stopped err -> queued_of c <= channel_capacity ->
    run_step r (set_phase (leaving err c) r)
| run_packet_stored err queued took :
    rn_phase r = leaving err (storing queued) -> (0 <= took <= slowest)%Z ->
    run_step r (mkRun (leaving err (selecting queued)) (rn_signalled r) (rn_http r) (rn_busy r) (rn_now r + took))
| run_packet_taken err queued :
    rn_phase r = leaving err (selecting (S queued)) -> run_step r (set_phase (leaving err (storing queued)) r)
| run_consumer_ends err queued :
    rn_phase r = leaving err (selecting queued) -> run_step r (set_phase (returned err) r).
End Run.


(** [main]: the exit status. *)
Definition exit_status (err : option string) : Z := match err with None => 0 | Some _ => 1 end.

(** * Sending one message *)

(** ** [strconv.ParseInt] with base 0, and package flag *)

Definition lower (c : ascii) : Z := Z.lor (byte_of c) 32.

(** A digit of a base up to 36. *)
Definition base_digit (c : ascii) : option Z :=
  match digit_value c with
  | Some d => Some d
  | None => let d := (lower c - 97)%Z in if ((0 <=? d) && (d <=? 25))%Z then Some (d + 10)%Z else None
  end.

(** The digits; underscores are skipped. *)
Fixpoint based (base acc : Z) (s : string) : option Z :=
  match s with
  | EmptyString => Some acc
  | String c s =>
    if Ascii.eqb c "_" then based base acc s
    else match base_digit c with
    | Some d => if (d <? base)%Z then based base (acc * base + d) s else None
    | None => None
    end
  end.

(** The base a literal states and its digits. *)
Definition base_prefix (s : string) : Z * string :=
  match s with
  | String "0" (String c (String _ _ as digits)) =>
    if (lower c =? 98)%Z then (2, digits)
    else if (lower c =? 111)%Z then (8, digits)
    else if (lower c =? 120)%Z then (16, digits)
    else (8, String c digits)
  | String "0" rest => (8, rest)
  | _ => (10, s)
  end%Z.

(** Underscores separate digits only; a base prefix counts as a digit. *)
Inductive previous : Type := at_start | a_digit | an_underscore | another.

Fixpoint underscores_ok (hex : bool) (i : previous) (s : string) : bool :=
  match s with
  | EmptyString => match i with an_underscore => false | _ => true end
  | String c s =>
    let l := lower c in
    if bool_decide (is_Some (digit_value c)) || hex && (97 <=? l)%Z && (l <=? 102)%Z
    then underscores_ok hex a_digit s
    else if Ascii.eqb c "_"
    then match i with a_digit => underscores_ok hex an_underscore s | _ => false end
    else match i with an_underscore => false | _ => underscores_ok hex another s end
  end.

Definition underscoreOK (s : string) : bool :=
  match s with
  | String "0" (String c rest) =>
    let l := lower c in
    if ((l =? 98) || (l =? 111) || (l =? 120))%Z then underscores_ok (l =? 120)%Z a_digit rest
    else underscores_ok false at_start s
  | _ => underscores_ok false at_start s
  end.

Definition parse_unsigned (s : string) : option Z :=
  if String.eqb s "" then None
  else let '(base, digits) := base_prefix s in
       match based base 0 digits with
       | Some z => if bool_decide (is_Some (IndexByte s "_")) && negb (underscoreOK s) then None else Some z
       | None => None
       end.

Definition ParseInt (s : string) : option Z :=
  let v := match s with
           | String "-" s => Z.opp <$> parse_unsigned s
           | String "+" s => parse_unsigned s
           | _ => parse_unsigned s
           end in
  match v with
  | Some z => if ((- max_int - 1 <=? z) && (z <=? max_int))%Z then Some z else None
  | None => None
  end.

Example parsed_ints :
  map ParseInt ["5"; "-5"; "+5"; "010"; "0x1F"; "0b11"; "1_000"; "_1"; "1__0"; "0x_f"; "0"; "0x"; ""; "5a"; "9223372036854775808"]
  = [Some 5; Some (-5); Some 5; Some 8; Some 31; Some 3; Some 1000; None; None; Some 15; Some 0; None; None; None; None]%Z.
Proof. vm_compute. reflexivity. Qed.

(** The flags and what they are set to. *)
Record Flags : Type := mkFlags {
  fl_network : string;
  fl_addr : string;
  fl_message : string;
  fl_hostname : string;
  fl_app : string;
  fl_procid : string;
  fl_msgid : string;
  fl_facility : Z;
  fl_severity : Z;
  fl_timeout : Duration
}.

Definition default_flags (pr : Process) : Flags :=
  mkFlags "udp" "127.0.0.1:5514" DefaultTestMessage "" "logthing-sender" (Itoa (pr_pid pr)) "manual-test" 1 5
    (5 * Second)%Z.

(** Why the command line is refused. *)
Inductive flag_error : Type :=
| help_requested
| bad_syntax (arg : string)
| not_defined (name : string)
| needs_argument (name : string)
| invalid_value (name value : string).

(** [flag.Value.Set]; [None]: no such flag. *)
Definition set_flag (name value : string) (f : Flags) : option (Flags + flag_error) :=
  let '(mkFlags network addr message hostname app procid msgid facility severity timeout) := f in
  let number (set : Z -> Flags) (parsed : option Z) :=
    Some (match parsed with Some z => inl (set z) | None => inr (invalid_value name value) end) in
  if String.eqb name "network"
  then Some (inl (mkFlags value addr message hostname app procid msgid facility severity timeout))
  else if String.eqb name "addr"
  then Some (inl (mkFlags network value message hostname app procid msgid facility severity timeout))
  else if String.eqb name "message"
  then Some (inl (mkFlags network addr value hostname app procid msgid facility severity timeout))
  else if String.eqb name "hostname"
  then Some (inl (mkFlags network addr message value app procid msgid facility severity timeout))
  else if String.eqb name "app"
  then Some (inl (mkFlags network addr message hostname value procid msgid facility severity timeout))
  else if String.eqb name "procid"
  then Some (inl (mkFlags network addr message hostname app value msgid facility severity timeout))
  else if String.eqb name "msgid"
  then Some (inl (mkFlags network addr message hostname app procid value facility severity timeout))
  else if String.eqb name "facility"
  then number (fun z => mkFlags network addr message hostname app procid msgid z severity timeout) (ParseInt value)
  else if String.eqb name "severity"
  then number (fun z => mkFlags network addr message hostname app procid msgid facility z timeout) (ParseInt value)
  else if String.eqb name "timeout"
  then number (fun z => mkFlags network addr message hostname app procid msgid facility severity z) (ParseDuration value)
  else None.

(** How an argument reads. *)
Inductive argument : Type :=
| operand
| terminator
| malformed
| flag_named (name : string) (value : option string).

(** The name up to an "=" that is not its first byte. *)
Definition split_value (name : string) : string * option string :=
  match IndexByte name "=" with
  | Some i => (stake i name, Some (sdrop (S i) name))
  | None => (name, None)
  end.

Definition read_argument (arg : string) : argument :=
  match arg with
  | String "-" (String c rest) =>
    if String.eqb arg "--" then terminator
    else
      let name := if Ascii.eqb c "-" then rest else String c rest in
      match name with
      | EmptyString => malformed
      | String d _ =>
        if Ascii.eqb d "-" || Ascii.eqb d "=" then malformed
        else let '(name, value) := split_value name in flag_named name value
      end
  | _ => operand
  end.

(** [flag.Parse]; what follows the flags is not looked at. *)
Fixpoint parse_flags (args : list string) (f : Flags) : Flags + flag_error :=
  match args with
  | [] => inl f
  | arg :: rest =>
    match read_argument arg with
    | operand | terminator => inl f
    | malformed => inr (bad_syntax arg)
    | flag_named name value =>
      match set_flag name "" f with
      | None => inr (if String.eqb name "help" || String.eqb name "h" then help_requested else not_defined name)
      | Some _ =>
        let set value rest := match set_flag name value f with
                              | Some (inl f) => parse_flags rest f
                              | Some (inr err) => inr err
                              | None => inr (not_defined name)
                              end in
        match value with
        | Some value => set value rest
        | None => match rest with [] => inr (needs_argument name) | value :: rest => set value rest end
        end
      end
    end
  end.

(** ** The program *)

(** How it ends: with what was sent and what it prints; with a usage error; with
    a fatal one. *)
Inductive sent : Type :=
| sent_message (result : SendResult) (printed : string)
| bad_usage (err : flag_error)
| fatal (what : string).

Definition sent_status (s : sent) : Z :=
  match s with sent_message _ _ => 0 | bad_usage help_requested => 0 | bad_usage _ => 2 | fatal _ => 1 end.

Definition flags_event (pr : Process) (f : Flags) : Event :=
  mkEvent (pr_now pr) (fl_hostname f) (fl_app f) (fl_procid f) (fl_msgid f) (fl_facility f) (fl_severity f) (fl_message f).

(** The context of the call ends after the timeout as it was given, so the dialer
    finds it done, with the error [expired], when that is not positive. *)
Definition syslogsend {GT : GoText} (pr : Process) (expired : string) (outcome : delivery) (args : list string) : sent :=
  match parse_flags args (default_flags pr) with
  | inr err => bad_usage err
  | inl f =>
    match NewSender (fl_network f) (fl_addr f) (fl_timeout f) with
    | inr what => fatal what
    | inl sender =>
      match Sender_Send sender pr (if (fl_timeout f <=? 0)%Z then connect_failed expired else outcome) (flags_event pr f) with
      | inr what => fatal what
      | inl result =>
        sent_message result
          ("sent " +:+ sd_Network result +:+ " syslog message to " +:+ sd_Address result +:+ newline)
      end
    end
  end.
