(* ===== verification/ProgramsProps.v ===== *)
(** How the server ends, and what the sender sends. *)
From Stdlib Require Import Ascii ZArith Lia.
From S2P Require Import Prelude.
From S2P Require Import GoStd.
From S2P Require Import GoLib.
From S2P Require Import GoInstances.
From S2P Require Import Syslog.
From S2P Require Import SyslogProps.
From S2P Require Import Listening.
From S2P Require Import Configuration.
From S2P Require Import Programs.
Local Open Scope string_scope.

(** * The server *)

Section Server.
Context (slowest : Duration).
Hypothesis slowest_nonneg : (0 <= slowest)%Z.

Abbreviation step := (run_step slowest).

(** Whatever is done next, [P] is reached after finitely many steps. *)
Inductive inevitable (P : Run -> Prop) (r : Run) : Prop :=
| inevitable_now : P r -> inevitable P r
| inevitable_next r' : step r r' -> (forall r', step r r' -> inevitable P r') -> inevitable P r.

Lemma inevitable_measure (I : Run -> Prop) (m : Run -> nat) (P : Run -> Prop) :
  (forall r, I r -> P r \/ (exists r', step r r') /\ forall r', step r r' -> I r' /\ m r' < m r) ->
  forall r, I r -> inevitable P r.
Proof.
  intros H r. remember (m r) as n eqn:En. revert r En. induction (lt_wf n) as [n _ IH]. intros r -> Hi.
  destruct (H r Hi) as [Hp|[[r1 Hr1] Hall]]; [by apply inevitable_now|]. apply (inevitable_next _ _ r1 Hr1).
  intros r' Hr'. destruct (Hall r' Hr') as [Hi' Hlt]. by eapply IH.
Qed.

(** ** Waiting for the consumer *)

(** The packets the consumer may still store. *)
Definition packets (c : consumer) : Z :=
  match c with storing n => Z.of_nat n + 1 | selecting n => Z.of_nat n end.

Definition consumer_left (c : consumer) : nat :=
  match c with storing n => 2 * n + 3 | selecting n => 2 * n + 2 end.

Definition other_work (r : Run) : nat :=
  (if rn_signalled r then 0 else 1) + rn_busy r + match rn_http r with listening => 1 | stopped _ => 0 end.

(** What [run] returns is known ([V]), and the time it may take. *)
Definition leaving_by (limit : Time) (V : option string -> Run -> Prop) (r : Run) : Prop :=
  match rn_phase r with
  | leaving err c => (rn_now r + packets c * slowest <= limit)%Z /\ V err r
  | returned err => (rn_now r <= limit)%Z /\ V err r
  | _ => False
  end.

Definition returned_by (limit : Time) (V : option string -> Run -> Prop) (r : Run) : Prop :=
  exists err, rn_phase r = returned err /\ (rn_now r <= limit)%Z /\ V err r.

(** What happens meanwhile does not change what is to be returned. *)
Definition lasting (V : option string -> Run -> Prop) : Prop :=
  forall err r r', V err r -> (rn_http r = listening \/ rn_http r' = rn_http r) -> rn_busy r' <= rn_busy r ->
    (rn_now r <= rn_now r')%Z -> V err r'.

Definition leaving_left (r : Run) : nat :=
  other_work r + match rn_phase r with leaving _ c => consumer_left c | _ => 0 end.

Lemma leaving_goes_on limit V r :
  lasting V -> leaving_by limit V r ->
  returned_by limit V r
  \/ (exists r', step r r') /\ forall r', step r r' -> leaving_by limit V r' /\ leaving_left r' < leaving_left r.
Proof.
  destruct r as [phase signalled http busy now]. intros HV. unfold leaving_by, leaving_left, other_work. cbn.
  destruct phase as [|d poll| |err c|err]; [done..| |intros [Hl Hv]; left; by exists err]. intros [Hl Hv]. right. split.
  { destruct c as [n|n].
    - eexists. apply (run_packet_stored slowest _ err n 0); [done|lia].
    - eexists. by apply (run_consumer_ends slowest _ err n). }
  intros r' Hstep. inversion Hstep; unfold set_phase, may_wait in *; cbn in *; simplify_eq; try done;
    (split; [split; [try lia|eapply HV; [exact Hv|cbn; auto; fail|cbn; lia|cbn; lia]]|try (cbn [consumer_left] in *; lia)]).
  all: cbn [packets] in Hl; nia.
Qed.

(** ** From the signal on *)

(** The result of a shutdown that was to be over by [deadline]. *)
Definition shutdown_verdict (deadline : Time) (err : option string) (r : Run) : Prop :=
  match err with
  | None => rn_http r = stopped None /\ rn_busy r = O
  | Some what => rn_http r = stopped (Some what) /\ rn_busy r = O
                 \/ what = deadline_exceeded /\ (deadline <= rn_now r)%Z
  end.

Lemma verdict_lasting deadline : lasting (shutdown_verdict deadline).
Proof.
  intros [what|] r r'; unfold shutdown_verdict.
  - intros [[Hh Hb]|[-> Hd]] Hhttp Hbusy Hnow; [left|right; split; [done|lia]].
    destruct Hhttp as [?|E]; [congruence|]. split; [congruence|lia].
  - intros [Hh Hb] Hhttp Hbusy Hnow. destruct Hhttp as [?|E]; [congruence|]. split; [congruence|lia].
Qed.

(** All packets that may be queued, and the one in hand. *)
Definition last_packets : Duration := ((Z.of_nat channel_capacity + 1) * slowest)%Z.

Definition ending (deadline : Time) (r : Run) : Prop :=
  match rn_phase r with
  | serving => False
  | shutting_down d poll => d = deadline /\ (rn_now r <= deadline)%Z
  | collecting => (rn_now r <= deadline)%Z /\ rn_busy r = O
  | leaving _ _ | returned _ => leaving_by (deadline + last_packets) (shutdown_verdict deadline) r
  end.

Definition left_to_do (deadline : Time) (r : Run) : nat :=
  match rn_phase r with
  | shutting_down _ poll =>
    other_work r + (2 * channel_capacity + 6) + (if (poll <=? rn_now r)%Z then 1 else 0)
    + 2 * Z.to_nat (deadline - rn_now r)
  | collecting => other_work r + (2 * channel_capacity + 5)
  | _ => leaving_left r
  end.

Lemma packets_bound c : queued_of c <= channel_capacity -> (packets c * slowest <= last_packets)%Z.
Proof.
  intros Hc. unfold last_packets. apply Z.mul_le_mono_nonneg_r; [done|]. unfold packets. destruct c; cbn in Hc; lia.
Qed.

Lemma consumer_left_bound c : queued_of c <= channel_capacity -> consumer_left c <= 2 * channel_capacity + 3.
Proof. unfold consumer_left, queued_of. destruct c; intros; lia. Qed.

#[local] Opaque channel_capacity.

Lemma ending_step deadline r r' :
  ending deadline r -> step r r' -> (forall err c, rn_phase r <> leaving err c) ->
  (forall err, rn_phase r <> returned err) ->
  ending deadline r' /\ left_to_do deadline r' < left_to_do deadline r.
Proof.
  destruct r as [phase signalled http busy now]. unfold ending, left_to_do, leaving_left, other_work. cbn [rn_phase rn_now rn_busy rn_signalled rn_http].
  intros Hp Hstep Hl Hr. destruct phase as [|d poll| |err c|err]; [done| | |by destruct (Hl err c)|by destruct (Hr err)].
  - destruct Hp as [-> Hn].
    inversion Hstep as [| | | | |later Hlt Hw| | |d' poll' Hph Hpoll Hb|d' poll' pause Hph Hpoll Hb Hpause|d' poll' c Hph Hd Hc| | | |];
      unfold set_phase, may_wait in *; cbn in *; simplify_eq; try (split; [done|lia]).
    + split; [lia|]. destruct (Z.leb_spec poll now), (Z.leb_spec poll later); lia.
    + split; [done|]. unfold poll_pause, Millisecond in Hpause.
      destruct (Z.leb_spec poll' now), (Z.leb_spec (now + pause) now); lia.
    + pose proof (packets_bound c Hc). pose proof (consumer_left_bound c Hc). unfold leaving_by. cbn.
      split; [split; [lia|right; by split]|lia].
  - destruct Hp as [Hn Hb].
    inversion Hstep as [| | | | | | | | | | |err c Hph Hh Hc| | |]; unfold set_phase, may_wait in *; cbn in *; simplify_eq;
      try (split; [done|lia]).
    pose proof (packets_bound c Hc). pose proof (consumer_left_bound c Hc). unfold leaving_by. cbn.
    split; [split; [lia|]|lia]. destruct err as [what|]; cbn; [left|]; by split.
Qed.

#[local] Transparent channel_capacity.

Lemma ending_progress deadline r :
  ending deadline r -> (forall err c, rn_phase r <> leaving err c) -> (forall err, rn_phase r <> returned err) ->
  exists r', step r r'.
Proof.
  destruct r as [phase signalled http busy now]. intros Hp Hl Hr. cbn in *.
  destruct phase as [|d poll| |err c|err]; [done| | |by destruct (Hl err c)|by destruct (Hr err)].
  - cbn in Hp. destruct Hp as [-> Hn]. destruct (Z.leb_spec poll now) as [Hpoll|Hpoll].
    + destruct busy as [|busy].
      * eexists. by eapply run_poll_idle.
      * eexists. eapply (run_poll_busy _ _ deadline poll Millisecond); cbn; try done.
    + destruct (Z.leb_spec deadline now) as [Hd|Hd].
      * eexists. eapply (run_expired _ _ deadline poll (selecting 0)); cbn; try done. unfold channel_capacity. lia.
      * eexists. apply (run_waits _ _ (Z.min deadline poll)); cbn; [lia|unfold may_wait; cbn; lia].
  - destruct http as [|err].
    + eexists. by apply run_http_closed.
    + eexists. eapply (run_collect _ _ err (selecting 0)); cbn; try done. unfold channel_capacity. lia.
Qed.

Lemma ending_inevitable deadline r :
  ending deadline r -> inevitable (returned_by (deadline + last_packets) (shutdown_verdict deadline)) r.
Proof.
  apply (inevitable_measure _ (left_to_do deadline)). clear r. intros r He.
  assert (H : (exists err c, rn_phase r = leaving err c) \/ (exists err, rn_phase r = returned err)
              \/ (forall err c, rn_phase r <> leaving err c) /\ (forall err, rn_phase r <> returned err)).
  { destruct (rn_phase r) as [| | |err c|err]; [right; right; by split..|left; by exists err, c|right; left; by exists err]. }
  destruct H as [(err & c & Hp)|[[err Hp]|[Hl Hr]]].
  3: { right. split; [by eapply ending_progress|]. intros r' Hs. by apply ending_step. }
  all: assert (Hb : leaving_by (deadline + last_packets) (shutdown_verdict deadline) r) by (unfold ending in He; by rewrite Hp in He).
  all: destruct (leaving_goes_on _ _ r (verdict_lasting deadline) Hb) as [?|[Hex Hall]]; [by left|right; split; [done|]].
  all: intros r' Hs; destruct (Hall r' Hs) as [Hb' Hlt]; unfold ending, left_to_do; rewrite Hp; unfold leaving_by in Hb' |- *;
    destruct (rn_phase r'); done.
Qed.

(** C22: once the server has seen the signal, whatever happens it returns after
    finitely many steps, and within ten seconds and the time the store takes for
    the packets the syslog listener has in hand, at most 1025.  It returns success
    only when every request was answered, and otherwise the error of the HTTP
    server or, ten seconds after the signal, the one of the deadline.  Without a
    signal it returns what the HTTP server ended on, after the same packets. *)
Theorem shutdown_ends_in_time (r r' : Run) :
  rn_phase r = serving -> step r r' -> rn_phase r' <> serving ->
  inevitable (returned_by (rn_now r + 10 * Second + 1025 * slowest) (shutdown_verdict (rn_now r + 10 * Second))) r'
  \/ exists err, rn_http r = stopped err
     /\ inevitable (returned_by (rn_now r + 1025 * slowest) (fun err' _ => err' = err)) r'.
Proof.
  assert (Hlast : last_packets = (1025 * slowest)%Z) by reflexivity.
  intros Hp Hstep Hp'. inversion Hstep as [| | | | | |_ Hs|err c _ Hh Hc| | | | | | |]; subst; cbn in *; try congruence.
  - left. rewrite <- Hlast. apply ending_inevitable. unfold ending, set_phase, shutdown_timeout, Second. cbn. lia.
  - right. exists err. split; [done|]. pose proof (packets_bound c Hc) as Hpk. rewrite Hlast in Hpk.
    apply (inevitable_measure (leaving_by (rn_now r + 1025 * slowest) (fun err' _ => err' = err)) leaving_left).
    + intros r' Hi. apply leaving_goes_on; [|done]. by intros err' ? ? ->.
    + unfold leaving_by. cbn. split; [lia|done].
Qed.

(** An event stream stays open as long as the browser does: [Shutdown] does not end
    the requests it waits for. *)
Lemma busy_run_fails deadline limit r :
  returned_by limit (shutdown_verdict deadline) r -> rn_busy r <> O ->
  rn_phase r = returned (Some deadline_exceeded) /\ (deadline <= rn_now r)%Z.
Proof.
  intros (err & Hp & _ & Hv) Hb. destruct err as [what|]; cbn in Hv; [|by destruct Hv].
  destruct Hv as [[_ ?]|[-> Hd]]; [done|]. by split.
Qed.
End Server.

(** A browser shows messages as they come in when the signal arrives. *)
Definition watched : Run := mkRun serving true listening 1 0.

Lemma shutdown_ends_in_time_witness :
  inevitable Second (returned_by (0 + 10 * Second + 1025 * Second) (shutdown_verdict (0 + 10 * Second)))
    (mkRun (shutting_down (10 * Second) 0) true listening 1 0)
  \/ exists err, listening = stopped err
     /\ inevitable Second (returned_by (0 + 1025 * Second) (fun err' _ => err' = err))
          (mkRun (shutting_down (10 * Second) 0) true listening 1 0).
Proof.
  apply (shutdown_ends_in_time Second ltac:(discriminate) watched (mkRun (shutting_down (10 * Second) 0) true listening 1 0)).
  - reflexivity.
  - exact (run_select_done Second watched eq_refl eq_refl).
  - discriminate.
Defined.

(** * The sender *)

(** A flag as it may be given: with one dash or two, its value behind "=" or as the
    next argument. *)
Record given : Type := mkGiven { gv_dashes : bool; gv_joined : bool; gv_name : string; gv_value : string }.

Definition given_args (g : given) : list string :=
  let dashes := if gv_dashes g then "--" else "-" in
  if gv_joined g then [dashes +:+ gv_name g +:+ "=" +:+ gv_value g] else [dashes +:+ gv_name g; gv_value g].

(** The flags they set, one after the other. *)
Fixpoint settings (gs : list given) (f : Flags) : option Flags :=
  match gs with
  | [] => Some f
  | g :: gs =>
    match set_flag (gv_name g) (gv_value g) f with Some (inl f) => settings gs f | _ => None end
  end.

Definition flag_names : list string :=
  ["network"; "addr"; "message"; "hostname"; "app"; "procid"; "msgid"; "facility"; "severity"; "timeout"].

Lemma set_flag_name name value f x : set_flag name value f = Some x -> name ∈ flag_names.
Proof.
  intros Hx. destruct f. unfold set_flag in Hx.
  repeat match type of Hx with (if String.eqb ?n ?s then _ else _) = _ => destruct (String.eqb_spec n s) as [->|] end;
    first [done|by apply (bool_decide_unpack _)].
Qed.

Lemma set_flag_defined name value value' f : is_Some (set_flag name value f) -> is_Some (set_flag name value' f).
Proof.
  destruct f. unfold set_flag.
  repeat match goal with |- context [if String.eqb ?n ?s then _ else _] => destruct (String.eqb_spec n s) as [->|] end;
    intros; try done; by eexists.
Qed.

(** No name needs quoting. *)
Lemma flag_name_plain name :
  name ∈ flag_names ->
  IndexByte name "=" = None
  /\ match name with String d _ => Ascii.eqb d "-" = false /\ Ascii.eqb d "=" = false | EmptyString => False end.
Proof. intros H. repeat (apply elem_of_cons in H as [->|H]; [done|]). by apply elem_of_nil in H. Qed.

Lemma split_value_cut name :
  split_value name = match cut_at "=" name with Some (name, value) => (name, Some value) | None => (name, None) end.
Proof. unfold split_value, cut_at. by destruct (IndexByte name "="). Qed.

Lemma read_given name (two : bool) (value : option string) :
  name ∈ flag_names ->
  read_argument ((if two then "--" else "-") +:+ name +:+ match value with Some v => "=" +:+ v | None => "" end)
  = flag_named name value.
Proof.
  intros Hn. destruct (flag_name_plain name Hn) as [Hi Hh].
  destruct name as [|d name]; [done|]. destruct Hh as [H1 H2].
  set (tail := match value with Some v => "=" +:+ v | None => "" end).
  assert (Hsplit : split_value (String d (name +:+ tail)) = (String d name, value)).
  { rewrite split_value_cut, <- scons_app. unfold tail. destruct value as [v|].
    - change ("=" +:+ v) with (String "=" v). by rewrite cut_at_app.
    - rewrite sapp_nil_r. unfold cut_at. by rewrite Hi. }
  rewrite scons_app. destruct two; rewrite !scons_app, ?snil_app; unfold read_argument.
  - change (String.eqb (String "-" (String "-" (String d (name +:+ tail)))) "--") with false.
    cbn [Ascii.eqb Bool.eqb]. by rewrite H1, H2, Hsplit.
  - assert (String.eqb (String "-" (String d (name +:+ tail))) "--" = false) as ->.
    { apply String.eqb_neq. intros [= -> _]. done. }
    by rewrite H1, H1, H2, Hsplit.
Qed.

Lemma parse_given gs f f' : settings gs f = Some f' -> parse_flags (flat_map given_args gs) f = inl f'.
Proof.
  revert f. induction gs as [|[two joined name value] gs IH]; intros f; cbn [settings flat_map]; [by intros [= ->]|].
  cbn [gv_name gv_value]. destruct (set_flag name value f) as [[f1|]|] eqn:Hset; [|done|done]. intros Hgs.
  pose proof (set_flag_name _ _ _ _ Hset) as Hn.
  assert (Hd : is_Some (set_flag name "" f)) by (eapply set_flag_defined; by eexists).
  destruct Hd as [x Hd]. unfold given_args. cbn [gv_dashes gv_joined gv_name gv_value]. destruct joined.
  - cbn [app parse_flags]. rewrite (read_given name two (Some value) Hn), Hd, Hset. by apply IH.
  - pose proof (read_given name two None Hn) as Hr. cbn match in Hr. rewrite sapp_nil_r in Hr.
    cbn [app parse_flags]. rewrite Hr, Hd, Hset. by apply IH.
Qed.

(** [syslogsend] sends what its command line says:
    however the flags are written, in whatever order and with the last of several
    counting, one packet goes to the address they name, and, if the fields are such
    as a packet can carry, it reads back as what they give, the ones not given
    having their defaults. *)
Theorem syslogsend_sends_flags {GT : GoText} (pr : Process) (expired : string) (gs : list given) (f : Flags)
    (sender : Sender) :
  settings gs (default_flags pr) = Some f -> NewSender (fl_network f) (fl_addr f) (fl_timeout f) = inl sender ->
  (0 < fl_timeout f)%Z ->
  let e := completed pr (flags_event pr f) in
  carried e ->
  exists payload,
    syslogsend pr expired delivered (flat_map given_args gs)
    = sent_message (mkSendResult (sn_network sender) (sn_address sender)
                      (srev (trim_left_set (Ascii.eqb (ascii_of_nat 10)) (srev payload))))
        ("sent " +:+ sn_network sender +:+ " syslog message to " +:+ sn_address sender +:+ newline)
    /\ read_packet payload
       = Some (mkPacket (se_Facility e) (se_Severity e) (pr_now pr / Second * Second) (single_word (se_Hostname e))
                 (single_word (se_AppName e)) (single_word (se_ProcID e)) (single_word (se_MsgID e)) (se_Message e), "").
Proof.
  intros Hgs Hsender Htimeout e He. exists (FormatRFC5424 pr (flags_event pr f)). split.
  - unfold syslogsend. by rewrite (parse_given _ _ _ Hgs), Hsender, (proj2 (Z.leb_gt _ _)) by done.
  - rewrite <- (sapp_nil_r (FormatRFC5424 _ _)), packet_reads_back by done. fold e. repeat f_equal.
    unfold e, completed. cbn. by case_match.
Qed.

(** The context of the call takes the timeout as it was given, which [NewSender]
    replaces when it is not positive: nothing can be sent then. *)
Lemma no_timeout_no_message {GT : GoText} pr expired outcome args f :
  parse_flags args (default_flags pr) = inl f -> (fl_timeout f <= 0)%Z ->
  exists what, syslogsend pr expired outcome args = fatal what.
Proof.
  intros Hf Ht. unfold syslogsend. rewrite Hf, (proj2 (Z.leb_le _ _)) by done.
  destruct (NewSender _ _ _); by eexists.
Qed.

Definition by_hand : list given :=
  [mkGiven false false "severity" "0x4"; mkGiven true true "app" "link watch"; mkGiven false true "severity" "3";
   mkGiven false false "message" "a=b"].

Example command_line :
  flat_map given_args by_hand = ["-severity"; "0x4"; "--app=link watch"; "-severity=3"; "-message"; "a=b"].
Proof. reflexivity. Qed.

Example refused :
  map (fun args => match parse_flags args (default_flags process) with inl f => inl (fl_app f) | inr err => inr err end)
    [["-h"]; ["-app"]; ["-x"; "1"]; ["-severity=high"]; ["---app"]; ["to"; "-app"]; ["-app="; "--"; "-x"]]
  = [inr help_requested; inr (needs_argument "app"); inr (not_defined "x"); inr (invalid_value "severity" "high");
     inr (bad_syntax "---app"); inl "logthing-sender"; inl ""].
Proof. vm_compute. reflexivity. Qed.

Lemma syslogsend_sends_flags_witness :
  exists payload,
    syslogsend process "i/o timeout" delivered (flat_map given_args by_hand)
    = sent_message (mkSendResult "udp" "127.0.0.1:5514" (srev (trim_left_set (Ascii.eqb (ascii_of_nat 10)) (srev payload))))
        ("sent udp syslog message to 127.0.0.1:5514" +:+ newline)
    /\ read_packet payload
       = Some (mkPacket 1 3 (Date 2026 9 18 12 0 0) "my_host" "link_watch" "4242" "manual-test" "a=b", "").
Proof.
  apply (syslogsend_sends_flags process "i/o timeout" by_hand
    (mkFlags "udp" "127.0.0.1:5514" "a=b" "" "link watch" "4242" "manual-test" 1 3 (5 * Second))
    (mkSender "udp" "127.0.0.1:5514" (5 * Second))).
  - reflexivity.
  - reflexivity.
  - reflexivity.
  - apply carried_computed; vm_compute; reflexivity.
Defined.
