(* ===== verification/ApiProps.v ===== *)
(** Properties of the HTTP API: who is not authenticated learns and changes
    nothing; imported messages are well formed; an import that fails has stored
    exactly the lines before the failure. *)
From Stdlib Require Import Ascii ZArith Lia.
From S2P Require Import Prelude.
From S2P Require Import GoStd.
From S2P Require Import GoLib.
From S2P Require Import GoInstances.
From S2P Require Import GoTime.
From S2P Require Import Model.
From S2P Require Import Classify.
From S2P Require Import EngineState.
From S2P Require Import Engine.
From S2P Require Import Storage.
From S2P Require Import StorageHistory.
From S2P Require Import StorageProps.
From S2P Require Import Notify.
From S2P Require Import Worker.
From S2P Require Import Hub.
From S2P Require Import HubProps.
From S2P Require Import Api.
From S2P Require Import Import.
From S2P Require Import Router.
From S2P Require Import Scenarios.

(** ** Authentication *)

(** The Authorization header carries the configured credentials. *)
Definition authenticated (srv : server) (r : Request) : bool :=
  match req_BasicAuth r with
  | Some (username, password) => auth_matches (srv_auth srv) username password
  | None => false
  end.

Section Auth.
Context {GR : GoRange} {GS : GoSort} {GH : GoHeap} {GT : GoText} {J : GoJson} {JO : GoJsonObject}.

(** What such a request is answered, whatever the service holds. *)
Definition public_response (srv : server) (r : Request) : Response :=
  match route_of (req_Path r) with
  | healthcheck_route =>
    if String.eqb (req_Method r) "GET" then writeJSON 200 (healthcheckResponse "ok" (srv_buildID srv)) else refuse_method "GET"
  | api_redirect_route => writeJSON 301 (redirect_body "/api/v1/")
  | _ => unauthorized
  end.

Lemma other_credentials_refused (a : Credentials) username password :
  (username, password) <> (cr_Username a, cr_Password a) -> auth_matches a username password = false.
Proof.
  intros Hne. apply not_true_iff_false. unfold auth_matches. rewrite andb_true_iff, !String.eqb_eq.
  intros [-> ->]. by apply Hne.
Qed.

(** C28: a request that does not present exactly the configured user name and
    the configured password is answered the same whatever is stored, whatever
    incidents exist and whatever the environment does, changes nothing and
    sends nothing: it sees the health check and the redirect of the API's root,
    and is refused everywhere else. *)
Theorem unauthenticated_learns_nothing (srv : server) (calls : Calls) (p : list nat) (r : Request) (s : stores) :
  req_BasicAuth r <> Some (cr_Username (srv_auth srv), cr_Password (srv_auth srv)) ->
  serve srv calls p r s = Some (mkOutcome s [] (public_response srv r)).
Proof.
  unfold serve, public_response, require, withMethod, unchanged, handleHealthcheck. intros Ha.
  destruct (route_of (req_Path r)); try done; [by destruct (String.eqb (req_Method r) "GET")|..];
    (destruct (req_BasicAuth r) as [[username password]|]; [|done]);
    (rewrite other_credentials_refused; [done|]; intros E; apply Ha; by rewrite E).
Qed.
End Auth.

(** ** Imported messages *)

Section ImportLines.
Context {GS : GoSort} {GT : GoText} {J : GoJson} {JO : GoJsonObject}.

Definition codes_within (lo hi : Z) (names : list (string * Z)) : bool :=
  forallb (fun kv => (lo <=? kv.2) && (kv.2 <=? hi))%Z names.

Lemma parsed_code_within value names lo hi code :
  codes_within lo hi names = true -> parseSyslogCode value names lo hi = inl (Some code) -> (lo <= code <= hi)%Z.
Proof.
  intros Hnames. unfold parseSyslogCode, named. destruct (String.eqb _ ""); [done|].
  destruct (List.find _ names) as [kv|] eqn:Hf.
  - cbn. intros [= <-]. apply find_some in Hf as [Hin _]. unfold codes_within in Hnames.
    rewrite forallb_forall in Hnames. specialize (Hnames kv Hin). lia.
  - cbn. destruct (Atoi _) as [n|]; [|done]. destruct ((n <? lo) || (hi <? n))%Z eqn:E; [done|]. intros [= <-]. lia.
Qed.

(** The fields a syslog message has to have, and how they hang together. *)
Record well_formed (m : Message) : Prop := {
  wm_time : msg_Timestamp m = Some (msg_ReceivedAt m);
  wm_transport : msg_Transport m = "import";
  wm_facility f : msg_Facility m = Some f -> (0 <= f <= 23)%Z;
  wm_severity s : msg_Severity m = Some s -> (0 <= s <= 7)%Z;
  wm_priority : msg_Priority m = match msg_Facility m, msg_Severity m with
                                 | Some f, Some s => Some (f * 8 + s)%Z
                                 | _, _ => None
                                 end;
  wm_hostname : msg_Hostname m <> "" /\ TrimSpace (msg_Hostname m) = msg_Hostname m;
  wm_tag : msg_Tag m = msg_AppName m
}.

Lemma parsed_well_formed line importID m : parseImportedMessage line importID = inl m -> well_formed m /\ msg_ID m = importID.
Proof.
  unfold parseImportedMessage. destruct (json_Decode_object line) as [[raw []]|]; [|done..]. cbv zeta.
  destruct (String.eqb _ ""); [done|]. destruct (ParseRFC3339 _) as [t|]; [|done].
  destruct (parseFacility _) as [facility|] eqn:Hf; [|done]. destruct (parseSeverity _) as [severity|] eqn:Hs; [|done].
  intros [= <-]. split; [|done]. constructor; cbn; try done.
  - intros f ->. by eapply parsed_code_within; [|exact Hf].
  - intros s ->. by eapply parsed_code_within; [|exact Hs].
  - destruct (String.eqb_spec (TrimSpace (importString raw "host")) "") as [He|Hne]; [done|].
    split; [done|apply TrimSpace_idem].
Qed.

(** C35: a line the import accepts becomes a well formed message:
    received at its own timestamp, marked as imported, with a facility of 0 to 23
    and a severity of 0 to 7 if it names them and the priority exactly if it
    names both, and a host name that is neither empty nor padded. *)
Theorem imported_messages_typed (line importID : string) (m : Message) :
  parseImportedMessage line importID = inl m ->
  well_formed m /\ match msg_Priority m with Some pri => (0 <= pri <= 191)%Z | None => True end.
Proof.
  intros [Hm _]%parsed_well_formed. split; [done|]. rewrite (wm_priority m Hm).
  destruct (msg_Facility m) as [f|] eqn:Hf; [|done]. destruct (msg_Severity m) as [s|] eqn:Hs; [|done].
  pose proof (wm_facility m Hm f Hf). pose proof (wm_severity m Hm s Hs). lia.
Qed.

(** ** The whole body *)

(** What the lines before the [n]-th hold: blank ones nothing, the others a message. *)
Fixpoint messages_of (sur : Surroundings) (n : Z) (lines : list string) : option (list (Z * Message)) :=
  match lines with
  | [] => Some []
  | line :: rest =>
    let n := (n + 1)%Z in
    let text := TrimSpace (drop_cr (TrimSuffix line newline)) in
    if String.eqb text "" then messages_of sur n rest
    else match parseImportedMessage text (im_ID sur n), messages_of sur n rest with
         | inl msg, Some ms => Some ((n, msg) :: ms)
         | _, _ => None
         end
  end.

(** Those messages appended in order, all of them accepted, with what others do in
    between. *)
Fixpoint appended (sur : Surroundings) (ms : list (Z * Message)) (s : stores) : option stores :=
  match ms with
  | [] => Some s
  | (n, msg) :: rest =>
    match PublishingStore_Append (im_env sur n) (im_io sur n) (im_now sur n) (im_meanwhile sur n) msg
            (im_others sur n s) with
    | Some (s, None) => appended sur rest s
    | _ => None
    end
  end.

(** Why an import stopped at the [n]-th line. *)
Definition stopped_at (sur : Surroundings) (n : Z) (line : string) (s : stores) (err : import_error) : Prop :=
  let text := TrimSpace (drop_cr (TrimSuffix line newline)) in
  match err with
  | import_read => import_line_fits line = false
  | import_canceled => im_canceled sur n = true
  | import_line n' why => n' = n /\ parseImportedMessage text (im_ID sur n) = inr why
  | import_append n' why =>
    n' = n /\ exists msg, parseImportedMessage text (im_ID sur n) = inl msg
                         /\ (Append (im_env sur n) (im_io sur n) (im_now sur n) msg (im_others sur n s).1.1).2 = Some why
  end.

(** The others, too, publish with [Publish] only. *)
Definition others_ok (sur : Surroundings) : Prop :=
  forall n, (forall s, hub_ok s.1.2 -> hub_ok (im_others sur n s).1.2) /\ orderly (im_meanwhile sur n).

(** [lines] splits into lines that were stored and, if the import failed, the
    line it failed at with those after it. *)
Definition stored_prefix (sur : Surroundings) (n : Z) (lines : list string) (result : importResult) (s : stores)
    (r : option (stores * importResult * option import_error)) : Prop :=
  exists before rest ms s0 s' result' err,
    r = Some (s', result', err) /\ lines = (before ++ rest)%list
    /\ messages_of sur n before = Some ms /\ appended sur ms s = Some s0
    /\ (imported result' = imported result + Z.of_nat (length ms))%Z
    /\ (imported result' + skipped result' = imported result + skipped result + Z.of_nat (length before))%Z
    /\ match rest with
       | [] => s' = s0 /\ err = (if im_cut sur then Some import_read else None)
       | line :: _ => exists why, err = Some why /\ stopped_at sur (n + Z.of_nat (length before) + 1) line s0 why
                                 /\ match why with import_append _ _ => True | _ => s' = s0 end
       end.

Lemma stored_prefix_stop sur n line lines result s s' why :
  stopped_at sur (n + 1) line s why -> match why with import_append _ _ => True | _ => s' = s end ->
  stored_prefix sur n (line :: lines) result s (Some (s', result, Some why)).
Proof.
  intros Hw Hs. exists [], (line :: lines), [], s, s', result, (Some why). split_and!; try done; [cbn; lia..|].
  exists why. cbn [length]. by rewrite Z.add_0_r.
Qed.

Lemma next_line {A} n (x : A) (l : list A) : (n + Z.of_nat (length (x :: l)) = n + 1 + Z.of_nat (length l))%Z.
Proof. cbn [length]. lia. Qed.

Lemma import_lines_spec sur lines n result s :
  others_ok sur -> hub_ok s.1.2 -> stored_prefix sur n lines result s (import_lines sur n lines result s).
Proof.
  intros Hothers. revert n result s. induction lines as [|line lines IH]; intros n result s Hok.
  { exists [], [], [], s, s, result, (if im_cut sur then Some import_read else None). split_and!; try done; cbn; lia. }
  cbn [import_lines].
  destruct (import_line_fits line) eqn:Hfit; cbn [negb]; [|by apply stored_prefix_stop].
  destruct (im_canceled sur (n + 1)) eqn:Hcan; [by apply stored_prefix_stop|]. cbv zeta.
  set (text := TrimSpace (drop_cr (TrimSuffix line newline))).
  destruct (String.eqb text "") eqn:Hblank.
  { destruct (IH (n + 1)%Z (mkImportResult (imported result) (skipped result + 1)) s Hok)
      as (before & rest & ms & s0 & s' & result' & err & -> & -> & Hms & Happ & H1 & H2 & Hend).
    exists (line :: before), rest, ms, s0, s', result', err. cbn [messages_of]. fold text. rewrite Hblank.
    split_and!; try done; [cbn in *; lia|]. by rewrite next_line. }
  destruct (parseImportedMessage text (im_ID sur (n + 1))) as [msg|why] eqn:Hparse; [|by apply stored_prefix_stop].
  destruct (Hothers (n + 1)%Z) as [Hothers1 Hothers2].
  destruct (PublishingStore_Append_ok (im_env sur (n + 1)) (im_io sur (n + 1)) (im_now sur (n + 1)) _ msg
    (im_others sur (n + 1) s) Hothers2 (Hothers1 s Hok)) as (s1 & err & Happ & Hok' & Herr & _).
  rewrite Happ. destruct err as [why|].
  { apply stored_prefix_stop; [|done]. split; [done|]. exists msg. split; [done|]. exact (eq_sym Herr). }
  destruct (IH (n + 1)%Z (mkImportResult (imported result + 1) (skipped result)) s1 Hok')
    as (before & rest & ms & s0 & s' & result' & err & -> & -> & Hms & Happ' & H1 & H2 & Hend).
  exists (line :: before), rest, ((n + 1, msg)%Z :: ms), s0, s', result', err.
  cbn [messages_of appended]. fold text. rewrite Hblank, Hparse, Hms, Happ.
  split_and!; try done; [cbn in *; lia..|]. by rewrite next_line.
Qed.

(** C27: an import never panics and never skips: it stores, in order,
    exactly the messages of the lines it got through, counts them and the blank
    ones, and stops only at the end of the body or at a line that cannot be
    stored, of which the error says the number and the reason, whatever the
    listener and other requests store between its lines; what was stored before
    stays stored, so that the same body imported again stores it twice. *)
Theorem import_stores_prefix (sur : Surroundings) (body : string) (s : stores) :
  others_ok sur -> hub_ok s.1.2 ->
  stored_prefix sur 0 (lines_keep body) (mkImportResult 0 0) s (importMessages sur body s).
Proof. apply import_lines_spec. Qed.
End ImportLines.

(** ** Concrete requests *)

(** Objects written as time, severity and text between bars. *)
#[export] Instance bar_object : GoJsonObject :=
  {| json_Decode_object := fun line =>
       match cut_at "|"%char line with
       | Some (time, rest) =>
         match cut_at "|"%char rest with
         | Some (severity, text) =>
           Some ([("timestamp", any_string time); ("severity", any_string severity); ("facility", any_number "3");
                  ("message", any_string text)]%string, true)
         | None => None
         end
       | None => None
       end |}.

Definition guarded : server := mkServer (mkCredentials "admin" "secret") "" true true true false ∅ ∅.
Definition quiet_calls : Calls :=
  mkCalls calm (mkSurroundings (fun _ => false) (fun _ => "id"%string) (fun _ => calm) (fun _ => io_written 0) (fun _ => 0%Z) (fun _ s => s) (fun _ => nobody) false)
    (mkOutside (fun _ => calm) (fun _ => None) (fun _ _ => inr (other_failure ""))) true 0 0 true None (fun _ => inr ""%string).
Definition new_stores : stores := (NewFileStore, NewHub, NewWorker empty_Snapshot).
Definition wrong_password : Request :=
  mkRequest "POST" "/api/v1/messages/import" [] (Some ("admin", "guess")%string) "2026-09-18T12:00:00Z|err|down" false.

Lemma unauthenticated_learns_nothing_witness :
  serve guarded quiet_calls [] wrong_password new_stores = Some (mkOutcome new_stores [] unauthorized).
Proof. exact (unauthenticated_learns_nothing guarded quiet_calls [] wrong_password new_stores ltac:(discriminate)). Defined.

Definition imported_line : string := "2026-09-18T12:00:00Z|Error|link down".
Definition imported_message : Message :=
  {| msg_ID := "id"; msg_ReceivedAt := start; msg_Timestamp := Some start; msg_Transport := "import"; msg_Source := "";
     msg_Priority := Some 27%Z; msg_Facility := Some 3%Z; msg_Severity := Some 3%Z; msg_Hostname := "unknown";
     msg_AppName := ""; msg_ProcID := ""; msg_MsgID := ""; msg_Tag := ""; msg_Message := "link down";
     msg_StructuredData := None;
     msg_Raw := Some [("timestamp", any_string "2026-09-18T12:00:00Z"); ("severity", any_string "Error");
                      ("facility", any_number "3"); ("message", any_string "link down")]%string |}.

Lemma imported_messages_typed_witness :
  well_formed imported_message /\ match msg_Priority imported_message with Some pri => (0 <= pri <= 191)%Z | None => True end.
Proof. apply (imported_messages_typed imported_line "id"). vm_compute. reflexivity. Defined.

(** The second line is blank, the third has no known severity. *)
Definition import_body : string :=
  imported_line +:+ newline +:+ "  " +:+ newline +:+ "2026-09-18T12:00:01Z|loud|link up" +:+ newline +:+ imported_line.

Example import_stops :
  option_map (fun '(s, r, err) => (size (fs_files s.1.1), imported r, skipped r, option_map import_error_text err))
    (importMessages (cl_import quiet_calls) import_body new_stores)
  = Some (1%nat, 1%Z, 1%Z, Some "line 3: invalid severity"%string).
Proof. vm_compute. reflexivity. Qed.

(** Before every line of the import, and before its message is published, a packet
    of the listener is stored. *)
Definition packet_stored (s : stores) : stores :=
  match PublishingStore_Append calm (io_written 0) 0 nobody (tab_message start "m" "router-a" "up") s with
  | Some (s, _) => s
  | None => s
  end.

Definition busy_import : Surroundings :=
  mkSurroundings (fun _ => false) (fun _ => "id"%string) (fun _ => calm) (fun _ => io_written 0) (fun _ => 0%Z)
    (fun _ => packet_stored) (fun _ _ => packet_stored) false.

Lemma busy_import_ok : others_ok busy_import.
Proof.
  assert (H : forall s, hub_ok s.1.2 -> hub_ok (packet_stored s).1.2).
  { intros s Hok. unfold packet_stored.
    destruct (PublishingStore_Append_ok calm (io_written 0) 0%Z nobody (tab_message start "m" "router-a" "up") s
      nobody_orderly Hok) as (s' & err & -> & Hok' & _). exact Hok'. }
  intros n. split; [exact H|]. intros g. exact H.
Qed.

Lemma import_stores_prefix_witness :
  stored_prefix busy_import 0 (lines_keep import_body) (mkImportResult 0 0) new_stores
    (importMessages busy_import import_body new_stores).
Proof.
  apply (import_stores_prefix busy_import import_body new_stores).
  - exact busy_import_ok.
  - intros ch Hch. set_solver.
Defined.
