(* ===== verification/JsStd.v ===== *)
(** The parts of the JavaScript standard library the browser client computes
    with.  A JavaScript string is the [String.string] of its UTF-8 encoding
    (the client only compares, concatenates, trims and passes strings on), a
    number that is used as an integer is a [Z], [NaN] where it can occur is
    [None], and [undefined] for an optional property is [None].  What depends
    on the locale or the clock of the browser is a type class. *)
From Stdlib Require Import Ascii ZArith Lia.
From S2P Require Import Prelude.
From S2P Require Import GoStd.
Local Open Scope string_scope.

(** * Strings *)

(** The encodings of the characters [String.prototype.trim] removes: unlike Go,
    U+FEFF counts and U+0085 does not. *)
Definition js_space2 (a b : ascii) : bool :=
  ((byte_of a =? 0xC2) && (byte_of b =? 0xA0))%Z.

Definition js_space3 (a b c : ascii) : bool :=
  space3 a b c || ((byte_of a =? 0xEF) && (byte_of b =? 0xBB) && (byte_of c =? 0xBF))%Z.

Definition trim (s : string) : string :=
  srev (trim_front (fun b a => js_space2 a b) (fun c b a => js_space3 a b c)
          (srev (trim_front js_space2 js_space3 s))).

(** [a.join(sep)] *)
Fixpoint join (sep : string) (l : list string) : string :=
  match l with
  | [] => EmptyString
  | [x] => x
  | x :: rest => x +:+ sep +:+ join sep rest
  end.

(** [s.replace(/[...]/g, by)] for a class of single characters. *)
Fixpoint replace_all (cls : ascii -> bool) (by_ : ascii) (s : string) : string :=
  match s with
  | EmptyString => EmptyString
  | String c s' => String (if cls c then by_ else c) (replace_all cls by_ s')
  end.

(** A string in a boolean context. *)
Definition truthy (s : string) : bool := negb (String.eqb s "").
Definition truthy_opt (s : option string) : bool :=
  match s with Some v => truthy v | None => false end.

(** [parseInt(s, 10)]: white space, a sign, the longest run of digits. *)
Fixpoint digits_from (acc : option Z) (s : string) : option Z :=
  match s with
  | EmptyString => acc
  | String c s' =>
    match digit_value c with
    | Some d => digits_from (Some (default 0%Z acc * 10 + d)%Z) s'
    | None => acc
    end
  end.

Definition parseInt (s : string) : option Z :=
  let s := trim_front js_space2 js_space3 s in
  match s with
  | String "-" s' => Z.opp <$> digits_from None s'
  | String "+" s' => digits_from None s'
  | _ => digits_from None s
  end.

(** * Arrays *)

(** [Array.prototype.sort] with a comparator, a stable sort: an element goes in
    front of the first one that is not smaller. *)
Fixpoint insert_by {A : Type} (cmp : A -> A -> Z) (x : A) (l : list A) : list A :=
  match l with
  | [] => [x]
  | y :: rest => if (cmp x y <=? 0)%Z then x :: l else y :: insert_by cmp x rest
  end.

Definition Array_sort {A : Type} (cmp : A -> A -> Z) (l : list A) : list A :=
  foldr (insert_by cmp) [] l.

(** [Array.from(new Set(l))]: the first occurrence of each, in order. *)
Fixpoint set_from (seen l : list string) : list string :=
  match l with
  | [] => []
  | x :: rest =>
    if bool_decide (x ∈ seen) then set_from seen rest else x :: set_from (x :: seen) rest
  end.

Definition Array_from_Set (l : list string) : list string := set_from [] l.

(** * The browser's locale and calendar *)

(** [localeCompare] orders strings somehow: its sign is antisymmetric and
    "not after" is transitive; the order itself depends on the locale. *)
Class Locale := {
  localeCompare : string -> string -> Z;
  localeCompare_anti : forall a b, Z.sgn (localeCompare b a) = (- Z.sgn (localeCompare a b))%Z;
  localeCompare_trans : forall a b c,
    (localeCompare a b <= 0 -> localeCompare b c <= 0 -> localeCompare a c <= 0)%Z
}.

(** [Date.parse] (milliseconds since 1970, [None] for [NaN]) and the rendering of
    an instant in the local time zone. *)
Class Calendar := {
  Date_parse : string -> option Z;
  toLocaleString : Z -> string
}.

(** The client's clock reading as [Date.prototype.toISOString] prints it, for
    years 0 to 9999. *)
Definition epoch : Time := Date 1970 1 1 0 0 0.

Definition toISOString (ms : Z) : string :=
  let t := (epoch + ms * 1000000)%Z in
  let '(y, m, d) := civil (day_of t) in
  let n := nanos_of_day t in
  let s := (n / Second)%Z in
  pad 4 y +:+ "-" +:+ pad 2 m +:+ "-" +:+ pad 2 d +:+ "T"
    +:+ pad 2 (s / 3600) +:+ ":" +:+ pad 2 ((s / 60) mod 60) +:+ ":" +:+ pad 2 (s mod 60)
    +:+ "." +:+ pad 3 (n mod Second / 1000000) +:+ "Z".

Example epoch_iso : toISOString 1789732800123 = "2026-09-18T12:00:00.123Z".
Proof. vm_compute. reflexivity. Qed.

(** * Lemmas *)

Section Sorting.
Context {A : Type} (cmp : A -> A -> Z).

Definition sorted_by : list A -> Prop := StronglySorted (fun x y => (cmp x y <= 0)%Z).

Lemma insert_by_perm (x : A) (l : list A) : insert_by cmp x l ≡ₚ x :: l.
Proof.
  induction l as [|y l IH]; simpl; [done|]. case_match; [done|].
  rewrite IH. apply Permutation_swap.
Qed.

Lemma Array_sort_perm (l : list A) : Array_sort cmp l ≡ₚ l.
Proof. induction l as [|x l IH]; simpl; [done|]. by rewrite insert_by_perm, IH. Qed.

Context (total : forall a b, (cmp a b <= 0 \/ cmp b a <= 0)%Z).
Context (trans : forall a b c, (cmp a b <= 0 -> cmp b c <= 0 -> cmp a c <= 0)%Z).

Lemma insert_by_sorted (x : A) (l : list A) : sorted_by l -> sorted_by (insert_by cmp x l).
Proof.
  induction 1 as [|y l Hs IH Hall]; simpl; [by repeat constructor|].
  case_match eqn:E.
  - apply Z.leb_le in E. constructor; [by constructor|].
    constructor; [done|]. eapply Forall_impl; [exact Hall|]. intros z Hz. by eapply trans.
  - apply Z.leb_gt in E. constructor; [done|].
    rewrite insert_by_perm. constructor; [|done].
    destruct (total x y); [lia|done].
Qed.

Lemma Array_sort_sorted (l : list A) : sorted_by (Array_sort cmp l).
Proof. induction l as [|x l IH]; [constructor|by apply insert_by_sorted]. Qed.

Lemma insert_by_head (x : A) (l : list A) :
  Forall (fun y => (cmp x y <= 0)%Z) l -> insert_by cmp x l = x :: l.
Proof. destruct 1 as [|y l Hy _]; simpl; [done|]. by apply Z.leb_le in Hy as ->. Qed.

Lemma Array_sort_id (l : list A) : sorted_by l -> Array_sort cmp l = l.
Proof.
  induction 1 as [|x l Hs IH Hall]; simpl; [done|]. rewrite IH. by apply insert_by_head.
Qed.

(** The first [n] elements after an insertion are determined by the first [n]
    before it. *)
Lemma take_insert_by (n : nat) (x : A) (l : list A) :
  take n (insert_by cmp x l) = take n (insert_by cmp x (take n l)).
Proof.
  revert l. induction n as [|n IH]; intros l; [done|].
  destruct l as [|y l]; simpl; [done|].
  case_match; simpl; f_equal.
  - change (y :: take n l) with (take (S n) (y :: l)). rewrite take_take, Nat.min_l by lia. done.
  - apply IH.
Qed.

(** Removing elements commutes with sorting. *)
Lemma filter_insert_by (P : A -> Prop) `{!forall x, Decision (P x)} (x : A) (l : list A) :
  sorted_by l ->
  filter P (insert_by cmp x l)
  = if decide (P x) then insert_by cmp x (filter P l) else filter P l.
Proof.
  induction 1 as [|y l Hs IH Hall]; simpl.
  - rewrite filter_cons. by destruct (decide (P x)).
  - destruct (cmp x y <=? 0)%Z eqn:E.
    + rewrite (filter_cons P x). destruct (decide (P x)); [|done].
      rewrite insert_by_head; [done|]. apply Z.leb_le in E.
      apply Forall_forall. intros z [_ Hz]%list_elem_of_filter.
      apply elem_of_cons in Hz as [->|Hz]; [done|]. rewrite Forall_forall in Hall.
      by eapply trans, Hall.
    + rewrite !filter_cons, IH. destruct (decide (P y)); [|done].
      destruct (decide (P x)); [|done]. simpl. by rewrite E.
Qed.
End Sorting.

Lemma elem_of_set_from (l seen : list string) (x : string) :
  x ∈ set_from seen l <-> x ∈ l /\ x ∉ seen.
Proof.
  revert seen. induction l as [|y l IH]; intros seen; simpl; [set_solver|].
  destruct (decide (x = y)) as [->|Hx]; case_bool_decide; rewrite ?elem_of_cons, ?IH, ?elem_of_cons;
    naive_solver.
Qed.

Lemma NoDup_set_from (l seen : list string) : NoDup (set_from seen l).
Proof.
  revert seen. induction l as [|y l IH]; intros seen; simpl; [constructor|].
  case_bool_decide; [done|]. constructor; [|done]. rewrite elem_of_set_from. set_solver.
Qed.

Lemma set_from_id (l seen : list string) :
  NoDup l -> (forall x, x ∈ l -> x ∉ seen) -> set_from seen l = l.
Proof.
  intros Hl. revert seen. induction Hl as [|x l Hx Hl IH]; intros seen Hs; simpl; [done|].
  rewrite bool_decide_false by (apply Hs; set_solver). f_equal. apply IH.
  intros y Hy. specialize (Hs y). set_solver.
Qed.

Lemma localeCompare_total `{!Locale} (a b : string) :
  (localeCompare a b <= 0 \/ localeCompare b a <= 0)%Z.
Proof. pose proof (localeCompare_anti a b). lia. Qed.

Lemma trim_idem (s : string) : trim (trim s) = trim s.
Proof. apply trim_twice. Qed.

Lemma digits_from_decimal (s : string) (a v : Z) :
  decimal a s = Some v -> digits_from (Some a) s = Some v.
Proof.
  revert a. induction s as [|c s IH]; intros a; simpl; [done|]. destruct (digit_value c); [apply IH|done].
Qed.

Lemma digits_from_unsigned (s : string) (v : Z) : unsigned s = Some v -> digits_from None s = Some v.
Proof.
  destruct s as [|c s]; [done|]. simpl. destruct (digit_value c); [apply digits_from_decimal|done].
Qed.

Lemma parseInt_Itoa (z : Z) : parseInt (Itoa z) = Some z.
Proof.
  unfold parseInt.
  destruct (Itoa_cases z) as [(d & -> & E)|(d & -> & E)]; destruct (NilZero_uint_head d) as (c & s & Hs & Hc);
    pose proof (unsigned_uint d) as Hu; rewrite Hs in *; destruct (digit_plain c Hc) as (H1 & H2 & H3 & H4).
  - assert (Hb : ((byte_of c =? 0xC2) = false /\ (byte_of c =? 0xE1) = false
                  /\ (byte_of c =? 0xE2) = false /\ (byte_of c =? 0xE3) = false
                  /\ (byte_of c =? 0xEF) = false)%Z) by (rewrite !Z.eqb_neq; lia).
    destruct Hb as (B1 & B2 & B3 & B4 & B5).
    rewrite trim_front_stays.
    + apply digits_from_unsigned in Hu. rewrite E.
      destruct c as [[] [] [] [] [] [] [] []]; congruence || done.
    + simpl. rewrite H3. destruct s as [|c2 [|c3 s]]; simpl; unfold js_space2, js_space3, space3;
        rewrite ?B1, ?B2, ?B3, ?B4, ?B5; done.
  - rewrite trim_front_stays.
    + apply digits_from_unsigned in Hu. rewrite Hu. by rewrite E.
    + by destruct s.
Qed.
