(* ===== verification/ApiClient.v ===== *)
(** The HTTP client of the browser ([frontend/src/api.ts]) with the data it
    exchanges ([frontend/src/types.ts]).  A function of the module is split at
    its [fetch]: the request it sends and what it makes of the answer.  The
    answer is the browser's ([fetched]); a promise that rejects is [inr]. *)
From Stdlib Require Import ZArith Lia.
From S2P Require Import Prelude.
From S2P Require Import GoStd.
From S2P Require Import JsStd.
Local Open Scope string_scope.

(** * Types *)

Record SyslogMessage : Type := mkSyslogMessage {
  sm_id : string;
  sm_received_at : string;
  sm_timestamp : option string;
  sm_transport : option string;
  sm_source : option string;
  sm_priority : option Z;
  sm_facility : option Z;
  sm_severity : option Z;
  sm_hostname : option string;
  sm_app_name : option string;
  sm_proc_id : option string;
  sm_msg_id : option string;
  sm_tag : option string;
  sm_message : option string;
  sm_structured_data : option (list (string * string));
  sm_raw : option (list (string * string))
}.

Record Meta : Type := mkMeta { mt_count : Z; mt_limit : Z; mt_offset : Z; mt_has_more : bool }.

Record MessagesResponse : Type := mkMessagesResponse {
  mr_data : list SyslogMessage;
  mr_meta : Meta
}.

Record ImportMessagesResponse : Type := mkImportMessagesResponse {
  im_status : string;
  im_imported : Z;
  im_skipped : Z
}.

Inductive DeliveryKind : Type :=
| incident_opened | incident_resolved | fallback_opened | fallback_resolved | fallback_escalated.

Record NotificationDelivery : Type := mkNotificationDelivery {
  nd_id : string;
  nd_kind : DeliveryKind;
  nd_attempts : Z;
  nd_last_error : option string;
  nd_sent_at : option string;
  nd_adapter : option string;
  nd_permanent : option bool
}.

Inductive IncidentState : Type := pending_failure | active | pending_recovery | resolved.

#[export] Instance IncidentState_eq_dec : EqDecision IncidentState.
Proof. solve_decision. Defined.

Record Incident : Type := mkIncident {
  in_id : string;
  in_rule_version : Z;
  in_hostname : string;
  in_interface : string;
  in_state : IncidentState;
  in_started_at : string;
  in_activated_at : option string;
  in_recovery_first_at : option string;
  in_resolved_at : option string;
  in_last_evidence_at : string;
  in_evidence_ids : list string;
  in_evidence_refs : option (list string);
  in_down_after : Z;
  in_recovered_after : Z;
  in_deliveries : list NotificationDelivery
}.

Record IncidentsResponse : Type := mkIncidentsResponse {
  ir_data : list Incident;
  ir_meta : Meta
}.

Record IncidentHealth : Type := mkIncidentHealth {
  ih_running : bool;
  ih_stale : bool;
  ih_last_reconciled_at : option string;
  ih_last_processed_at : option string;
  ih_last_error : option string;
  ih_pending_jobs : Z
}.

(** * Promises and responses *)

(** What a promise rejects with: the [DOMException] of an aborted request, an
    [Error] with its message, or something that is no [Error]. *)
Inductive js_error : Type :=
| AbortError
| Error_ (message : string)
| Thrown.

(** [err instanceof Error ? err.message : other]; an [AbortError] is an [Error]
    with the browser's text. *)
Definition error_text (err : js_error) (other : string) : string :=
  match err with
  | AbortError => "The operation was aborted."
  | Error_ message => message
  | Thrown => other
  end.

(** A response as the client reads it: [rs_json] is [await response.json()] read
    at the expected type; [rs_error_body] is
    [await response.json().catch(() => null)] read as [{ error?: string } | null],
    [None] for [null] and [Some None] for an absent [error]. *)
Record Response (A : Type) : Type := mkResponse {
  rs_status : Z;
  rs_json : A + js_error;
  rs_error_body : option (option string)
}.
Arguments mkResponse {A}.
Arguments rs_status {A}.
Arguments rs_json {A}.
Arguments rs_error_body {A}.

(** [response.ok] *)
Definition rs_ok {A : Type} (r : Response A) : bool :=
  ((200 <=? rs_status r) && (rs_status r <=? 299))%Z.

(** What [await fetch(...)] gives: a response, or a rejection. *)
Definition fetched (A : Type) : Type := (Response A + js_error)%type.

Definition await {A B : Type} (f : fetched A) (k : Response A -> B + js_error) : B + js_error :=
  match f with
  | inl r => k r
  | inr err => inr err
  end.

Definition http_text (status : Z) : string := "Request failed with HTTP " +:+ Itoa status.

(** [body?.error ?? `Request failed with HTTP ${response.status}`] *)
Definition failure_text {A : Type} (r : Response A) : string :=
  match rs_error_body r with
  | Some (Some e) => e
  | _ => http_text (rs_status r)
  end.

(** * [URLSearchParams] *)

Definition params := list (string * string).

Definition usp_append (name value : string) (q : params) : params := (q ++ [(name, value)])%list.

(** Replaces the first value of the name and drops the others, or appends. *)
Fixpoint usp_set (name value : string) (q : params) : params :=
  match q with
  | [] => [(name, value)]
  | (n, v) :: rest =>
    if String.eqb n name
    then (n, value) :: List.filter (fun nv => negb (String.eqb nv.1 name)) rest
    else (n, v) :: usp_set name value rest
  end.

Record Request : Type := mkRequest {
  rq_method : string;
  rq_path : string;
  rq_query : params;
  rq_content_type : option string;
  rq_body : option string
}.

(** * The functions of [api.ts] *)

Record ListMessagesParams : Type := mkListMessagesParams {
  lm_query : string;
  lm_hosts : list string;
  lm_limit : Z;
  lm_offset : Z
}.

(** The loop over [params.hosts]. *)
Fixpoint append_hosts (hosts : list string) (q : params) : params :=
  match hosts with
  | [] => q
  | host :: rest =>
    let trimmed := trim host in
    append_hosts rest (if negb (String.eqb trimmed "") then usp_append "host" trimmed q else q)
  end.

Definition listMessages_query (p : ListMessagesParams) : params :=
  let q := usp_set "limit" (Itoa (lm_limit p)) [] in
  let q := usp_set "offset" (Itoa (lm_offset p)) q in
  let q := append_hosts (lm_hosts p) q in
  if negb (String.eqb (trim (lm_query p)) "") then usp_set "q" (trim (lm_query p)) q else q.

Definition listMessages_request (p : ListMessagesParams) : Request :=
  mkRequest "GET" "/api/v1/messages" (listMessages_query p) None None.

Definition listMessages (f : fetched MessagesResponse) : MessagesResponse + js_error :=
  await f (fun response =>
    if negb (rs_ok response)
    then if (rs_status response =? 401)%Z then inr (Error_ "Authentication required")
         else inr (Error_ (failure_text response))
    else rs_json response).

(** [new URLSearchParams({ q: query })] *)
Definition openMessageStream_request (query : string) : Request :=
  mkRequest "GET" "/api/v1/messages/stream" [("q", query)] None None.

Definition quote : string := String (Ascii.ascii_of_nat 34) EmptyString.

Definition sendTestEvent_request (now : Z) : Request :=
  mkRequest "POST" "/api/v1/test-event" [] (Some "application/json")
    (Some ("{" +:+ quote +:+ "message" +:+ quote +:+ ":" +:+ quote
           +:+ "logthing browser test event " +:+ toISOString now +:+ quote +:+ "}")).

Definition sendTestEvent (f : fetched unit) : unit + js_error :=
  await f (fun response =>
    if negb (rs_ok response)
    then if (rs_status response =? 401)%Z then inr (Error_ "Authentication required")
         else inr (Error_ (http_text (rs_status response)))
    else inl tt).

(** A file the user picked. *)
Record File : Type := mkFile { fl_type : string; fl_text : string }.

Definition importMessages_request (file : File) : Request :=
  mkRequest "POST" "/api/v1/messages/import" []
    (Some (if truthy (fl_type file) then fl_type file else "application/x-ndjson"))
    (Some (fl_text file)).

Definition importMessages (f : fetched ImportMessagesResponse) : ImportMessagesResponse + js_error :=
  await f (fun response =>
    if negb (rs_ok response)
    then if (rs_status response =? 401)%Z then inr (Error_ "Authentication required")
         else inr (Error_ (failure_text response))
    else rs_json response).

Definition fetchBuildID_request : Request := mkRequest "GET" "/healthcheck" [] None None.

(** The JSON is [{ build_id?: string }]. *)
Definition fetchBuildID (f : fetched (option string)) : string + js_error :=
  await f (fun response =>
    if negb (rs_ok response)
    then inr (Error_ ("Failed to fetch build ID: " +:+ Itoa (rs_status response)))
    else match rs_json response with
         | inl build_id =>
           inl (match build_id with
                | Some b => if truthy b then b else "Unknown"
                | None => "Unknown"
                end)
         | inr err => inr err
         end).

Definition checkedJSON {A : Type} (response : Response A) : A + js_error :=
  if negb (rs_ok response) then inr (Error_ (failure_text response)) else rs_json response.

(** The states the client asks for. *)
Inductive ListedState : Type := list_pending_failure | list_active | list_resolved.

Definition ListedState_string (st : ListedState) : string :=
  match st with
  | list_pending_failure => "pending_failure"
  | list_active => "active"
  | list_resolved => "resolved"
  end.

Definition listIncidents_request (state : ListedState) : Request :=
  mkRequest "GET" "/api/v1/incidents" [("state", ListedState_string state); ("limit", "100")] None None.

Definition listIncidents (f : fetched IncidentsResponse) : IncidentsResponse + js_error :=
  await f checkedJSON.

Definition getIncidentHealth_request : Request :=
  mkRequest "GET" "/api/v1/incidents/health" [] None None.

Definition getIncidentHealth (f : fetched IncidentHealth) : IncidentHealth + js_error :=
  await f checkedJSON.

Definition sendTestNotification_request : Request :=
  mkRequest "POST" "/api/v1/notifications/test" [] None None.

(** Its JSON is read and dropped. *)
Definition sendTestNotification (f : fetched unit) : unit + js_error := await f checkedJSON.
