(* ===== verification/View.v ===== *)
(** The pure functions of [frontend/src/App.tsx]: formatting, host lists, the
    order of messages, and the texts and headers the components render. *)
From Stdlib Require Import Ascii ZArith Lia.
From S2P Require Import Prelude.
From S2P Require Import GoStd.
From S2P Require Import JsStd.
From S2P Require Import ApiClient.
Local Open Scope string_scope.

(** * Helpers *)

Definition colon_or_dot (c : ascii) : bool := Ascii.eqb c ":" || Ascii.eqb c ".".

(** [date.toISOString().replace(/[:.]/g, "-")] *)
Definition filenameTimestamp (now : Z) : string := replace_all colon_or_dot "-" (toISOString now).

Definition hostLabel (hosts : list string) : string :=
  match hosts with
  | [] => "All hosts"
  | [h] => h
  | _ => Itoa (Z.of_nat (length hosts)) +:+ " hosts"
  end.

Definition numberText (value : option Z) : string :=
  match value with None => "" | Some v => Itoa v end.

Section Render.
Context {LC : Locale} {CA : Calendar}.

Definition sortedUniqueHosts (hosts : list string) : list string :=
  Array_sort localeCompare (Array_from_Set (List.filter truthy (map trim hosts))).

Definition formatDate (value : option string) : string :=
  match value with
  | None => ""
  | Some v =>
    if negb (truthy v) then ""
    else match Date_parse v with
         | None => v
         | Some t => toLocaleString t
         end
  end.

Definition receivedAtMillis (message : SyslogMessage) : Z :=
  match Date_parse (sm_received_at message) with None => 0%Z | Some parsed => parsed end.

Definition compareMessagesLatestFirst (left right : SyslogMessage) : Z :=
  (receivedAtMillis right - receivedAtMillis left)%Z.

(** [message.hostname ?? ""] *)
Definition hostname_of (message : SyslogMessage) : string := default "" (sm_hostname message).

(** The list a live message leaves, before it is cut to the page size. *)
Definition merge_live (message : SyslogMessage) (shown : list SyslogMessage) : list SyslogMessage :=
  Array_sort compareMessagesLatestFirst
    (message :: List.filter (fun existing => negb (String.eqb (sm_id existing) (sm_id message))) shown).

(** * Incidents *)

Definition stateLabel (state : IncidentState) : string :=
  match state with
  | pending_failure => "Confirming failure"
  | pending_recovery => "Confirming recovery"
  | active => "Outage active"
  | resolved => "Resolved"
  end.

(** The two conversions; [now] is [Date.now()]. *)
Definition durationBetween (now : Z) (start : string) (end_ : option string) : string :=
  let finish :=
    match end_ with
    | Some e => if truthy e then Date_parse e else Some now
    | None => Some now
    end in
  match finish, Date_parse start with
  | Some e, Some s =>
    let milliseconds := (e - s)%Z in
    if (milliseconds <? 0)%Z then ""
    else
      let minutes := (milliseconds / 60000)%Z in
      let hours := (minutes / 60)%Z in
      if (0 <? hours)%Z then Itoa hours +:+ "h " +:+ Itoa (minutes mod 60) +:+ "m"
      else Itoa minutes +:+ "m"
  | _, _ => ""
  end.

Definition delivery_failed (delivery : NotificationDelivery) : bool :=
  truthy_opt (nd_last_error delivery) && negb (truthy_opt (nd_sent_at delivery)).

Definition delivery_unsent (delivery : NotificationDelivery) : bool :=
  negb (truthy_opt (nd_sent_at delivery)).

Definition deliveryLabel (incident : Incident) : string :=
  if existsb delivery_failed (in_deliveries incident) then "Delivery failed"
  else if existsb delivery_unsent (in_deliveries incident) then "Delivery pending"
  else if (0 <? Z.of_nat (length (in_deliveries incident)))%Z then "Delivered"
  else "No notification".

Definition pendingIncidents (incidents : list Incident) : list Incident :=
  List.filter (fun incident => bool_decide (in_state incident = pending_failure)) incidents.

Definition activeIncidents (incidents : list Incident) : list Incident :=
  List.filter (fun incident => bool_decide (in_state incident = active)
                               || bool_decide (in_state incident = pending_recovery)) incidents.

Definition resolvedIncidents (incidents : list Incident) : list Incident :=
  List.filter (fun incident => bool_decide (in_state incident = resolved)) incidents.

Definition currentIncidents (incidents : list Incident) : list Incident :=
  (activeIncidents incidents ++ pendingIncidents incidents)%list.

Definition plural (n : Z) : string := if (n =? 1)%Z then "" else "s".

(** The dash shown for a time that has not come. *)
Definition em_dash : string :=
  String (ascii_of_nat 226) (String (ascii_of_nat 128) (String (ascii_of_nat 148) "")).

Definition or_dash (value : option string) : string :=
  if truthy_opt value then formatDate value else em_dash.

Definition incident_columns : list string :=
  ["Host / interface"; "Status"; "Detected"; "Outage confirmed"; "Recovered"; "Duration";
   "Notification"; "Evidence"].

(** The banner of the incidents page: class, title, detail. *)
Definition healthy (health : option IncidentHealth) : bool :=
  match health with
  | Some h => ih_running h && negb (ih_stale h) && negb (truthy_opt (ih_last_error h))
  | None => false
  end.

Definition analysis_title (loadError : option string) (health : option IncidentHealth) : string :=
  if truthy_opt loadError then "Incident status unavailable"
  else match health with
       | None => "Incident analysis is stopped"
       | Some h =>
         if truthy_opt (ih_last_error h) then "Incident analysis failed"
         else if ih_stale h then "Incident analysis is stale"
         else if ih_running h then "Incident analysis is healthy"
         else "Incident analysis is stopped"
       end.

Definition analysis_detail (loadError : option string) (health : option IncidentHealth) : string :=
  if truthy_opt loadError then default "" loadError
  else
    let failure := match health with Some h => ih_last_error h | None => None end in
    if truthy_opt failure then default "" failure
    else
      let n := match health with Some h => ih_pending_jobs h | None => 0%Z end in
      let s := match health with Some h => plural (ih_pending_jobs h) | None => "s" end in
      Itoa n +:+ " notification" +:+ s +:+ " queued".

(** The summary above the timeline. *)
Definition summary_title (loadError : option string) (current : list Incident) : string :=
  let n := Z.of_nat (length current) in
  if truthy_opt loadError then "Connectivity status unavailable"
  else if (0 <? n)%Z then Itoa n +:+ " current connectivity incident" +:+ plural n
  else "Primary WAN and monitored backups are healthy".

Definition summary_detail (loadError : option string) (current : list Incident) : string :=
  if truthy_opt loadError then "Open the incidents page for the error details."
  else if (0 <? Z.of_nat (length current))%Z then "Current outage status from the incident analyser."
  else "No outage is active or being confirmed.".

(** * The timeline *)

Section Json.
(** [JSON.stringify] on the values the client passes to it. *)
Context (stringify : SyslogMessage -> string) (stringify_data : list (string * string) -> string).

Definition formatJSON (value : option (list (string * string))) : string :=
  match value with
  | None | Some [] => ""
  | Some fields => stringify_data fields
  end.

Definition message_columns : list string :=
  ["Received"; "Timestamp"; "Host"; "App"; "Proc"; "Msg ID"; "Facility"; "Severity"; "Priority";
   "Tag"; "Source"; "Transport"; "Structured"; "Message"].

(** [handleExport]: the text of the file and its name, nothing for no rows. *)
Definition handleExport (now : Z) (messages : list SyslogMessage) : option (string * string) :=
  match messages with
  | [] => None
  | _ => Some (join newline (map stringify messages) +:+ newline,
               "logthing-visible-" +:+ filenameTimestamp now +:+ ".ndjson")
  end.
End Json.

Definition latestReceived (messages : list SyslogMessage) : string :=
  match messages with
  | [] => ""
  | m :: _ => formatDate (Some (sm_received_at m))
  end.

Definition hostOptions (knownHosts selectedHosts : list string) : list string :=
  sortedUniqueHosts (knownHosts ++ selectedHosts)%list.
End Render.

Definition liveTitle (liveUnavailable : bool) (page : Z) (autoRefresh : bool) : string :=
  if liveUnavailable then "Live updates unavailable"
  else if negb (page =? 0)%Z then "Live updates are only available on page 1"
  else if autoRefresh then "Pause live updates"
  else "Resume live updates".
