(* ===== verification/AppState.v ===== *)
(** The state of the [App] component ([frontend/src/App.tsx]): every [useState]
    and [useRef] value, and what the component has running in the browser (its
    timeouts, fetches, event streams, stored page size) together with the
    dependencies and the cleanup each [useEffect] last ran with.  [setX v s] is
    the setter of [useState], [set_w_F]/[set_ef_F] assign the other fields. *)
From Stdlib Require Import ZArith.
From S2P Require Import Prelude.
From S2P Require Import GoStd.
From S2P Require Import JsStd.
From S2P Require Import ApiClient.
Local Open Scope string_scope.

(** [selectedHosts] is compared by identity when it is a dependency: the array
    and a number that tells two arrays apart. *)
Record Hosts : Type := mkHosts { ho_items : list string; ho_ref : nat }.

Inductive PageSize : Type :=
| auto
| rows (n : Z).

#[export] Instance PageSize_eq_dec : EqDecision PageSize.
Proof. solve_decision. Defined.

Inductive NotificationResult : Type :=
| result_success (message : string)
| result_error (message : string).

(** * The hooks of the component *)

Record AppState : Type := mkApp {
  st_messages : list SyslogMessage;
  st_messagesRef : list SyslogMessage;
  st_filterInput : string;
  st_filter : string;
  st_validatedFilter : option string;
  st_selectedHosts : Hosts;
  st_knownHosts : list string;
  st_hostMenuOpen : bool;
  st_page : Z;
  st_hasMore : bool;
  st_autoRefresh : bool;
  st_liveUnavailable : bool;
  st_loading : bool;
  st_importing : bool;
  st_sendingTest : bool;
  st_error : option string;
  st_notice : option string;
  st_lastUpdated : option Z;
  st_buildId : string;
  st_incidents : list Incident;
  st_incidentHealth : option IncidentHealth;
  st_incidentLoadError : option string;
  st_sendingNotification : bool;
  st_notificationResult : option NotificationResult;
  st_route : string;
  st_pageSizeSetting : PageSize;
  st_calculatedLimit : Z
}.

Definition setMessages (v : list SyslogMessage) (s : AppState) : AppState :=
  mkApp v (st_messagesRef s) (st_filterInput s) (st_filter s) (st_validatedFilter s)
    (st_selectedHosts s) (st_knownHosts s) (st_hostMenuOpen s) (st_page s) (st_hasMore s)
    (st_autoRefresh s) (st_liveUnavailable s) (st_loading s) (st_importing s) (st_sendingTest s)
    (st_error s) (st_notice s) (st_lastUpdated s) (st_buildId s) (st_incidents s)
    (st_incidentHealth s) (st_incidentLoadError s) (st_sendingNotification s)
    (st_notificationResult s) (st_route s) (st_pageSizeSetting s) (st_calculatedLimit s).

Definition set_messagesRef (v : list SyslogMessage) (s : AppState) : AppState :=
  mkApp (st_messages s) v (st_filterInput s) (st_filter s) (st_validatedFilter s)
    (st_selectedHosts s) (st_knownHosts s) (st_hostMenuOpen s) (st_page s) (st_hasMore s)
    (st_autoRefresh s) (st_liveUnavailable s) (st_loading s) (st_importing s) (st_sendingTest s)
    (st_error s) (st_notice s) (st_lastUpdated s) (st_buildId s) (st_incidents s)
    (st_incidentHealth s) (st_incidentLoadError s) (st_sendingNotification s)
    (st_notificationResult s) (st_route s) (st_pageSizeSetting s) (st_calculatedLimit s).

Definition setFilterInput (v : string) (s : AppState) : AppState :=
  mkApp (st_messages s) (st_messagesRef s) v (st_filter s) (st_validatedFilter s)
    (st_selectedHosts s) (st_knownHosts s) (st_hostMenuOpen s) (st_page s) (st_hasMore s)
    (st_autoRefresh s) (st_liveUnavailable s) (st_loading s) (st_importing s) (st_sendingTest s)
    (st_error s) (st_notice s) (st_lastUpdated s) (st_buildId s) (st_incidents s)
    (st_incidentHealth s) (st_incidentLoadError s) (st_sendingNotification s)
    (st_notificationResult s) (st_route s) (st_pageSizeSetting s) (st_calculatedLimit s).

Definition setFilter (v : string) (s : AppState) : AppState :=
  mkApp (st_messages s) (st_messagesRef s) (st_filterInput s) v (st_validatedFilter s)
    (st_selectedHosts s) (st_knownHosts s) (st_hostMenuOpen s) (st_page s) (st_hasMore s)
    (st_autoRefresh s) (st_liveUnavailable s) (st_loading s) (st_importing s) (st_sendingTest s)
    (st_error s) (st_notice s) (st_lastUpdated s) (st_buildId s) (st_incidents s)
    (st_incidentHealth s) (st_incidentLoadError s) (st_sendingNotification s)
    (st_notificationResult s) (st_route s) (st_pageSizeSetting s) (st_calculatedLimit s).

Definition setValidatedFilter (v : option string) (s : AppState) : AppState :=
  mkApp (st_messages s) (st_messagesRef s) (st_filterInput s) (st_filter s) v (st_selectedHosts
    s) (st_knownHosts s) (st_hostMenuOpen s) (st_page s) (st_hasMore s) (st_autoRefresh s)
    (st_liveUnavailable s) (st_loading s) (st_importing s) (st_sendingTest s) (st_error s)
    (st_notice s) (st_lastUpdated s) (st_buildId s) (st_incidents s) (st_incidentHealth s)
    (st_incidentLoadError s) (st_sendingNotification s) (st_notificationResult s) (st_route s)
    (st_pageSizeSetting s) (st_calculatedLimit s).

Definition setSelectedHosts (v : Hosts) (s : AppState) : AppState :=
  mkApp (st_messages s) (st_messagesRef s) (st_filterInput s) (st_filter s) (st_validatedFilter
    s) v (st_knownHosts s) (st_hostMenuOpen s) (st_page s) (st_hasMore s) (st_autoRefresh s)
    (st_liveUnavailable s) (st_loading s) (st_importing s) (st_sendingTest s) (st_error s)
    (st_notice s) (st_lastUpdated s) (st_buildId s) (st_incidents s) (st_incidentHealth s)
    (st_incidentLoadError s) (st_sendingNotification s) (st_notificationResult s) (st_route s)
    (st_pageSizeSetting s) (st_calculatedLimit s).

Definition setKnownHosts (v : list string) (s : AppState) : AppState :=
  mkApp (st_messages s) (st_messagesRef s) (st_filterInput s) (st_filter s) (st_validatedFilter
    s) (st_selectedHosts s) v (st_hostMenuOpen s) (st_page s) (st_hasMore s) (st_autoRefresh s)
    (st_liveUnavailable s) (st_loading s) (st_importing s) (st_sendingTest s) (st_error s)
    (st_notice s) (st_lastUpdated s) (st_buildId s) (st_incidents s) (st_incidentHealth s)
    (st_incidentLoadError s) (st_sendingNotification s) (st_notificationResult s) (st_route s)
    (st_pageSizeSetting s) (st_calculatedLimit s).

Definition setHostMenuOpen (v : bool) (s : AppState) : AppState :=
  mkApp (st_messages s) (st_messagesRef s) (st_filterInput s) (st_filter s) (st_validatedFilter
    s) (st_selectedHosts s) (st_knownHosts s) v (st_page s) (st_hasMore s) (st_autoRefresh s)
    (st_liveUnavailable s) (st_loading s) (st_importing s) (st_sendingTest s) (st_error s)
    (st_notice s) (st_lastUpdated s) (st_buildId s) (st_incidents s) (st_incidentHealth s)
    (st_incidentLoadError s) (st_sendingNotification s) (st_notificationResult s) (st_route s)
    (st_pageSizeSetting s) (st_calculatedLimit s).

Definition setPage (v : Z) (s : AppState) : AppState :=
  mkApp (st_messages s) (st_messagesRef s) (st_filterInput s) (st_filter s) (st_validatedFilter
    s) (st_selectedHosts s) (st_knownHosts s) (st_hostMenuOpen s) v (st_hasMore s)
    (st_autoRefresh s) (st_liveUnavailable s) (st_loading s) (st_importing s) (st_sendingTest s)
    (st_error s) (st_notice s) (st_lastUpdated s) (st_buildId s) (st_incidents s)
    (st_incidentHealth s) (st_incidentLoadError s) (st_sendingNotification s)
    (st_notificationResult s) (st_route s) (st_pageSizeSetting s) (st_calculatedLimit s).

Definition setHasMore (v : bool) (s : AppState) : AppState :=
  mkApp (st_messages s) (st_messagesRef s) (st_filterInput s) (st_filter s) (st_validatedFilter
    s) (st_selectedHosts s) (st_knownHosts s) (st_hostMenuOpen s) (st_page s) v (st_autoRefresh
    s) (st_liveUnavailable s) (st_loading s) (st_importing s) (st_sendingTest s) (st_error s)
    (st_notice s) (st_lastUpdated s) (st_buildId s) (st_incidents s) (st_incidentHealth s)
    (st_incidentLoadError s) (st_sendingNotification s) (st_notificationResult s) (st_route s)
    (st_pageSizeSetting s) (st_calculatedLimit s).

Definition setAutoRefresh (v : bool) (s : AppState) : AppState :=
  mkApp (st_messages s) (st_messagesRef s) (st_filterInput s) (st_filter s) (st_validatedFilter
    s) (st_selectedHosts s) (st_knownHosts s) (st_hostMenuOpen s) (st_page s) (st_hasMore s) v
    (st_liveUnavailable s) (st_loading s) (st_importing s) (st_sendingTest s) (st_error s)
    (st_notice s) (st_lastUpdated s) (st_buildId s) (st_incidents s) (st_incidentHealth s)
    (st_incidentLoadError s) (st_sendingNotification s) (st_notificationResult s) (st_route s)
    (st_pageSizeSetting s) (st_calculatedLimit s).

Definition setLiveUnavailable (v : bool) (s : AppState) : AppState :=
  mkApp (st_messages s) (st_messagesRef s) (st_filterInput s) (st_filter s) (st_validatedFilter
    s) (st_selectedHosts s) (st_knownHosts s) (st_hostMenuOpen s) (st_page s) (st_hasMore s)
    (st_autoRefresh s) v (st_loading s) (st_importing s) (st_sendingTest s) (st_error s)
    (st_notice s) (st_lastUpdated s) (st_buildId s) (st_incidents s) (st_incidentHealth s)
    (st_incidentLoadError s) (st_sendingNotification s) (st_notificationResult s) (st_route s)
    (st_pageSizeSetting s) (st_calculatedLimit s).

Definition setLoading (v : bool) (s : AppState) : AppState :=
  mkApp (st_messages s) (st_messagesRef s) (st_filterInput s) (st_filter s) (st_validatedFilter
    s) (st_selectedHosts s) (st_knownHosts s) (st_hostMenuOpen s) (st_page s) (st_hasMore s)
    (st_autoRefresh s) (st_liveUnavailable s) v (st_importing s) (st_sendingTest s) (st_error s)
    (st_notice s) (st_lastUpdated s) (st_buildId s) (st_incidents s) (st_incidentHealth s)
    (st_incidentLoadError s) (st_sendingNotification s) (st_notificationResult s) (st_route s)
    (st_pageSizeSetting s) (st_calculatedLimit s).

Definition setImporting (v : bool) (s : AppState) : AppState :=
  mkApp (st_messages s) (st_messagesRef s) (st_filterInput s) (st_filter s) (st_validatedFilter
    s) (st_selectedHosts s) (st_knownHosts s) (st_hostMenuOpen s) (st_page s) (st_hasMore s)
    (st_autoRefresh s) (st_liveUnavailable s) (st_loading s) v (st_sendingTest s) (st_error s)
    (st_notice s) (st_lastUpdated s) (st_buildId s) (st_incidents s) (st_incidentHealth s)
    (st_incidentLoadError s) (st_sendingNotification s) (st_notificationResult s) (st_route s)
    (st_pageSizeSetting s) (st_calculatedLimit s).

Definition setSendingTest (v : bool) (s : AppState) : AppState :=
  mkApp (st_messages s) (st_messagesRef s) (st_filterInput s) (st_filter s) (st_validatedFilter
    s) (st_selectedHosts s) (st_knownHosts s) (st_hostMenuOpen s) (st_page s) (st_hasMore s)
    (st_autoRefresh s) (st_liveUnavailable s) (st_loading s) (st_importing s) v (st_error s)
    (st_notice s) (st_lastUpdated s) (st_buildId s) (st_incidents s) (st_incidentHealth s)
    (st_incidentLoadError s) (st_sendingNotification s) (st_notificationResult s) (st_route s)
    (st_pageSizeSetting s) (st_calculatedLimit s).

Definition setError (v : option string) (s : AppState) : AppState :=
  mkApp (st_messages s) (st_messagesRef s) (st_filterInput s) (st_filter s) (st_validatedFilter
    s) (st_selectedHosts s) (st_knownHosts s) (st_hostMenuOpen s) (st_page s) (st_hasMore s)
    (st_autoRefresh s) (st_liveUnavailable s) (st_loading s) (st_importing s) (st_sendingTest s)
    v (st_notice s) (st_lastUpdated s) (st_buildId s) (st_incidents s) (st_incidentHealth s)
    (st_incidentLoadError s) (st_sendingNotification s) (st_notificationResult s) (st_route s)
    (st_pageSizeSetting s) (st_calculatedLimit s).

Definition setNotice (v : option string) (s : AppState) : AppState :=
  mkApp (st_messages s) (st_messagesRef s) (st_filterInput s) (st_filter s) (st_validatedFilter
    s) (st_selectedHosts s) (st_knownHosts s) (st_hostMenuOpen s) (st_page s) (st_hasMore s)
    (st_autoRefresh s) (st_liveUnavailable s) (st_loading s) (st_importing s) (st_sendingTest s)
    (st_error s) v (st_lastUpdated s) (st_buildId s) (st_incidents s) (st_incidentHealth s)
    (st_incidentLoadError s) (st_sendingNotification s) (st_notificationResult s) (st_route s)
    (st_pageSizeSetting s) (st_calculatedLimit s).

Definition setLastUpdated (v : option Z) (s : AppState) : AppState :=
  mkApp (st_messages s) (st_messagesRef s) (st_filterInput s) (st_filter s) (st_validatedFilter
    s) (st_selectedHosts s) (st_knownHosts s) (st_hostMenuOpen s) (st_page s) (st_hasMore s)
    (st_autoRefresh s) (st_liveUnavailable s) (st_loading s) (st_importing s) (st_sendingTest s)
    (st_error s) (st_notice s) v (st_buildId s) (st_incidents s) (st_incidentHealth s)
    (st_incidentLoadError s) (st_sendingNotification s) (st_notificationResult s) (st_route s)
    (st_pageSizeSetting s) (st_calculatedLimit s).

Definition setBuildId (v : string) (s : AppState) : AppState :=
  mkApp (st_messages s) (st_messagesRef s) (st_filterInput s) (st_filter s) (st_validatedFilter
    s) (st_selectedHosts s) (st_knownHosts s) (st_hostMenuOpen s) (st_page s) (st_hasMore s)
    (st_autoRefresh s) (st_liveUnavailable s) (st_loading s) (st_importing s) (st_sendingTest s)
    (st_error s) (st_notice s) (st_lastUpdated s) v (st_incidents s) (st_incidentHealth s)
    (st_incidentLoadError s) (st_sendingNotification s) (st_notificationResult s) (st_route s)
    (st_pageSizeSetting s) (st_calculatedLimit s).

Definition setIncidents (v : list Incident) (s : AppState) : AppState :=
  mkApp (st_messages s) (st_messagesRef s) (st_filterInput s) (st_filter s) (st_validatedFilter
    s) (st_selectedHosts s) (st_knownHosts s) (st_hostMenuOpen s) (st_page s) (st_hasMore s)
    (st_autoRefresh s) (st_liveUnavailable s) (st_loading s) (st_importing s) (st_sendingTest s)
    (st_error s) (st_notice s) (st_lastUpdated s) (st_buildId s) v (st_incidentHealth s)
    (st_incidentLoadError s) (st_sendingNotification s) (st_notificationResult s) (st_route s)
    (st_pageSizeSetting s) (st_calculatedLimit s).

Definition setIncidentHealth (v : option IncidentHealth) (s : AppState) : AppState :=
  mkApp (st_messages s) (st_messagesRef s) (st_filterInput s) (st_filter s) (st_validatedFilter
    s) (st_selectedHosts s) (st_knownHosts s) (st_hostMenuOpen s) (st_page s) (st_hasMore s)
    (st_autoRefresh s) (st_liveUnavailable s) (st_loading s) (st_importing s) (st_sendingTest s)
    (st_error s) (st_notice s) (st_lastUpdated s) (st_buildId s) (st_incidents s) v
    (st_incidentLoadError s) (st_sendingNotification s) (st_notificationResult s) (st_route s)
    (st_pageSizeSetting s) (st_calculatedLimit s).

Definition setIncidentLoadError (v : option string) (s : AppState) : AppState :=
  mkApp (st_messages s) (st_messagesRef s) (st_filterInput s) (st_filter s) (st_validatedFilter
    s) (st_selectedHosts s) (st_knownHosts s) (st_hostMenuOpen s) (st_page s) (st_hasMore s)
    (st_autoRefresh s) (st_liveUnavailable s) (st_loading s) (st_importing s) (st_sendingTest s)
    (st_error s) (st_notice s) (st_lastUpdated s) (st_buildId s) (st_incidents s)
    (st_incidentHealth s) v (st_sendingNotification s) (st_notificationResult s) (st_route s)
    (st_pageSizeSetting s) (st_calculatedLimit s).

Definition setSendingNotification (v : bool) (s : AppState) : AppState :=
  mkApp (st_messages s) (st_messagesRef s) (st_filterInput s) (st_filter s) (st_validatedFilter
    s) (st_selectedHosts s) (st_knownHosts s) (st_hostMenuOpen s) (st_page s) (st_hasMore s)
    (st_autoRefresh s) (st_liveUnavailable s) (st_loading s) (st_importing s) (st_sendingTest s)
    (st_error s) (st_notice s) (st_lastUpdated s) (st_buildId s) (st_incidents s)
    (st_incidentHealth s) (st_incidentLoadError s) v (st_notificationResult s) (st_route s)
    (st_pageSizeSetting s) (st_calculatedLimit s).

Definition setNotificationResult (v : option NotificationResult) (s : AppState) : AppState :=
  mkApp (st_messages s) (st_messagesRef s) (st_filterInput s) (st_filter s) (st_validatedFilter
    s) (st_selectedHosts s) (st_knownHosts s) (st_hostMenuOpen s) (st_page s) (st_hasMore s)
    (st_autoRefresh s) (st_liveUnavailable s) (st_loading s) (st_importing s) (st_sendingTest s)
    (st_error s) (st_notice s) (st_lastUpdated s) (st_buildId s) (st_incidents s)
    (st_incidentHealth s) (st_incidentLoadError s) (st_sendingNotification s) v (st_route s)
    (st_pageSizeSetting s) (st_calculatedLimit s).

Definition setRoute (v : string) (s : AppState) : AppState :=
  mkApp (st_messages s) (st_messagesRef s) (st_filterInput s) (st_filter s) (st_validatedFilter
    s) (st_selectedHosts s) (st_knownHosts s) (st_hostMenuOpen s) (st_page s) (st_hasMore s)
    (st_autoRefresh s) (st_liveUnavailable s) (st_loading s) (st_importing s) (st_sendingTest s)
    (st_error s) (st_notice s) (st_lastUpdated s) (st_buildId s) (st_incidents s)
    (st_incidentHealth s) (st_incidentLoadError s) (st_sendingNotification s)
    (st_notificationResult s) v (st_pageSizeSetting s) (st_calculatedLimit s).

Definition setPageSizeSetting (v : PageSize) (s : AppState) : AppState :=
  mkApp (st_messages s) (st_messagesRef s) (st_filterInput s) (st_filter s) (st_validatedFilter
    s) (st_selectedHosts s) (st_knownHosts s) (st_hostMenuOpen s) (st_page s) (st_hasMore s)
    (st_autoRefresh s) (st_liveUnavailable s) (st_loading s) (st_importing s) (st_sendingTest s)
    (st_error s) (st_notice s) (st_lastUpdated s) (st_buildId s) (st_incidents s)
    (st_incidentHealth s) (st_incidentLoadError s) (st_sendingNotification s)
    (st_notificationResult s) (st_route s) v (st_calculatedLimit s).

Definition setCalculatedLimit (v : Z) (s : AppState) : AppState :=
  mkApp (st_messages s) (st_messagesRef s) (st_filterInput s) (st_filter s) (st_validatedFilter
    s) (st_selectedHosts s) (st_knownHosts s) (st_hostMenuOpen s) (st_page s) (st_hasMore s)
    (st_autoRefresh s) (st_liveUnavailable s) (st_loading s) (st_importing s) (st_sendingTest s)
    (st_error s) (st_notice s) (st_lastUpdated s) (st_buildId s) (st_incidents s)
    (st_incidentHealth s) (st_incidentLoadError s) (st_sendingNotification s)
    (st_notificationResult s) (st_route s) (st_pageSizeSetting s) v.

(** * What is running *)

(** The values [refresh] closes over at the render that created it. *)
Record RefreshClosure : Type := mkClosure {
  rc_filter : string;
  rc_hosts : list string;
  rc_limit : Z;
  rc_offset : Z
}.

(** A call of the client that has not settled, with what its continuation
    closes over: for an import also the [page] of its render. *)
Inductive Call : Type :=
| call_messages (c : RefreshClosure)
| call_build
| call_incidents
| call_test_event
| call_test_notification
| call_import (page : Z) (c : RefreshClosure).

(** [pd_signal] is the controller whose [abort] rejects the call. *)
Record Pending : Type := mkPending {
  pd_id : nat;
  pd_call : Call;
  pd_signal : option nat;
  pd_requests : list Request
}.

(** An open [EventSource] with its listeners, and what they close over. *)
Record Stream : Type := mkStream {
  sr_id : nat;
  sr_query : string;
  sr_hosts : list string;
  sr_limit : Z
}.

(** * The dependencies of the effects *)

Record refresh_deps : Type := mkRefreshDeps {
  rd_filter : string;
  rd_offset : Z;
  rd_hosts : nat;
  rd_limit : Z
}.

#[export] Instance refresh_deps_eq_dec : EqDecision refresh_deps.
Proof. solve_decision. Defined.

Record stream_deps : Type := mkStreamDeps {
  sd_autoRefresh : bool;
  sd_validatedFilter : option string;
  sd_filter : string;
  sd_liveUnavailable : bool;
  sd_page : Z;
  sd_hosts : nat;
  sd_limit : Z
}.

#[export] Instance stream_deps_eq_dec : EqDecision stream_deps.
Proof. solve_decision. Defined.

(** For each effect the dependencies it last ran with ([None] before its first
    run) and what its cleanup refers to: the timeout of the debounce, the
    controller of the refresh, the stream. *)
Record Effects : Type := mkEffects {
  ef_storage : option PageSize;
  ef_size : option (PageSize * string * string);
  ef_debounce : option (string * nat);
  ef_refresh : option (refresh_deps * nat);
  ef_live : option (bool * bool);
  ef_stream : option (stream_deps * option nat);
  ef_build : bool;
  ef_incidents : bool
}.

Definition set_ef_storage (v : option PageSize) (e : Effects) : Effects :=
  mkEffects v (ef_size e) (ef_debounce e) (ef_refresh e) (ef_live e) (ef_stream e) (ef_build e) (ef_incidents e).

Definition set_ef_size (v : option (PageSize * string * string)) (e : Effects) : Effects :=
  mkEffects (ef_storage e) v (ef_debounce e) (ef_refresh e) (ef_live e) (ef_stream e) (ef_build e) (ef_incidents e).

Definition set_ef_debounce (v : option (string * nat)) (e : Effects) : Effects :=
  mkEffects (ef_storage e) (ef_size e) v (ef_refresh e) (ef_live e) (ef_stream e) (ef_build e) (ef_incidents e).

Definition set_ef_refresh (v : option (refresh_deps * nat)) (e : Effects) : Effects :=
  mkEffects (ef_storage e) (ef_size e) (ef_debounce e) v (ef_live e) (ef_stream e) (ef_build e) (ef_incidents e).

Definition set_ef_live (v : option (bool * bool)) (e : Effects) : Effects :=
  mkEffects (ef_storage e) (ef_size e) (ef_debounce e) (ef_refresh e) v (ef_stream e) (ef_build e) (ef_incidents e).

Definition set_ef_stream (v : option (stream_deps * option nat)) (e : Effects) : Effects :=
  mkEffects (ef_storage e) (ef_size e) (ef_debounce e) (ef_refresh e) (ef_live e) v (ef_build e) (ef_incidents e).

Definition set_ef_build (v : bool) (e : Effects) : Effects :=
  mkEffects (ef_storage e) (ef_size e) (ef_debounce e) (ef_refresh e) (ef_live e) (ef_stream e) v (ef_incidents e).

Definition set_ef_incidents (v : bool) (e : Effects) : Effects :=
  mkEffects (ef_storage e) (ef_size e) (ef_debounce e) (ef_refresh e) (ef_live e) (ef_stream e) (ef_build e) v.

Record World : Type := mkWorld {
  w_app : AppState;
  w_next : nat;
  w_timers : list (nat * string);
  w_aborted : list nat;
  w_pending : list Pending;
  w_streams : list Stream;
  w_storage : option string;
  w_effects : Effects
}.

Definition set_w_app (v : AppState) (w : World) : World :=
  mkWorld v (w_next w) (w_timers w) (w_aborted w) (w_pending w) (w_streams w) (w_storage w) (w_effects w).

Definition set_w_next (v : nat) (w : World) : World :=
  mkWorld (w_app w) v (w_timers w) (w_aborted w) (w_pending w) (w_streams w) (w_storage w) (w_effects w).

Definition set_w_timers (v : list (nat * string)) (w : World) : World :=
  mkWorld (w_app w) (w_next w) v (w_aborted w) (w_pending w) (w_streams w) (w_storage w) (w_effects w).

Definition set_w_aborted (v : list nat) (w : World) : World :=
  mkWorld (w_app w) (w_next w) (w_timers w) v (w_pending w) (w_streams w) (w_storage w) (w_effects w).

Definition set_w_pending (v : list Pending) (w : World) : World :=
  mkWorld (w_app w) (w_next w) (w_timers w) (w_aborted w) v (w_streams w) (w_storage w) (w_effects w).

Definition set_w_streams (v : list Stream) (w : World) : World :=
  mkWorld (w_app w) (w_next w) (w_timers w) (w_aborted w) (w_pending w) v (w_storage w) (w_effects w).

Definition set_w_storage (v : option string) (w : World) : World :=
  mkWorld (w_app w) (w_next w) (w_timers w) (w_aborted w) (w_pending w) (w_streams w) v (w_effects w).

Definition set_w_effects (v : Effects) (w : World) : World :=
  mkWorld (w_app w) (w_next w) (w_timers w) (w_aborted w) (w_pending w) (w_streams w) (w_storage w) v.

