(* ===== verification/App.v ===== *)
(** The [App] component of [frontend/src/App.tsx] as functions on a world: one
    function per event handler, promise continuation and [useEffect], on the
    [World] of AppState.v.

    A handler sees the values of the last render and its updates are rendered
    before the next event.  An effect may run once a dependency differs from its
    last run; the order in which pending effects run is left open.  What a call
    answers, what a stream delivers and the room the page has for rows are the
    environment's; they are arguments of the events. *)
From Stdlib Require Import ZArith.
From S2P Require Import Prelude.
From S2P Require Import GoStd.
From S2P Require Import JsStd.
From S2P Require Import ApiClient.
From S2P Require Import View.
From S2P Require Import AppState.
Local Open Scope string_scope.

(** [JSON.parse] of an event's data; [None] when it throws. *)
Class JsonParse := { JSON_parse : string -> option SyslogMessage }.

(** [String(pageSizeSetting)] *)
Definition PageSize_string (v : PageSize) : string :=
  match v with auto => "auto" | rows n => Itoa n end.

(** The initial value of [pageSizeSetting]. *)
Definition initial_page_size (saved : option string) : PageSize :=
  match saved with
  | None => rows 100
  | Some text =>
    if String.eqb text "auto" then auto
    else if truthy text
         then match parseInt text with Some val => rows val | None => rows 100 end
         else rows 100
  end.

Definition initial_app (path : string) (saved : option string) : AppState :=
  mkApp [] [] "" "" None (mkHosts [] 0) [] false 0 false true false false false false None None None
    "" [] None None false None path (initial_page_size saved) 100.

Definition initial_world (path : string) (saved : option string) : World :=
  mkWorld (initial_app path saved) 1 [] [] [] [] saved
    (mkEffects None None None None None None false false).

Section App.
Context {LC : Locale} {CA : Calendar} {JP : JsonParse}.

(** ** Values computed at each render *)

Definition offset (s : AppState) : Z := (st_page s * st_calculatedLimit s)%Z.

Definition liveDisabled (s : AppState) : bool := negb (st_page s =? 0)%Z || st_liveUnavailable s.

Definition errorString (s : AppState) : string := default "" (st_error s).
Definition noticeString (s : AppState) : string := default "" (st_notice s).

Definition showingIncidents (s : AppState) : bool := String.eqb (st_route s) "/incidents".

Definition closure_of (s : AppState) : RefreshClosure :=
  mkClosure (st_filter s) (ho_items (st_selectedHosts s)) (st_calculatedLimit s) (offset s).

Definition refresh_deps_of (s : AppState) : refresh_deps :=
  mkRefreshDeps (st_filter s) (offset s) (ho_ref (st_selectedHosts s)) (st_calculatedLimit s).

Definition stream_deps_of (s : AppState) : stream_deps :=
  mkStreamDeps (st_autoRefresh s) (st_validatedFilter s) (st_filter s) (st_liveUnavailable s)
    (st_page s) (ho_ref (st_selectedHosts s)) (st_calculatedLimit s).

(** ** Running things *)

Definition update (f : AppState -> AppState) (w : World) : World := set_w_app (f (w_app w)) w.

(** A fresh identity. *)
Definition bump (w : World) : World := set_w_next (S (w_next w)) w.

Definition start_call (c : Call) (signal : option nat) (requests : list Request) (w : World) : World :=
  bump (set_w_pending (w_pending w ++ [mkPending (w_next w) c signal requests]) w).

Definition take_call (id : nat) (w : World) : option (Pending * World) :=
  match List.find (fun p => Nat.eqb (pd_id p) id) (w_pending w) with
  | Some p => Some (p, set_w_pending (List.filter (fun q => negb (Nat.eqb (pd_id q) id)) (w_pending w)) w)
  | None => None
  end.

Definition is_aborted (p : Pending) (w : World) : bool :=
  match pd_signal p with
  | Some c => existsb (Nat.eqb c) (w_aborted w)
  | None => false
  end.

(** What the browser may answer: once its controller has aborted, [fetch] or
    the reading of the body rejects with an [AbortError]; a body that is read
    only for its error message swallows it. *)
Definition possible_answer {A : Type} (was_aborted : bool) (f : fetched A) : bool :=
  if negb was_aborted then true
  else match f with
       | inr AbortError => true
       | inr _ => false
       | inl r =>
         if rs_ok r then match rs_json r with inr AbortError => true | _ => false end
         else match rs_error_body r with None => true | Some _ => false end
       end.

(** ** [refresh] *)

Definition refresh_start (c : RefreshClosure) (signal : option nat) (w : World) : World :=
  start_call (call_messages c) signal
    [listMessages_request (mkListMessagesParams (rc_filter c) (rc_hosts c) (rc_limit c) (rc_offset c))]
    (update (fun s => setError None (setLoading true s)) w).

Definition refresh_try (c : RefreshClosure) (result : MessagesResponse + js_error) (now : Z)
    (s : AppState) : AppState :=
  match result with
  | inl response =>
    let s := setValidatedFilter (Some (rc_filter c)) s in
    let s := set_messagesRef (mr_data response) s in
    let s := setMessages (mr_data response) s in
    let s := setHasMore (mt_has_more (mr_meta response)) s in
    let s := setKnownHosts (sortedUniqueHosts
               (st_knownHosts s ++ rc_hosts c ++ map hostname_of (mr_data response))%list) s in
    setLastUpdated (Some now) s
  | inr AbortError => s
  | inr err => setError (Some (error_text err "Request failed")) s
  end.

Definition refresh_settled (c : RefreshClosure) (f : fetched MessagesResponse) (now : Z)
    (s : AppState) : AppState :=
  setLoading false (refresh_try c (listMessages f) now s).

(** ** Incidents *)

Definition refreshIncidents_start (w : World) : World :=
  start_call call_incidents None
    [listIncidents_request list_pending_failure; listIncidents_request list_active;
     listIncidents_request list_resolved; getIncidentHealth_request] w.

(** [Promise.all]: the results, or the rejection that came first; [first] is the
    order in which the four calls settled. *)
Definition rejection {A : Type} (r : A + js_error) : option js_error :=
  match r with inl _ => None | inr err => Some err end.

Fixpoint first_rejection (first : list nat) (rejections : list (option js_error)) : option js_error :=
  match first with
  | [] => None
  | i :: rest =>
    match nth i rejections None with
    | Some err => Some err
    | None => first_rejection rest rejections
    end
  end.

Definition all_incidents (first : list nat) (pending active resolved : IncidentsResponse + js_error)
    (health : IncidentHealth + js_error) : (list Incident * IncidentHealth) + js_error :=
  match pending, active, resolved, health with
  | inl p, inl a, inl r, inl h => inl ((ir_data p ++ ir_data a ++ ir_data r)%list, h)
  | _, _, _, _ =>
    inr (default Thrown (first_rejection first
           [rejection pending; rejection active; rejection resolved; rejection health]))
  end.

Definition refreshIncidents_settled (result : (list Incident * IncidentHealth) + js_error)
    (s : AppState) : AppState :=
  match result with
  | inl (all, health) =>
    setIncidentLoadError None (setIncidentHealth (Some health) (setIncidents all s))
  | inr AbortError => s
  | inr err => setIncidentLoadError (Some (error_text err "Incident refresh failed")) s
  end.

(** ** The other calls *)

Definition handleSendTestEvent (now : Z) (w : World) : World :=
  start_call call_test_event None [sendTestEvent_request now]
    (update (fun s => setNotice None (setError None (setSendingTest true s))) w).

Definition sendTestEvent_settled (result : unit + js_error) (s : AppState) : AppState :=
  setSendingTest false
    match result with
    | inl _ => s
    | inr err => setError (Some (error_text err "Request failed")) s
    end.

Definition handleTestNotification (w : World) : World :=
  start_call call_test_notification None [sendTestNotification_request]
    (update (fun s => setNotificationResult None (setSendingNotification true s)) w).

Definition testNotification_settled (result : unit + js_error) (s : AppState) : AppState :=
  setSendingNotification false
    (setNotificationResult
       (Some match result with
             | inl _ => result_success "Test notification sent."
             | inr err => result_error (error_text err "Test notification failed")
             end) s).

Definition handleImportFile (file : option File) (w : World) : World :=
  match file with
  | None => w
  | Some file =>
    let s := w_app w in
    start_call (call_import (st_page s) (closure_of s)) None [importMessages_request file]
      (update (fun s => setNotice None (setError None (setImporting true s))) w)
  end.

(** The continuation of an import: [page] and [refresh] are those of the render
    in which the file was picked. *)
Definition import_settled (page : Z) (c : RefreshClosure) (result : ImportMessagesResponse + js_error)
    (w : World) : World :=
  update (setImporting false)
    match result with
    | inl response =>
      let w := update (setNotice (Some ("Imported " +:+ Itoa (im_imported response)
                 +:+ " messages, skipped " +:+ Itoa (im_skipped response) +:+ " blank lines"))) w in
      if (page =? 0)%Z then refresh_start c None w else update (setPage 0) w
    | inr err => update (setError (Some (error_text err "Request failed"))) w
    end.

Definition fetchBuildID_settled (result : string + js_error) (s : AppState) : AppState :=
  match result with
  | inl build => setBuildId build s
  | inr _ => s
  end.

(** ** Hosts, filter and pages *)

(** [setSelectedHosts] with a new array. *)
Definition set_hosts (hosts : list string) (w : World) : World :=
  bump (update (setSelectedHosts (mkHosts hosts (w_next w))) w).

Definition clearHosts (w : World) : World := set_hosts [] (update (setPage 0) w).

Definition toggled (host : string) (current : list string) : list string :=
  if existsb (String.eqb host) current
  then List.filter (fun value => negb (String.eqb value host)) current
  else sortedUniqueHosts (current ++ [host])%list.

Definition toggleHost (host : string) (w : World) : World :=
  set_hosts (toggled host (ho_items (st_selectedHosts (w_app w)))) (update (setPage 0) w).

Definition navigate (path : string) : AppState -> AppState := setRoute path.

(** The timeout of the debounce. *)
Definition debounced (filterInput : string) (s : AppState) : AppState :=
  setPage 0 (setFilter filterInput s).

Definition onEvidence (id : string) (s : AppState) : AppState :=
  navigate "/" (setPage 0 (setFilterInput id s)).

(** [updateSize]; [count] is [Math.floor(availableHeight / rowHeight)]. *)
Definition updateSize (count : Z) (s : AppState) : AppState := setCalculatedLimit (Z.max 10 count) s.

(** ** Live messages *)

Definition handleMessage (sr : Stream) (data : string) (now : Z) (s : AppState) : AppState :=
  match JSON_parse data with
  | None => setError (Some "Received an invalid live message event") s
  | Some message =>
    let s := setKnownHosts (sortedUniqueHosts (st_knownHosts s ++ [hostname_of message])%list) s in
    let s := setLastUpdated (Some now) s in
    if (0 <? Z.of_nat (length (sr_hosts sr)))%Z
       && negb (existsb (String.eqb (hostname_of message)) (sr_hosts sr))
    then s
    else
      let merged := merge_live message (st_messagesRef s) in
      let nextMessages := take (Z.to_nat (sr_limit sr)) merged in
      let s := set_messagesRef nextMessages s in
      let s := setMessages nextMessages s in
      if (sr_limit sr <? Z.of_nat (length merged))%Z then setHasMore true s else s
  end.

Definition sse_failed : string :=
  "Live updates disabled because the SSE connection failed. Use Refresh for manual updates.".

Definition close_stream (id : nat) (w : World) : World :=
  set_w_streams (List.filter (fun sr => negb (Nat.eqb (sr_id sr) id)) (w_streams w)) w.

Definition handleError (sr : Stream) (w : World) : World :=
  close_stream (sr_id sr)
    (update (fun s => setError (Some sse_failed) (setLiveUnavailable true (setAutoRefresh false s))) w).

(** ** Effects *)

Inductive Effect : Type :=
| effect_build
| effect_incidents
| effect_storage
| effect_size (count : Z)
| effect_debounce
| effect_refresh
| effect_live
| effect_stream.

(** A dependency changed since the effect last ran. *)
Definition changed (e : Effect) (w : World) : bool :=
  let s := w_app w in
  let ef := w_effects w in
  match e with
  | effect_build => negb (ef_build ef)
  | effect_incidents => negb (ef_incidents ef)
  | effect_storage => negb (bool_decide (ef_storage ef = Some (st_pageSizeSetting s)))
  | effect_size _ =>
    negb (bool_decide (ef_size ef = Some (st_pageSizeSetting s, errorString s, noticeString s)))
  | effect_debounce => negb (bool_decide (fst <$> ef_debounce ef = Some (st_filterInput s)))
  | effect_refresh => negb (bool_decide (fst <$> ef_refresh ef = Some (refresh_deps_of s)))
  | effect_live => negb (bool_decide (ef_live ef = Some (st_autoRefresh s, liveDisabled s)))
  | effect_stream => negb (bool_decide (fst <$> ef_stream ef = Some (stream_deps_of s)))
  end.

Definition set_effects (f : Effects -> Effects) (w : World) : World :=
  set_w_effects (f (w_effects w)) w.

Definition run_build (w : World) : World :=
  start_call call_build None [fetchBuildID_request] (set_effects (set_ef_build true) w).

Definition run_incidents (w : World) : World :=
  refreshIncidents_start (set_effects (set_ef_incidents true) w).

Definition run_storage (w : World) : World :=
  let setting := st_pageSizeSetting (w_app w) in
  set_w_storage (Some (PageSize_string setting)) (set_effects (set_ef_storage (Some setting)) w).

Definition run_size (count : Z) (w : World) : World :=
  let s := w_app w in
  let w := set_effects (set_ef_size (Some (st_pageSizeSetting s, errorString s, noticeString s))) w in
  match st_pageSizeSetting s with
  | rows n => update (setCalculatedLimit n) w
  | auto => update (updateSize count) w
  end.

(** Cleanup: [clearTimeout]. *)
Definition run_debounce (w : World) : World :=
  let input := st_filterInput (w_app w) in
  let timers :=
    match ef_debounce (w_effects w) with
    | Some (_, handle) => List.filter (fun t => negb (Nat.eqb t.1 handle)) (w_timers w)
    | None => w_timers w
    end in
  bump (set_effects (set_ef_debounce (Some (input, w_next w)))
          (set_w_timers (timers ++ [(w_next w, input)])%list w)).

(** Cleanup: [controller.abort()]. *)
Definition run_refresh (w : World) : World :=
  let w :=
    match ef_refresh (w_effects w) with
    | Some (_, controller) => set_w_aborted (controller :: w_aborted w) w
    | None => w
    end in
  let controller := w_next w in
  let s := w_app w in
  refresh_start (closure_of s) (Some controller)
    (bump (set_effects (set_ef_refresh (Some (refresh_deps_of s, controller))) w)).

Definition run_live (w : World) : World :=
  let s := w_app w in
  let w := set_effects (set_ef_live (Some (st_autoRefresh s, liveDisabled s))) w in
  if liveDisabled s && st_autoRefresh s then update (setAutoRefresh false) w else w.

(** The early return of the stream effect. *)
Definition no_stream (s : AppState) : bool :=
  negb (st_autoRefresh s) || negb (st_page s =? 0)%Z || st_liveUnavailable s
  || negb (bool_decide (st_validatedFilter s = Some (st_filter s))).

(** Cleanup: [events.close()]. *)
Definition run_stream (w : World) : World :=
  let w :=
    match ef_stream (w_effects w) with
    | Some (_, Some id) => close_stream id w
    | _ => w
    end in
  let s := w_app w in
  if no_stream s
  then set_effects (set_ef_stream (Some (stream_deps_of s, None))) w
  else
    let sr := mkStream (w_next w) (st_filter s) (ho_items (st_selectedHosts s)) (st_calculatedLimit s) in
    bump (set_effects (set_ef_stream (Some (stream_deps_of s, Some (sr_id sr))))
            (set_w_streams (w_streams w ++ [sr])%list w)).

Definition run_effect (e : Effect) (w : World) : World :=
  match e with
  | effect_build => run_build w
  | effect_incidents => run_incidents w
  | effect_storage => run_storage w
  | effect_size count => run_size count w
  | effect_debounce => run_debounce w
  | effect_refresh => run_refresh w
  | effect_live => run_live w
  | effect_stream => run_stream w
  end.

(** ** Events *)

Inductive Event : Type :=
| ev_popstate (path : string)
| ev_navigate (path : string)
| ev_toggle_menu
| ev_clear_hosts
| ev_toggle_host (host : string)
| ev_filter_input (value : string)
| ev_timeout (id : nat)
| ev_live_checkbox (checked : bool)
| ev_live_button
| ev_previous_page
| ev_next_page
| ev_page_size (value : PageSize)
| ev_refresh
| ev_send_test (now : Z)
| ev_test_notification
| ev_import (file : option File)
| ev_evidence (id : string)
| ev_resize (count : Z)
| ev_interval
| ev_stream_message (id : nat) (data : string) (now : Z)
| ev_stream_error (id : nat)
| ev_messages (id : nat) (answer : fetched MessagesResponse) (now : Z)
| ev_build (id : nat) (answer : fetched (option string))
| ev_incidents (id : nat) (first : list nat) (pending active resolved : fetched IncidentsResponse)
    (health : fetched IncidentHealth)
| ev_test_event (id : nat) (answer : fetched unit)
| ev_notification (id : nat) (answer : fetched unit)
| ev_imported (id : nat) (answer : fetched ImportMessagesResponse).

Definition guard_ (b : bool) (w : World) : option World := if b then Some w else None.

Definition find_stream (id : nat) (w : World) : option Stream :=
  List.find (fun sr => Nat.eqb (sr_id sr) id) (w_streams w).

(** What is done when an event occurs; a handler of a control takes whatever it is
    called with, the tests in it being the code's own.  [None]: the event cannot
    occur (a timeout that was cleared, a stream that was closed, an answer to no
    call). *)
Definition handle (e : Event) (w : World) : option World :=
  let s := w_app w in
  match e with
  | ev_popstate path => Some (update (setRoute path) w)
  | ev_navigate path => Some (update (navigate path) w)
  | ev_toggle_menu => Some (update (setHostMenuOpen (negb (st_hostMenuOpen s))) w)
  | ev_clear_hosts => Some (clearHosts w)
  | ev_toggle_host host => Some (toggleHost host w)
  | ev_filter_input value => Some (update (setFilterInput value) w)
  | ev_timeout id =>
    match List.find (fun t => Nat.eqb t.1 id) (w_timers w) with
    | Some (_, input) =>
      Some (update (debounced input)
              (set_w_timers (List.filter (fun t => negb (Nat.eqb t.1 id)) (w_timers w)) w))
    | None => None
    end
  | ev_live_checkbox checked =>
    if negb (liveDisabled s) then Some (update (setAutoRefresh checked) w) else Some w
  | ev_live_button =>
    if negb (liveDisabled s) then Some (update (setAutoRefresh (negb (st_autoRefresh s))) w) else Some w
  | ev_previous_page => Some (update (setPage (Z.max 0 (st_page s - 1))) w)
  | ev_next_page => Some (update (setPage (st_page s + 1)) w)
  | ev_page_size value => Some (update (fun s => setPage 0 (setPageSizeSetting value s)) w)
  | ev_refresh => Some (refresh_start (closure_of s) None w)
  | ev_send_test now => Some (handleSendTestEvent now w)
  | ev_test_notification => Some (handleTestNotification w)
  | ev_import file => Some (handleImportFile file w)
  | ev_evidence id => Some (update (onEvidence id) w)
  | ev_resize count =>
    match ef_size (w_effects w) with
    | Some (auto, _, _) => Some (update (updateSize count) w)
    | _ => None
    end
  | ev_interval => guard_ (ef_incidents (w_effects w)) (refreshIncidents_start w)
  | ev_stream_message id data now =>
    match find_stream id w with
    | Some sr => Some (update (handleMessage sr data now) w)
    | None => None
    end
  | ev_stream_error id =>
    match find_stream id w with
    | Some sr => Some (handleError sr w)
    | None => None
    end
  | ev_messages id answer now =>
    match take_call id w with
    | Some (mkPending _ (call_messages c) _ _ as p, w') =>
      guard_ (possible_answer (is_aborted p w) answer) (update (refresh_settled c answer now) w')
    | _ => None
    end
  | ev_build id answer =>
    match take_call id w with
    | Some (mkPending _ call_build _ _, w') => Some (update (fetchBuildID_settled (fetchBuildID answer)) w')
    | _ => None
    end
  | ev_incidents id first p a r h =>
    match take_call id w with
    | Some (mkPending _ call_incidents _ _, w') =>
      Some (update (refreshIncidents_settled
                      (all_incidents first (listIncidents p) (listIncidents a) (listIncidents r)
                         (getIncidentHealth h))) w')
    | _ => None
    end
  | ev_test_event id answer =>
    match take_call id w with
    | Some (mkPending _ call_test_event _ _, w') =>
      Some (update (sendTestEvent_settled (sendTestEvent answer)) w')
    | _ => None
    end
  | ev_notification id answer =>
    match take_call id w with
    | Some (mkPending _ call_test_notification _ _, w') =>
      Some (update (testNotification_settled (sendTestNotification answer)) w')
    | _ => None
    end
  | ev_imported id answer =>
    match take_call id w with
    | Some (mkPending _ (call_import page c) _ _, w') =>
      Some (import_settled page c (importMessages answer) w')
    | _ => None
    end
  end.

End App.
