(* ===== verification/Screen.v ===== *)
(** What the [App] component renders ([frontend/src/App.tsx], the JSX of [App]
    and [IncidentTable]) as a tree of elements, with the handler of every control
    and its [disabled], [checked] and [value] attributes.  An icon is an element
    with the name of its component.  [now] is [Date.now()] at the render. *)
From Stdlib Require Import Ascii ZArith.
From S2P Require Import Prelude.
From S2P Require Import GoStd.
From S2P Require Import JsStd.
From S2P Require Import ApiClient.
From S2P Require Import View.
From S2P Require Import AppState.
From S2P Require Import App.
Local Open Scope string_scope.

(** * Elements *)

(** What a control does, as the event of App.v it raises, whose handler is in
    [handle]. [fires None]: the handler is called with [undefined]. *)
Inductive Handler : Type :=
| fires (e : option Event)
| fires_at (f : Z -> Event)
| takes_text (f : string -> Event)
| takes_checked (f : bool -> Event)
| takes_choice (f : string -> option Event)
| takes_file (f : option File -> Event)
| opens_dialog
| downloads (f : Z -> option (string * string)).

Inductive Attr : Type :=
| attr (name value : string)
| className (v : string)
| disabled (b : bool)
| checked (b : bool)
| onClick (h : Handler)
| onChange (h : Handler).

Inductive Node : Type :=
| text (s : string)
| el (tag : string) (attrs : list Attr) (children : list Node).

(** [{cond && element}] *)
Definition when_ (cond : bool) (n : Node) : list Node := if cond then [n] else [].

Definition is_disabled (attrs : list Attr) : bool :=
  existsb (fun a => match a with disabled b => b | _ => false end) attrs.

Definition is_checked (attrs : list Attr) : bool :=
  existsb (fun a => match a with checked b => b | _ => false end) attrs.

Definition handlers (attrs : list Attr) : list Handler :=
  flat_map (fun a => match a with onClick h | onChange h => [h] | _ => [] end) attrs.

Definition values (attrs : list Attr) : list string :=
  flat_map (fun a => match a with
                     | attr name v => if String.eqb name "value" then [v] else []
                     | _ => []
                     end) attrs.

(** The values of the [option]s of a [select]. *)
Definition option_values (children : list Node) : list string :=
  flat_map (fun n => match n with el "option" attrs _ => values attrs | _ => [] end) children.

(** [f] of every element, in document order. *)
Fixpoint collect {A : Type} (f : string -> list Attr -> list Node -> list A) (n : Node) : list A :=
  match n with
  | text _ => []
  | el tag attrs children => (f tag attrs children ++ flat_map (collect f) children)%list
  end.

(** [textContent] *)
Fixpoint text_of (n : Node) : string :=
  match n with
  | text s => s
  | el _ _ children => fold_right (fun c acc => text_of c +:+ acc) "" children
  end.

(** The controls that are not disabled. *)
Record Control : Type := mkControl {
  co_handler : Handler;
  co_attrs : list Attr;
  co_children : list Node
}.

Definition control_at (tag : string) (attrs : list Attr) (children : list Node) : list Control :=
  if is_disabled attrs then [] else map (fun h => mkControl h attrs children) (handlers attrs).

Definition controls (ns : list Node) : list Control := flat_map (collect control_at) ns.

(** The event the user can raise with an enabled control: a checkbox gives the
    other value, a [select] one of its options, a file input any file. *)
Definition raises (c : Control) (e : Event) : Prop :=
  match co_handler c with
  | fires o => o = Some e
  | fires_at f => exists now, e = f now
  | takes_text f => exists v, e = f v
  | takes_checked f => e = f (negb (is_checked (co_attrs c)))
  | takes_choice f => exists v, v ∈ option_values (co_children c) /\ f v = Some e
  | takes_file f => exists file, e = f file
  | opens_dialog | downloads _ => False
  end.

Definition offers (ns : list Node) (e : Event) : Prop := exists c, c ∈ controls ns /\ raises c e.

(** The tables of a page: for each the texts of the cells of each row. *)
Definition cell_at (tag : string) (attrs : list Attr) (children : list Node) : list string :=
  if String.eqb tag "td" || String.eqb tag "th" then [text_of (el tag attrs children)] else [].

Definition row_at (tag : string) (attrs : list Attr) (children : list Node) : list (list string) :=
  if String.eqb tag "tr" then [flat_map (collect cell_at) children] else [].

Definition table_at (tag : string) (attrs : list Attr) (children : list Node) : list (list (list string)) :=
  if String.eqb tag "table" then [flat_map (collect row_at) children] else [].

Definition tables (ns : list Node) : list (list (list string)) := flat_map (collect table_at) ns.

(** * Shorthands for the attributes *)

Definition type_button : Attr := attr "type" "button".
Definition aria_label (v : string) : Attr := attr "aria-label" v.
Definition aria_hidden : Attr := attr "aria-hidden" "true".

(** An icon of the given size. *)
Definition icon (name : string) (size : Z) : Node := el name [attr "size" (Itoa size)] [].

(** An icon that turns while something is on its way. *)
Definition busy_icon (name : string) (size : Z) (busy : bool) : Node :=
  el name [attr "size" (Itoa size); className (if busy then "spin" else "")] [].

Definition td (s : string) : Node := el "td" [] [text s].
Definition th (s : string) : Node := el "th" [] [text s].
Definition numeric_td (s : string) : Node := el "td" [className "numeric"] [text s].

Definition bool_text (b : bool) : string := if b then "true" else "false".

(** U+00B7 between two blanks. *)
Definition middle_dot : string :=
  String " " (String (ascii_of_nat 194) (String (ascii_of_nat 183) (String " " ""))).

(** * The page *)

Section Screen.
Context {LC : Locale} {CA : Calendar}.
Context (toLocaleTimeString : Z -> string).
Context (stringify : SyslogMessage -> string) (stringify_data : list (string * string) -> string).

(** ** The incidents page *)

Definition state_class (state : IncidentState) : string :=
  match state with
  | pending_failure => "pending_failure"
  | active => "active"
  | pending_recovery => "pending_recovery"
  | resolved => "resolved"
  end.

(** The [onEvidence] given to both tables, called with [evidence_ids[0]]. *)
Definition evidence_handler (id : option string) : Handler := fires (option_map ev_evidence id).

Definition incident_tr (now : Z) (incident : Incident) : Node :=
  let n := Z.of_nat (length (in_evidence_ids incident)) in
  el "tr" [attr "key" (in_id incident); className (state_class (in_state incident))]
    [el "td" [] [el "strong" [] [text (in_hostname incident)];
                 el "span" [className "cell-detail"] [text (in_interface incident)]];
     el "td" [] [el "span" [className ("state-badge " +:+ state_class (in_state incident))]
                   [text (stateLabel (in_state incident))]];
     td (formatDate (Some (in_started_at incident)));
     td (or_dash (in_activated_at incident));
     td (or_dash (in_resolved_at incident));
     td (durationBetween now (in_started_at incident) (in_resolved_at incident));
     td (deliveryLabel incident);
     el "td" [] [el "button" [className "evidence-button"; type_button;
                              onClick (evidence_handler (head (in_evidence_ids incident)));
                              disabled (n =? 0)%Z]
                   [text (Itoa n); text " event"; text (plural n)]]].

Definition IncidentTable (now : Z) (incidents : list Incident) : Node :=
  el "div" [className "incident-table-wrap"]
    [el "table" [className "incident-table"]
       [el "thead" [] [el "tr" [] (map th incident_columns)];
        el "tbody" [] (map (incident_tr now) incidents)]].

(** A section of the incidents page: its heading, the number of incidents and
    their table, or a text for none. *)
Definition incident_section (now : Z) (id title note badge none_class none : string)
    (incidents : list Incident) : Node :=
  el "section" [className "incident-section"; attr "aria-labelledby" id]
    [el "div" [className "section-heading"]
       [el "div" [] [el "h3" [attr "id" id] [text title]; el "p" [] [text note]];
        el "span" [className badge] [text (Itoa (Z.of_nat (length incidents)))]];
     if (0 <? Z.of_nat (length incidents))%Z
     then IncidentTable now incidents
     else el "div" [className none_class] [text none]].

Definition notification_banner (result : NotificationResult) : Node :=
  match result with
  | result_success message =>
    el "div" [className "notice-banner inline-result"; attr "role" "status"]
      [el "strong" [] [text "Notification test passed"]; el "span" [] [text message]]
  | result_error message =>
    el "div" [className "error-banner inline-result"; attr "role" "status"]
      [el "strong" [] [text "Notification test failed"]; el "span" [] [text message]]
  end.

Definition navigates (path : string) : Attr := onClick (fires (Some (ev_navigate path))).

Definition incidents_heading (s : AppState) : Node :=
  el "div" [className "page-heading"]
    [el "div" []
       [el "button" [className "back-link"; type_button; navigates "/"]
          [icon "ArrowLeft" 16; text " Messages"];
        el "h2" [] [icon "CircleAlert" 21; text " Connectivity incidents"];
        el "p" [] [text "Primary WAN outages and monitored Starlink or 4G backup failures reported by GL.iNet routers."]];
     el "button" [className "command-button secondary-command"; type_button;
                  disabled (st_sendingNotification s); onClick (fires (Some ev_test_notification))]
       [busy_icon "Bell" 16 (st_sendingNotification s); text " Test notification"]].

Definition analysis_status (s : AppState) : Node :=
  el "section" [className ("analysis-status "
                  +:+ (if healthy (st_incidentHealth s) then "healthy" else "unhealthy"))]
    [el "strong" [] [text (analysis_title (st_incidentLoadError s) (st_incidentHealth s))];
     el "span" [] [text (analysis_detail (st_incidentLoadError s) (st_incidentHealth s))]].

Definition incidents_page (now : Z) (s : AppState) : Node :=
  let current := currentIncidents (st_incidents s) in
  el "main" [className "incidents-page"]
    ([incidents_heading s; analysis_status s]
     ++ match st_notificationResult s with Some r => [notification_banner r] | None => [] end
     ++ [incident_section now "current-incidents-heading" "Current incidents"
           "Failures being confirmed, active outages, and recoveries being confirmed."
           ("count-badge " +:+ (if (0 <? Z.of_nat (length current))%Z then "alert" else "clear"))
           "active-clear" "No current connectivity incidents" current;
         incident_section now "incident-history-heading" "Incident history"
           "Most recent resolved incidents, newest first." "count-badge"
           "empty-state" "No resolved incidents" (resolvedIncidents (st_incidents s))])%list.

(** ** The toolbar *)

Definition host_option (key : list Attr) (is_checked : bool) (h : Handler) (label : string) : Node :=
  el "label" (className "host-option" :: key)
    [el "input" [attr "type" "checkbox"; checked is_checked; onChange h] [];
     el "span" [] [text label]].

Definition host_menu (s : AppState) : Node :=
  let selected := ho_items (st_selectedHosts s) in
  let options := hostOptions (st_knownHosts s) selected in
  el "div" [className "host-menu"]
    (host_option [] (Z.of_nat (length selected) =? 0)%Z (fires (Some ev_clear_hosts)) "All hosts"
     :: map (fun host => host_option [attr "key" host] (existsb (String.eqb host) selected)
                           (fires (Some (ev_toggle_host host))) host) options
     ++ when_ (Z.of_nat (length options) =? 0)%Z
          (el "div" [className "host-empty"] [text "No hosts"]))%list.

Definition host_filter (s : AppState) : Node :=
  el "div" [className "host-filter"]
    (el "button" [type_button; className "host-filter-button"; onClick (fires (Some ev_toggle_menu));
                  attr "aria-expanded" (bool_text (st_hostMenuOpen s))]
       [icon "Server" 17;
        el "span" [] [text (hostLabel (ho_items (st_selectedHosts s)))];
        el "ChevronDown" [attr "size" "16"; aria_hidden] []]
     :: when_ (st_hostMenuOpen s) (host_menu s)).

Definition filter_box (s : AppState) : Node :=
  el "label" [className "filter-box"]
    [icon "Search" 18;
     el "input" [attr "value" (st_filterInput s); onChange (takes_text ev_filter_input);
                 attr "placeholder" "Text or /pppoe|lcp/"; aria_label "Filter messages";
                 attr "title" "Case-insensitive text search, or /regex/ such as /pppoe|lcp/";
                 attr "spellCheck" "false"] []].

Definition live_switch (s : AppState) : Node :=
  el "label" [className "switch"]
    [el "input" [attr "type" "checkbox"; checked (st_autoRefresh s && negb (liveDisabled s));
                 disabled (liveDisabled s);
                 onChange (takes_checked ev_live_checkbox)] [];
     el "span" [className "switch-track"; aria_hidden] [el "span" [] []];
     el "span" [] [text "Live"]].

Definition command_button (classes : string) (h : Handler) (is_disabled : bool) (i : Node)
    (label : string) : Node :=
  el "button" [type_button; className classes; onClick h; disabled is_disabled]
    [i; el "span" [] [text label]].

Definition file_input : Node :=
  el "input" [className "file-input"; attr "type" "file";
              attr "accept" ".ndjson,application/x-ndjson,text/plain,application/json";
              onChange (takes_file ev_import)] [].

Definition icon_button (h : Handler) (is_disabled : bool) (title : string) (i : Node) : Node :=
  el "button" [type_button; className "icon-button"; onClick h; disabled is_disabled;
               attr "title" title; aria_label title] [i].

(** [val === "auto" ? "auto" : Number(val)]; [None] for [NaN]. *)
Definition page_size_of (val : string) : option PageSize :=
  if String.eqb val "auto" then Some auto
  else match parseInt val with Some n => Some (rows n) | None => None end.

Definition page_size_option (value : PageSize) : Node :=
  el "option" [attr "value" (PageSize_string value)]
    [text match value with auto => "Auto (Fit)" | rows n => Itoa n +:+ " rows" end].

(** The values of the page-size [select]. *)
Definition page_sizes : list PageSize := [rows 25; rows 50; rows 100; rows 250; rows 500; auto].

Definition page_size_select (s : AppState) : Node :=
  el "select" [className "page-size-select"; attr "value" (PageSize_string (st_pageSizeSetting s));
               onChange (takes_choice (fun val => option_map ev_page_size (page_size_of val)));
               attr "title" "Select page size"; aria_label "Select page size"]
    (map page_size_option page_sizes).

Definition pager (s : AppState) : Node :=
  el "div" [className "pager"; aria_label "Message pages"]
    [icon_button (fires (Some ev_previous_page)) (st_page s =? 0)%Z "Previous page" (icon "ChevronLeft" 18);
     el "span" [] [text "Page "; text (Itoa (st_page s + 1))];
     icon_button (fires (Some ev_next_page)) (negb (st_hasMore s)) "Next page" (icon "ChevronRight" 18);
     el "span" [className "pager-separator"; aria_hidden] [text "|"];
     page_size_select s].

Definition refresh_button (s : AppState) : Node :=
  icon_button (fires (Some ev_refresh)) false "Refresh" (busy_icon "RefreshCcw" 18 (st_loading s)).

Definition live_button (s : AppState) : Node :=
  icon_button (fires (Some ev_live_button)) (liveDisabled s)
    (liveTitle (st_liveUnavailable s) (st_page s) (st_autoRefresh s))
    (if st_autoRefresh s && negb (liveDisabled s) then icon "Pause" 18 else icon "Play" 18).

Definition toolbar (s : AppState) : Node :=
  el "section" [className "toolbar"; aria_label "Timeline controls"]
    [host_filter s;
     filter_box s;
     live_switch s;
     command_button "command-button" (fires_at ev_send_test) (st_sendingTest s)
       (busy_icon "Send" 17 (st_sendingTest s)) "Send test event";
     command_button "command-button secondary-command"
       (downloads (fun now => handleExport stringify now (st_messages s)))
       (Z.of_nat (length (st_messages s)) =? 0)%Z (icon "Download" 17) "Export NDJSON";
     command_button "command-button secondary-command" opens_dialog (st_importing s)
       (busy_icon "Upload" 17 (st_importing s)) "Import NDJSON";
     file_input;
     pager s;
     refresh_button s;
     live_button s].

(** ** The timeline *)

Definition banner (classes : string) (message : option string) : list Node :=
  if truthy_opt message then [el "div" [className classes] [text (default "" message)]] else [].

Definition current_incident (now : Z) (incident : Incident) : Node :=
  el "div" [className ("current-incident " +:+ state_class (in_state incident));
            attr "key" (in_id incident)]
    [el "strong" [] [text (in_hostname incident); text middle_dot; text (in_interface incident)];
     el "span" [className ("state-badge " +:+ state_class (in_state incident))]
       [text (stateLabel (in_state incident))];
     el "span" [] [text "Detected "; text (formatDate (Some (in_started_at incident)))];
     el "span" [] [text (durationBetween now (in_started_at incident) (in_resolved_at incident))]].

Definition incident_summary (now : Z) (s : AppState) : Node :=
  let current := currentIncidents (st_incidents s) in
  el "section" [className "incident-summary"; aria_label "Current connectivity incidents"]
    (el "div" [className "incident-summary-heading"]
       [el "div" [] [el "strong" [] [text (summary_title (st_incidentLoadError s) current)];
                     el "span" [] [text (summary_detail (st_incidentLoadError s) current)]];
        el "button" [className "text-button"; type_button; navigates "/incidents"]
          [text "View incidents"]]
     :: map (current_incident now) current).

Definition message_tr (message : SyslogMessage) : Node :=
  let structured := formatJSON stringify_data (sm_structured_data message) in
  el "tr" [attr "key" (sm_id message)]
    [td (formatDate (Some (sm_received_at message)));
     td (formatDate (sm_timestamp message));
     td (default "" (sm_hostname message));
     td (default "" (sm_app_name message));
     td (default "" (sm_proc_id message));
     td (default "" (sm_msg_id message));
     numeric_td (numberText (sm_facility message));
     numeric_td (numberText (sm_severity message));
     numeric_td (numberText (sm_priority message));
     td (default "" (sm_tag message));
     td (default "" (sm_source message));
     td (default "" (sm_transport message));
     el "td" [className "structured"; attr "title" structured] [text structured];
     el "td" [className "message-cell"; attr "title" (default "" (sm_message message))]
       [text (default "" (sm_message message))]].

Definition no_messages_tr : Node :=
  el "tr" [] [el "td" [className "empty"; attr "colSpan" "14"] [text "No matching messages"]].

Definition message_table (messages : list SyslogMessage) : Node :=
  el "main" [className "table-shell"]
    [el "table" []
       [el "thead" [] [el "tr" [] (map th message_columns)];
        el "tbody" [] (map message_tr messages
                       ++ when_ (Z.of_nat (length messages) =? 0)%Z no_messages_tr)%list]].

Definition timeline_page (now : Z) (s : AppState) : list Node :=
  (toolbar s :: banner "error-banner" (st_error s) ++ banner "notice-banner" (st_notice s)
   ++ [incident_summary now s; message_table (st_messages s)])%list.

(** ** The whole page *)

Definition nav_button (is_active : bool) (path label : string) : Node :=
  el "button" [className (if is_active then "active" else ""); type_button; navigates path] [text label].

Definition or_text (value other : string) : string := if truthy value then value else other.

Definition topbar (s : AppState) : Node :=
  el "header" [className "topbar"]
    [el "div" [className "brand"]
       [el "span" [className "brand-mark"; aria_hidden] [icon "Wifi" 20];
        el "div" []
          (el "h1" [] [text "Logthing"]
           :: el "p" [] [text (or_text (latestReceived (st_messages s)) "No messages received")]
           :: when_ (truthy (st_buildId s))
                (el "p" [className "text-xs opacity-50"] [text "Build: "; text (st_buildId s)]))];
     el "div" [className "status-strip"; attr "aria-live" "polite"]
       [el "nav" [className "primary-nav"; aria_label "Primary navigation"]
          [nav_button (negb (showingIncidents s)) "/" "Messages";
           nav_button (showingIncidents s) "/incidents" "Incidents"];
        el "span" [className "status-pill"] [icon "Shield" 15; text "Basic auth"];
        el "span" [className "status-text"]
          [text match st_lastUpdated s with Some t => toLocaleTimeString t | None => "" end]]].

Definition screen (now : Z) (s : AppState) : list Node :=
  [el "div" [className "app-shell"]
     (topbar s :: if showingIncidents s then [incidents_page now s] else timeline_page now s)].
End Screen.
