(* ===== verification/AppSteps.v ===== *)
(** What the user can do with a page, and the steps of the browser client: the
    events that the enabled controls raise are the ones the state permits; in a step
    the user raises such an event, something else happens (a timeout, a stream, an
    answer, the window), or an effect runs. *)
From Stdlib Require Import ZArith Lia.
From S2P Require Import Prelude.
From S2P Require Import GoStd.
From S2P Require Import JsStd.
From S2P Require Import ApiClient.
From S2P Require Import View.
From S2P Require Import AppState.
From S2P Require Import App.
From S2P Require Import Screen.

(** * Controls *)

(** One of the handlers raises the event. *)
Definition raised_by (hs : list Handler) (attrs : list Attr) (children : list Node) (e : Event) : Prop :=
  fold_right (fun h acc => raises (mkControl h attrs children) e \/ acc) False hs.

Lemma raised_by_spec (hs : list Handler) (attrs : list Attr) (children : list Node) (e : Event) :
  raised_by hs attrs children e
  <-> exists c, c ∈ map (fun h => mkControl h attrs children) hs /\ raises c e.
Proof.
  induction hs as [|h hs IH]; simpl.
  - split; [done|]. intros (c & Hc & _). by apply elem_of_nil in Hc.
  - rewrite IH. split.
    + intros [H|(c & Hc & H)]; [exists (mkControl h attrs children); split; [left|done]|].
      exists c. split; [by right|done].
    + intros (c & [->|Hc]%elem_of_cons & H); [by left|right; by exists c].
Qed.

Lemma offers_nil (e : Event) : offers [] e <-> False.
Proof. split; [|done]. intros (c & Hc & _). by apply elem_of_nil in Hc. Qed.

Lemma offers_app (l1 l2 : list Node) (e : Event) : offers (l1 ++ l2) e <-> offers l1 e \/ offers l2 e.
Proof.
  unfold offers, controls. rewrite flat_map_app. setoid_rewrite elem_of_app. naive_solver.
Qed.

Lemma offers_text (s : string) (l : list Node) (e : Event) : offers (text s :: l) e <-> offers l e.
Proof. done. Qed.

Lemma offers_el (tag : string) (attrs : list Attr) (children l : list Node) (e : Event) :
  offers (el tag attrs children :: l) e
  <-> (is_disabled attrs = false /\ raised_by (handlers attrs) attrs children e)
      \/ offers children e \/ offers l e.
Proof.
  change (el tag attrs children :: l) with ([el tag attrs children] ++ l). rewrite offers_app.
  assert (H : offers [el tag attrs children] e
              <-> (is_disabled attrs = false /\ raised_by (handlers attrs) attrs children e)
                  \/ offers children e); [|tauto].
  unfold offers, controls. simpl. rewrite app_nil_r. unfold control_at at 1.
  rewrite raised_by_spec. setoid_rewrite elem_of_app.
  destruct (is_disabled attrs); [|naive_solver].
  setoid_rewrite elem_of_nil. naive_solver.
Qed.

Lemma offers_when (b : bool) (n : Node) (e : Event) : offers (when_ b n) e <-> b = true /\ offers [n] e.
Proof. destruct b; simpl; rewrite ?offers_nil; naive_solver. Qed.

Lemma offers_map {A : Type} (f : A -> Node) (l : list A) (e : Event) :
  offers (map f l) e <-> exists x, x ∈ l /\ offers [f x] e.
Proof.
  induction l as [|x l IH].
  - rewrite offers_nil. setoid_rewrite elem_of_nil. naive_solver.
  - change (map f (x :: l)) with ([f x] ++ map f l). rewrite offers_app, IH.
    setoid_rewrite elem_of_cons. naive_solver.
Qed.

(** Nothing in the list can be clicked, whatever it is mapped from. *)
Lemma offers_map_none {A : Type} (f : A -> Node) (l : list A) (e : Event) :
  (forall x, ~ offers [f x] e) -> offers (map f l) e <-> False.
Proof. intros H. rewrite offers_map. naive_solver. Qed.

(** Takes a page of concrete elements apart. *)
Ltac offers_simpl :=
  repeat (first [ rewrite offers_el | rewrite offers_text | rewrite offers_nil | rewrite offers_app
                | rewrite offers_when ]; simpl);
  rewrite ?orb_false_r.

Section Screen.
Context {LC : Locale} {CA : Calendar} {JP : JsonParse}.

(** ** What the state permits *)

(** The first piece of evidence of the incidents on the incidents page. *)
Definition first_evidence (incident : Incident) : list string := take 1 (in_evidence_ids incident).

Definition evidence_offered (s : AppState) : list string :=
  flat_map first_evidence (currentIncidents (st_incidents s) ++ resolvedIncidents (st_incidents s))%list.

(** The user can go to either page from both.  On the timeline the menu of the
    hosts can be opened, and when it is open all of them or one of the known and
    selected ones be chosen; the filter can be edited, a file imported and the list
    refreshed at any time; live updates can be switched unless they are disabled,
    which the first page and a stream that works decide; there is a page before
    any but the first and one behind where there are more messages; the size of a
    page is one of six; and a test event can be sent when none is on its way.  On
    the incidents page a test notification can be sent when none is on its way, and
    the first piece of evidence of an incident be looked up. *)
Definition may (s : AppState) (e : Event) : bool :=
  let timeline := negb (showingIncidents s) in
  match e with
  | ev_navigate path => String.eqb path "/" || String.eqb path "/incidents"
  | ev_toggle_menu | ev_filter_input _ | ev_refresh | ev_import _ => timeline
  | ev_clear_hosts => timeline && st_hostMenuOpen s
  | ev_toggle_host host =>
    timeline && st_hostMenuOpen s
    && bool_decide (host ∈ hostOptions (st_knownHosts s) (ho_items (st_selectedHosts s)))
  | ev_live_checkbox on_ => timeline && negb (liveDisabled s) && Bool.eqb on_ (negb (st_autoRefresh s))
  | ev_live_button => timeline && negb (liveDisabled s)
  | ev_previous_page => timeline && negb (st_page s =? 0)%Z
  | ev_next_page => timeline && st_hasMore s
  | ev_page_size value =>
    timeline && bool_decide (value ∈ [rows 25; rows 50; rows 100; rows 250; rows 500; auto])
  | ev_send_test _ => timeline && negb (st_sendingTest s)
  | ev_test_notification => showingIncidents s && negb (st_sendingNotification s)
  | ev_evidence id => showingIncidents s && bool_decide (id ∈ evidence_offered s)
  | _ => false
  end.

(** ** The toolbar *)

Lemma offers_host_filter (s : AppState) (e : Event) :
  offers [host_filter s] e
  <-> e = ev_toggle_menu
      \/ (st_hostMenuOpen s = true
          /\ (e = ev_clear_hosts
              \/ exists host, host ∈ hostOptions (st_knownHosts s) (ho_items (st_selectedHosts s))
                              /\ e = ev_toggle_host host)).
Proof.
  unfold host_filter, host_menu, host_option. offers_simpl. rewrite offers_map.
  setoid_rewrite offers_el. simpl. setoid_rewrite offers_el. setoid_rewrite offers_nil. simpl.
  unfold raises. simpl. naive_solver.
Qed.

Lemma offers_filter_box (s : AppState) (e : Event) :
  offers [filter_box s] e <-> exists v, e = ev_filter_input v.
Proof. unfold filter_box, icon. offers_simpl. unfold raises. simpl. naive_solver. Qed.

Lemma offers_live_switch (s : AppState) (e : Event) :
  offers [live_switch s] e
  <-> liveDisabled s = false /\ e = ev_live_checkbox (negb (st_autoRefresh s)).
Proof.
  unfold live_switch. offers_simpl. unfold raises. simpl.
  destruct (liveDisabled s); rewrite ?andb_true_r, ?orb_false_r; naive_solver.
Qed.

(** A button with an icon, of the events its handler raises whatever its attributes. *)
Lemma offers_command (classes label : string) (h : Handler) (b : bool) (i : Node) (e : Event) (P : Prop) :
  ~ offers [i] e ->
  (forall cs ns, raises (mkControl h cs ns) e <-> P) ->
  offers [command_button classes h b i label] e <-> b = false /\ P.
Proof.
  intros Hi HP. unfold command_button. rewrite offers_el. simpl. rewrite HP, orb_false_r.
  change [i; el "span" [] [text label]] with ([i] ++ [el "span" [] [text label]]). rewrite offers_app.
  offers_simpl. naive_solver.
Qed.

Lemma offers_icon_button (title : string) (h : Handler) (b : bool) (i : Node) (e : Event) (P : Prop) :
  ~ offers [i] e ->
  (forall cs ns, raises (mkControl h cs ns) e <-> P) ->
  offers [icon_button h b title i] e <-> b = false /\ P.
Proof.
  intros Hi HP. unfold icon_button. rewrite offers_el. simpl. rewrite HP, orb_false_r, offers_nil. tauto.
Qed.

Lemma offers_icon (name : string) (size : Z) (e : Event) : ~ offers [icon name size] e.
Proof. unfold icon. offers_simpl. tauto. Qed.

Lemma offers_busy_icon (name : string) (size : Z) (b : bool) (e : Event) : ~ offers [busy_icon name size b] e.
Proof. unfold busy_icon. offers_simpl. tauto. Qed.

Lemma page_size_values (n : PageSize) :
  n ∈ page_sizes <-> exists v, v ∈ option_values (map page_size_option page_sizes) /\ page_size_of v = Some n.
Proof.
  split.
  - intros Hn. exists (PageSize_string n). repeat (apply elem_of_cons in Hn as [->|Hn];
      [split; [vm_compute; repeat (first [by left|right])|reflexivity]|]). by apply elem_of_nil in Hn.
  - intros (v & Hv & Hp). change (v ∈ ["25"; "50"; "100"; "250"; "500"; "auto"]%string) in Hv.
    repeat (apply elem_of_cons in Hv as [->|Hv];
      [vm_compute in Hp; injection Hp as <-; repeat (first [by left|right])|]). by apply elem_of_nil in Hv.
Qed.

Lemma offers_page_size (s : AppState) (e : Event) :
  offers [page_size_select s] e <-> exists n, n ∈ page_sizes /\ e = ev_page_size n.
Proof.
  unfold page_size_select. rewrite offers_el, offers_map_none, offers_nil.
  2: { intros n. unfold page_size_option. offers_simpl. tauto. }
  cbn [handlers flat_map app raised_by fold_right is_disabled existsb orb]. unfold raises.
  cbn [co_handler co_children]. setoid_rewrite page_size_values. split.
  - intros [(_ & [(v & Hv & H)|[]])|]; [|tauto]. destruct (page_size_of v) as [n|] eqn:E; [|done].
    injection H as <-. naive_solver.
  - intros (n & (v & Hv & E) & ->). left. split; [done|]. left. exists v. by rewrite E.
Qed.

Lemma offers_pager (s : AppState) (e : Event) :
  offers [pager s] e
  <-> ((st_page s =? 0)%Z = false /\ e = ev_previous_page)
      \/ (st_hasMore s = true /\ e = ev_next_page)
      \/ exists n, n ∈ page_sizes /\ e = ev_page_size n.
Proof.
  unfold pager. rewrite offers_el. simpl.
  match goal with |- context [offers (?a :: ?b :: ?c :: ?d :: ?l) e] =>
    change (a :: b :: c :: d :: l) with ([a] ++ [b] ++ [c] ++ [d] ++ l) end.
  rewrite !offers_app, offers_page_size.
  rewrite (offers_icon_button _ _ _ _ _ (e = ev_previous_page)), (offers_icon_button _ _ _ _ _ (e = ev_next_page)).
  - rewrite negb_false_iff. offers_simpl. tauto.
  - apply offers_icon.
  - unfold raises. simpl. naive_solver.
  - apply offers_icon.
  - unfold raises. simpl. naive_solver.
Qed.

(** ** The incidents page *)

Lemma offers_incident_tr (now : Z) (i : Incident) (e : Event) :
  offers [incident_tr now i] e <-> exists id, id ∈ first_evidence i /\ e = ev_evidence id.
Proof.
  unfold incident_tr, td. offers_simpl. unfold raises, first_evidence, evidence_handler. simpl.
  destruct (in_evidence_ids i) as [|id ids]; simpl.
  - setoid_rewrite elem_of_nil. naive_solver.
  - rewrite take_0. setoid_rewrite list_elem_of_singleton. naive_solver.
Qed.

Lemma offers_incident_section (now : Z) (a b c d f g : string) (incidents : list Incident) (e : Event) :
  offers [incident_section now a b c d f g incidents] e
  <-> exists id, id ∈ flat_map first_evidence incidents /\ e = ev_evidence id.
Proof.
  unfold incident_section. rewrite offers_el. simpl.
  match goal with |- context [offers (?a :: ?l) e] => change (a :: l) with ([a] ++ l) end.
  rewrite offers_app. setoid_rewrite list_elem_of_In. setoid_rewrite in_flat_map.
  setoid_rewrite <- list_elem_of_In.
  destruct incidents as [|i l]; simpl.
  - offers_simpl. setoid_rewrite elem_of_nil. naive_solver.
  - unfold IncidentTable, th. offers_simpl.
    change (incident_tr now i :: map (incident_tr now) l) with (map (incident_tr now) (i :: l)).
    rewrite offers_map. setoid_rewrite offers_incident_tr. naive_solver.
Qed.

Lemma offers_incidents_page (now : Z) (s : AppState) (e : Event) :
  offers [incidents_page now s] e
  <-> e = ev_navigate "/" \/ (st_sendingNotification s = false /\ e = ev_test_notification)
      \/ exists id, id ∈ evidence_offered s /\ e = ev_evidence id.
Proof.
  unfold incidents_page, incidents_heading, analysis_status, evidence_offered. rewrite flat_map_app.
  rewrite offers_el. simpl.
  match goal with |- context [offers (?a :: ?b :: ?l) e] => change (a :: b :: l) with ([a] ++ [b] ++ l) end.
  match goal with |- context [offers (_ ++ _ ++ ?l ++ [?a; ?b]) e] =>
    change (l ++ [a; b]) with (l ++ [a] ++ [b]); assert (Hr : ~ offers l e) end.
  { destruct (st_notificationResult s) as [[m|m]|]; unfold notification_banner; offers_simpl; tauto. }
  rewrite !offers_app, !offers_incident_section. unfold navigates, icon, busy_icon. offers_simpl.
  unfold raises. simpl. setoid_rewrite elem_of_app. naive_solver.
Qed.

(** ** The timeline *)

Context (stringify : SyslogMessage -> string) (stringify_data : list (string * string) -> string).

Lemma offers_toolbar (s : AppState) (e : Event) :
  offers [toolbar stringify s] e
  <-> offers [host_filter s] e \/ (exists v, e = ev_filter_input v)
      \/ (liveDisabled s = false /\ e = ev_live_checkbox (negb (st_autoRefresh s)))
      \/ (st_sendingTest s = false /\ exists now, e = ev_send_test now)
      \/ (exists file, e = ev_import file)
      \/ offers [pager s] e \/ e = ev_refresh
      \/ (liveDisabled s = false /\ e = ev_live_button).
Proof.
  unfold toolbar, refresh_button, live_button. rewrite offers_el. simpl.
  match goal with |- context [offers (?a :: ?b :: ?c :: ?d :: ?f :: ?g :: ?h :: ?i :: ?j :: ?l) e] =>
    change (a :: b :: c :: d :: f :: g :: h :: i :: j :: l)
    with ([a] ++ [b] ++ [c] ++ [d] ++ [f] ++ [g] ++ [h] ++ [i] ++ [j] ++ l) end.
  rewrite !offers_app, offers_filter_box, offers_live_switch, offers_nil.
  rewrite (offers_command _ _ _ _ _ _ (exists now, e = ev_send_test now)),
    (offers_command _ _ (downloads _) _ _ _ False), (offers_command _ _ opens_dialog _ _ _ False),
    (offers_icon_button _ _ _ _ _ (e = ev_refresh)),
    (offers_icon_button _ _ _ _ _ (e = ev_live_button));
    try (by apply offers_icon); try (by apply offers_busy_icon); try done.
  - unfold file_input. offers_simpl. unfold raises. simpl. tauto.
  - destruct (st_autoRefresh s && _); apply offers_icon.
  - intros. unfold raises. simpl. naive_solver.
  - intros. unfold raises. simpl. naive_solver.
Qed.

Lemma offers_timeline_page (now : Z) (s : AppState) (e : Event) :
  offers (timeline_page stringify stringify_data now s) e
  <-> offers [toolbar stringify s] e \/ e = ev_navigate "/incidents".
Proof.
  unfold timeline_page.
  match goal with |- context [offers (?a :: ?l1 ++ ?l2 ++ [?b; ?c]) e] =>
    change (a :: l1 ++ l2 ++ [b; c]) with ([a] ++ l1 ++ l2 ++ [b] ++ [c]) end.
  rewrite !offers_app.
  assert (Hb : forall c m, ~ offers (banner c m) e)
    by (intros; unfold banner; case_match; offers_simpl; tauto).
  assert (Hs : offers [incident_summary now s] e <-> e = ev_navigate "/incidents").
  { unfold incident_summary, navigates. offers_simpl. rewrite offers_map_none.
    - unfold raises. simpl. naive_solver.
    - intros i. unfold current_incident. offers_simpl. tauto. }
  assert (Ht : ~ offers [message_table stringify_data (st_messages s)] e).
  { unfold message_table, th. offers_simpl. rewrite offers_map_none; [unfold no_messages_tr; offers_simpl; tauto|].
    intros m. unfold message_tr, td, numeric_td. offers_simpl. tauto. }
  rewrite Hs. naive_solver.
Qed.

(** ** The whole page *)

Context (toLocaleTimeString : Z -> string).

Lemma offers_topbar (s : AppState) (e : Event) :
  offers [topbar toLocaleTimeString s] e <-> e = ev_navigate "/" \/ e = ev_navigate "/incidents".
Proof.
  unfold topbar, nav_button, navigates, icon. offers_simpl. unfold raises. simpl. naive_solver.
Qed.

Lemma offers_screen (now : Z) (s : AppState) (e : Event) :
  offers (screen toLocaleTimeString stringify stringify_data now s) e
  <-> offers [topbar toLocaleTimeString s] e
      \/ if showingIncidents s then offers [incidents_page now s] e
         else offers (timeline_page stringify stringify_data now s) e.
Proof.
  unfold screen. rewrite offers_el. simpl.
  match goal with |- context [offers (?a :: ?l) e] => change (a :: l) with ([a] ++ l) end.
  rewrite offers_app, offers_nil. destruct (showingIncidents s); tauto.
Qed.

(** Equations between different events are false. *)
Ltac drop_false :=
  repeat match goal with
    | |- context [?a = ?b :> Event] =>
      let H := fresh in assert (H : a = b <-> False) by (split; [discriminate|done]); rewrite H; clear H
    | |- context [exists x, @?P x] =>
      let H := fresh in
      assert (H : (exists x, P x) <-> False)
        by (split; [intros [? ?]; destruct_and?; discriminate|done]);
      rewrite H; clear H
    end.

(** The controls of the page of a state offer what the state permits. *)
Lemma offers_may (s : AppState) (e : Event) (now : Z) :
  offers (screen toLocaleTimeString stringify stringify_data now s) e <-> may s e = true.
Proof.
  rewrite offers_screen, offers_topbar. unfold may.
  destruct (showingIncidents s) eqn:Es;
    rewrite ?offers_timeline_page, ?offers_incidents_page, ?offers_toolbar, ?offers_host_filter, ?offers_pager;
    destruct e; simpl negb; rewrite ?andb_true_l, ?andb_false_l,
      ?andb_true_iff, ?orb_true_iff, ?negb_true_iff, ?String.eqb_eq, ?bool_decide_eq_true, ?Bool.eqb_true_iff.
  all: drop_false.
  all: rewrite ?(right_absorb False and), ?(left_id False or), ?(right_id False or).
  all: try done; try naive_solver.
Qed.
End Screen.

(** * Steps *)

(** What the user does on the page itself. *)
Definition user_event (e : Event) : bool :=
  match e with
  | ev_navigate _ | ev_toggle_menu | ev_clear_hosts | ev_toggle_host _ | ev_filter_input _
  | ev_live_checkbox _ | ev_live_button | ev_previous_page | ev_next_page | ev_page_size _ | ev_refresh
  | ev_send_test _ | ev_test_notification | ev_import _ | ev_evidence _ => true
  | _ => false
  end.

Section Steps.
Context {LC : Locale} {CA : Calendar} {JP : JsonParse}.

(** A page is rendered at some time and with some texts of the browser's making. *)
Inductive app_step (w : World) : World -> Prop :=
| step_user e w' clock stringify stringify_data now :
    offers (screen clock stringify stringify_data now (w_app w)) e -> handle e w = Some w' -> app_step w w'
| step_event e w' : user_event e = false -> handle e w = Some w' -> app_step w w'
| step_effect e : changed e w = true -> app_step w (run_effect e w).

Definition app_reachable (w : World) : Prop :=
  exists path saved, rtc app_step (initial_world path saved) w.

(** No effect waits to run. *)
Definition settled (w : World) : Prop := forall e, changed e w = false.

(** An event that can occur. *)
Definition occurs_in (w : World) (e : Event) : Prop := user_event e = true -> may (w_app w) e = true.

Lemma step_cases w w' :
  app_step w w' ->
  (exists e, occurs_in w e /\ handle e w = Some w') \/ (exists e, changed e w = true /\ w' = run_effect e w).
Proof.
  intros [e w1 clock st sd now Ho Hh|e w1 Hu Hh|e Hc]; [left|left|right]; exists e; (split; [|done]); [|congruence|done].
  intros _. by apply offers_may in Ho.
Qed.

(** A schedule, for concrete runs. *)
Inductive Action : Type :=
| act (e : Event)
| eff (e : Effect).

Definition accept (e : Event) (w : World) : option World :=
  if user_event e && negb (may (w_app w) e) then None else handle e w.

Lemma accept_step e w w' : accept e w = Some w' -> app_step w w'.
Proof.
  unfold accept. destruct (user_event e) eqn:Hu; [|by apply step_event].
  destruct (may (w_app w) e) eqn:Hm; [|done]. simpl.
  apply (step_user w e w' (fun _ => ""%string) (fun _ => ""%string) (fun _ => ""%string) 0). by apply offers_may.
Qed.

Fixpoint run (actions : list Action) (w : World) : option World :=
  match actions with
  | [] => Some w
  | act e :: rest => match accept e w with Some w' => run rest w' | None => None end
  | eff e :: rest => if changed e w then run rest (run_effect e w) else None
  end.
End Steps.
