(* ===== verification/AppLemmas.v ===== *)
(** The invariant of the browser client and its preservation: one stream at
    most, opened with the values of the render it belongs to; one debounce
    timeout at most; every fetch that can still be answered was made for the
    dependencies the refresh effect last ran with. *)
From Stdlib Require Import ZArith Lia.
From S2P Require Import Prelude.
From S2P Require Import GoStd.
From S2P Require Import JsStd.
From S2P Require Import ApiClient.
From S2P Require Import View.
From S2P Require Import AppState.
From S2P Require Import App.
From S2P Require Import Screen.
From S2P Require Import AppSteps.

(** The effect opened a stream with these dependencies. *)
Definition wants_stream (d : stream_deps) : Prop :=
  sd_autoRefresh d = true /\ sd_page d = 0%Z /\ sd_liveUnavailable d = false
  /\ sd_validatedFilter d = Some (sd_filter d).

Definition stream_of (d : stream_deps) (hs : Hosts) (sr : Stream) : Prop :=
  sr_query sr = sd_filter d /\ sr_limit sr = sd_limit d
  /\ (sd_hosts d = ho_ref hs -> sr_hosts sr = ho_items hs).

Definition stream_inv (w : World) : Prop :=
  match ef_stream (w_effects w) with
  | None => w_streams w = []
  | Some (d, None) => w_streams w = [] /\ ~ wants_stream d
  | Some (d, Some id) =>
    wants_stream d
    /\ ((exists sr, w_streams w = [sr] /\ sr_id sr = id /\ stream_of d (st_selectedHosts (w_app w)) sr)
        \/ (w_streams w = [] /\ st_liveUnavailable (w_app w) = true))
  end.

Definition timer_inv (w : World) : Prop :=
  match ef_debounce (w_effects w) with
  | None => w_timers w = []
  | Some (input, handle) => w_timers w = [] \/ w_timers w = [(handle, input)]
  end.

(** The closure of a refresh that ran with dependencies [d]. *)
Definition closure_for (d : refresh_deps) (hs : Hosts) (c : RefreshClosure) : Prop :=
  rc_filter c = rd_filter d /\ rc_limit c = rd_limit d /\ rc_offset c = rd_offset d
  /\ (rd_hosts d = ho_ref hs -> rc_hosts c = ho_items hs).

Definition signal_inv (w : World) (p : Pending) : Prop :=
  match pd_signal p with
  | None => True
  | Some ctl =>
    ctl ∈ w_aborted w
    \/ exists d c, ef_refresh (w_effects w) = Some (d, ctl) /\ pd_call p = call_messages c
                   /\ closure_for d (st_selectedHosts (w_app w)) c
  end.

Definition refresh_inv (w : World) : Prop :=
  match ef_refresh (w_effects w) with
  | None => True
  | Some (d, ctl) => ctl ∉ w_aborted w /\ ctl < w_next w /\ rd_hosts d < w_next w
  end.

Definition stream_ref_inv (w : World) : Prop :=
  match ef_stream (w_effects w) with
  | None => True
  | Some (d, _) => sd_hosts d < w_next w
  end.

Record app_inv (w : World) : Prop := {
  inv_rows : st_messages (w_app w) = st_messagesRef (w_app w);
  inv_page : (0 <= st_page (w_app w))%Z;
  inv_ref : ho_ref (st_selectedHosts (w_app w)) < w_next w;
  inv_unavailable : st_liveUnavailable (w_app w) = true -> w_streams w = [];
  inv_stream : stream_inv w;
  inv_timer : timer_inv w;
  inv_refresh : refresh_inv w;
  inv_stream_ref : stream_ref_inv w;
  inv_aborted : Forall (fun c => c < w_next w) (w_aborted w);
  inv_signals : Forall (signal_inv w) (w_pending w)
}.

Lemma guard_Some (b : bool) (w w' : World) : guard_ b w = Some w' -> w' = w.
Proof. unfold guard_. by destruct b; intros [= ->]. Qed.

(** The cases of an event that occurred. *)
Ltac handle_cases H :=
  repeat match type of H with
    | (match ?x with _ => _ end) = Some _ => destruct x eqn:?; try discriminate H
    | guard_ _ _ = Some _ => apply guard_Some in H as ->
    | Some _ = Some _ => injection H as <-
    end.

Section Invariant.
Context {LC : Locale} {CA : Calendar} {JP : JsonParse}.

Lemma initial_inv (path : string) (saved : option string) : app_inv (initial_world path saved).
Proof. by split; simpl; try lia. Qed.

(** ** Frame lemmas *)

Lemma inv_update (f : AppState -> AppState) (w : World) :
  app_inv w ->
  st_messages (f (w_app w)) = st_messagesRef (f (w_app w)) ->
  (0 <= st_page (f (w_app w)))%Z ->
  st_selectedHosts (f (w_app w)) = st_selectedHosts (w_app w) ->
  st_liveUnavailable (f (w_app w)) = st_liveUnavailable (w_app w) ->
  app_inv (update f w).
Proof.
  intros [] Hm Hp Hh Hl. split; simpl; rewrite ?Hh, ?Hl; try done.
  - unfold stream_inv in *. simpl. by rewrite Hh, Hl.
  - eapply Forall_impl; [done|]. intros p. unfold signal_inv. simpl. by rewrite Hh.
Qed.

Lemma inv_bump (w : World) : app_inv w -> app_inv (bump w).
Proof.
  intros []. split; simpl; try done; try lia.
  - unfold refresh_inv in *. simpl. repeat case_match; naive_solver lia.
  - unfold stream_ref_inv in *. simpl. repeat case_match; naive_solver lia.
  - eapply Forall_impl; [done|]. simpl. lia.
Qed.

Lemma inv_set_pending (ps : list Pending) (w : World) :
  app_inv w -> Forall (signal_inv w) ps -> app_inv (set_w_pending ps w).
Proof. intros [] H. by split. Qed.

Lemma inv_start_call (c : Call) (signal : option nat) (rs : list Request) (w : World) :
  app_inv w -> (forall id, signal_inv w (mkPending id c signal rs)) ->
  app_inv (start_call c signal rs w).
Proof.
  intros Hi Hs. apply inv_bump, inv_set_pending; [done|]. apply Forall_app. split; [apply Hi|].
  by constructor.
Qed.

Lemma take_call_spec (id : nat) (w w' : World) (p : Pending) :
  take_call id w = Some (p, w') ->
  p ∈ w_pending w
  /\ w' = set_w_pending (List.filter (fun q => negb (Nat.eqb (pd_id q) id)) (w_pending w)) w.
Proof.
  unfold take_call. destruct (List.find _ _) as [q|] eqn:E; [|done]. intros [= <- <-].
  split; [|done]. apply find_some in E as [E _]. by apply list_elem_of_In.
Qed.

Lemma inv_take_call (id : nat) (w w' : World) (p : Pending) :
  take_call id w = Some (p, w') -> app_inv w -> app_inv w'.
Proof.
  intros [_ ->]%take_call_spec Hi. apply inv_set_pending; [done|].
  apply Forall_forall. intros q [Hq _]%list_elem_of_In%filter_In.
  eapply Forall_forall; [apply Hi|]. by apply list_elem_of_In.
Qed.

(** ** Handlers *)

Lemma handleMessage_rows (sr : Stream) (data : string) (now : Z) (s : AppState) :
  st_messages s = st_messagesRef s ->
  st_messages (handleMessage sr data now s) = st_messagesRef (handleMessage sr data now s).
Proof. intros H. unfold handleMessage. by repeat case_match. Qed.

Lemma handleMessage_frame (sr : Stream) (data : string) (now : Z) (s : AppState) :
  st_page (handleMessage sr data now s) = st_page s
  /\ st_selectedHosts (handleMessage sr data now s) = st_selectedHosts s
  /\ st_liveUnavailable (handleMessage sr data now s) = st_liveUnavailable s.
Proof. unfold handleMessage. by repeat case_match. Qed.

Lemma refresh_settled_frame (c : RefreshClosure) (f : fetched MessagesResponse) (now : Z) (s : AppState) :
  st_page (refresh_settled c f now s) = st_page s
  /\ st_selectedHosts (refresh_settled c f now s) = st_selectedHosts s
  /\ st_liveUnavailable (refresh_settled c f now s) = st_liveUnavailable s.
Proof. unfold refresh_settled, refresh_try. by repeat case_match. Qed.

Lemma refresh_settled_rows (c : RefreshClosure) (f : fetched MessagesResponse) (now : Z) (s : AppState) :
  st_messages s = st_messagesRef s ->
  st_messages (refresh_settled c f now s) = st_messagesRef (refresh_settled c f now s).
Proof. intros H. unfold refresh_settled, refresh_try. by repeat case_match. Qed.

Lemma inv_refresh_start (c : RefreshClosure) (w : World) : app_inv w -> app_inv (refresh_start c None w).
Proof. intros Hi. apply inv_start_call; [|done]. apply inv_update; by try apply Hi. Qed.

Lemma inv_import_settled (page : Z) (c : RefreshClosure) (r : ImportMessagesResponse + js_error) (w : World) :
  app_inv w -> app_inv (import_settled page c r w).
Proof.
  intros Hi.
  unfold import_settled. destruct r as [resp|err].
  - set (w1 := update (setNotice _) w).
    assert (H1 : app_inv w1) by (apply inv_update; by try apply Hi).
    destruct (page =? 0)%Z.
    + apply inv_update; try done; try apply (inv_refresh_start c w1 H1).
    + assert (H2 : app_inv (update (setPage 0) w1)) by (apply inv_update; by try apply H1).
      apply inv_update; try done; apply H2.
  - assert (H1 : app_inv (update (setError (Some (error_text err "Request failed"))) w))
      by (apply inv_update; by try apply Hi).
    apply inv_update; try done; apply H1.
Qed.

(** A new selection: nothing that is open was made for it. *)
Lemma inv_set_hosts (hosts : list string) (w : World) : app_inv w -> app_inv (set_hosts hosts w).
Proof.
  intros []. split; simpl; try done; try lia.
  - unfold stream_inv, stream_ref_inv in *. simpl.
    destruct (ef_stream (w_effects w)) as [[d [id|]]|]; try done.
    destruct inv_stream0 as [Hd [(sr & ? & ? & Hq & Hl & _)|?]]; [|by split; [|right]].
    split; [done|]. left. exists sr. unfold stream_of. simpl. split_and!; try done. intros; lia.
  - unfold refresh_inv in *. simpl. repeat case_match; naive_solver lia.
  - unfold stream_ref_inv in *. simpl. repeat case_match; naive_solver lia.
  - eapply Forall_impl; [done|]. simpl. lia.
  - unfold refresh_inv in *. eapply Forall_impl; [done|]. intros p. unfold signal_inv. simpl.
    destruct (pd_signal p) as [ctl|]; [|done]. intros [?|(d & c & Hr & Hc & Hf & Hl & Ho & _)]; [by left|].
    right. exists d, c. rewrite Hr in *. unfold closure_for. simpl. split_and!; try done. intros; lia.
Qed.

Lemma find_stream_only (w : World) (id : nat) (sr : Stream) :
  app_inv w -> find_stream id w = Some sr -> w_streams w = [sr].
Proof.
  intros [] Hf. unfold find_stream in Hf. apply find_some in Hf as [Hin _].
  unfold stream_inv in *. destruct (ef_stream (w_effects w)) as [[d [i|]]|].
  - destruct inv_stream0 as [_ [(sr' & Hs & _)|[Hs _]]]; rewrite Hs in *; [|done].
    by destruct Hin as [->|[]].
  - destruct inv_stream0 as [Hs _]. by rewrite Hs in Hin.
  - by rewrite inv_stream0 in Hin.
Qed.

Lemma close_only_stream (w : World) (sr : Stream) :
  w_streams w = [sr] -> w_streams (close_stream (sr_id sr) w) = [].
Proof. intros H. unfold close_stream. simpl. rewrite H. simpl. by rewrite Nat.eqb_refl. Qed.

Lemma inv_handleError (sr : Stream) (w : World) :
  app_inv w -> w_streams w = [sr] -> app_inv (handleError sr w).
Proof.
  intros [] Hs. pose proof (close_only_stream w sr Hs) as Hn. unfold close_stream in Hn. simpl in Hn.
  split; simpl; rewrite ?Hn; try done.
  - unfold stream_inv in *. simpl. rewrite Hn.
    destruct (ef_stream (w_effects w)) as [[d [id|]]|]; [|naive_solver..].
    split; [apply inv_stream0|by right].
Qed.

(** ** Events *)

(** An update that leaves rows, page, hosts and the live flag alone. *)
Lemma inv_update_same (f : AppState -> AppState) (w : World) :
  app_inv w ->
  st_messages (f (w_app w)) = st_messages (w_app w) ->
  st_messagesRef (f (w_app w)) = st_messagesRef (w_app w) ->
  st_page (f (w_app w)) = st_page (w_app w) ->
  st_selectedHosts (f (w_app w)) = st_selectedHosts (w_app w) ->
  st_liveUnavailable (f (w_app w)) = st_liveUnavailable (w_app w) ->
  app_inv (update f w).
Proof. intros Hi Hm Hr Hp ? ?. apply inv_update; try done; rewrite ?Hm, ?Hr, ?Hp; apply Hi. Qed.

Lemma inv_timeout (id : nat) (w : World) :
  app_inv w -> app_inv (set_w_timers (List.filter (fun t => negb (Nat.eqb t.1 id)) (w_timers w)) w).
Proof.
  intros []. split; try done. unfold timer_inv in *. simpl.
  destruct (ef_debounce (w_effects w)) as [[input h]|]; [|by rewrite inv_timer0].
  destruct inv_timer0 as [->| ->]; [by left|]. simpl. destruct (Nat.eqb h id); [by left|by right].
Qed.

Lemma handle_inv (e : Event) (w w' : World) : app_inv w -> handle e w = Some w' -> app_inv w'.
Proof.
  intros Hi. destruct e; simpl; intros H;
    handle_cases H;
    repeat match goal with
      | E : take_call _ w = Some _ |- _ => apply inv_take_call in E; [|done]
      end;
    try exact Hi; try (apply inv_update_same; done).
  - by apply inv_set_hosts, inv_update; try apply Hi.
  - by apply inv_set_hosts, inv_update; try apply Hi.
  - apply inv_update; try done; by apply inv_timeout.
  - apply inv_update; try done; [apply Hi|simpl; lia].
  - apply inv_update; try done; [apply Hi|]. simpl. pose proof (inv_page w Hi). lia.
  - by apply inv_update; try apply Hi.
  - by apply inv_refresh_start.
  - apply inv_start_call; [|done]. by apply inv_update_same.
  - apply inv_start_call; [|done]. by apply inv_update_same.
  - unfold handleImportFile. destruct file as [f|]; [|done].
    apply inv_start_call; [|done]. by apply inv_update_same.
  - by apply inv_update; try apply Hi.
  - by apply inv_start_call.
  - destruct (handleMessage_frame s data now (w_app w)) as (Hp & Hh & Hl).
    apply inv_update; try done; [by apply handleMessage_rows, Hi|]. rewrite Hp. apply Hi.
  - apply inv_handleError; [done|]. by eapply find_stream_only.
  - destruct (refresh_settled_frame c answer now (w_app w0)) as (Hp & Hh & Hl).
    apply inv_update; try done; [apply refresh_settled_rows; by eapply inv_rows|]. rewrite Hp.
    by eapply inv_page.
  - apply inv_update_same; try done; unfold fetchBuildID_settled; by case_match.
  - apply inv_update_same; try done; unfold refreshIncidents_settled; by repeat case_match.
  - apply inv_update_same; try done; unfold sendTestEvent_settled; by case_match.
  - by apply inv_import_settled.
Qed.

(** ** Effects *)

Lemma inv_set_ef (f : Effects -> Effects) (w : World) :
  app_inv w ->
  ef_stream (f (w_effects w)) = ef_stream (w_effects w) ->
  ef_debounce (f (w_effects w)) = ef_debounce (w_effects w) ->
  ef_refresh (f (w_effects w)) = ef_refresh (w_effects w) ->
  app_inv (set_effects f w).
Proof.
  intros [] Hs Hd Hr. split; try done.
  - unfold stream_inv in *. simpl. by rewrite Hs.
  - unfold timer_inv in *. simpl. by rewrite Hd.
  - unfold refresh_inv in *. simpl. by rewrite Hr.
  - unfold stream_ref_inv in *. simpl. by rewrite Hs.
  - eapply Forall_impl; [done|]. intros p. unfold signal_inv. simpl. by rewrite Hr.
Qed.

Lemma inv_run_debounce (w : World) : app_inv w -> app_inv (run_debounce w).
Proof.
  intros []. apply inv_bump. split; try done. unfold timer_inv in *. simpl. right.
  destruct (ef_debounce (w_effects w)) as [[input h]|]; [|by rewrite inv_timer0].
  destruct inv_timer0 as [->| ->]; simpl; [done|]. by rewrite Nat.eqb_refl.
Qed.

Lemma inv_run_refresh (w : World) : app_inv w -> app_inv (run_refresh w).
Proof.
  intros Hi. unfold run_refresh, refresh_start.
  set (w1 := match ef_refresh (w_effects w) with Some (_, c) => set_w_aborted (c :: w_aborted w) w
             | None => w end).
  assert (H1 : w_app w1 = w_app w /\ w_next w1 = w_next w /\ w_pending w1 = w_pending w
               /\ w_streams w1 = w_streams w /\ w_timers w1 = w_timers w /\ w_effects w1 = w_effects w)
    by (unfold w1; by repeat case_match).
  destruct H1 as (Ha & Hn & Hp & Hs & Ht & He).
  assert (Hab : Forall (fun c => c < w_next w) (w_aborted w1)).
  { unfold w1. pose proof (inv_refresh w Hi) as Hr. unfold refresh_inv in Hr.
    destruct (ef_refresh (w_effects w)) as [[d c]|]; [|by apply Hi].
    constructor; [apply Hr|apply Hi]. }
  assert (Hsig : Forall (fun p => forall c, pd_signal p = Some c -> c ∈ w_aborted w1) (w_pending w)).
  { eapply Forall_impl; [apply Hi|]. intros p H c Hc. unfold signal_inv in H. rewrite Hc in H. unfold w1.
    destruct H as [H|(d & cl & -> & _)]; [|simpl; left].
    repeat case_match; simpl; [by right|done]. }
  destruct Hi. unfold start_call. apply inv_bump. split; simpl; rewrite ?Ha, ?Hn, ?Hs, ?Hp; try done; try lia.
  - unfold stream_inv in *. simpl. by rewrite He, Ha, Hs.
  - unfold timer_inv in *. simpl. by rewrite He, Ht.
  - unfold refresh_inv. simpl. rewrite Hn. split; [|lia].
    intros Hin. rewrite Forall_forall in Hab. specialize (Hab _ Hin). lia.
  - unfold stream_ref_inv in *. simpl. rewrite He, Hn. repeat case_match; naive_solver lia.
  - eapply Forall_impl; [exact Hab|]. simpl. lia.
  - apply Forall_app. split.
    + eapply Forall_impl; [exact Hsig|]. simpl. intros p H. unfold signal_inv. simpl.
      destruct (pd_signal p) as [ctl|]; [|done]. left. exact (H ctl eq_refl).
    + constructor; [|done]. right. simpl. rewrite ?Ha, ?Hn. unfold closure_for. by eexists _, _.
Qed.

Lemma no_stream_spec (s : AppState) : no_stream s = false <-> wants_stream (stream_deps_of s).
Proof.
  unfold no_stream, wants_stream, stream_deps_of. simpl.
  rewrite !orb_false_iff, !negb_false_iff, bool_decide_eq_true, Z.eqb_eq. tauto.
Qed.

Lemma inv_run_stream (w : World) : app_inv w -> app_inv (run_stream w).
Proof.
  intros Hi. unfold run_stream.
  set (w1 := match ef_stream (w_effects w) with Some (_, Some id) => close_stream id w | _ => w end).
  assert (H1 : w_app w1 = w_app w /\ w_next w1 = w_next w /\ w_pending w1 = w_pending w
               /\ w_aborted w1 = w_aborted w /\ w_timers w1 = w_timers w /\ w_effects w1 = w_effects w)
    by (unfold w1; by repeat case_match).
  destruct H1 as (Ha & Hn & Hp & Hab & Ht & He).
  assert (Hs : w_streams w1 = []).
  { unfold w1. pose proof (inv_stream w Hi) as H. unfold stream_inv in H.
    destruct (ef_stream (w_effects w)) as [[d [id|]]|]; [|by destruct H|done].
    destruct H as [_ [(sr & Hs & <- & _)|[Hs _]]]; [by apply close_only_stream|].
    simpl. by rewrite Hs. }
  destruct Hi, (no_stream (w_app w1)) eqn:E; [|apply inv_bump];
    split; simpl; rewrite ?Ha, ?Hn, ?Hs, ?Hp, ?Hab; try done;
    try (unfold timer_inv in *; simpl; by rewrite He, Ht);
    try (unfold refresh_inv in *; simpl; by rewrite He, Hab, Hn);
    try (unfold stream_ref_inv in *; simpl; by rewrite ?Hn, ?Ha);
    try (eapply Forall_impl; [exact inv_signals0|]; intros p; unfold signal_inv; simpl;
         by rewrite Hab, He, Ha).
  - split; [done|]. rewrite <- no_stream_spec, <- Ha. by rewrite E.
  - rewrite Ha in E. apply no_stream_spec in E as (_ & _ & Hl & _). simpl in Hl. by rewrite Hl.
  - unfold stream_inv. simpl. rewrite ?Hs, <- no_stream_spec. split; [by rewrite <- Ha|]. left.
    eexists. unfold stream_of. simpl. by rewrite ?Ha.
Qed.

Lemma run_effect_inv (e : Effect) (w : World) : app_inv w -> app_inv (run_effect e w).
Proof.
  intros Hi. destruct e; simpl.
  - apply inv_start_call; [|done]. by apply inv_set_ef.
  - apply inv_start_call; [|done]. by apply inv_set_ef.
  - unfold run_storage.
    match goal with |- context [set_effects ?f w] => assert (H : app_inv (set_effects f w)) by by apply inv_set_ef end.
    by destruct H.
  - unfold run_size. case_match; (apply inv_update_same; [by apply inv_set_ef|done..]).
  - by apply inv_run_debounce.
  - by apply inv_run_refresh.
  - unfold run_live. case_match; [apply inv_update_same; try done|]; by apply inv_set_ef.
  - by apply inv_run_stream.
Qed.

Lemma step_inv (w w' : World) : app_step w w' -> app_inv w -> app_inv w'.
Proof. intros [(e & _ & Hh)|(e & _ & ->)]%step_cases Hi; [by eapply handle_inv|by apply run_effect_inv]. Qed.

Lemma reachable_inv (w : World) : app_reachable w -> app_inv w.
Proof.
  intros (path & saved & Hr).
  enough (H : forall w0, app_inv w0 -> rtc app_step w0 w -> app_inv w) by (eapply H; [apply initial_inv|done]).
  clear Hr. intros w0 Hi Hr. induction Hr as [|w1 w2 w3 H12 _ IH]; [done|].
  apply IH. by eapply step_inv.
Qed.
End Invariant.
