(* ===== verification/Browser.v ===== *)
(** A concrete browser: the locale, calendar and JSON reader, and the schedules
    the witnesses of the client's theorems run on. *)
From Stdlib Require Import ZArith Lia.
From S2P Require Import Prelude.
From S2P Require Import GoStd.
From S2P Require Import JsStd.
From S2P Require Import ApiClient.
From S2P Require Import View.
From S2P Require Import AppState.
From S2P Require Import App.
From S2P Require Import Screen.
From S2P Require Import AppSteps.

(** Byte order of strings; dates written as decimal milliseconds; the data of
    an event is the id and the time of a message, separated by a blank. *)
Definition byte_compare (a b : string) : Z :=
  if decide (a = b) then 0%Z else if decide (String.le a b) then (-1)%Z else 1%Z.

Lemma byte_compare_anti (a b : string) : Z.sgn (byte_compare b a) = (- Z.sgn (byte_compare a b))%Z.
Proof.
  unfold byte_compare. destruct (decide (a = b)) as [->|Hn]; [by rewrite decide_True|].
  rewrite (decide_False (P := b = a)) by congruence.
  destruct (decide (String.le a b)) as [H1|H1], (decide (String.le b a)) as [H2|H2]; try done.
  - destruct Hn. by apply (anti_symm String.le).
  - by destruct (total String.le a b).
Qed.

Lemma byte_compare_le (a b : string) : (byte_compare a b <= 0)%Z <-> String.le a b.
Proof.
  unfold byte_compare. destruct (decide (a = b)) as [->|Hn]; [done|].
  by destruct (decide (String.le a b)).
Qed.

Lemma byte_compare_trans (a b c : string) :
  (byte_compare a b <= 0 -> byte_compare b c <= 0 -> byte_compare a c <= 0)%Z.
Proof. rewrite !byte_compare_le. apply transitivity. Qed.

Definition byte_locale : Locale :=
  {| localeCompare := byte_compare; localeCompare_anti := byte_compare_anti;
     localeCompare_trans := byte_compare_trans |}.

Definition decimal_calendar : Calendar := {| Date_parse := parseInt; toLocaleString := Itoa |}.

Definition live_message (id at_ host : string) : SyslogMessage :=
  mkSyslogMessage id at_ None None None None None None (Some host) None None None None None None None.

Definition spaced_parse (data : string) : option SyslogMessage :=
  match Index data " " with
  | Some i => Some (live_message (stake i data) (sdrop (S i) data) "router-a")
  | None => None
  end.

Definition spaced_json : JsonParse := {| JSON_parse := spaced_parse |}.

#[export] Existing Instance byte_locale.
#[export] Existing Instance decimal_calendar.
#[export] Existing Instance spaced_json.

(** * Concrete runs *)

Section Worlds.
Context {LC : Locale} {CA : Calendar} {JP : JsonParse}.

Definition run_world (actions : list Action) : World :=
  default (initial_world "/" None) (run actions (initial_world "/" None)).

Lemma run_steps (actions : list Action) (w w' : World) : run actions w = Some w' -> rtc app_step w w'.
Proof.
  revert w. induction actions as [|[e|e] rest IH]; intros w; simpl.
  - by intros [= ->].
  - destruct (accept e w) as [w1|] eqn:E; [|done]. intros H.
    eapply rtc_l; [by eapply accept_step|by apply IH].
  - destruct (changed e w) eqn:E; [|done]. intros H.
    eapply rtc_l; [by eapply step_effect|by apply IH].
Qed.

Lemma run_world_reachable (actions : list Action) : app_reachable (run_world actions).
Proof.
  exists "/"%string, None. unfold run_world. destruct (run _ _) as [w|] eqn:E; simpl; [by eapply run_steps|done].
Qed.
End Worlds.

(** The first render: every effect runs; call 5 is the first query, under the
    controller 4. *)
Definition mount : list Action :=
  [eff effect_build; eff effect_incidents; eff effect_storage; eff (effect_size 20); eff effect_debounce;
   eff effect_refresh; eff effect_live; eff effect_stream].

Definition answer_with (data : list SyslogMessage) (more : bool) : fetched MessagesResponse :=
  inl (mkResponse 200 (inl (mkMessagesResponse data (mkMeta (Z.of_nat (length data)) 100 0 more))) None).

Definition mounted_world : World := run_world mount.

(** The first query is answered: the stream 6 opens. *)
Definition loaded : list Action :=
  mount ++ [act (ev_messages 5 (answer_with [live_message "a" "5" "router-a"] true) 10); eff effect_stream].

Definition loaded_world : World := run_world loaded.

Example loaded_shows :
  map sm_id (st_messages (w_app loaded_world)) = ["a"%string]
  /\ map sr_id (w_streams loaded_world) = [6] /\ st_loading (w_app loaded_world) = false.
Proof. vm_compute. done. Qed.
