(* ===== verification/AppProps.v ===== *)
(** The properties of the browser client: live updates show what a query would,
    a stream and an answer belong to what is on the screen, the effects settle,
    and the lists, labels and requests the pure functions build. *)
From Stdlib Require Import ZArith Lia.
From S2P Require Import Prelude.
From S2P Require Import GoStd.
From S2P Require Import JsStd.
From S2P Require Import ApiClient.
From S2P Require Import View.
From S2P Require Import AppState.
From S2P Require Import App.
From S2P Require Import Screen.
From S2P Require Import AppSteps.
From S2P Require Import AppLemmas.
From S2P Require Import Browser.

(** * Live updates *)

Section Live.
Context {LC : Locale} {CA : Calendar} {JP : JsonParse}.

(** When the service received a message, to the nanosecond, which is what its
    queries go by; the client has of it the milliseconds that [Date.parse] gives. *)
Context (received : SyslogMessage -> Time).

Definition reads_time (m : SyslogMessage) : Prop :=
  Date_parse (sm_received_at m) = Some ((received m - epoch) / 1000000)%Z.

(** No filter, or the message's host is one of those selected. *)
Definition from_hosts (hosts : list string) (m : SyslogMessage) : bool :=
  match hosts with
  | [] => true
  | _ => bool_decide (default "" (sm_hostname m) ∈ hosts)
  end.

(** What a query answers on an archive, before it is cut into pages: the messages
    of the selected hosts, the latest received first. *)
Definition answered (hosts : list string) (archive l : list SyslogMessage) : Prop :=
  l ≡ₚ List.filter (from_hosts hosts) archive /\ StronglySorted (fun a b => received b <= received a)%Z l.

(** The screen shows the first page of that, and knows whether there is another
    one. *)
Definition shows_first_page (hosts : list string) (limit : Z) (archive : list SyslogMessage)
    (s : AppState) : Prop :=
  exists l, answered hosts archive l
    /\ st_messagesRef s = take (Z.to_nat limit) l
    /\ st_messages s = st_messagesRef s
    /\ st_hasMore s = (limit <? Z.of_nat (length l))%Z.

(** Within a millisecond, which is all the client can tell, messages arrive in the
    order in which they were received; else in any order. *)
Definition in_turn (archive : list SyslogMessage) (m : SyslogMessage) : Prop :=
  forall x, x ∈ archive -> Date_parse (sm_received_at x) = Date_parse (sm_received_at m) ->
    (received x <= received m)%Z.

Fixpoint arrive_in_turn (archive ms : list SyslogMessage) : Prop :=
  match ms with
  | [] => True
  | m :: rest => in_turn archive m /\ arrive_in_turn (m :: archive) rest
  end.

Lemma compare_received a b :
  reads_time a -> reads_time b ->
  (compareMessagesLatestFirst a b <= 0 <-> (received b - epoch) / 1000000 <= (received a - epoch) / 1000000)%Z.
Proof. intros Ha Hb. unfold compareMessagesLatestFirst, receivedAtMillis. rewrite Ha, Hb. lia. Qed.

Lemma latest_first_sorted l :
  Forall reads_time l -> StronglySorted (fun a b => received b <= received a)%Z l ->
  sorted_by compareMessagesLatestFirst l.
Proof.
  intros Hr Hs. induction Hs as [|x l Hs IH Hall]; [constructor|]. apply Forall_cons in Hr as [Hx Hr].
  constructor; [by apply IH|]. clear -Hall Hx Hr. induction Hall as [|y l Hy _ IH]; [done|].
  apply Forall_cons in Hr as [Hy' Hr]. constructor; [|by apply IH].
  apply compare_received; [done|done|]. apply Z.div_le_mono; lia.
Qed.

(** A message goes where a query would have it. *)
Lemma insert_latest_first m l :
  reads_time m -> Forall reads_time l -> in_turn l m ->
  StronglySorted (fun a b => received b <= received a)%Z l ->
  StronglySorted (fun a b => received b <= received a)%Z (insert_by compareMessagesLatestFirst m l).
Proof.
  intros Hm Hr Ht Hs. induction Hs as [|x l Hs IH Hall]; simpl; [by repeat constructor|].
  apply Forall_cons in Hr as [Hx Hr].
  destruct (Z.leb_spec (compareMessagesLatestFirst m x) 0) as [Hc|Hc].
  - apply compare_received in Hc; [|done|done].
    assert (Hle : (received x <= received m)%Z).
    { destruct (Z.le_gt_cases (received x) (received m)) as [|Hgt]; [done|]. apply Ht; [by left|].
      rewrite Hx, Hm. f_equal. pose proof (Z.div_le_mono (received m - epoch) (received x - epoch) 1000000 ltac:(lia) ltac:(lia)). lia. }
    constructor; [by constructor|]. constructor; [done|]. eapply Forall_impl; [exact Hall|]. simpl. lia.
  - constructor.
    + apply IH; [done|]. intros y Hy. apply Ht. by right.
    + rewrite insert_by_perm. constructor; [|done].
      assert (~ (compareMessagesLatestFirst m x <= 0)%Z) as Hn by lia. rewrite compare_received in Hn by done.
      destruct (Z.le_gt_cases (received m) (received x)) as [|Hgt]; [done|exfalso]. apply Hn.
      apply Z.div_le_mono; lia.
Qed.

Lemma sorted_take (n : nat) (l : list SyslogMessage) :
  sorted_by compareMessagesLatestFirst l -> sorted_by compareMessagesLatestFirst (take n l).
Proof.
  intros H. revert n. induction H as [|x l Hs IH Hall]; intros [|n]; simpl; try constructor; [apply IH|].
  by apply Forall_take.
Qed.

Lemma merge_live_fresh (m : SyslogMessage) (shown : list SyslogMessage) :
  sorted_by compareMessagesLatestFirst shown -> sm_id m ∉ map sm_id shown ->
  merge_live m shown = insert_by compareMessagesLatestFirst m shown.
Proof.
  intros Hs Hf. unfold merge_live. rewrite filter_all.
  - simpl. by rewrite Array_sort_id.
  - intros x Hx. apply negb_true_iff, String.eqb_neq. intros E. apply Hf. rewrite <- E.
    by apply list_elem_of_In, in_map, list_elem_of_In.
Qed.

Lemma from_hosts_handle (sr : Stream) (m : SyslogMessage) :
  (0 <? Z.of_nat (length (sr_hosts sr)))%Z && negb (existsb (String.eqb (hostname_of m)) (sr_hosts sr))
  = negb (from_hosts (sr_hosts sr) m).
Proof.
  unfold from_hosts, hostname_of. destruct (sr_hosts sr) as [|h hs]; [done|].
  assert ((0 <? Z.of_nat (length (h :: hs)))%Z = true) as -> by done. rewrite andb_true_l.
  f_equal. apply eq_true_iff_eq. rewrite bool_decide_eq_true, existsb_exists, list_elem_of_In.
  split; [intros (x & Hx & <-%String.eqb_eq)|intros Hx; exists (default "" (sm_hostname m))]; [done|].
  by rewrite String.eqb_refl.
Qed.

(** A message that is inserted into the first page gives the first page of the
    list it is inserted into. *)
Lemma insert_first_page limit m (l shown : list SyslogMessage) :
  (0 <= limit)%Z -> shown = take (Z.to_nat limit) l ->
  let whole := insert_by compareMessagesLatestFirst m l in
  let merged := insert_by compareMessagesLatestFirst m shown in
  take (Z.to_nat limit) merged = take (Z.to_nat limit) whole
  /\ (if (limit <? Z.of_nat (length merged))%Z then true else (limit <? Z.of_nat (length l))%Z)
     = (limit <? Z.of_nat (length whole))%Z.
Proof.
  intros Hlim -> whole merged. split; [unfold merged, whole; by rewrite <- take_insert_by|].
  assert (Hw : length whole = S (length l)) by (unfold whole; by rewrite (Permutation_length (insert_by_perm _ _ _))).
  assert (Hm : length merged = S (length (take (Z.to_nat limit) l)))
    by (unfold merged; by rewrite (Permutation_length (insert_by_perm _ _ _))).
  rewrite Hw, Hm, length_take.
  repeat match goal with |- context [(?a <? ?b)%Z] => destruct (Z.ltb_spec a b) end; lia || done.
Qed.

Lemma live_message_first_page (sr : Stream) (archive : list SyslogMessage) (data : string) (now : Z)
    (m : SyslogMessage) (s : AppState) :
  (0 <= sr_limit sr)%Z -> JSON_parse data = Some m -> sm_id m ∉ map sm_id archive ->
  Forall reads_time (m :: archive) -> in_turn archive m ->
  shows_first_page (sr_hosts sr) (sr_limit sr) archive s ->
  shows_first_page (sr_hosts sr) (sr_limit sr) (m :: archive) (handleMessage sr data now s).
Proof.
  intros Hlim Hp Hf [Hm Hr]%Forall_cons Ht (l & [Hperm Hsorted] & Href & Hmsg & Hh).
  unfold handleMessage. rewrite Hp, from_hosts_handle.
  destruct (from_hosts (sr_hosts sr) m) eqn:Hsel; simpl negb; cbv iota.
  2: { exists l. split; [split; [by simpl; rewrite Hsel|done]|done]. }
  set (shown := st_messagesRef _). assert (Hshown : shown = st_messagesRef s) by done.
  rewrite Hshown, Href in *. clear shown Hshown.
  assert (Hsub : forall x, x ∈ l -> x ∈ archive).
  { intros x Hx. rewrite Hperm in Hx. by apply list_elem_of_In, filter_In in Hx as [?%list_elem_of_In _]. }
  assert (Hrl : Forall reads_time l) by (apply Forall_forall; intros x Hx; rewrite Forall_forall in Hr; auto).
  assert (Hfresh : sm_id m ∉ map sm_id (take (Z.to_nat (sr_limit sr)) l)).
  { intros (x & Hx & Hin)%list_elem_of_In%in_map_iff. apply Hf. rewrite <- Hx.
    apply list_elem_of_In, in_map, list_elem_of_In, Hsub.
    apply list_elem_of_In, elem_of_take in Hin as (i & Hi & _). by apply list_elem_of_lookup_2 in Hi. }
  rewrite merge_live_fresh by (done || by apply sorted_take, latest_first_sorted).
  destruct (insert_first_page (sr_limit sr) m l _ Hlim eq_refl) as [Htake Hmore].
  exists (insert_by compareMessagesLatestFirst m l). split; [split|].
  - rewrite insert_by_perm. simpl. by rewrite Hsel, Hperm.
  - apply insert_latest_first; try done. intros x Hx. apply Ht. auto.
  - rewrite <- Htake, <- Hmore.
    by destruct (sr_limit sr <? Z.of_nat (length (insert_by compareMessagesLatestFirst m (take _ l))))%Z.
Qed.

(** The events of a stream, one after the other. *)
Definition deliver (sr : Stream) (events : list (string * Z)) (s : AppState) : AppState :=
  fold_left (fun s '(data, now) => handleMessage sr data now s) events s.

End Live.


(** * Runs of the component *)

Section Runs.
Context {LC : Locale} {CA : Calendar} {JP : JsonParse}.

Lemma settled_deps (w : World) :
  settled w ->
  fst <$> ef_stream (w_effects w) = Some (stream_deps_of (w_app w))
  /\ fst <$> ef_refresh (w_effects w) = Some (refresh_deps_of (w_app w)).
Proof.
  intros Hs. pose proof (Hs effect_stream) as H1. pose proof (Hs effect_refresh) as H2. simpl in *.
  by rewrite negb_false_iff, bool_decide_eq_true in H1, H2.
Qed.

(** C19: whatever the user, the server and the browser do, at
    most one event stream is open, and whenever no effect is waiting to run a
    stream is open exactly if live updates are on, the first page is shown, no
    stream has failed and the filter has been accepted by a query; the stream
    then carries the filter, the selected hosts and the page size on screen. *)
Theorem stream_matches_view (w : World) :
  app_reachable w ->
  length (w_streams w) <= 1
  /\ (settled w ->
      if no_stream (w_app w) then w_streams w = []
      else exists sr, w_streams w = [sr] /\ sr_query sr = st_filter (w_app w)
             /\ sr_hosts sr = ho_items (st_selectedHosts (w_app w))
             /\ sr_limit sr = st_calculatedLimit (w_app w)).
Proof.
  intros Hi%reachable_inv. pose proof (inv_stream w Hi) as H. unfold stream_inv in H. split.
  - destruct (ef_stream (w_effects w)) as [[d [id|]]|].
    + by destruct H as [_ [(sr & -> & _)|[-> _]]]; simpl; lia.
    + by destruct H as [-> _]; simpl; lia.
    + rewrite H. simpl. lia.
  - intros [Hd _]%settled_deps. destruct (ef_stream (w_effects w)) as [[d o]|]; [|done].
    simpl in Hd. injection Hd as ->. destruct (no_stream (w_app w)) eqn:E.
    + destruct o as [id|]; [|apply H]. destruct H as [H _]. apply no_stream_spec in H. congruence.
    + apply no_stream_spec in E. destruct o as [id|]; [|by destruct H].
      destruct H as [_ [(sr & Hs & _ & Hq & Hl & Hh)|[_ Hl]]].
      * exists sr. split_and!; [done..|by apply Hh|done].
      * destruct E as (_ & _ & E & _). simpl in E. congruence.
Qed.

Lemma unavailable_step (w w' : World) :
  app_step w w' -> st_liveUnavailable (w_app w) = true -> st_liveUnavailable (w_app w') = true.
Proof.
  intros [(e & _ & Hh)|(e & _ & ->)]%step_cases Hl.
  - destruct e; simpl in Hh; handle_cases Hh;
      repeat match goal with
        | E : take_call _ w = Some _ |- _ => apply take_call_spec in E as [_ ->]
        end; try exact Hl; try done.
    + unfold handleImportFile. by case_match.
    + by destruct (handleMessage_frame s data now (w_app w)) as (_ & _ & H); rewrite <- H in Hl.
    + by destruct (refresh_settled_frame c answer now (w_app w)) as (_ & _ & H); rewrite <- H in Hl.
    + simpl. unfold fetchBuildID_settled. by case_match.
    + simpl. unfold refreshIncidents_settled. by repeat case_match.
    + simpl. unfold sendTestEvent_settled. by case_match.
    + unfold import_settled. repeat case_match; exact Hl.
  - destruct e; simpl; try exact Hl.
    + unfold run_size. by case_match.
    + unfold run_refresh. simpl. by repeat case_match.
    + unfold run_live. by case_match.
    + unfold run_stream. by repeat case_match.
Qed.

(** Once a stream has failed no stream is ever opened
    again, whatever happens, until the page is reloaded. *)
Theorem sse_failure_sticks (w w' : World) :
  app_reachable w -> st_liveUnavailable (w_app w) = true -> rtc app_step w w' ->
  st_liveUnavailable (w_app w') = true /\ w_streams w' = [].
Proof.
  intros Hr Hl Hs.
  assert (H : st_liveUnavailable (w_app w') = true).
  { clear Hr. induction Hs as [|w1 w2 w3 H12 _ IH]; [done|]. apply IH. by eapply unavailable_step. }
  split; [done|]. apply inv_unavailable; [|done]. apply reachable_inv.
  destruct Hr as (path & saved & Hr). exists path, saved. by etrans.
Qed.

(** C20: when the refresh effect has run for what is on the
    screen, every fetch it started whose answer can still arrive asks for the
    filter, the hosts, the page size and the offset that are on the screen. *)
Theorem answers_are_current (w : World) (p : Pending) (c : RefreshClosure) :
  app_reachable w -> changed effect_refresh w = false ->
  p ∈ w_pending w -> pd_call p = call_messages c -> is_Some (pd_signal p) -> is_aborted p w = false ->
  c = closure_of (w_app w).
Proof.
  intros Hi%reachable_inv Hch Hp Hc [ctl Hs] Ha.
  simpl in Hch. rewrite negb_false_iff, bool_decide_eq_true in Hch.
  pose proof (inv_signals w Hi) as H. rewrite Forall_forall in H. specialize (H p Hp).
  unfold signal_inv in H. unfold is_aborted in Ha. rewrite Hs in *.
  destruct H as [H|(d & c' & Hr & Hc' & Hf & Hl & Ho & Hh)].
  - apply list_elem_of_In in H. exfalso. assert (H' : existsb (Nat.eqb ctl) (w_aborted w) = true)
      by (apply existsb_exists; exists ctl; split; [done|apply Nat.eqb_refl]). congruence.
  - rewrite Hr in Hch. simpl in Hch. injection Hch as ->. rewrite Hc in Hc'. injection Hc' as <-.
    destruct c. simpl in *. unfold closure_of. by rewrite Hf, Hl, Ho, Hh.
Qed.

(** The answer to a fetch that a newer one has
    replaced changes no row, no host, no page button and not what the filter was
    last accepted for; at most it ends the loading sign or leaves a message. *)
Theorem aborted_answer_keeps_view (w w' : World) (id : nat) (p : Pending) (rest : World)
    (answer : fetched MessagesResponse) (now : Z) :
  take_call id w = Some (p, rest) -> is_aborted p w = true ->
  handle (ev_messages id answer now) w = Some w' ->
  let s := w_app w in let s' := w_app w' in
  st_messages s' = st_messages s /\ st_messagesRef s' = st_messagesRef s
  /\ st_hasMore s' = st_hasMore s /\ st_knownHosts s' = st_knownHosts s
  /\ st_validatedFilter s' = st_validatedFilter s /\ st_lastUpdated s' = st_lastUpdated s.
Proof.
  intros Ht Ha Hh. simpl in Hh. rewrite Ht in Hh. destruct p as [i c sg rs].
  destruct c; try discriminate Hh. rewrite Ha in Hh.
  apply take_call_spec in Ht as [_ ->]. unfold guard_ in Hh.
  destruct (possible_answer true answer) eqn:E; [|done]. injection Hh as <-. simpl.
  assert (H : exists err, listMessages answer = inr err).
  { unfold listMessages, await. destruct answer as [r|err]; [|by eexists].
    unfold possible_answer in E. destruct (rs_ok r); simpl; [|destruct (rs_status r =? 401)%Z; by eexists].
    destruct (rs_json r); [done|by eexists]. }
  destruct H as [err H]. unfold refresh_settled, refresh_try. rewrite H. by destruct err.
Qed.

(** ** The effects settle *)

Definition effect_step (w w' : World) : Prop := exists e, changed e w = true /\ w' = run_effect e w.

(** What the pending effects can still cause: an effect counts for itself and
    for the effects its updates make pending. *)
Definition weight (n : nat) (b : bool) : nat := if b then n else 0.

Definition effects_left (w : World) : nat :=
  weight 1 (changed effect_build w) + weight 1 (changed effect_incidents w)
  + weight 1 (changed effect_storage w) + weight 1 (changed effect_debounce w)
  + weight 3 (changed (effect_size 0) w) + weight 1 (changed effect_refresh w)
  + weight 3 (truthy (errorString (w_app w)))
  + weight 1 (changed effect_live w) + weight 2 (liveDisabled (w_app w) && st_autoRefresh (w_app w))
  + weight 1 (changed effect_stream w).

Lemma weight_le (n : nat) (b : bool) : weight n b <= n.
Proof. destruct b; simpl; lia. Qed.

Lemma effects_left_bound (w : World) : effects_left w <= 15.
Proof.
  unfold effects_left.
  repeat match goal with |- context [weight ?n ?b] =>
    pose proof (weight_le n b); generalize dependent (weight n b); intros end. lia.
Qed.

Lemma not_changed {A : Type} `{EqDecision A} (x : A) : negb (bool_decide (Some x = Some x)) = false.
Proof. by rewrite bool_decide_true. Qed.

Lemma no_error_text (o : option string) : truthy (default "" o) = false -> default "" o = "".
Proof. unfold truthy. by intros ->%negb_false_iff%String.eqb_eq. Qed.

Lemma run_effect_decreases (e : Effect) (w : World) :
  changed e w = true -> effects_left (run_effect e w) < effects_left w.
Proof.
  intros Hc. destruct w as [s nx tm ab pd sm st ef]. unfold effects_left.
  destruct e.
  - simpl in *. rewrite Hc. simpl. lia.
  - simpl in *. rewrite Hc. simpl. lia.
  - simpl in *. rewrite Hc, not_changed. simpl. lia.
  - change (changed (effect_size count)) with (changed (effect_size 0)) in Hc. rewrite Hc.
    simpl in *. unfold run_size, errorString, noticeString, updateSize. simpl.
    destruct (st_pageSizeSetting s) eqn:Ep; simpl; rewrite Ep, not_changed; simpl; unfold liveDisabled; simpl;
      match goal with |- context [weight 1 (negb (bool_decide (fst <$> ef_refresh ef = ?x)))] =>
        pose proof (weight_le 1 (negb (bool_decide (fst <$> ef_refresh ef = x)))) end;
      match goal with |- context [weight 1 (negb (bool_decide (fst <$> ef_stream ef = ?x)))] =>
        pose proof (weight_le 1 (negb (bool_decide (fst <$> ef_stream ef = x)))) end; lia.
  - simpl in *. rewrite Hc, not_changed. simpl. lia.
  - rewrite Hc. unfold run_effect, run_refresh. simpl in *.
    destruct (ef_refresh ef) as [[d c]|]; simpl; rewrite not_changed; simpl;
      unfold liveDisabled, stream_deps_of; simpl;
      (destruct (truthy (errorString s)) eqn:E; simpl;
       [match goal with |- context [weight 3 ?b] => pose proof (weight_le 3 b) end; lia
       |apply no_error_text in E; unfold errorString, noticeString in *; simpl; rewrite E; lia]).
  - rewrite Hc. unfold run_effect, run_live. simpl in *.
    destruct (liveDisabled s) eqn:El, (st_autoRefresh s) eqn:Ea; simpl; rewrite ?El, ?Ea, ?not_changed; simpl;
      try lia.
    match goal with |- context [weight 1 (negb (bool_decide (fst <$> ef_stream ef = ?x)))] =>
      pose proof (weight_le 1 (negb (bool_decide (fst <$> ef_stream ef = x)))) end.
    unfold errorString, noticeString, refresh_deps_of, offset. simpl. rewrite andb_false_r. simpl. lia.
  - rewrite Hc. unfold run_effect, run_stream. simpl in *.
    destruct (ef_stream ef) as [[d [i|]]|]; simpl; destruct (no_stream s); simpl;
      rewrite not_changed; simpl; lia.
Qed.

(** C38: the effects cannot keep updating each other: from any
    state at most fifteen effects run, in whatever order, before none is
    waiting. *)
Theorem effects_settle (w : World) :
  (forall n w', nsteps effect_step n w w' -> n <= 15)
  /\ exists w', rtc effect_step w w' /\ settled w'.
Proof.
  split.
  - intros n w' Hs. enough (n <= effects_left w) by (pose proof (effects_left_bound w); lia).
    induction Hs as [w|n w1 w2 w3 (e & He & ->) _ IH]; [lia|].
    pose proof (run_effect_decreases e w1 He). lia.
  - induction w as [w IH] using (induction_ltof1 _ effects_left). unfold ltof in IH.
    destruct (List.find (fun e => changed e w)
      [effect_build; effect_incidents; effect_storage; effect_size 0; effect_debounce; effect_refresh;
       effect_live; effect_stream]) as [e|] eqn:E.
    + apply find_some in E as [_ E]. destruct (IH _ (run_effect_decreases e w E)) as (w' & Hr & Hs).
      exists w'. split; [|done]. eapply rtc_l; [by exists e|done].
    + exists w. split; [done|]. intros e. pose proof (find_none _ _ E) as Hn.
      destruct e as [| | |c| | | |]; try (apply Hn; simpl; tauto).
      change (changed (effect_size 0) w = false). apply Hn. simpl. tauto.
Qed.

(** A step that changes the filter, the selection of hosts or the
    page size goes back to the first page. *)
Theorem page_reset (w w' : World) :
  app_step w w' ->
  st_filter (w_app w') <> st_filter (w_app w)
  \/ st_selectedHosts (w_app w') <> st_selectedHosts (w_app w)
  \/ st_pageSizeSetting (w_app w') <> st_pageSizeSetting (w_app w) ->
  st_page (w_app w') = 0%Z.
Proof.
  intros [(e & _ & Hh)|(e & _ & ->)]%step_cases.
  - destruct e; simpl in Hh; handle_cases Hh;
      repeat match goal with
        | E : take_call _ w = Some _ |- _ => apply take_call_spec in E as [_ ->]
        end; try done; try (simpl; naive_solver).
    + unfold handleImportFile. case_match; simpl; naive_solver.
    + simpl. unfold handleMessage. repeat case_match; simpl; naive_solver.
    + simpl. unfold refresh_settled, refresh_try. repeat case_match; simpl; naive_solver.
    + simpl. unfold fetchBuildID_settled. repeat case_match; simpl; naive_solver.
    + simpl. unfold refreshIncidents_settled. repeat case_match; simpl; naive_solver.
    + simpl. unfold sendTestEvent_settled. repeat case_match; simpl; naive_solver.
    + unfold import_settled. repeat case_match; simpl; naive_solver.
  - destruct e; simpl; try naive_solver.
    + unfold run_size. case_match; simpl; naive_solver.
    + unfold run_refresh. repeat case_match; simpl; naive_solver.
    + unfold run_live. case_match; simpl; naive_solver.
    + unfold run_stream. repeat case_match; simpl; naive_solver.
Qed.
End Runs.

(** ** Witnesses *)

Lemma stream_matches_view_witness : app_reachable loaded_world /\ length (w_streams loaded_world) <= 1.
Proof.
  split; [apply run_world_reachable|]. apply stream_matches_view. apply run_world_reachable.
Defined.

Definition failed_world : World := run_world (loaded ++ [act (ev_stream_error 6)]).

Definition failed_then_refreshed : World :=
  run_world (loaded ++ [act (ev_stream_error 6); act ev_refresh]).

Lemma sse_failure_sticks_witness :
  st_liveUnavailable (w_app failed_then_refreshed) = true /\ w_streams failed_then_refreshed = [].
Proof.
  apply (sse_failure_sticks failed_world).
  - apply run_world_reachable.
  - vm_compute. reflexivity.
  - apply (run_steps [act ev_refresh]). vm_compute. reflexivity.
Defined.

Definition first_query : Pending :=
  default (mkPending 0 call_build None []) (List.find (fun p => Nat.eqb (pd_id p) 5) (w_pending mounted_world)).

Lemma answers_are_current_witness :
  closure_of (initial_app "/" None) = closure_of (w_app mounted_world).
Proof.
  apply (answers_are_current mounted_world first_query).
  - apply run_world_reachable.
  - vm_compute. reflexivity.
  - apply list_elem_of_In. vm_compute. right. right. left. reflexivity.
  - vm_compute. reflexivity.
  - exists 4. vm_compute. reflexivity.
  - vm_compute. reflexivity.
Defined.

(** The next page is asked for while the first query is on its way. *)
Definition paged_world : World :=
  run_world (loaded ++ [act ev_next_page; eff effect_refresh; act ev_next_page; eff effect_refresh]).

Lemma aborted_answer_keeps_view_witness :
  map sm_id (st_messages (w_app (run_world (loaded
    ++ [act ev_next_page; eff effect_refresh; act ev_next_page; eff effect_refresh;
        act (ev_messages 8 (inr AbortError) 20)])))) = map sm_id (st_messages (w_app paged_world)).
Proof.
  destruct (take_call 8 paged_world) as [[p rest]|] eqn:Ht; [|vm_compute in Ht; discriminate Ht].
  destruct (handle (ev_messages 8 (inr AbortError) 20) paged_world) as [w'|] eqn:Hh;
    [|vm_compute in Hh; discriminate Hh].
  assert (Ha : is_aborted p paged_world = true)
    by (vm_compute in Ht; injection Ht as <- <-; vm_compute; reflexivity).
  destruct (aborted_answer_keeps_view paged_world w' 8 p rest (inr AbortError) 20 Ht Ha Hh) as (Hm & _).
  etransitivity; [|apply (f_equal (map sm_id)); exact Hm].
  vm_compute in Hh. injection Hh as <-. vm_compute. reflexivity.
Defined.

Lemma page_reset_witness :
  let w := run_world (loaded ++ [act ev_next_page; eff effect_refresh]) in
  st_page (w_app w) = 1%Z
  /\ st_page (w_app (update (fun s => setPage 0 (setPageSizeSetting (rows 25) s)) w)) = 0%Z.
Proof.
  intros w. split; [vm_compute; reflexivity|].
  apply (page_reset w).
  - apply (accept_step (ev_page_size (rows 25))). vm_compute. reflexivity.
  - right. right. vm_compute. discriminate.
Defined.
