(* ===== verification/ViewProps.v ===== *)
(** The properties of the pure functions of the browser client: host lists,
    request parameters, the stored page size, incident sections, labels and the
    exported file. *)
From Stdlib Require Import Ascii ZArith Lia.
From S2P Require Import Prelude.
From S2P Require Import GoStd.
From S2P Require Import JsStd.
From S2P Require Import ApiClient.
From S2P Require Import View.
From S2P Require Import AppState.
From S2P Require Import App.
From S2P Require Import Browser.
Local Open Scope string_scope.

(** * Host lists *)

Section HostLists.
Context {LC : Locale}.

Definition good_host (h : string) : Prop := truthy h = true /\ trim h = h.

(** A list as [sortedUniqueHosts] leaves it. *)
Definition canonical (l : list string) : Prop :=
  sorted_by localeCompare l /\ NoDup l /\ Forall good_host l.

Lemma elem_of_Array_sort (cmp : string -> string -> Z) (l : list string) (x : string) :
  x ∈ Array_sort cmp l <-> x ∈ l.
Proof. by rewrite Array_sort_perm. Qed.

Lemma elem_of_cleaned (l : list string) (h : string) :
  h ∈ List.filter truthy (map trim l) <-> truthy h = true /\ exists x, x ∈ l /\ trim x = h.
Proof.
  rewrite list_elem_of_In, filter_In, in_map_iff. split.
  - intros [(x & Hx & Hin) Ht]. split; [done|]. exists x. by rewrite list_elem_of_In.
  - intros [Ht (x & Hin & Hx)]. split; [|done]. exists x. by rewrite <- list_elem_of_In.
Qed.

Lemma elem_of_sortedUniqueHosts (l : list string) (h : string) :
  h ∈ sortedUniqueHosts l <-> truthy h = true /\ exists x, x ∈ l /\ trim x = h.
Proof.
  unfold sortedUniqueHosts, Array_from_Set.
  rewrite elem_of_Array_sort, elem_of_set_from, elem_of_cleaned. set_solver.
Qed.

Lemma sortedUniqueHosts_canonical (l : list string) : canonical (sortedUniqueHosts l).
Proof.
  split_and!.
  - apply Array_sort_sorted; [apply localeCompare_total|apply localeCompare_trans].
  - unfold sortedUniqueHosts. rewrite Array_sort_perm. apply NoDup_set_from.
  - apply Forall_forall. intros h (Ht & x & _ & <-)%elem_of_sortedUniqueHosts.
    split; [done|apply trim_idem].
Qed.

Lemma cleaned_id (l : list string) : Forall good_host l -> List.filter truthy (map trim l) = l.
Proof. induction 1 as [|h l [Ht Hh] _ IH]; simpl; [done|]. by rewrite Hh, Ht, IH. Qed.

Lemma canonical_id (l : list string) : canonical l -> sortedUniqueHosts l = l.
Proof.
  intros (Hs & Hd & Hg). unfold sortedUniqueHosts, Array_from_Set.
  rewrite cleaned_id, set_from_id, Array_sort_id; try done. set_solver.
Qed.

(** The host menu lists every known or selected host
    once, trimmed, without blanks, in the order of the locale; listing a list
    that was built this way again changes nothing. *)
Theorem host_options_canonical (known selected : list string) :
  canonical (hostOptions known selected)
  /\ (forall h, h ∈ hostOptions known selected
        <-> truthy h = true /\ exists x, (x ∈ known \/ x ∈ selected) /\ trim x = h)
  /\ sortedUniqueHosts (hostOptions known selected) = hostOptions known selected.
Proof.
  split_and!.
  - apply sortedUniqueHosts_canonical.
  - intros h. unfold hostOptions. rewrite elem_of_sortedUniqueHosts.
    by setoid_rewrite elem_of_app.
  - apply canonical_id, sortedUniqueHosts_canonical.
Qed.

Lemma filter_Array_sort (P : string -> Prop) `{!forall x, Decision (P x)} (l : list string) :
  filter P (Array_sort localeCompare l) = Array_sort localeCompare (filter P l).
Proof.
  induction l as [|x l IH]; simpl; [done|].
  rewrite filter_insert_by, filter_cons, IH.
  - by destruct (decide (P x)).
  - apply localeCompare_trans.
  - apply Array_sort_sorted; [apply localeCompare_total|apply localeCompare_trans].
Qed.

Lemma drop_host (h : string) (l : list string) :
  List.filter (fun value => negb (String.eqb value h)) l = filter (fun value => value <> h) l.
Proof.
  induction l as [|x l IH]; simpl; [done|]. rewrite filter_cons, IH.
  destruct (String.eqb_spec x h) as [->|Hn]; simpl.
  - by destruct (decide (h <> h)).
  - by destruct (decide (x <> h)).
Qed.

Lemma existsb_host (h : string) (l : list string) : existsb (String.eqb h) l = true <-> h ∈ l.
Proof.
  rewrite existsb_exists, list_elem_of_In. split.
  - by intros (x & Hx & ->%String.eqb_eq).
  - intros H. exists h. by rewrite String.eqb_refl.
Qed.

Lemma toggled_in (h : string) (l : list string) :
  h ∈ l -> toggled h l = filter (fun value => value <> h) l.
Proof. intros H%existsb_host. unfold toggled. by rewrite H, drop_host. Qed.

Lemma toggled_out (h : string) (l : list string) : h ∉ l -> toggled h l = sortedUniqueHosts (l ++ [h])%list.
Proof.
  intros H. unfold toggled. destruct (existsb _ _) eqn:E; [|done]. by apply existsb_host in E.
Qed.

Lemma canonical_filter (P : string -> Prop) `{!forall x, Decision (P x)} (l : list string) :
  canonical l -> canonical (filter P l).
Proof.
  intros (Hs & Hd & Hg). split_and!.
  - rewrite <- (Array_sort_id _ l Hs), filter_Array_sort.
    apply Array_sort_sorted; [apply localeCompare_total|apply localeCompare_trans].
  - by apply NoDup_filter.
  - rewrite Forall_forall in *. intros x [_ Hx]%list_elem_of_filter. by apply Hg.
Qed.

Lemma toggled_canonical (h : string) (l : list string) : canonical l -> canonical (toggled h l).
Proof.
  intros Hl. destruct (decide (h ∈ l)).
  - rewrite toggled_in by done. by apply canonical_filter.
  - rewrite toggled_out by done. apply sortedUniqueHosts_canonical.
Qed.

(** Ticking a host of the menu adds exactly it to the selection
    and unticking it removes exactly it; doing one after the other restores the
    selection (its order too, when the host was not selected before), and the
    selection stays in canonical form. *)
Theorem toggle_twice (h : string) (selected : list string) :
  canonical selected -> good_host h ->
  canonical (toggled h selected)
  /\ (forall x, x ∈ toggled h selected <-> if decide (x = h) then h ∉ selected else x ∈ selected)
  /\ toggled h (toggled h selected) ≡ₚ selected
  /\ (h ∉ selected -> toggled h (toggled h selected) = selected).
Proof.
  intros Hc [Ht Htr].
  assert (Hin : forall l, canonical l -> forall x,
             x ∈ toggled h l <-> if decide (x = h) then h ∉ l else x ∈ l).
  { intros l (_ & _ & Hg) x. destruct (decide (h ∈ l)) as [Hh|Hh].
    - rewrite toggled_in, list_elem_of_filter by done. destruct (decide (x = h)); naive_solver.
    - rewrite toggled_out, elem_of_sortedUniqueHosts by done. rewrite Forall_forall in Hg.
      setoid_rewrite elem_of_app. setoid_rewrite list_elem_of_singleton.
      destruct (decide (x = h)) as [->|Hx]; split; try done.
      + intros _. split; [done|]. exists h. by split; [right|].
      + intros (_ & y & [Hy| ->] & <-); [|congruence]. by destruct (Hg y Hy) as [_ ->].
      + intros Hx'. destruct (Hg x Hx'). split; [done|]. exists x. by split; [left|]. }
  assert (Hc' := toggled_canonical h selected Hc).
  split_and!; [done|by apply Hin| |].
  - apply NoDup_Permutation; [apply (toggled_canonical h _ Hc')|apply Hc|]. intros x.
    rewrite (Hin _ Hc'). destruct (decide (x = h)) as [->|Hx]; rewrite (Hin _ Hc).
    + destruct (decide (h = h)); [|done]. destruct (decide (h ∈ selected)); naive_solver.
    + by destruct (decide (x = h)).
  - intros Hn. rewrite toggled_in by (rewrite (Hin _ Hc); by destruct (decide (h = h))).
    rewrite toggled_out by done. destruct Hc as (Hs & Hd & Hg).
    unfold sortedUniqueHosts, Array_from_Set. rewrite cleaned_id, set_from_id.
    + rewrite filter_Array_sort, filter_app, filter_cons, filter_nil.
      destruct (decide (h <> h)); [done|]. rewrite app_nil_r.
      rewrite <- drop_host, filter_all; [by apply Array_sort_id|].
      intros x Hx. apply negb_true_iff, String.eqb_neq. by intros ->.
    + apply NoDup_app. split_and!; [done|set_solver|apply NoDup_singleton].
    + set_solver.
    + apply Forall_app. split; [done|]. by repeat constructor.
Qed.
End HostLists.

Lemma toggle_twice_witness :
  toggled "router-b" (toggled "router-b" ["router-a"; "router-c"]) = ["router-a"; "router-c"].
Proof.
  apply (toggle_twice "router-b" ["router-a"; "router-c"]).
  - split_and!.
    + repeat constructor; vm_compute; discriminate.
    + apply (bool_decide_unpack _). vm_compute. exact I.
    + repeat constructor.
  - by split.
  - apply (bool_decide_unpack _). vm_compute. exact I.
Defined.

(** * The stored page size *)

(** The page size the client stores in the browser is the
    one it starts with after a reload. *)
Theorem page_size_persists (v : PageSize) : initial_page_size (Some (PageSize_string v)) = v.
Proof.
  destruct v as [|n]; [done|]. simpl.
  destruct (String.eqb_spec (Itoa n) "auto") as [E|_].
  { pose proof (parseInt_Itoa n) as H. by rewrite E in H. }
  assert (Ht : truthy (Itoa n) = true).
  { unfold truthy. destruct (String.eqb_spec (Itoa n) "") as [E|_]; [|done].
    pose proof (parseInt_Itoa n) as H. by rewrite E in H. }
  by rewrite Ht, parseInt_Itoa.
Qed.

(** * The parameters of a query *)

(** The values of a parameter, in order ([values[name]] on the server). *)
Definition values_of (name : string) (q : params) : list string :=
  map snd (List.filter (fun nv => String.eqb nv.1 name) q).

Lemma append_hosts_spec (hosts : list string) (q : params) :
  append_hosts hosts q = (q ++ map (fun h => ("host", h)) (List.filter truthy (map trim hosts)))%list.
Proof.
  revert q. induction hosts as [|h hosts IH]; intros q; simpl; [by rewrite app_nil_r|].
  rewrite IH. unfold truthy. destruct (String.eqb (trim h) ""); simpl; [done|].
  unfold usp_append. by rewrite <- app_assoc.
Qed.

Lemma usp_set_new (name value : string) (q : params) :
  values_of name q = [] -> usp_set name value q = (q ++ [(name, value)])%list.
Proof.
  induction q as [|[n v] q IH]; simpl; [done|]. unfold values_of. simpl.
  destruct (String.eqb n name); [done|]. intros H. by rewrite IH.
Qed.

Lemma values_of_app (name : string) (p q : params) :
  values_of name (p ++ q)%list = (values_of name p ++ values_of name q)%list.
Proof. unfold values_of. by rewrite List.filter_app, map_app. Qed.

Lemma values_of_hosts (name : string) (hosts : list string) :
  values_of name (map (fun h => ("host", h)) hosts) = if String.eqb "host" name then hosts else [].
Proof.
  unfold values_of. destruct (String.eqb "host" name) eqn:E; induction hosts as [|h hosts IH]; try done;
    cbn [map List.filter fst]; rewrite E; [by cbn; rewrite IH|exact IH].
Qed.

(** A query carries the page exactly once, every selected host that is not
    blank, trimmed and in order, and the filter exactly when it is not blank;
    nothing else. *)
Lemma listMessages_query_spec (p : ListMessagesParams) :
  let q := listMessages_query p in
  values_of "limit" q = [Itoa (lm_limit p)]
  /\ values_of "offset" q = [Itoa (lm_offset p)]
  /\ values_of "host" q = List.filter truthy (map trim (lm_hosts p))
  /\ values_of "q" q = (if truthy (trim (lm_query p)) then [trim (lm_query p)] else [])
  /\ Forall (fun nv => nv.1 ∈ ["limit"; "offset"; "host"; "q"]) q.
Proof.
  intros q. unfold q, listMessages_query. rewrite append_hosts_spec.
  set (hs := List.filter truthy (map trim (lm_hosts p))).
  set (base := ([("limit", Itoa (lm_limit p)); ("offset", Itoa (lm_offset p))]
                 ++ map (fun h => ("host", h)) hs)%list).
  assert (Hb : forall name, values_of name base
    = (values_of name [("limit", Itoa (lm_limit p)); ("offset", Itoa (lm_offset p))]
       ++ if String.eqb "host" name then hs else [])%list)
    by (intros name; unfold base; by rewrite values_of_app, values_of_hosts).
  assert (Hn : Forall (fun nv => nv.1 ∈ ["limit"; "offset"; "host"; "q"]) base).
  { unfold base. apply Forall_app. split; [repeat constructor; set_solver|].
    apply Forall_forall. intros nv (h & <- & _)%list_elem_of_In%in_map_iff. set_solver. }
  change (usp_set "offset" (Itoa (lm_offset p)) (usp_set "limit" (Itoa (lm_limit p)) []))
    with [("limit", Itoa (lm_limit p)); ("offset", Itoa (lm_offset p))].
  fold base. fold (truthy (trim (lm_query p))). destruct (truthy (trim (lm_query p))).
  - rewrite usp_set_new by (by rewrite Hb).
    split_and!; rewrite ?values_of_app, ?Hb; [done|done|cbn; by rewrite app_nil_r|done|].
    apply Forall_app. split; [done|]. constructor; [set_solver|done].
  - rewrite !Hb. by split_and!.
Qed.

(** * Incidents *)

Lemma filter_or_perm {A : Type} (f g h : A -> bool) (l : list A) :
  (forall x, f x = negb (g x) && negb (h x)) -> (forall x, g x && h x = false) ->
  (List.filter g l ++ List.filter h l) ++ List.filter f l ≡ₚ l.
Proof.
  intros Hf Hgh. induction l as [|x l IH]; simpl; [done|].
  rewrite Hf. specialize (Hgh x). destruct (g x), (h x); simpl in *; try done.
  - by apply Permutation_skip.
  - rewrite <- (Permutation_middle (List.filter g l)). by apply Permutation_skip.
  - rewrite <- Permutation_middle. by apply Permutation_skip.
Qed.

(** The two sections of the incidents page show every
    incident the client has, each exactly once: the current ones (active and
    being confirmed as recovered first, then those being confirmed as failed)
    and the resolved ones. *)
Theorem incidents_shown_once (incidents : list Incident) :
  currentIncidents incidents ++ resolvedIncidents incidents ≡ₚ incidents
  /\ (forall i, i ∈ currentIncidents incidents -> in_state i <> resolved)
  /\ (forall i, i ∈ resolvedIncidents incidents -> in_state i = resolved).
Proof.
  split_and!.
  - apply filter_or_perm; intros i; by destruct (in_state i).
  - intros i Hi Hr. unfold currentIncidents, activeIncidents, pendingIncidents in Hi.
    rewrite list_elem_of_In, in_app_iff, !filter_In, Hr in Hi. by destruct Hi as [[_ ?]|[_ ?]].
  - intros i [_ H]%list_elem_of_In%filter_In. by apply bool_decide_eq_true in H.
Qed.

(** For a start and an end (or now) that can be read as times,
    the duration shown is empty if the end lies before the start, and otherwise
    the whole minutes between them, as hours and minutes from one hour on with
    fewer than sixty minutes. *)
Theorem duration_text {CA : Calendar} (now s e : Z) (start : string) (end_ : option string) :
  Date_parse start = Some s ->
  match end_ with
  | Some text => truthy text = true /\ Date_parse text = Some e
  | None => e = now
  end ->
  (e < s -> durationBetween now start end_ = "")%Z
  /\ (s <= e -> exists h m, (0 <= h)%Z /\ (0 <= m)%Z /\ h * 60 + m = (e - s) / 60000
        /\ ((0 < h)%Z -> (m < 60)%Z /\ durationBetween now start end_ = Itoa h +:+ "h " +:+ Itoa m +:+ "m")
        /\ (h = 0%Z -> (m < 60)%Z /\ durationBetween now start end_ = Itoa m +:+ "m"))%Z.
Proof.
  intros Hs He.
  assert (Hd : durationBetween now start end_
    = if (e - s <? 0)%Z then ""
      else let minutes := ((e - s) / 60000)%Z in let hours := (minutes / 60)%Z in
           if (0 <? hours)%Z then Itoa hours +:+ "h " +:+ Itoa (minutes mod 60) +:+ "m"
           else Itoa minutes +:+ "m").
  { unfold durationBetween. destruct end_ as [text|]; [destruct He as [-> ->]|subst e]; by rewrite Hs. }
  rewrite Hd. split; intros Hlt.
  - by rewrite (proj2 (Z.ltb_lt (e - s) 0)) by lia.
  - rewrite (proj2 (Z.ltb_ge (e - s) 0)) by lia. simpl.
    assert (Hm : (0 <= (e - s) / 60000)%Z) by (apply Z.div_pos; lia).
    set (m := ((e - s) / 60000)%Z) in *.
    pose proof (Z.div_mod m 60). pose proof (Z.mod_pos_bound m 60).
    exists (m / 60)%Z, (m mod 60)%Z.
    assert (0 <= m / 60)%Z by (apply Z.div_pos; lia).
    split_and!; try lia.
    + intros Hh. split; [lia|]. by rewrite (proj2 (Z.ltb_lt _ _) Hh).
    + intros Hh. split; [lia|]. rewrite Hh. simpl. do 2 f_equal. lia.
Qed.

Lemma duration_text_witness :
  exists h m : Z, (h * 60 + m = 125)%Z
    /\ ((0 < h)%Z -> durationBetween 0 "1000" (Some "7501000") = Itoa h +:+ "h " +:+ Itoa m +:+ "m").
Proof.
  destruct (duration_text 0 1000 7501000 "1000" (Some "7501000")) as [_ H].
  - vm_compute. reflexivity.
  - split; vm_compute; reflexivity.
  - destruct H as (h & m & _ & _ & Hm & Hh & _); [vm_compute; discriminate|].
    exists h, m. split; [exact Hm|]. intros Hp. exact (proj2 (Hh Hp)).
Defined.

(** The notification column says "Delivered" exactly when the
    incident has deliveries and all are sent, "Delivery failed" exactly when one
    that is not sent has failed, and "No notification" exactly when there is
    none. *)
Theorem delivery_label (incident : Incident) :
  let sent d := truthy_opt (nd_sent_at d) = true in
  (deliveryLabel incident = "Delivered"
     <-> in_deliveries incident <> [] /\ forall d, d ∈ in_deliveries incident -> sent d)
  /\ (deliveryLabel incident = "Delivery failed"
     <-> exists d, d ∈ in_deliveries incident /\ ~ sent d /\ truthy_opt (nd_last_error d) = true)
  /\ (deliveryLabel incident = "No notification" <-> in_deliveries incident = []).
Proof.
  simpl. set (ds := in_deliveries incident).
  assert (Hf : existsb delivery_failed ds = true
    <-> exists d, d ∈ ds /\ ~ truthy_opt (nd_sent_at d) = true /\ truthy_opt (nd_last_error d) = true).
  { rewrite existsb_exists. unfold delivery_failed. split.
    - intros (d & Hd & [H1 H2]%andb_true_iff). exists d. rewrite list_elem_of_In.
      split_and!; [done| |done]. by rewrite not_true_iff_false, <- negb_true_iff.
    - intros (d & Hd & H1 & H2). exists d. rewrite <- list_elem_of_In, H2. split; [done|].
      apply not_true_is_false in H1. by rewrite H1. }
  assert (Hu : existsb delivery_unsent ds = false <-> forall d, d ∈ ds -> truthy_opt (nd_sent_at d) = true).
  { rewrite <- not_true_iff_false, existsb_exists. unfold delivery_unsent. split.
    - intros H d Hd. destruct (truthy_opt (nd_sent_at d)) eqn:E; [done|]. destruct H. exists d.
      rewrite <- list_elem_of_In, E. done.
    - intros H (d & Hd%list_elem_of_In & Hn). by rewrite (H d Hd) in Hn. }
  unfold deliveryLabel. fold ds. clearbody ds.
  destruct (existsb delivery_failed ds) eqn:E1; [|destruct (existsb delivery_unsent ds) eqn:E2].
  - destruct Hf as [Hf _]. destruct (Hf eq_refl) as (d & Hd & Hs & He). split_and!; split; intros H; try done.
    + destruct H as [_ H]. by destruct Hs; apply H.
    + by exists d.
    + rewrite H in Hd. by apply elem_of_nil in Hd.
  - assert (Hn : ~ forall d, d ∈ ds -> truthy_opt (nd_sent_at d) = true) by (intros H; by apply Hu in H).
    split_and!; split; intros H; try done.
    + by destruct H as [_ H].
    + by apply Hf in H.
    + destruct Hn. rewrite H. intros d Hd. by apply elem_of_nil in Hd.
  - destruct Hu as [Hu _]. specialize (Hu eq_refl).
    assert (Hnf : ~ exists d, d ∈ ds /\ ~ truthy_opt (nd_sent_at d) = true
                            /\ truthy_opt (nd_last_error d) = true)
      by (intros (d & Hd & Hn & _); by apply Hn, Hu).
    destruct ds as [|d ds]; cbn -[elem_of]; split_and!; split; try done; by intros [].
Qed.

(** * The exported file *)

Lemma join_unlines (x : string) (l : list string) :
  join newline (x :: l) +:+ newline = unlines (x :: l).
Proof.
  revert x. induction l as [|y l IH]; intros x; simpl; [by rewrite sapp_nil_r|].
  specialize (IH y). simpl in IH. by rewrite !sapp_assoc, IH.
Qed.

(** Given that [JSON.stringify] prints no control character, the
    exported file holds exactly one line per row on the screen, in order, as the
    import of the server splits it; nothing is exported without rows. *)
Theorem export_lines (stringify : SyslogMessage -> string) (now : Z) (messages : list SyslogMessage) :
  (forall m, plain (stringify m) = true) ->
  match handleExport stringify now messages with
  | None => messages = []
  | Some (body, name) =>
    ScanLines body = map stringify messages
    /\ name = "logthing-visible-" +:+ filenameTimestamp now +:+ ".ndjson"
  end.
Proof.
  intros Hp. destruct messages as [|m messages]; simpl; [done|]. split; [|done].
  pose proof (join_unlines (stringify m) (map stringify messages)) as E. simpl in E. rewrite E.
  apply (ScanLines_unlines (stringify m :: map stringify messages)).
  apply Forall_forall. intros l (x & <- & _)%list_elem_of_In%(in_map_iff stringify (m :: messages)).
  apply Hp.
Qed.

Lemma export_lines_witness :
  match handleExport sm_id 0 [live_message "a" "5" "h"; live_message "b" "7" "h"] with
  | Some (body, _) => ScanLines body = ["a"; "b"]
  | None => False
  end.
Proof.
  pose proof (export_lines (fun m => if plain (sm_id m) then sm_id m else "") 0
                [live_message "a" "5" "h"; live_message "b" "7" "h"]) as H.
  simpl in H. apply H. intros m. destruct (plain (sm_id m)) eqn:E; done.
Defined.
