(* ===== verification/EndToEnd.v ===== *)
(** The browser and the service together: the pages the client asks for are the
    pages of the archive the service keeps. *)
From Stdlib Require Import Ascii ZArith Lia DecimalString.
From S2P Require Import Prelude.
From S2P Require Import GoStd.
From S2P Require Import GoLib.
From S2P Require Import GoStrings.
From S2P Require Import GoInstances.
From S2P Require Import Model.
From S2P Require Import EngineState.
From S2P Require Import Engine.
From S2P Require Import Storage.
From S2P Require Import StorageLemmas.
From S2P Require Import StorageMerge.
From S2P Require Import StorageQuery.
From S2P Require Import StorageHistory.
From S2P Require Import StorageProps.
From S2P Require Import Notify.
From S2P Require Import Worker.
From S2P Require Import Hub.
From S2P Require Import Api.
From S2P Require Import Import.
From S2P Require Import Router.
From S2P Require Import ApiProps.
From S2P Require Import JsStd.
From S2P Require Import ApiClient.
From S2P Require Import ViewProps.

(** ** The client's query as the server reads it *)

(** The request of the client as it reaches the handlers, with the credentials
    the browser adds. *)
Definition arrives (rq : ApiClient.Request) (auth : option (string * string)) : Api.Request :=
  Api.mkRequest (rq_method rq) (rq_path rq) (rq_query rq) auth (default "" (rq_body rq)) false.

Definition asked_hosts (p : ListMessagesParams) : list string := List.filter truthy (map trim (lm_hosts p)).

Definition server_query (p : ListMessagesParams) : StoreQuery :=
  mkStoreQuery (trim (lm_query p)) (cleanQueryValues (asked_hosts p)) (lm_limit p) (lm_offset p) None None.

Definition valid_page (p : ListMessagesParams) : Prop :=
  (1 <= lm_limit p <= maxMessageLimit)%Z /\ (0 <= lm_offset p <= max_int)%Z.

Lemma no_values name (q : params) (names : list string) :
  Forall (fun nv => nv.1 ∈ names) q -> name ∉ names -> Api.values_of name q = [].
Proof.
  intros Hq Hn. unfold Api.values_of. induction Hq as [|nv q Hnv _ IH]; [done|]. cbn.
  destruct (String.eqb_spec (fst nv) name) as [He|]; [exfalso; apply Hn; by rewrite <- He|exact IH].
Qed.

Lemma client_query_parsed p : valid_page p -> parseMessagesQuery (listMessages_query p) = inl (server_query p).
Proof.
  intros [Hl Ho]. destruct (listMessages_query_spec p) as (H1 & H2 & H3 & H4 & H5). unfold parseMessagesQuery, values_Get.
  assert (Hsince : Api.values_of "since" (listMessages_query p) = []) by (eapply no_values; [exact H5|set_solver]).
  assert (Huntil : Api.values_of "until" (listMessages_query p) = []) by (eapply no_values; [exact H5|set_solver]).
  rewrite Hsince, Huntil. change Api.values_of with ViewProps.values_of. rewrite H1, H2, H3, H4. cbn [hd_error from_option id].
  unfold parse_limit, parse_offset. rewrite !TrimSpace_Itoa.
  rewrite !(proj2 (String.eqb_neq _ _) (Itoa_nonempty _)).
  unfold maxMessageLimit, max_int in *. rewrite !Atoi_Itoa by (unfold max_int; lia).
  assert (((lm_limit p <=? 0) || (2000 <? lm_limit p))%Z = false) as -> by lia.
  assert ((lm_offset p <? 0)%Z = false) as -> by lia.
  cbn. unfold server_query, asked_hosts. do 2 f_equal.
  unfold truthy. destruct (String.eqb_spec (trim (lm_query p)) "") as [->|]; done.
Qed.

(** ** The hosts *)

Lemma elem_of_clean_values h vs seen :
  h ∈ clean_values seen vs <-> h ∉ seen /\ h <> "" /\ h ∈ map TrimSpace vs.
Proof.
  revert seen. induction vs as [|v vs IH]; intros seen; cbn [clean_values map]; [set_solver|].
  destruct (String.eqb_spec (TrimSpace v) "") as [He|Hne]; [rewrite IH; set_solver|].
  destruct (decide (TrimSpace v ∈ seen)); [rewrite IH; set_solver|].
  rewrite elem_of_cons, IH. destruct (decide (h = TrimSpace v)); set_solver.
Qed.

(** The hosts the rows are to come from; none: from all. *)
Definition wanted_hosts (p : ListMessagesParams) : list string := List.filter truthy (map TrimSpace (asked_hosts p)).

Definition shown (p : ListMessagesParams) (matcher : Message -> bool) (m : Message) : bool :=
  (bool_decide (wanted_hosts p = []) || bool_decide (msg_Hostname m ∈ wanted_hosts p)) && matcher m.

Lemma elem_of_selected p h : h ∈ selectedHosts (cleanQueryValues (asked_hosts p)) <-> h ∈ wanted_hosts p.
Proof.
  unfold selectedHosts, wanted_hosts, cleanQueryValues.
  rewrite elem_of_list_to_set, !list_elem_of_In, !filter_In, !in_map_iff. unfold truthy. split.
  - intros [(x & <- & Hx) Hne]. split; [|done]. apply list_elem_of_In, elem_of_clean_values in Hx as (_ & _ & Hx).
    apply list_elem_of_fmap in Hx as (y & -> & Hy). exists y. rewrite TrimSpace_idem. split; [done|by apply list_elem_of_In].
  - intros [(x & <- & Hx) Hne]. split; [|done]. exists (TrimSpace x). split; [apply TrimSpace_idem|].
    apply list_elem_of_In, elem_of_clean_values. split; [set_solver|]. split.
    + intros He. by rewrite He in Hne.
    + apply list_elem_of_fmap. exists x. split; [done|by apply list_elem_of_In].
Qed.

Lemma wanted_shown p limit matcher m :
  wanted (mkStoreQuery (trim (lm_query p)) (cleanQueryValues (asked_hosts p)) limit (lm_offset p) None None) matcher m
  = shown p matcher m.
Proof.
  unfold wanted, shown, not_after_until, not_before_since. cbn [sq_Since sq_Until sq_Hosts andb]. f_equal. f_equal.
  - apply bool_decide_ext. pose proof (elem_of_selected p) as H. destruct (wanted_hosts p) as [|h hs].
    + split; [done|]. intros _. apply set_eq. intros x. rewrite H. set_solver.
    + split; [|done]. intros He. specialize (H h). rewrite He in H. set_solver.
  - apply bool_decide_ext, elem_of_selected.
Qed.

(** ** One page *)

Section Pages.
Context {GR : GoRange} {GS : GoSort} {GH : GoHeap} {GT : GoText} {GTL : GoTextLaws} {J : GoJson} {JL : GoJsonLaws}
  {JO : GoJsonObject}.

Definition matching (p : ListMessagesParams) (matcher : Message -> bool) (st : FileStore) : list Message :=
  List.filter (shown p matcher) (archive_order st).

(** It depends on the files only. *)
Lemma archive_order_files st st' : fs_files st' = fs_files st -> archive_order st' = archive_order st.
Proof.
  intros Hf. unfold archive_order, timeline. f_equal. f_equal.
  assert (messageFiles st' = messageFiles st) as -> by (unfold messageFiles; by rewrite Hf).
  generalize 0. induction (messageFiles st) as [|path files IH]; intros order; [done|].
  cbn [archive]. rewrite IH. unfold archive_file, content_of. by rewrite Hf.
Qed.

Lemma page_and_more {A} (limit offset : Z) (l : list A) :
  (1 <= limit)%Z -> (0 <= offset)%Z ->
  let got := take (Z.to_nat (limit + 1)) (drop (Z.to_nat offset) l) in
  let more := (limit <? Z.of_nat (length got))%Z in
  more = (offset + limit <? Z.of_nat (length l))%Z
  /\ (if more then take (Z.to_nat limit) got else got) = take (Z.to_nat limit) (drop (Z.to_nat offset) l).
Proof.
  intros Hl Ho got more.
  assert (Hgot : length got = Nat.min (Z.to_nat (limit + 1)) (length l - Z.to_nat offset))
    by (unfold got; by rewrite length_take, length_drop).
  split; [unfold more; rewrite Hgot; apply eq_true_iff_eq; rewrite !Z.ltb_lt; lia|]. destruct more eqn:Hm; unfold more in Hm; rewrite Hgot in Hm.
  - unfold got. rewrite take_take. f_equal. lia.
  - apply Z.ltb_ge in Hm. unfold got. rewrite !take_ge; [done| |]; rewrite length_drop; lia.
Qed.

Lemma client_page (calls : Calls) auth p matcher st :
  cl_env calls = calm -> store_ok st -> valid_page p -> CompileTextFilter (trim (lm_query p)) = inl matcher ->
  let data := take (Z.to_nat (lm_limit p)) (drop (Z.to_nat (lm_offset p)) (matching p matcher st)) in
  exists indexes, handleMessages calls (arrives (listMessages_request p) auth) st
              = (with_indexes st indexes, writeJSON 200 (messagesResponse data (Api.mkMeta (Z.of_nat (length data)) (lm_limit p) (lm_offset p)
                        (lm_offset p + lm_limit p <? Z.of_nat (length (matching p matcher st)))%Z)))
    /\ store_ok (with_indexes st indexes).
Proof.
  intros Henv Hok Hp Hm data. unfold handleMessages. cbn [arrives listMessages_request rq_query Api.req_Query].
  rewrite (client_query_parsed p Hp), Henv. cbn [server_query sq_Text sq_Hosts sq_Limit sq_Offset sq_Since sq_Until].
  set (q := mkStoreQuery (trim (lm_query p)) (cleanQueryValues (asked_hosts p)) (lm_limit p + 1) (lm_offset p) None None).
  destruct (Query_page st q matcher Hok Hm) as (indexes & -> & Hok').
  exists indexes. split; [|done].
  destruct Hp as [Hl Ho]. assert (query_limit q = lm_limit p + 1)%Z as ->.
  { unfold query_limit. cbn [q sq_Limit]. assert ((lm_limit p + 1 <=? 0)%Z = false) as -> by lia. done. }
  assert (List.filter (wanted q matcher) (map snd (timeline st)) = matching p matcher st) as ->
    by (apply filter_ext; intros m; apply wanted_shown).
  unfold page. cbn [q sq_Offset].
  destruct (page_and_more (lm_limit p) (lm_offset p) (matching p matcher st)) as [-> ->]; [lia..|]. done.
Qed.

(** ** All pages *)

(** One page over HTTP: its rows and whether there are more. *)
Definition ask_page (srv : server) (calls : Calls) (auth : option (string * string)) (p : ListMessagesParams) (s : stores)
    : option (list Message * bool * stores) :=
  match serve srv calls [] (arrives (listMessages_request p) auth) s with
  | Some (mkOutcome s' _ (Api.mkResponse status _ (messagesResponse data meta))) =>
    if (status =? 200)%Z then Some (data, mm_HasMore meta, s') else None
  | _ => None
  end.

Definition next_page (p : ListMessagesParams) : ListMessagesParams :=
  mkListMessagesParams (lm_query p) (lm_hosts p) (lm_limit p) (lm_offset p + lm_limit p).

(** A reader that turns the page as long as there are more; [None]: a request
    failed or the fuel ran out. *)
Fixpoint read_pages (fuel : nat) (srv : server) (calls : Calls) (auth : option (string * string))
    (p : ListMessagesParams) (s : stores) : option (list Message) :=
  match fuel with
  | O => None
  | S fuel =>
    match ask_page srv calls auth p s with
    | None => None
    | Some (data, more, s) =>
      if more then app data <$> read_pages fuel srv calls auth (next_page p) s else Some data
    end
  end.

Lemma ask_page_spec srv calls auth p matcher st h w :
  cl_env calls = calm -> authenticated srv (arrives (listMessages_request p) auth) = true ->
  store_ok st -> valid_page p -> CompileTextFilter (trim (lm_query p)) = inl matcher ->
  exists indexes, ask_page srv calls auth p (st, h, w)
    = Some (take (Z.to_nat (lm_limit p)) (drop (Z.to_nat (lm_offset p)) (matching p matcher st)),
            (lm_offset p + lm_limit p <? Z.of_nat (length (matching p matcher st)))%Z,
            (with_indexes st indexes, h, w))
    /\ store_ok (with_indexes st indexes).
Proof.
  intros Henv Hauth Hok Hp Hm. destruct (client_page calls auth p matcher st Henv Hok Hp Hm) as (indexes & Hh & Hok').
  exists indexes. split; [|done]. unfold ask_page, serve.
  change (route_of (Api.req_Path (arrives (listMessages_request p) auth))) with (api messages_route).
  unfold require, authenticated in *. cbn match.
  destruct (req_BasicAuth _) as [[username password]|]; [|done]. rewrite Hauth.
  unfold serve_api, withMethod. change (String.eqb (Api.req_Method (arrives (listMessages_request p) auth)) "GET") with true.
  cbn match. by rewrite Hh.
Qed.

Lemma read_pages_spec srv calls auth matcher fuel p st h w :
  cl_env calls = calm -> authenticated srv (arrives (listMessages_request p) auth) = true ->
  store_ok st -> valid_page p -> CompileTextFilter (trim (lm_query p)) = inl matcher ->
  (Z.of_nat (length (matching p matcher st)) + lm_limit p <= max_int)%Z ->
  length (matching p matcher st) < fuel + Z.to_nat (lm_offset p) ->
  read_pages fuel srv calls auth p (st, h, w) = Some (drop (Z.to_nat (lm_offset p)) (matching p matcher st)) \/ fuel = 0.
Proof.
  intros Henv Hauth Hok Hp Hm. revert p st Hauth Hok Hp Hm.
  induction fuel as [|fuel IH]; intros p st Hauth Hok Hp Hm Hmax Hfuel; [by right|left].
  cbn [read_pages]. destruct (ask_page_spec srv calls auth p matcher st h w Henv Hauth Hok Hp Hm) as (indexes & -> & Hok').
  destruct Hp as [Hl Hoff]. set (L := matching p matcher st) in *. set (st' := with_indexes st indexes) in *.
  assert (HL : matching (next_page p) matcher st' = L)
    by (unfold matching, L; by rewrite (archive_order_files st st')).
  destruct (Z.ltb_spec (lm_offset p + lm_limit p) (Z.of_nat (length L))) as [Hmore|Hend].
  - destruct (IH (next_page p) st') as [Hrest|Hz]; try done.
    + split; [done|]. cbn. lia.
    + rewrite HL. cbn. lia.
    + rewrite HL. cbn. lia.
    + rewrite Hrest, HL. cbn [fmap option_fmap option_map next_page lm_offset]. f_equal.
      replace (Z.to_nat (lm_offset p + lm_limit p)) with (Z.to_nat (lm_offset p) + Z.to_nat (lm_limit p)) by lia.
      by rewrite <- drop_drop, take_drop.
    + subst fuel. lia.
  - f_equal. apply take_ge. rewrite length_drop. lia.
Qed.

(** C3: whoever is authenticated and turns the pages of the list
    until there are no more is shown every accepted message that matches the
    filter and comes from a selected host, each exactly once and the latest
    first, whatever page size the client asks for; the number of pages is at most
    one more than the number of messages. *)
Theorem paging_reads_everything (ms : list Message) (st : FileStore) :
  history ms st ->
  exists all, all ≡ₚ ms /\ StronglySorted (fun a b => msg_ReceivedAt b <= msg_ReceivedAt a)%Z all
    /\ forall srv calls auth query hosts limit matcher h w,
         let p := mkListMessagesParams query hosts limit 0 in
         cl_env calls = calm -> authenticated srv (arrives (listMessages_request p) auth) = true ->
         (1 <= limit <= maxMessageLimit)%Z -> (Z.of_nat (length ms) + limit <= max_int)%Z ->
         CompileTextFilter (trim query) = inl matcher ->
         read_pages (S (length ms)) srv calls auth p (st, h, w) = Some (List.filter (shown p matcher) all).
Proof.
  intros Hh. destruct (history_ok ms st Hh) as (Hok & _). exists (archive_order st).
  destruct (store_order ms st Hh) as [Hperm Hsorted]. split; [done|]. split; [done|].
  intros srv calls auth query hosts limit matcher h w p Henv Hauth Hl Hmax Hm.
  assert (Hlen : length (matching p matcher st) <= length ms).
  { unfold matching. etrans; [apply filter_length_le|]. by rewrite Hperm. }
  assert (Hp : valid_page p) by (split; [exact Hl|unfold max_int; cbn; lia]).
  destruct (read_pages_spec srv calls auth matcher (S (length ms)) p st h w Henv Hauth Hok Hp Hm) as [->|]; try done;
    cbn; lia.
Qed.
End Pages.

(** ** Three messages in three pages *)

#[local] Existing Instance merge_sort_slice.
#[local] Existing Instance listed_range.

Definition one_per_page : ListMessagesParams := mkListMessagesParams " link " [" router-a "] 1 0.
Definition admin : option (string * string) := Some ("admin", "secret").
Definition three_served : stores := (three_stored, NewHub, NewWorker empty_Snapshot).

Example pages_of_router_a :
  map msg_ID <$> read_pages 4 guarded quiet_calls admin one_per_page three_served = Some ["m3"; "m1"].
Proof. vm_compute. reflexivity. Qed.

Example first_page_of_router_a :
  (fun r => (map msg_ID r.1.1, r.1.2)) <$> ask_page guarded quiet_calls admin one_per_page three_served = Some (["m3"], true).
Proof. vm_compute. reflexivity. Qed.

Lemma paging_reads_everything_witness :
  exists all, all ≡ₚ three_messages
    /\ forall matcher, CompileTextFilter (trim " link ") = inl matcher ->
         read_pages 4 guarded quiet_calls admin one_per_page three_served = Some (List.filter (shown one_per_page matcher) all).
Proof.
  destruct (paging_reads_everything three_messages three_stored three_stored_history) as (all & Hperm & _ & Hall).
  exists all. split; [exact Hperm|]. intros matcher Hm.
  apply (Hall guarded quiet_calls admin " link "%string [" router-a "%string] 1%Z matcher NewHub (NewWorker empty_Snapshot));
    [reflexivity|reflexivity|split; discriminate|discriminate|exact Hm].
Defined.
