(* ===== verification/Paging.v ===== *)
(** Turning the pages of the message list while messages come in: what was there
    when the first page was asked for is not missed, however the pages shift. *)
From Stdlib Require Import ZArith Lia.
From S2P Require Import Prelude.
From S2P Require Import GoStd.
From S2P Require Import GoLib.
From S2P Require Import GoInstances.
From S2P Require Import Model.
From S2P Require Import EngineState.
From S2P Require Import Storage.
From S2P Require Import StorageLemmas.
From S2P Require Import StorageQuery.
From S2P Require Import StorageHistory.
From S2P Require Import StorageProps.
From S2P Require Import StorageOverlap.
From S2P Require Import StorageGrowth.
From S2P Require Import Worker.
From S2P Require Import Hub.
From S2P Require Import Api.
From S2P Require Import Import.
From S2P Require Import Router.
From S2P Require Import ApiProps.
From S2P Require Import JsStd.
From S2P Require Import ApiClient.
From S2P Require Import ViewProps.
From S2P Require Import EndToEnd.
Local Open Scope list_scope.

Section Paging.
Context {GR : GoRange} {GS : GoSort} {GH : GoHeap} {GT : GoText} {GTL : GoTextLaws} {J : GoJson} {JL : GoJsonLaws}
  {JO : GoJsonObject}.

Section Browsing.
Variables (srv : server) (calls : Calls) (auth : option (string * string)).

(** A client that asks for page after page until there are no more; between two
    requests messages may come in.  The message lists are what the store holds at
    the first and at the last request. *)
Inductive browsing : ListMessagesParams -> list Message -> stores -> list Message -> list Message -> Prop :=
| browse_last p ms s data s' :
    ask_page srv calls auth p s = Some (data, false, s') -> browsing p ms s ms data
| browse_turn p ms s data st' h' w' ms2 st2 h2 w2 ms3 rows :
    ask_page srv calls auth p s = Some (data, true, (st', h', w')) ->
    later ms st' ms2 st2 ->
    browsing (next_page p) ms2 (st2, h2, w2) ms3 rows ->
    browsing p ms s ms3 (data ++ rows).
End Browsing.

Lemma later_prefix ms st ms' st' : later ms st ms' st' -> exists more, ms' = ms ++ more.
Proof.
  unfold later. intros Hl. remember (ms, st) as a eqn:Ea. remember (ms', st') as b eqn:Eb. revert ms st Ea.
  induction Hl as [a|a [ms1 st1] b Hev _ IH]; intros ms st ->; [simplify_eq; exists []; by rewrite app_nil_r|].
  destruct (IH Eb ms1 st1 eq_refl) as [more ->]. cbn in Hev.
  destruct Hev; [|by exists more..]. eexists (_ :: more). by rewrite <- app_assoc.
Qed.

Lemma browsing_prefix srv calls auth p ms s ms' rows :
  browsing srv calls auth p ms s ms' rows -> exists more, ms' = ms ++ more.
Proof.
  induction 1 as [p ms s data s' _|p ms s data st' h' w' ms2 st2 h2 w2 ms3 rows _ Hl _ [more ->]].
  - exists []. by rewrite app_nil_r.
  - destruct (later_prefix _ _ _ _ Hl) as [more' ->]. exists (more' ++ more). by rewrite app_assoc.
Qed.

Lemma with_indexes_holds ms st indexes :
  holds ms st -> store_ok (with_indexes st indexes) -> holds ms (with_indexes st indexes).
Proof. by intros (_ & ? & ?). Qed.

Lemma matching_grows p matcher st st' :
  store_ok st -> grows st st' -> matching p matcher st `sublist_of` matching p matcher st'.
Proof. intros Hok Hg. apply sublist_filter_compat. by apply archive_order_grows. Qed.

Lemma matching_length p matcher ms st : holds ms st -> length (matching p matcher st) <= length ms.
Proof.
  intros (Hok & Hp & Hms). unfold matching. etrans; [apply filter_length_le|].
  destruct (archive_order_spec st Hok Hp) as [Hperm _]. by rewrite Hperm, Hms.
Qed.

Lemma elem_of_matching p matcher ms st m :
  holds ms st -> m ∈ matching p matcher st -> m ∈ ms /\ shown p matcher m = true.
Proof.
  intros (Hok & Hp & Hms) Hm. unfold matching in Hm.
  apply list_elem_of_In, filter_In in Hm as [Hm Hs]. split; [|done].
  destruct (archive_order_spec st Hok Hp) as [Hperm _]. rewrite <- Hms, <- Hperm. by apply list_elem_of_In.
Qed.

(** From any page on: what is behind the offset is in the rows that follow. *)
Lemma browsing_spec srv calls auth matcher p ms s ms' rows :
  browsing srv calls auth p ms s ms' rows ->
  forall st h w, s = (st, h, w) -> holds ms st ->
  cl_env calls = calm -> authenticated srv (arrives (listMessages_request p) auth) = true ->
  (1 <= lm_limit p <= maxMessageLimit)%Z -> (0 <= lm_offset p)%Z ->
  (lm_offset p <= Z.of_nat (length ms))%Z -> (Z.of_nat (length ms') + lm_limit p <= max_int)%Z ->
  CompileTextFilter (trim (lm_query p)) = inl matcher ->
  drop (Z.to_nat (lm_offset p)) (matching p matcher st) `sublist_of` rows
  /\ forall m, m ∈ rows -> m ∈ ms' /\ shown p matcher m = true.
Proof.
  induction 1 as [p ms s data s' Ha|p ms s data st' h' w' ms2 st2 h2 w2 ms3 rows Ha Hl Hb IH];
    intros st h w -> Hh Henv Hauth Hlim Ho Hlen Hmax Hm.
  all: assert (Hp : valid_page p) by (split; [done|]; try (pose proof (browsing_prefix _ _ _ _ _ _ _ _ Hb) as [? ->];
    pose proof (later_prefix _ _ _ _ Hl) as [? ->]; rewrite !length_app in Hmax); lia).
  all: destruct (ask_page_spec srv calls auth p matcher st h w Henv Hauth (proj1 Hh) Hp Hm) as (indexes & Hask & Hok').
  all: rewrite Ha in Hask.
  - injection Hask as -> Hmore _. symmetry in Hmore. apply Z.ltb_ge in Hmore.
    rewrite take_ge by (rewrite length_drop; lia). split; [done|]. intros m Hin.
    apply (elem_of_matching p matcher ms st m Hh). by eapply elem_of_submseteq; [|apply sublist_submseteq, sublist_drop].
  - injection Hask as -> Hmore -> -> ->. symmetry in Hmore. apply Z.ltb_lt in Hmore.
    pose proof (with_indexes_holds _ _ _ Hh Hok') as Hh'.
    destruct (later_holds _ _ _ _ Hl Hh') as [Hh2 Hg].
    pose proof (matching_length p matcher ms st Hh) as Hml.
    pose proof (later_prefix _ _ _ _ Hl) as [more ->].
    destruct (IH st2 h2 w2 eq_refl Hh2 Henv Hauth) as [Hsub Hin]; try done; cbn; try lia.
    { rewrite length_app. lia. }
    split.
    + rewrite <- (take_drop (Z.to_nat (lm_limit p)) (drop _ (matching p matcher st))) at 1.
      apply sublist_app; [done|]. etrans; [|exact Hsub]. cbn [next_page lm_offset].
      rewrite drop_drop. replace (Z.to_nat (lm_offset p + lm_limit p)) with (Z.to_nat (lm_offset p) + Z.to_nat (lm_limit p)) by lia.
      apply sublist_drop_compat. change (matching (next_page p)) with (matching p).
      replace (matching p matcher st) with (matching p matcher (with_indexes st indexes))
        by (unfold matching; by rewrite (archive_order_files st (with_indexes st indexes))).
      by apply matching_grows; [apply Hh'|].
    + intros m [Hm1|Hm1]%elem_of_app; [|by apply Hin].
      assert (Hms : m ∈ matching p matcher st).
      { eapply elem_of_submseteq; [exact Hm1|]. etrans; [apply sublist_submseteq, sublist_take|].
        apply sublist_submseteq, sublist_drop. }
      destruct (elem_of_matching p matcher ms st m Hh Hms) as [Hin1 Hs]. split; [|done].
      pose proof (browsing_prefix _ _ _ _ _ _ _ _ Hb) as [more' ->]. apply elem_of_app. left.
      apply elem_of_app. by left.
Qed.

(** C9: whoever turns the pages of the list until there are
    no more, while messages keep coming in between the requests, is shown every
    matching message that was there when the first page was asked for, the latest
    first; what came in since may move rows to the next page, so that a row is
    shown twice, but only messages that were accepted and match are shown. *)
Theorem paging_during_appends (srv : server) (calls : Calls) (auth : option (string * string))
    (query : string) (hosts : list string) (limit : Z) (matcher : Message -> bool)
    (ms : list Message) (st : FileStore) (h : Hub) (w : Worker) (ms' rows : list Message) :
  let p := mkListMessagesParams query hosts limit 0 in
  history ms st -> browsing srv calls auth p ms (st, h, w) ms' rows ->
  cl_env calls = calm -> authenticated srv (arrives (listMessages_request p) auth) = true ->
  (1 <= limit <= maxMessageLimit)%Z -> (Z.of_nat (length ms') + limit <= max_int)%Z ->
  CompileTextFilter (trim query) = inl matcher ->
  (exists all, all ≡ₚ ms /\ StronglySorted (fun a b => msg_ReceivedAt b <= msg_ReceivedAt a)%Z all
    /\ List.filter (shown p matcher) all `sublist_of` rows)
  /\ forall m, m ∈ rows -> m ∈ ms' /\ shown p matcher m = true.
Proof.
  intros p Hh Hb Henv Hauth Hlim Hmax Hm. destruct (store_order ms st Hh) as [Hperm Hsorted].
  destruct (browsing_spec srv calls auth matcher p ms (st, h, w) ms' rows Hb st h w) as [Hsub Hin];
    [done|by apply history_ok|done|done|exact Hlim|cbn; lia|cbn; lia|exact Hmax|exact Hm|].
  split; [|exact Hin]. exists (archive_order st). split_and!; [done|done|exact Hsub].
Qed.
End Paging.

(** ** A message comes in while the pages are turned *)

#[local] Existing Instance merge_sort_slice.
#[local] Existing Instance listed_range.

(** After the first page, which shows "m3", "m6" arrives from the same router:
    "m3" moves to the second page and is shown again, and "m6" is not shown. *)
Definition m6 : Message := stored_at 60 "m6" "router-a" "link flaps".

Definition page_at (offset : Z) : ListMessagesParams := mkListMessagesParams " link " [" router-a "] 1 offset.

Definition after_page (p : ListMessagesParams) (s : stores) : stores :=
  match ask_page guarded quiet_calls admin p s with Some (_, _, s') => s' | None => s end.

Definition first_asked : FileStore := (after_page one_per_page three_served).1.1.
Definition six_stored : FileStore := (Append calm (io_written 0) 0 m6 first_asked).1.
Definition six_served : stores := (six_stored, NewHub, NewWorker empty_Snapshot).
Definition six_messages : list Message := three_messages ++ [m6].

Definition turned : list Message :=
  flat_map (fun p => match ask_page guarded quiet_calls admin p.1 p.2 with Some (data, _, _) => data | None => [] end)
    [(one_per_page, three_served); (page_at 1, six_served); (page_at 2, after_page (page_at 1) six_served)].

Example a_row_is_shown_twice : map msg_ID turned = ["m3"; "m3"; "m1"]%string.
Proof. vm_compute. reflexivity. Qed.

Lemma asked p s data more :
  (fun r => (r.1.1, r.1.2)) <$> ask_page guarded quiet_calls admin p s = Some (data, more) ->
  ask_page guarded quiet_calls admin p s
  = Some (data, more, ((after_page p s).1.1, (after_page p s).1.2, (after_page p s).2)).
Proof. unfold after_page. by destruct (ask_page _ _ _ p s) as [[[data' more'] [[? ?] ?]]|]; cbn; intros; simplify_eq. Qed.

Lemma m6_later : later three_messages first_asked six_messages six_stored.
Proof. apply rtc_once. apply append_event; vm_compute; reflexivity. Qed.

Lemma turned_browsing :
  browsing guarded quiet_calls admin one_per_page three_messages three_served six_messages turned.
Proof.
  apply (browse_turn _ _ _ one_per_page three_messages three_served [stored_at 20 "m3" "router-a" "link Down"]
    first_asked (after_page one_per_page three_served).1.2 (after_page one_per_page three_served).2
    six_messages six_stored NewHub (NewWorker empty_Snapshot) six_messages
    [stored_at 20 "m3" "router-a" "link Down"; stored_at 10 "m1" "router-a" "link up"]).
  - apply asked. vm_compute. reflexivity.
  - exact m6_later.
  - apply (browse_turn _ _ _ (page_at 1) six_messages six_served [stored_at 20 "m3" "router-a" "link Down"]
      (after_page (page_at 1) six_served).1.1 (after_page (page_at 1) six_served).1.2
      (after_page (page_at 1) six_served).2 six_messages (after_page (page_at 1) six_served).1.1
      (after_page (page_at 1) six_served).1.2 (after_page (page_at 1) six_served).2 six_messages
      [stored_at 10 "m1" "router-a" "link up"]).
    + apply asked. vm_compute. reflexivity.
    + apply rtc_refl.
    + eapply browse_last. apply asked. vm_compute. reflexivity.
Qed.

Definition link_matcher : Message -> bool :=
  match CompileTextFilter (trim " link ") with inl matcher => matcher | inr _ => fun _ => false end.

Lemma paging_during_appends_witness :
  (exists all, all ≡ₚ three_messages /\ StronglySorted (fun a b => msg_ReceivedAt b <= msg_ReceivedAt a)%Z all
    /\ List.filter (shown one_per_page link_matcher) all `sublist_of` turned)
  /\ forall m, m ∈ turned -> m ∈ six_messages /\ shown one_per_page link_matcher m = true.
Proof.
  apply (paging_during_appends guarded quiet_calls admin " link "%string [" router-a "%string] 1%Z link_matcher
    three_messages three_stored NewHub (NewWorker empty_Snapshot) six_messages turned).
  - exact three_stored_history.
  - exact turned_browsing.
  - reflexivity.
  - reflexivity.
  - split; discriminate.
  - discriminate.
  - reflexivity.
Defined.
