(* ===== verification/IncidentsPage.v ===== *)
(** The incidents page from end to end: the three requests the client makes, as
    the API answers them from the engine's state, show every incident where it
    belongs, with its deliveries. *)
From Stdlib Require Import Ascii ZArith Lia.
From S2P Require Import Prelude.
From S2P Require Import GoStd.
From S2P Require Import GoLib.
From S2P Require Import GoStrings.
From S2P Require Import GoInstances.
From S2P Require Import Model.
From S2P Require Import Classify.
From S2P Require Import EngineState.
From S2P Require Import Engine.
From S2P Require Import EngineEscalation.
From S2P Require Import Scenarios.
From S2P Require Import Storage.
From S2P Require Import Worker.
From S2P Require Import Hub.
From S2P Require Import Api.
From S2P Require Import Import.
From S2P Require Import Router.
From S2P Require Import ApiProps.
From S2P Require Import ApiClient.
From S2P Require Import EndToEnd.
Local Open Scope string_scope.

(** Which of the three lists an incident belongs to. *)
Definition belongs (list_ : ListedState) (i : EngineState.Incident) : bool :=
  match list_, inc_State i with
  | list_pending_failure, StatePendingFailure => true
  | list_active, (StateActive | StatePendingRecovery) => true
  | list_resolved, StateResolved => true
  | _, _ => false
  end.

Lemma listed_belongs list_ i : listed (ListedState_string list_) i = belongs list_ i.
Proof. unfold listed, belongs. by destruct list_, (inc_State i). Qed.

Lemma belongs_to_one i : exists! list_, belongs list_ i = true.
Proof.
  unfold belongs.
  destruct (inc_State i); [exists list_pending_failure|exists list_active|exists list_active|exists list_resolved];
    (split; [done|]; by intros []).
Qed.

(** The incidents of a state, and the jobs of an incident. *)
Definition incidents_of (s : Snapshot) : list EngineState.Incident := map snd (map_to_list (snap_Incidents s)).

Definition jobs_of (s : Snapshot) (i : EngineState.Incident) : list NotificationJob :=
  List.filter (fun j => String.eqb (job_IncidentID j) (inc_ID i)) (map snd (map_to_list (snap_Jobs s))).

Section Page.
Context {GR : GoRange} {GS : GoSort} {GH : GoHeap} {GT : GoText} {J : GoJson} {JO : GoJsonObject}.

(** The deliveries shown with an incident are its jobs, oldest first. *)
Definition deliveries_right (s : Snapshot) (r : incidentResponse) : Prop :=
  ir_Deliveries r ≡ₚ jobs_of s (ir_Incident r)
  /\ StronglySorted (fun x y => job_CreatedAt x <= job_CreatedAt y)%Z (ir_Deliveries r).

Lemma with_deliveries_spec p i incidents s :
  map ir_Incident (with_deliveries p i incidents s) = incidents
  /\ Forall (deliveries_right s) (with_deliveries p i incidents s).
Proof.
  revert i. induction incidents as [|incident incidents IH]; intros i; [done|]. cbn.
  destruct (IH (S i)) as [-> H]. split; [done|]. constructor; [|done]. unfold deliveries_right. cbn.
  apply (jobs_by_creation_spec _ (fun job => String.eqb (job_IncidentID job) (inc_ID incident))).
Qed.

Definition page_size : nat := 100.

Lemma first_page {A} (l : list A) :
  let len := Z.of_nat (length l) in
  let start := if (len <? 0)%Z then len else 0%Z in
  let end_ := if (len <? start + 100)%Z then len else (start + 100)%Z in
  slice start end_ l = Some (take page_size l)
  /\ (end_ - start)%Z = Z.of_nat (length (take page_size l)) /\ (end_ <? len)%Z = (page_size <? length l)%nat.
Proof.
  cbv zeta. rewrite (proj2 (Z.ltb_ge (Z.of_nat (length l)) 0)) by lia. rewrite Z.add_0_l, length_take.
  destruct (Z.ltb_spec (Z.of_nat (length l)) 100) as [H|H].
  - split; [|split; [unfold page_size; lia|]].
    + unfold slice. rewrite (proj2 (Z.leb_le _ _)), (proj2 (Z.leb_le _ _)) by lia. cbn [andb].
      rewrite Z.leb_refl, drop_0. f_equal. rewrite !take_ge; [done|unfold page_size; lia|lia].
    + apply eq_true_iff_eq. rewrite Z.ltb_lt, Nat.ltb_lt. unfold page_size. lia.
  - split; [|split; [unfold page_size; lia|]].
    + unfold slice. rewrite (proj2 (Z.leb_le _ _)), (proj2 (Z.leb_le _ _)), (proj2 (Z.leb_le 100 _)) by lia. cbn [andb].
      by rewrite drop_0.
    + apply eq_true_iff_eq. rewrite Z.ltb_lt, Nat.ltb_lt. unfold page_size. lia.
Qed.

Lemma incidents_answered (srv : server) (p : list nat) auth (list_ : ListedState) (s : Snapshot) :
  srv_incidents srv = true ->
  exists all data, all ≡ₚ incidents_of s
    /\ StronglySorted (fun x y => inc_StartedAt y <= inc_StartedAt x)%Z all
    /\ handleIncidents srv p (arrives (listIncidents_request list_) auth) s
       = Some (writeJSON 200 (incidentsResponse data
                 (Api.mkMeta (Z.of_nat (length data)) 100 0 (page_size <? length (List.filter (belongs list_) all))%nat)))
    /\ map ir_Incident data = take page_size (List.filter (belongs list_) all)
    /\ Forall (deliveries_right s) data.
Proof.
  intros Hsrv. destruct (incident_list (0 :: p) {| qry_State := None; qry_Limit := 0; qry_Offset := 0 |} s)
    as (all & Hall & Hsorted & Hlist); [done|].
  cbn [qry_Offset qry_Limit] in Hlist. change (0 <? 0)%Z with false in Hlist. cbn in Hlist. rewrite drop_0 in Hlist.
  unfold handleIncidents. rewrite Hsrv. cbn [negb].
  assert (parsePagination (Api.req_Query (arrives (listIncidents_request list_) auth)) 100 1000 = inl (100, 0)%Z) as ->
    by by destruct list_.
  assert (TrimSpace (values_Get "state" (Api.req_Query (arrives (listIncidents_request list_) auth)))
          = ListedState_string list_) as -> by by destruct list_.
  assert (known_state (ListedState_string list_) = true) as -> by by destruct list_. cbn [negb]. rewrite Hlist.
  assert (List.filter (listed (ListedState_string list_)) all = List.filter (belongs list_) all) as ->
    by (apply filter_ext; intros i; apply listed_belongs).
  destruct (first_page (List.filter (belongs list_) all)) as (Hslice & Hcount & Hmore). cbv zeta in *.
  rewrite Hslice, Hcount, Hmore.
  destruct (with_deliveries_spec p 0 (take page_size (List.filter (belongs list_) all)) s) as [Hmap Hdel].
  set (data := with_deliveries p 0 _ s) in *. exists all, data.
  split; [|split; [done|split; [|done]]].
  - rewrite Hall. unfold EngineEscalation.matching. cbn. by rewrite filter_all.
  - by rewrite <- Hmap, length_map.
Qed.

(** C6: whoever is authenticated and opens the incidents page gets three
    answers: each incident belongs to exactly one of the lists, and the answer
    for a list holds the hundred incidents that belong to it with the latest
    start, latest first, or all of them when there are no more than a hundred,
    with a flag that says whether there are more; each incident shown comes
    with exactly its notification jobs, oldest first. *)
Theorem incidents_page_complete (srv : server) (calls : Calls) (p : list nat) auth (st : FileStore) (h : Hub) (w : Worker) :
  srv_incidents srv = true ->
  (forall i, exists! list_, belongs list_ i = true)
  /\ forall list_, authenticated srv (arrives (listIncidents_request list_) auth) = true ->
     exists all data, all ≡ₚ incidents_of (wk_engine w)
       /\ StronglySorted (fun x y => inc_StartedAt y <= inc_StartedAt x)%Z all
       /\ serve srv calls p (arrives (listIncidents_request list_) auth) (st, h, w)
          = Some (mkOutcome (st, h, w) [] (writeJSON 200 (incidentsResponse data
              (Api.mkMeta (Z.of_nat (length data)) 100 0 (page_size <? length (List.filter (belongs list_) all))%nat))))
       /\ map ir_Incident data = take page_size (List.filter (belongs list_) all)
       /\ Forall (deliveries_right (wk_engine w)) data.
Proof.
  intros Hsrv. split; [apply belongs_to_one|]. intros list_ Hauth.
  destruct (incidents_answered srv p auth list_ (wk_engine w) Hsrv) as (all & data & Hall & Hsorted & Hh & Hrest).
  exists all, data. split; [done|]. split; [done|]. split; [|done].
  unfold serve. change (route_of (Api.req_Path (arrives (listIncidents_request list_) auth))) with (api incidents_route).
  unfold require, authenticated in *. cbn match. destruct (req_BasicAuth _) as [[username password]|]; [|done].
  rewrite Hauth. unfold serve_api, withMethod.
  change (String.eqb (Api.req_Method (arrives (listIncidents_request list_) auth)) "GET") with true. cbn match.
  by rewrite Hh.
Qed.
End Page.

(** ** An outage on the page *)

#[local] Existing Instance merge_sort_slice.
#[local] Existing Instance listed_range.

Definition one_outage : stores := (NewFileStore, NewHub, NewWorker wan_active).

(** What each of the three lists shows. *)
Definition shown_list (list_ : ListedState) : option (list (string * nat)) :=
  match serve guarded quiet_calls [] (arrives (listIncidents_request list_) admin) one_outage with
  | Some (mkOutcome _ _ (Api.mkResponse 200 _ (incidentsResponse data _))) =>
    Some (map (fun r => (inc_Interface (ir_Incident r), length (ir_Deliveries r))) data)
  | _ => None
  end.

Example outage_shown :
  map shown_list [list_pending_failure; list_active; list_resolved] = [Some []; Some [("wan", 1)]; Some []].
Proof. vm_compute. reflexivity. Qed.

Lemma incidents_page_complete_witness :
  srv_incidents guarded = true
  /\ exists all data, all ≡ₚ incidents_of wan_active
       /\ (exists response, serve guarded quiet_calls [] (arrives (listIncidents_request list_active) admin) one_outage
                            = Some (mkOutcome one_outage [] response))
       /\ map ir_Incident data = take page_size (List.filter (belongs list_active) all).
Proof.
  split; [reflexivity|].
  destruct (incidents_page_complete guarded quiet_calls [] admin NewFileStore NewHub (NewWorker wan_active) eq_refl)
    as [_ H].
  destruct (H list_active eq_refl) as (all & data & Hall & _ & Hserve & Hmap & _).
  exists all, data. split; [exact Hall|]. split; [eexists; exact Hserve|exact Hmap].
Defined.
