(* ===== verification/AppHosts.v ===== *)
(** The host selection of a running client: always in canonical form, and every
    query on its way asks for exactly the values it was started with. *)
From Stdlib Require Import ZArith Lia.
From S2P Require Import Prelude.
From S2P Require Import GoStd.
From S2P Require Import JsStd.
From S2P Require Import ApiClient.
From S2P Require Import View.
From S2P Require Import AppState.
From S2P Require Import App.
From S2P Require Import Screen.
From S2P Require Import AppSteps.
From S2P Require Import AppLemmas.
From S2P Require Import Browser.
From S2P Require Import ViewProps.
Local Open Scope string_scope.

Section Hosts.
Context {LC : Locale} {CA : Calendar} {JP : JsonParse}.

Definition params_of (c : RefreshClosure) : ListMessagesParams :=
  mkListMessagesParams (rc_filter c) (rc_hosts c) (rc_limit c) (rc_offset c).

Definition call_ok (p : Pending) : Prop :=
  match pd_call p with
  | call_messages c => pd_requests p = [listMessages_request (params_of c)] /\ canonical (rc_hosts c)
  | call_import _ c => canonical (rc_hosts c)
  | _ => True
  end.

Definition hosts_ok (s : AppState) : Prop :=
  canonical (ho_items (st_selectedHosts s)) /\ canonical (st_knownHosts s).

Record hosts_inv (w : World) : Prop := {
  hi_app : hosts_ok (w_app w);
  hi_pending : Forall call_ok (w_pending w)
}.

Lemma initial_hosts (path : string) (saved : option string) : hosts_inv (initial_world path saved).
Proof. repeat split; simpl; constructor. Qed.

Lemma hosts_update (f : AppState -> AppState) (w : World) :
  hosts_inv w -> hosts_ok (f (w_app w)) -> hosts_inv (update f w).
Proof. by intros [] ?. Qed.

Lemma hosts_start (c : Call) (signal : option nat) (rs : list Request) (w : World) :
  hosts_inv w -> call_ok (mkPending (w_next w) c signal rs) -> hosts_inv (start_call c signal rs w).
Proof. intros [Ha Hp] Hc. split; [done|]. simpl. apply Forall_app. by repeat constructor. Qed.

Lemma hosts_take (id : nat) (w w' : World) (p : Pending) :
  take_call id w = Some (p, w') -> hosts_inv w -> hosts_inv w' /\ call_ok p.
Proof.
  intros [Hp ->]%take_call_spec [Ha Hc]. rewrite Forall_forall in Hc. split; [|by apply Hc]. split; [done|].
  simpl. apply Forall_forall. intros q [Hq _]%list_elem_of_In%filter_In. by apply Hc, list_elem_of_In.
Qed.

Lemma hosts_refresh_start (c : RefreshClosure) (signal : option nat) (w : World) :
  hosts_inv w -> canonical (rc_hosts c) -> hosts_inv (refresh_start c signal w).
Proof. intros Hi Hc. apply hosts_start; [|done]. apply hosts_update; [done|apply Hi]. Qed.

Lemma hosts_refresh_settled (c : RefreshClosure) (f : fetched MessagesResponse) (now : Z) (s : AppState) :
  hosts_ok s -> hosts_ok (refresh_settled c f now s).
Proof.
  intros [Hs Hk]. unfold refresh_settled, refresh_try. repeat case_match; split; try done.
  apply sortedUniqueHosts_canonical.
Qed.

Lemma hosts_handleMessage (sr : Stream) (data : string) (now : Z) (s : AppState) :
  hosts_ok s -> hosts_ok (handleMessage sr data now s).
Proof.
  intros [Hs Hk]. unfold handleMessage. repeat case_match; split; try done; apply sortedUniqueHosts_canonical.
Qed.

Lemma hosts_set_hosts (hosts : list string) (w : World) :
  hosts_inv w -> canonical hosts -> hosts_inv (set_hosts hosts w).
Proof. by intros [[Hs Hk] Hp] Hc. Qed.

Lemma handle_hosts (e : Event) (w w' : World) : hosts_inv w -> handle e w = Some w' -> hosts_inv w'.
Proof.
  intros Hi. destruct e; simpl; intros H; handle_cases H;
    repeat match goal with
      | E : take_call _ w = Some _ |- _ => apply hosts_take in E as [? ?]; [|done]
      end;
    try exact Hi; try (apply hosts_update; [done|apply Hi]);
    try (apply hosts_update; [done|exact (hi_app _ Hw0)]).
  - apply hosts_set_hosts; [|by repeat split; constructor]. by apply hosts_update; [|apply Hi].
  - apply hosts_set_hosts; [by apply hosts_update; [|apply Hi]|]. apply toggled_canonical, Hi.
  - apply hosts_update; [by destruct Hi|apply Hi].
  - apply hosts_refresh_start; [done|apply Hi].
  - apply hosts_start; [|done]. by apply hosts_update; [|apply Hi].
  - apply hosts_start; [|done]. by apply hosts_update; [|apply Hi].
  - unfold handleImportFile. destruct file as [f|]; [|done].
    apply hosts_start; [by apply hosts_update; [|apply Hi]|apply Hi].
  - by apply hosts_start.
  - apply hosts_update; [done|]. apply hosts_handleMessage, Hi.
  - by destruct Hi.
  - apply hosts_update; [done|]. apply hosts_refresh_settled. by eapply hi_app.
  - apply hosts_update; [done|]. unfold fetchBuildID_settled. case_match; by eapply hi_app.
  - apply hosts_update; [done|]. unfold refreshIncidents_settled. repeat case_match; by eapply hi_app.
  - apply hosts_update; [done|]. unfold sendTestEvent_settled. case_match; by eapply hi_app.
  - rename select (hosts_inv w0) into Hw0. by destruct Hw0.
  - rename select (hosts_inv w0) into Hw0.
    unfold import_settled. destruct (importMessages answer) as [r|err].
    + set (w1 := update (setNotice _) w0).
      assert (H1 : hosts_inv w1) by (apply hosts_update; [done|exact (hi_app _ Hw0)]).
      destruct (page =? 0)%Z.
      * assert (H2 : hosts_inv (refresh_start c None w1)) by (apply hosts_refresh_start; [done|assumption]).
        apply hosts_update; [done|]. apply (hi_app _ H2).
      * apply hosts_update; [|apply (hi_app _ H1)]. apply hosts_update; [done|apply (hi_app _ H1)].
    + apply hosts_update; [|exact (hi_app _ Hw0)]. apply hosts_update; [done|exact (hi_app _ Hw0)].
Qed.

Lemma run_effect_hosts (e : Effect) (w : World) : hosts_inv w -> hosts_inv (run_effect e w).
Proof.
  intros Hi. destruct e; simpl.
  - apply hosts_start; [by destruct Hi|done].
  - apply hosts_start; [by destruct Hi|done].
  - by destruct Hi.
  - unfold run_size. destruct Hi. case_match; by split.
  - by destruct Hi.
  - unfold run_refresh. destruct Hi as [Ha Hp].
    destruct (ef_refresh (w_effects w)) as [[d ctl]|]; apply hosts_refresh_start; try (by split); apply Ha.
  - unfold run_live. destruct Hi. case_match; by split.
  - unfold run_stream. destruct Hi. repeat case_match; by split.
Qed.

Lemma reachable_hosts (w : World) : app_reachable w -> hosts_inv w.
Proof.
  intros (path & saved & Hr).
  enough (H : forall w0, hosts_inv w0 -> rtc app_step w0 w -> hosts_inv w)
    by (eapply H; [apply initial_hosts|done]).
  clear Hr. intros w0 Hi Hr. induction Hr as [|w1 w2 w3 H12 _ IH]; [done|].
  apply IH. apply step_cases in H12 as [(e & _ & Hh)|(e & _ & ->)]; [by eapply handle_hosts|by apply run_effect_hosts].
Qed.

(** In every reachable state the selected and the
    known hosts are in canonical form, and every query on its way asks for
    exactly the hosts, the page size and the offset it was started for, and for
    its filter trimmed. *)
Theorem queries_ask_for_selection (w : World) :
  app_reachable w ->
  canonical (ho_items (st_selectedHosts (w_app w))) /\ canonical (st_knownHosts (w_app w))
  /\ forall p c, p ∈ w_pending w -> pd_call p = call_messages c ->
     exists r, pd_requests p = [r] /\ rq_path r = "/api/v1/messages"
       /\ values_of "host" (rq_query r) = rc_hosts c
       /\ values_of "limit" (rq_query r) = [Itoa (rc_limit c)]
       /\ values_of "offset" (rq_query r) = [Itoa (rc_offset c)]
       /\ values_of "q" (rq_query r) = (if truthy (trim (rc_filter c)) then [trim (rc_filter c)] else []).
Proof.
  intros [[Hs Hk] Hp]%reachable_hosts. split_and!; [done..|]. intros p c Hin Hc.
  rewrite Forall_forall in Hp. specialize (Hp p Hin). unfold call_ok in Hp. rewrite Hc in Hp.
  destruct Hp as [-> (_ & _ & Hg)]. eexists. split; [done|]. split; [done|].
  destruct (listMessages_query_spec (params_of c)) as (Hl & Ho & Hh & Hq & _).
  unfold listMessages_request. cbn [rq_query]. rewrite Hl, Ho, Hh, Hq. cbn. by rewrite (cleaned_id _ Hg).
Qed.
End Hosts.

Lemma queries_ask_for_selection_witness :
  canonical (ho_items (st_selectedHosts (w_app mounted_world))).
Proof. apply queries_ask_for_selection. apply run_world_reachable. Defined.
