(* ===== verification/AppRaces.v ===== *)
(** Runs in which answers arrive in an unlucky order: behaviour of
    [frontend/src/App.tsx] that its other theorems exclude only for the fetches
    of the refresh effect, shown on concrete schedules. *)
From Stdlib Require Import ZArith.
From S2P Require Import Prelude.
From S2P Require Import GoStd.
From S2P Require Import JsStd.
From S2P Require Import ApiClient.
From S2P Require Import View.
From S2P Require Import AppState.
From S2P Require Import App.
From S2P Require Import Screen.
From S2P Require Import AppSteps.
From S2P Require Import Browser.
Local Open Scope string_scope.

Definition page_effects : list Action := [eff effect_refresh; eff effect_live; eff effect_stream].

(** The Refresh button starts query 7 for page 1; the user goes on to page 2
    (query 9), whose answer comes first. *)
Definition overtaken : World :=
  run_world (loaded ++ [act ev_refresh; act ev_next_page] ++ page_effects ++ [eff effect_live;
    act (ev_messages 9 (answer_with [live_message "second-page" "1" "router-a"] false) 20);
    act (ev_messages 7 (answer_with [live_message "first-page" "5" "router-a"] true) 21)]).

(** The rows of page 1 are on the screen as page 2, and no query is left that
    could replace them. *)
Example manual_refresh_overtakes_paging :
  st_page (w_app overtaken) = 1%Z
  /\ map sm_id (st_messages (w_app overtaken)) = ["first-page"]
  /\ map pd_id (w_pending overtaken) = [1; 2]
  /\ changed effect_refresh overtaken = false.
Proof. vm_compute. done. Qed.

(** A file is picked (call 7) while no filter is set; before the upload is
    answered the filter becomes "x" (timeout 8, query 10, stream 11). *)
Definition imported_late : World :=
  run_world (loaded ++ [act (ev_import (Some (mkFile "" "{}")));
    act (ev_filter_input "x"); eff effect_debounce; act (ev_timeout 8); eff effect_refresh; eff effect_stream;
    act (ev_messages 10 (answer_with [live_message "match" "5" "router-a"] false) 20); eff effect_stream;
    act (ev_imported 7 (inl (mkResponse 200 (inl (mkImportMessagesResponse "imported" 1 0)) None)));
    act (ev_messages 12 (answer_with [live_message "other" "9" "router-a"] false) 21); eff effect_stream]).

(** The rows are those of the old filter, under the new one, and the live
    stream is closed although live updates are on. *)
Example import_refreshes_for_old_filter :
  st_filter (w_app imported_late) = "x"
  /\ st_validatedFilter (w_app imported_late) = Some ""
  /\ map sm_id (st_messages (w_app imported_late)) = ["other"]
  /\ st_autoRefresh (w_app imported_late) = true /\ w_streams imported_late = []
  /\ changed effect_refresh imported_late = false /\ changed effect_stream imported_late = false.
Proof. vm_compute. done. Qed.

(** Two page changes in a row: the first query (8) is aborted, the second (10)
    is on its way. *)
Definition paging_fast : World :=
  run_world (loaded ++ [act ev_next_page; eff effect_refresh; act ev_next_page; eff effect_refresh;
    act (ev_messages 8 (inr AbortError) 20)]).

(** The abort of the first ends the loading sign of the second. *)
Example abort_ends_loading_sign :
  st_loading (w_app paging_fast) = false /\ map pd_id (w_pending paging_fast) = [1; 2; 10].
Proof. vm_compute. done. Qed.
