(* ===== verification/ScreenProps.v ===== *)
(** What is on the screen: its controls let the user do exactly what the state
    permits, and its tables have a row for every message or incident with, under
    each header, the field that it names. *)
From Stdlib Require Import ZArith Lia.
From S2P Require Import Prelude.
From S2P Require Import GoStd.
From S2P Require Import JsStd.
From S2P Require Import ApiClient.
From S2P Require Import View.
From S2P Require Import AppState.
From S2P Require Import App.
From S2P Require Import Screen.
From S2P Require Import AppSteps.
From S2P Require Import Browser.

(** * Controls *)


(** The first page is shown and there is another one. *)
Example loaded_page_offers :
  offers (screen Itoa sm_id (fun _ => ""%string) 12 (w_app loaded_world)) ev_next_page
  /\ ~ offers (screen Itoa sm_id (fun _ => ""%string) 12 (w_app loaded_world)) ev_previous_page.
Proof. rewrite !offers_may. by vm_compute. Qed.

(** * Collecting from lists of elements *)

Lemma collect_el {A : Type} (f : string -> list Attr -> list Node -> list A) (tag : string) (attrs : list Attr)
    (children : list Node) :
  collect f (el tag attrs children) = f tag attrs children ++ flat_map (collect f) children.
Proof. done. Qed.

Lemma flat_map_none {A B : Type} (f : B -> list A) (l : list B) :
  (forall x, x ∈ l -> f x = []) -> flat_map f l = [].
Proof.
  induction l as [|x l IH]; intros H; simpl; [done|]. rewrite (H x) by left. apply IH.
  intros y Hy. apply H. by right.
Qed.

Lemma collect_map_none {A B : Type} (f : string -> list Attr -> list Node -> list A) (g : B -> Node) (l : list B) :
  (forall x, collect f (g x) = []) -> flat_map (collect f) (map g l) = [].
Proof. intros H. apply flat_map_none. by intros n (x & -> & _)%list_elem_of_fmap. Qed.

Lemma collect_map_one {A B : Type} (f : string -> list Attr -> list Node -> list A) (g : B -> Node) (h : B -> A)
    (l : list B) :
  (forall x, collect f (g x) = [h x]) -> flat_map (collect f) (map g l) = map h l.
Proof. intros H. induction l as [|x l IH]; simpl; [done|]. by rewrite H, IH. Qed.

(** The cells of a row. *)
Lemma cells_th (l : list string) : flat_map (collect cell_at) (map th l) = l.
Proof.
  rewrite (collect_map_one _ _ id); [apply map_id|]. intros s. unfold th, cell_at. simpl. by rewrite sapp_nil_r.
Qed.

(** ** Elements without tables *)

Fixpoint plain (n : Node) : bool :=
  match n with
  | text _ => true
  | el tag _ children => negb (String.eqb tag "table") && forallb plain children
  end.

Lemma plain_no_tables (n : Node) : plain n = true -> collect table_at n = [].
Proof.
  revert n. fix IH 1. intros [s|tag attrs children]; [done|]. simpl.
  intros [Ht%negb_true_iff Hc]%andb_true_iff. unfold table_at at 1. rewrite Ht. simpl.
  induction children as [|c children IHc]; simpl in *; [done|].
  apply andb_true_iff in Hc as [Hc Hr]. rewrite (IH c Hc). by apply IHc.
Qed.

Lemma plain_tables (l : list Node) : forallb plain l = true -> tables l = [].
Proof.
  intros H. apply flat_map_none. intros n Hn%list_elem_of_In. apply plain_no_tables.
  rewrite forallb_forall in H. by apply H.
Qed.

Lemma plain_map {A : Type} (g : A -> Node) (l : list A) :
  (forall x, plain (g x) = true) -> forallb plain (map g l) = true.
Proof. intros H. apply forallb_forall. intros n (x & <- & _)%in_map_iff. apply H. Qed.

Lemma tables_app (l1 l2 : list Node) : tables (l1 ++ l2) = tables l1 ++ tables l2.
Proof. apply flat_map_app. Qed.

Lemma tables_cons (n : Node) (l : list Node) : tables (n :: l) = tables [n] ++ tables l.
Proof. by rewrite <- tables_app. Qed.

Lemma plain_table (n : Node) : plain n = true -> tables [n] = [].
Proof. intros H. apply plain_tables. simpl. by rewrite H. Qed.

(** An element that is no table has the tables of its children, one that is no
    row their rows. *)
Lemma tables_el (tag : string) (attrs : list Attr) (children l : list Node) :
  String.eqb tag "table" = false -> tables (el tag attrs children :: l) = tables children ++ tables l.
Proof. intros H. unfold tables. simpl. unfold table_at at 1. by rewrite H. Qed.

Lemma rows_el (tag : string) (attrs : list Attr) (children l : list Node) :
  String.eqb tag "tr" = false ->
  flat_map (collect row_at) (el tag attrs children :: l)
  = flat_map (collect row_at) children ++ flat_map (collect row_at) l.
Proof. intros H. simpl. unfold row_at at 1. by rewrite H. Qed.

Section Tables.
Context {LC : Locale} {CA : Calendar}.
Context (toLocaleTimeString : Z -> string).
Context (stringify : SyslogMessage -> string) (stringify_data : list (string * string) -> string).

(** ** What the columns are for *)

(** A time, or a dash for one that has not come. *)
Definition time_or_dash (t : option string) : string :=
  match t with
  | None | Some EmptyString => em_dash
  | Some t => formatDate (Some t)
  end.

Definition events_text (n : nat) : string :=
  (match n with 1 => "1 event" | _ => Itoa (Z.of_nat n) +:+ " events" end)%string.

(** Each header with the field it names. *)
Definition message_fields : list (string * (SyslogMessage -> string)) :=
  [("Received", fun m => formatDate (Some (sm_received_at m)));
   ("Timestamp", fun m => formatDate (sm_timestamp m));
   ("Host", fun m => default "" (sm_hostname m));
   ("App", fun m => default "" (sm_app_name m));
   ("Proc", fun m => default "" (sm_proc_id m));
   ("Msg ID", fun m => default "" (sm_msg_id m));
   ("Facility", fun m => default "" (Itoa <$> sm_facility m));
   ("Severity", fun m => default "" (Itoa <$> sm_severity m));
   ("Priority", fun m => default "" (Itoa <$> sm_priority m));
   ("Tag", fun m => default "" (sm_tag m));
   ("Source", fun m => default "" (sm_source m));
   ("Transport", fun m => default "" (sm_transport m));
   ("Structured", fun m => match sm_structured_data m with
                           | Some (field :: fields) => stringify_data (field :: fields)
                           | _ => ""
                           end);
   ("Message", fun m => default "" (sm_message m))]%string.

Definition incident_fields (now : Z) : list (string * (Incident -> string)) :=
  [("Host / interface", fun i => in_hostname i +:+ in_interface i);
   ("Status", fun i => match in_state i with
                       | pending_failure => "Confirming failure"
                       | active => "Outage active"
                       | pending_recovery => "Confirming recovery"
                       | resolved => "Resolved"
                       end);
   ("Detected", fun i => formatDate (Some (in_started_at i)));
   ("Outage confirmed", fun i => time_or_dash (in_activated_at i));
   ("Recovered", fun i => time_or_dash (in_resolved_at i));
   ("Duration", fun i => durationBetween now (in_started_at i) (in_resolved_at i));
   ("Notification", fun i => deliveryLabel i);
   ("Evidence", fun i => events_text (length (in_evidence_ids i)))]%string.

(** A row of a table: under each header its field. *)
Definition row_of {A : Type} (fields : list (string * (A -> string))) (x : A) : list string :=
  map (fun field => field.2 x) fields.

(** A table of that, the headers first. *)
Definition table_of {A : Type} (fields : list (string * (A -> string))) (l : list A) : list (list string) :=
  map fst fields :: map (row_of fields) l.

Lemma or_dash_spec (t : option string) : or_dash t = time_or_dash t.
Proof. by destruct t as [[|c t]|]. Qed.

Lemma events_text_spec (n : nat) :
  Itoa (Z.of_nat n) +:+ " event" +:+ plural (Z.of_nat n) +:+ "" = events_text n.
Proof.
  destruct n as [|[|n]]; [done|done|]. unfold plural, events_text.
  rewrite (proj2 (Z.eqb_neq _ 1)) by lia. by rewrite sapp_nil_r.
Qed.

Lemma incident_tr_cells (now : Z) (i : Incident) :
  collect row_at (incident_tr now i) = [row_of (incident_fields now) i].
Proof.
  unfold incident_tr, td. rewrite collect_el. unfold row_at at 1. simpl. unfold cell_at. simpl.
  rewrite events_text_spec, !sapp_nil_r, !or_dash_spec. unfold row_of, stateLabel. simpl. by destruct (in_state i).
Qed.

Lemma message_tr_cells (m : SyslogMessage) :
  collect row_at (message_tr stringify_data m) = [row_of message_fields m].
Proof.
  unfold message_tr, td, numeric_td. rewrite collect_el. unfold row_at at 1. simpl. unfold cell_at. simpl.
  rewrite !sapp_nil_r. unfold row_of, numberText, formatJSON. simpl.
  destruct (sm_facility m), (sm_severity m), (sm_priority m), (sm_structured_data m) as [[|]|]; done.
Qed.

(** A table whose head is a row of columns and whose body gives [rows]. *)
Lemma table_rows (attrs : list Attr) (columns : list string) (body : list Node) (rows : list (list string)) :
  forallb plain body = true -> flat_map (collect row_at) body = rows ->
  tables [el "table" attrs [el "thead" [] [el "tr" [] (map th columns)]; el "tbody" [] body]]
  = [columns :: rows].
Proof.
  intros Hp Hr. unfold tables at 1. cbn [flat_map]. rewrite app_nil_r, collect_el.
  change (flat_map (collect table_at) ?l) with (tables l). unfold table_at. simpl String.eqb. cbv iota.
  rewrite (rows_el "thead"), (rows_el "tbody"), Hr, (tables_el "thead"), (tables_el "tbody"), (tables_el "tr"), (plain_tables body Hp) by done. simpl.
  unfold row_at at 1. simpl. rewrite cells_th, (collect_map_none row_at th) by done. simpl.
  rewrite app_nil_r. unfold tables. simpl. by rewrite (collect_map_none table_at th).
Qed.

Lemma incident_section_tables (now : Z) (a b c d f g : string) (incidents : list Incident) :
  tables [incident_section now a b c d f g incidents]
  = match incidents with [] => [] | _ => [table_of (incident_fields now) incidents] end.
Proof.
  destruct incidents as [|i l]; [done|]. unfold incident_section, IncidentTable.
  pose proof (table_rows [className "incident-table"] incident_columns (map (incident_tr now) (i :: l))
    (map (row_of (incident_fields now)) (i :: l))) as H.
  unfold tables in *. simpl in *. unfold table_at at 1. simpl. rewrite !app_nil_r in *.
  apply H; [by apply (plain_map (incident_tr now) (i :: l))|].
  apply (collect_map_one row_at (incident_tr now) (row_of (incident_fields now)) (i :: l)).
  apply incident_tr_cells.
Qed.

(** Without messages the table says so, in its only row. *)
Definition message_rows (messages : list SyslogMessage) : list (list string) :=
  match messages with
  | [] => [map fst message_fields; ["No matching messages"%string]]
  | _ => table_of message_fields messages
  end.

Lemma message_table_tables (messages : list SyslogMessage) :
  tables [message_table stringify_data messages] = [message_rows messages].
Proof.
  assert (message_rows messages = message_columns :: match messages with
    [] => [["No matching messages"%string]] | _ => map (row_of message_fields) messages end) as ->
    by by destruct messages.
  unfold message_table.
  pose proof (table_rows [] message_columns
    (map (message_tr stringify_data) messages ++ when_ (Z.of_nat (length messages) =? 0)%Z no_messages_tr)
    (match messages with [] => [["No matching messages"%string]] | _ => map (row_of message_fields) messages end))
    as H.
  unfold tables in *. simpl in *. unfold table_at at 1. simpl. rewrite !app_nil_r in *. apply H.
  - rewrite forallb_app, (plain_map (message_tr stringify_data)) by done. by destruct messages.
  - rewrite flat_map_app, (collect_map_one row_at _ (row_of message_fields)) by apply message_tr_cells.
    destruct messages; simpl; [done|by rewrite app_nil_r].
Qed.

(** The rest of the page has no tables. *)
Lemma topbar_plain (s : AppState) : plain (topbar toLocaleTimeString s) = true.
Proof. unfold topbar. simpl. by destruct (truthy (st_buildId s)). Qed.

Lemma toolbar_plain (s : AppState) : plain (toolbar stringify s) = true.
Proof.
  unfold toolbar, refresh_button, live_button, host_filter, live_switch. simpl.
  destruct (st_hostMenuOpen s); simpl; rewrite ?forallb_app, ?(plain_map (fun host => host_option _ _ _ _)) by done;
    destruct (st_autoRefresh s && _); simpl; try done;
    by destruct (Z.of_nat (length (hostOptions (st_knownHosts s) (ho_items (st_selectedHosts s)))) =? 0)%Z.
Qed.

Lemma banner_plain (classes : string) (m : option string) : forallb plain (banner classes m) = true.
Proof. unfold banner. by case_match. Qed.

Lemma summary_plain (now : Z) (s : AppState) : plain (incident_summary now s) = true.
Proof. unfold incident_summary. simpl. by rewrite (plain_map (current_incident now)). Qed.

End Tables.
