(* ===== verification/AppCalls.v ===== *)
(** Calls that are on their way: every call has its own number, and the two
    buttons that post something have at most one call each, which is told by
    their flags. *)
From Stdlib Require Import ZArith Lia.
From S2P Require Import Prelude.
From S2P Require Import GoStd.
From S2P Require Import JsStd.
From S2P Require Import ApiClient.
From S2P Require Import View.
From S2P Require Import AppState.
From S2P Require Import App.
From S2P Require Import Screen.
From S2P Require Import AppSteps.
From S2P Require Import AppLemmas.
From S2P Require Import Browser.

Definition is_test (p : Pending) : bool := match pd_call p with call_test_event => true | _ => false end.

Definition is_notification (p : Pending) : bool :=
  match pd_call p with call_test_notification => true | _ => false end.

(** How many calls of a kind are on their way. *)
Definition count (kind : Pending -> bool) (w : World) : nat := length (List.filter kind (w_pending w)).

Definition flag (b : bool) : nat := if b then 1 else 0.

Record calls_inv (w : World) : Prop := {
  ci_ids : NoDup (map pd_id (w_pending w));
  ci_next : Forall (fun p => pd_id p < w_next w) (w_pending w);
  ci_test : count is_test w = flag (st_sendingTest (w_app w));
  ci_notification : count is_notification w = flag (st_sendingNotification (w_app w))
}.

Section Calls.
Context {LC : Locale} {CA : Calendar} {JP : JsonParse}.

Lemma initial_calls (path : string) (saved : option string) : calls_inv (initial_world path saved).
Proof. split; simpl; try done. constructor. Qed.

(** ** Frame lemmas *)

(** The parts of the world the invariant speaks of. *)
Definition same_calls (w w' : World) : Prop :=
  w_pending w' = w_pending w /\ w_next w <= w_next w'
  /\ st_sendingTest (w_app w') = st_sendingTest (w_app w)
  /\ st_sendingNotification (w_app w') = st_sendingNotification (w_app w).

Lemma calls_same (w w' : World) : same_calls w w' -> calls_inv w -> calls_inv w'.
Proof.
  intros (Hp & Hn & Ht & Hs) []. split; unfold count in *; rewrite ?Hp, ?Ht, ?Hs; try done.
  eapply Forall_impl; [done|]. simpl. lia.
Qed.

#[local] Instance same_calls_preorder : PreOrder same_calls.
Proof.
  split; [by intros w|]. intros w1 w2 w3 (Hp & Hn & Ht & Hs) (Hp' & Hn' & Ht' & Hs').
  unfold same_calls. rewrite Hp', Ht', Hs'. split_and!; [done|lia|done..].
Qed.

Lemma filter_snoc (kind : Pending -> bool) (l : list Pending) (p : Pending) :
  length (List.filter kind (l ++ [p])) = length (List.filter kind l) + flag (kind p).
Proof. rewrite List.filter_app, length_app. simpl. by destruct (kind p). Qed.

(** A call that is started: its kind is what the flags have changed by. *)
Lemma calls_start (c : Call) (signal : option nat) (rs : list Request) (w w0 : World) :
  calls_inv w -> w_pending w0 = w_pending w -> w_next w <= w_next w0 ->
  (forall id, flag (st_sendingTest (w_app w0))
              = flag (st_sendingTest (w_app w)) + flag (is_test (mkPending id c signal rs))) ->
  (forall id, flag (st_sendingNotification (w_app w0))
              = flag (st_sendingNotification (w_app w)) + flag (is_notification (mkPending id c signal rs))) ->
  calls_inv (start_call c signal rs w0).
Proof.
  intros [] Hp Hn Ht Hs. split; unfold count in *; simpl; rewrite Hp.
  - rewrite map_app. apply NoDup_app. split_and!; [done| |apply NoDup_singleton].
    simpl. intros x (q & -> & Hq)%list_elem_of_fmap Hx%list_elem_of_singleton.
    rewrite Forall_forall in ci_next0. apply ci_next0 in Hq. lia.
  - apply Forall_app. split; [|by constructor; simpl; [lia|]].
    eapply Forall_impl; [done|]. simpl. lia.
  - rewrite filter_snoc, ci_test0. symmetry. apply Ht.
  - rewrite filter_snoc, ci_notification0. symmetry. apply Hs.
Qed.

(** A call that is taken is gone, and only it. *)
Lemma take_perm (id : nat) (l : list Pending) (p : Pending) :
  NoDup (map pd_id l) -> List.find (fun q => Nat.eqb (pd_id q) id) l = Some p ->
  l ≡ₚ p :: List.filter (fun q => negb (Nat.eqb (pd_id q) id)) l.
Proof.
  induction l as [|q l IH]; simpl; [done|]. intros [Hq Hl]%NoDup_cons Hf.
  destruct (Nat.eqb_spec (pd_id q) id) as [Hid|Hid]; simpl.
  - injection Hf as <-. constructor. rewrite filter_all; [done|].
    intros r Hr. apply negb_true_iff, Nat.eqb_neq. intros Hr'. apply Hq. rewrite Hid, <- Hr'.
    by apply list_elem_of_fmap_2.
  - rewrite (IH Hl Hf) at 1. apply Permutation_swap.
Qed.

Lemma calls_take (id : nat) (w w' : World) (p : Pending) (f : AppState -> AppState) :
  take_call id w = Some (p, w') -> calls_inv w ->
  st_sendingTest (f (w_app w)) = (if is_test p then false else st_sendingTest (w_app w)) ->
  st_sendingNotification (f (w_app w))
  = (if is_notification p then false else st_sendingNotification (w_app w)) ->
  calls_inv (update f w').
Proof.
  unfold take_call. destruct (List.find _ _) as [q|] eqn:E; [|done]. intros [= -> <-] [] Ht Hs.
  pose proof (take_perm id (w_pending w) p ci_ids0 E) as Hp.
  set (rest := List.filter _ (w_pending w)) in *.
  split; unfold count in *; simpl.
  - rewrite Hp in ci_ids0. by apply NoDup_cons in ci_ids0 as [_ H].
  - rewrite Hp in ci_next0. by apply Forall_cons in ci_next0 as [_ H].
  - rewrite (filter_perm _ _ _ Hp) in ci_test0. simpl in ci_test0. rewrite Ht.
    destruct (is_test p), (st_sendingTest (w_app w)); simpl in *; lia.
  - rewrite (filter_perm _ _ _ Hp) in ci_notification0. simpl in ci_notification0. rewrite Hs.
    destruct (is_notification p), (st_sendingNotification (w_app w)); simpl in *; lia.
Qed.

(** ** Steps *)

Lemma calls_import (page : Z) (c : RefreshClosure) (r : ImportMessagesResponse + js_error) (w : World) :
  calls_inv w -> calls_inv (import_settled page c r w).
Proof.
  intros Hi. unfold import_settled. match goal with |- calls_inv (update _ ?x) => apply (calls_same x); [done|] end.
  destruct r as [resp|err]; [|by apply (calls_same w)].
  destruct (page =? 0)%Z; [|by apply (calls_same w)].
  eapply (calls_start _ _ _ w); [done..|simpl; intros; unfold is_test, is_notification; simpl; lia|].
  simpl; intros; unfold is_test, is_notification; simpl; lia.
Qed.

Lemma handle_calls (e : Event) (w w' : World) :
  occurs_in w e -> handle e w = Some w' -> calls_inv w -> calls_inv w'.
Proof.
  intros Hm H Hi.
  destruct e; simpl in H; handle_cases H; try exact Hi;
    try (eapply calls_same; [|exact Hi]; unfold same_calls; simpl; split_and!; (lia || done));
    try (eapply (calls_start _ _ _ w); [exact Hi|done|simpl; lia|simpl; intros; unfold is_test, is_notification; simpl; lia..]).
  all: try match goal with E : take_call _ _ = Some _ |- calls_inv (update _ _) =>
         eapply (calls_take _ _ _ _ _ E); [exact Hi|..]; unfold is_test, is_notification; simpl end.
  all: try by unfold refresh_settled, refresh_try, fetchBuildID_settled, refreshIncidents_settled,
         sendTestEvent_settled, testNotification_settled; repeat case_match.
  - specialize (Hm eq_refl). simpl in Hm. apply andb_true_iff in Hm as [_ Hm%negb_true_iff].
    eapply (calls_start _ _ _ w); [done..|simpl|simpl]; intros; unfold is_test, is_notification; simpl;
      [by rewrite Hm|lia].
  - specialize (Hm eq_refl). simpl in Hm. apply andb_true_iff in Hm as [_ Hm%negb_true_iff].
    eapply (calls_start _ _ _ w); [done..|simpl|simpl]; intros; unfold is_test, is_notification; simpl;
      [lia|by rewrite Hm].
  - unfold handleImportFile. destruct file as [f|]; [|done].
    eapply (calls_start _ _ _ w); [done..|simpl|simpl]; intros; unfold is_test, is_notification; simpl; lia.
  - apply (calls_same w); [|done]. unfold same_calls. simpl. unfold handleMessage. by repeat case_match.
  - apply calls_import.
    replace w0 with (update (fun s => s) w0) by (by destruct w0).
    eapply calls_take; [done..|unfold is_test; simpl; done|unfold is_notification; simpl; done].
Qed.

Lemma run_effect_calls (e : Effect) (w : World) : calls_inv w -> calls_inv (run_effect e w).
Proof.
  intros Hi. destruct e; simpl.
  1,2: eapply (calls_start _ _ _ w); [done..|simpl|simpl]; intros; unfold is_test, is_notification; simpl; lia.
  - by apply (calls_same w).
  - apply (calls_same w); [|done]. unfold run_size. by case_match.
  - apply (calls_same w); [|done]. unfold same_calls. simpl. split_and!; (lia || done).
  - unfold run_refresh.
    eapply (calls_start _ _ _ w); [done|simpl|simpl|simpl|simpl]; try (by destruct (ef_refresh _) as [[]|]).
    all: intros; unfold is_test, is_notification; destruct (ef_refresh _) as [[]|]; simpl; lia.
  - apply (calls_same w); [|done]. unfold run_live. by case_match.
  - apply (calls_same w); [|done]. unfold run_stream, same_calls.
    destruct (ef_stream _) as [[d [i|]]|]; simpl; case_match; simpl; split_and!; (lia || done).
Qed.

Lemma reachable_calls (w : World) : app_reachable w -> calls_inv w.
Proof.
  intros (path & saved & Hr). remember (initial_world path saved) as w0 eqn:E.
  assert (Hi : calls_inv w0) by (subst; apply initial_calls). clear E.
  induction Hr as [|w1 w2 w3 [(e & Hm & H)|(e & _ & ->)]%step_cases _ IH]; [done| |].
  - by apply IH, (handle_calls e w1).
  - by apply IH, run_effect_calls.
Qed.

Section Page.
Context (clock : Z -> string) (stringify : SyslogMessage -> string).
Context (stringify_data : list (string * string) -> string) (now : Z).

(** The page that is on the screen of a world. *)
Definition page_of (w : World) : list Node := screen clock stringify stringify_data now (w_app w).

Lemma offers_send_test (w : World) (at_ : Z) :
  showingIncidents (w_app w) = false ->
  offers (page_of w) (ev_send_test at_) <-> st_sendingTest (w_app w) = false.
Proof.
  intros Hs. unfold page_of. rewrite offers_screen, offers_topbar, Hs, offers_timeline_page, offers_toolbar,
    offers_host_filter, offers_pager. naive_solver.
Qed.

Lemma offers_test_notification (w : World) :
  showingIncidents (w_app w) = true ->
  offers (page_of w) ev_test_notification <-> st_sendingNotification (w_app w) = false.
Proof.
  intros Hs. unfold page_of. rewrite offers_screen, offers_topbar, Hs, offers_incidents_page. naive_solver.
Qed.

(** C24: whatever is clicked, and in whatever
    order answers come, at most one test event and at most one test
    notification is on its way; as long as it is the screen offers no other,
    and once it has been answered the button is back. *)
Theorem one_submission_at_a_time (w : World) :
  app_reachable w ->
  count is_test w <= 1 /\ count is_notification w <= 1
  /\ (showingIncidents (w_app w) = false ->
      forall at_, offers (page_of w) (ev_send_test at_) <-> count is_test w = 0)
  /\ (showingIncidents (w_app w) = true ->
      offers (page_of w) ev_test_notification <-> count is_notification w = 0).
Proof.
  intros [_ _ Ht Hn]%reachable_calls. rewrite Ht, Hn.
  split_and!; [by destruct (st_sendingTest _); simpl; lia|by destruct (st_sendingNotification _); simpl; lia| |].
  - intros Hs at_. rewrite offers_send_test by done. by destruct (st_sendingTest _).
  - intros Hs. rewrite offers_test_notification by done. by destruct (st_sendingNotification _).
Qed.
End Page.
End Calls.

(** ** Witnesses *)

(** A test event is on its way. *)
Definition sending_world : World := run_world (loaded ++ [act (ev_send_test 12)]).

Lemma one_submission_at_a_time_witness :
  app_reachable sending_world /\ count is_test sending_world = 1
  /\ ~ offers (page_of Itoa sm_id (fun _ => ""%string) 13 sending_world) (ev_send_test 14).
Proof.
  destruct (one_submission_at_a_time Itoa sm_id (fun _ => ""%string) 13 sending_world
    (run_world_reachable _)) as (_ & _ & H & _).
  split_and!; [apply run_world_reachable|vm_compute; reflexivity|].
  rewrite H by (vm_compute; reflexivity). vm_compute. discriminate.
Defined.
